(** * osm-pbf-parser-node: a shallow embedding of the streaming PBF decoder

    The development follows [src/parser.ts] and [src/proto/fileformat.ts].
    The older JavaScript parser that the repository also carries
    ([src/unnamed/part_001]: no [with_tags], no [_flush], timestamps as
    ISO strings) is modelled in the module [Legacy] and compared with the
    TypeScript one.

    - JavaScript exceptions and non-termination are made explicit by the
      [outcome] monad ([Ok], [Throw] with the [Error]'s message, [Diverge]).
    - A JavaScript number that holds an integer (a wire integer, a running
      sum) is the [Z] it holds, and its sums and products are rounded as
      IEEE binary64 rounds them ([num_add], [num_mul]); coordinates are the
      kernel's primitive [float], which is exactly the JavaScript number
      type.
    - JavaScript objects used as maps (the tag map, the resolved [withTags]
      option) are [gmap]s keyed by [string]; a missing key reads as
      [undefined], that is [None]. An assignment to the name [__proto__]
      of a tag object creates no property ([tag_assign]).
    - The collaborators that are not part of the repository's sources (the
      [pbf] wire reader, [inflateSync], the generated [osmformat] readers)
      are the operations of the class [Collaborators]; the framing part is
      stated for every instance, and [Wire] is one that runs. *)

From Stdlib Require Import ZArith Floats Uint63 Strings.Byte.
From stdpp Require Import gmap strings list pretty.

Set Warnings "-inexact-float,-register-all".
Open Scope string_scope.
Open Scope Z_scope.

(** ** Outcomes of JavaScript code *)

Inductive outcome (A : Type) : Type :=
| Ok (a : A)
| Throw (msg : string)
| Diverge.
Arguments Ok {A} a.
Arguments Throw {A} msg.
Arguments Diverge {A}.

#[global] Instance outcome_ret : MRet outcome := @Ok.
#[global] Instance outcome_bind : MBind outcome := fun A B k m =>
  match m with
  | Ok a => k a
  | Throw msg => Throw msg
  | Diverge => Diverge
  end.

#[global] Instance outcome_fmap : FMap outcome := fun A B f m =>
  match m with
  | Ok a => Ok (f a)
  | Throw msg => Throw msg
  | Diverge => Diverge
  end.

(** [function assert(cond, message)]: throws [Error(message || "input format
    error")] when [cond] is falsy. *)
Definition assert (cond : bool) (message : option string) : outcome unit :=
  if cond then Ok tt
  else Throw (match message with
              | Some m => if String.eqb m "" then "input format error" else m
              | None => "input format error"
              end).

(** The error raised for malformed input: [assert] without a message. *)
Definition FormatError : string := "input format error".

(** ** JavaScript values of the option objects *)

Inductive jsval : Type :=
| VUndefined
| VNull
| VBool (b : bool)
| VNumber (n : Z)
| VString (s : string)
| VArray (elems : list jsval)
| VObject (props : list (string * jsval)).

Definition typeof (v : jsval) : string :=
  match v with
  | VUndefined => "undefined"
  | VNull => "object"
  | VBool _ => "boolean"
  | VNumber _ => "number"
  | VString _ => "string"
  | VArray _ => "object"
  | VObject _ => "object"
  end.

(** [v ?? d] *)
Definition nullish (v d : jsval) : jsval :=
  match v with
  | VUndefined | VNull => d
  | _ => v
  end.

(** Truthiness of a value in a condition. *)
Definition truthy (v : jsval) : bool :=
  match v with
  | VUndefined | VNull => false
  | VBool b => b
  | VNumber n => negb (n =? 0)
  | VString s => negb (String.eqb s "")
  | VArray _ | VObject _ => true
  end.

Fixpoint assoc (k : string) (props : list (string * jsval)) : jsval :=
  match props with
  | [] => VUndefined
  | (k', v) :: rest => if String.eqb k k' then v else assoc k rest
  end.

(** [o[k]] for a property name [k] that is neither an index nor a builtin:
    own properties of an object literal, [undefined] on anything else that
    is not nullish. *)
Definition get_prop (o : jsval) (k : string) : jsval :=
  match o with
  | VObject props => assoc k props
  | _ => VUndefined
  end.

(** ** Tag-filter options: [with_tags] *)

(** What [with_tags] stores per kind: a boolean, or a [Set] built from the
    configured array. *)
Inductive TagOption : Type :=
| TBool (b : bool)
| TSet (elems : list jsval).

(** The object [{node, way, relation}] returned by [with_tags]; a key that
    was never assigned reads as [undefined]. *)
Abbreviation WithTags := (gmap string TagOption).

(** One round of the [for (let k of ...)] loop: [None] is [result = null;
    break]. *)
Definition with_tags_kind (b : jsval) : option TagOption :=
  match b with
  | VBool x => Some (TBool x)
  | VArray xs => Some (if (0 <? Z.of_nat (length xs)) then TSet xs else TBool false)
  | _ => None
  end.

Fixpoint with_tags_loop (opt : jsval) (ks : list string) (result : WithTags)
  : option WithTags :=
  match ks with
  | [] => Some result
  | k :: ks' =>
      let b := nullish (get_prop opt k) (VBool true) in
      match with_tags_kind b with
      | Some r => with_tags_loop opt ks' (<[k := r]> result)
      | None => None
      end
  end.

Definition with_tags (opt : jsval) : outcome WithTags :=
  match opt with
  | VBool b => Ok (<["relation" := TBool b]> (<["way" := TBool b]> (<["node" := TBool b]> ∅)))
  | _ =>
      let result : option WithTags :=
        if String.eqb (typeof opt) "object" && negb (match opt with VNull => true | _ => false end)
        then with_tags_loop opt ["node"; "way"; "relation"] ∅
        else Some ∅ in
      match result with
      | Some r => Ok r      (* [if (result) return result]: an object is truthy *)
      | None => Throw "wrong withTags option."
      end
  end.

(** Truthiness of [data.withTags.<kind>]. *)
Definition tags_enabled (o : option TagOption) : bool :=
  match o with
  | None => false
  | Some (TBool b) => b
  | Some (TSet _) => true
  end.

(** [Set.prototype.has] for a key that is a string or [undefined]. *)
Definition set_has (elems : list jsval) (key : option string) : bool :=
  existsb (fun e => match e, key with
                    | VString s, Some k => String.eqb s k
                    | VUndefined, None => true
                    | _, _ => false
                    end) elems.

(** [!filter || filter.has(key)] where [filter] is [false] when the option
    is [true] and the option itself otherwise. Only evaluated when the
    option is truthy. *)
Definition tag_accepted (o : option TagOption) (key : option string) : bool :=
  match o with
  | Some (TSet elems) => set_has elems key
  | _ => true
  end.

(** ** Arrays, strings and numbers *)

Abbreviation Buffer := (list byte).

(** [arr[i]] for a numeric index: [undefined] outside the array. *)
Definition js_index {A : Type} (arr : list A) (i : Z) : option A :=
  if i <? 0 then None else arr !! Z.to_nat i.

(** [arr[i]] where the index itself may be [undefined]. *)
Definition js_index_opt {A : Type} (arr : list A) (i : option Z) : option A :=
  match i with
  | Some i => js_index arr i
  | None => None
  end.

(** [arr[i]] of a numeric array at an index that a preceding [assertArrays]
    keeps in range. *)
Definition elem (arr : list Z) (i : nat) : Z := default 0 (arr !! i).

(** *** Numbers that hold integers

    A wire integer is a JavaScript number, an IEEE binary64 value, and so
    is every running sum the decoders keep; the embedding keeps such a
    number as the integer it holds. [binary64 z] is the binary64 value
    nearest to the integer [z], ties to even, as the reference
    implementation of IEEE 754 in the standard library rounds it, and
    [nearest z] is the integer that value holds: [z] itself up to 2^53 in
    magnitude ([nearest_safe]), a multiple of a power of two beyond. The
    sum and the product of two numbers are the exact sum and product,
    rounded once. (A wire integer has at most 64 bits, and the sums and
    products of the decoders stay far below 2^1024, where a number would
    be infinite.) *)
Definition binary64 (z : Z) : spec_float := binary_normalize prec emax z 0 false.

Definition integer_of (x : spec_float) : Z :=
  match x with
  | S754_finite s m e =>
      (if s then -1 else 1) * (if 0 <=? e then Zpos m * 2 ^ e else Zpos m / 2 ^ (- e))
  | _ => 0
  end.

Definition nearest (z : Z) : Z := integer_of (binary64 z).

Arguments nearest : simpl never.

(** [a + b] and [a * b] on numbers that hold integers. *)
Definition num_add (a b : Z) : Z := nearest (a + b).
Definition num_mul (a b : Z) : Z := nearest (a * b).

Arguments num_add : simpl never.
Arguments num_mul : simpl never.

(** The integer [z] as a [float], for the divisions and products that
    leave the integers. *)
Definition number_of_Z (z : Z) : float := SF2Prim (binary64 z).

Arguments number_of_Z : simpl never.

(** The text of a number that holds an integer (['...' + x]): its decimal
    digits up to 2^53; beyond, the fewest digits that identify the number,
    the closest such, followed by zeros, and from 10^21 on with an
    exponent. So 2^60 reads [1152921504606847000]. *)
Fixpoint zeros (n : nat) : string :=
  match n with
  | O => ""
  | S n' => String.append "0" (zeros n')
  end.

(** The fewest digits [s], [k] of them, such that [s * 10^(n - k)] is
    rounded to [a], a number of [n] decimal digits. *)
Fixpoint shortest_digits (fuel : nat) (a n k : Z) : Z * Z :=
  match fuel with
  | O => (a, n)
  | S fuel' =>
      let u := 10 ^ (n - k) in
      let lo := a / u in
      let hi := lo + 1 in
      let ok_lo := nearest (lo * u) =? a in
      let ok_hi := (hi <? 10 ^ k) && (nearest (hi * u) =? a) in
      if ok_lo && ok_hi then
        if a - lo * u <? hi * u - a then (lo, k)
        else if hi * u - a <? a - lo * u then (hi, k)
        else if Z.even lo then (lo, k) else (hi, k)
      else if ok_lo then (lo, k)
      else if ok_hi then (hi, k)
      else shortest_digits fuel' a n (k + 1)
  end.

Definition number_string (z : Z) : string :=
  if Z.abs z <=? 2 ^ 53 then pretty z
  else
    let a := Z.abs z in
    let n := Z.of_nat (String.length (pretty a)) in
    let '(s, k, n) :=
      if nearest (10 ^ n) =? a then (1, 1, n + 1)
      else let '(s, k) := shortest_digits (Z.to_nat n) a n 1 in (s, k, n) in
    String.append (if z <? 0 then "-" else "")
      (if n <=? 21 then String.append (pretty s) (zeros (Z.to_nat (n - k)))
       else
         String.append
           (match pretty s with
            | String c rest =>
                if k =? 1 then String c "" else String c (String.append "." rest)
            | "" => ""
            end)
           (String.append "e+" (pretty (n - 1)))).

(** [b.toString("utf8")]: a string is kept as its UTF-8 bytes, which
    identifies it when the bytes are valid UTF-8 (Node decodes an invalid
    sequence to U+FFFD; string tables with invalid UTF-8 are outside this
    embedding). *)
Definition toString_utf8 (b : Buffer) : string := String.string_of_list_byte b.

Definition memberTypes : list string := ["node"; "way"; "relation"].

(** [assertArrays(...args)]: every argument of the calls in the parser is
    an array, so [assert(Array.isArray(arg))] passes; the lengths are
    compared with the first one. *)
Fixpoint assertArrays_from (length : Z) (args : list (list Z)) : outcome unit :=
  match args with
  | [] => Ok tt
  | arg :: rest =>
      if length <? 0 then assertArrays_from (Z.of_nat (List.length arg)) rest
      else _ ← assert (length =? Z.of_nat (List.length arg)) None;
           assertArrays_from length rest
  end.

Definition assertArrays (args : list (list Z)) : outcome unit :=
  assertArrays_from (-1) args.

(** ** Decoded wire records (the shapes produced by [osmformat]) *)

Record Info : Type := {
  version : Z;
  timestamp : Z;
  changeset : Z;
  uid : Z;
  user_sid : Z;
  visible : option bool          (* [undefined] when read past an array *)
}.

Record WNode : Type := {
  wn_id : Z; wn_lat : Z; wn_lon : Z;
  wn_keys : list Z; wn_vals : list Z;
  wn_info : option Info
}.

Record WWay : Type := {
  ww_id : Z; ww_refs : list Z;
  ww_keys : list Z; ww_vals : list Z;
  ww_info : option Info
}.

Record WRelation : Type := {
  wr_id : Z;
  wr_memids : list Z; wr_types : list Z; wr_roles_sid : list Z;
  wr_keys : list Z; wr_vals : list Z;
  wr_info : option Info
}.

Record DenseInfo : Type := {
  di_version : list Z;
  di_timestamp : list Z;
  di_changeset : list Z;
  di_uid : list Z;
  di_user_sid : list Z;
  di_visible : list bool
}.

Record DenseNodes : Type := {
  dn_id : list Z; dn_lat : list Z; dn_lon : list Z;
  dn_denseinfo : option DenseInfo;
  dn_keys_vals : list Z
}.

Record PrimitiveGroup : Type := {
  pg_nodes : list WNode;
  pg_dense : option DenseNodes;
  pg_ways : list WWay;
  pg_relations : list WRelation;
  pg_changesets : list Z
}.

Record PrimitiveBlock : Type := {
  pb_stringtable_s : list Buffer;
  pb_primitivegroup : list PrimitiveGroup;
  pb_granularity : Z;
  pb_lat_offset : Z;
  pb_lon_offset : Z;
  pb_date_granularity : Z
}.

(** The block after [parse] has rewritten its scale fields in place. *)
Record Data : Type := {
  d_strings : list string;
  d_date_granularity : Z;
  d_granularity : float;
  d_lat_offset : float;
  d_lon_offset : float;
  d_withTags : WithTags;
  d_withInfo : jsval
}.

(** ** Emitted entities *)

(** The tag object: the own properties of an object that starts as [{}];
    a value is a string of the table or [undefined]. *)
Abbreviation Tags := (gmap string (option string)).

(** The object built by [fill_info]; [None] is an absent property. *)
Record InfoRet : Type := {
  r_version : option Z;
  r_timestamp : option Z;
  r_changeset : option Z;
  r_uid : option Z;
  r_user : option string;
  r_visible : option bool
}.

Record Member : Type := {
  m_type : option string;
  m_ref : Z;
  m_role : option string
}.

Record OsmNode : Type := {
  n_type : string; n_id : Z; n_lat : float; n_lon : float;
  n_tags : option Tags; n_info : option InfoRet
}.

Record OsmWay : Type := {
  w_type : string; w_id : Z; w_refs : list Z;
  w_tags : option Tags; w_info : option InfoRet
}.

Record OsmRelation : Type := {
  rl_type : string; rl_id : Z; rl_members : list Member;
  rl_tags : option Tags; rl_info : option InfoRet
}.

Inductive Entity : Type :=
| ENode (n : OsmNode)
| EWay (w : OsmWay)
| ERelation (r : OsmRelation).

(** [isEmpty(obj)]: no enumerable property. *)
Definition isEmpty_tags (tags : Tags) : bool := bool_decide (tags = ∅).

Definition isEmpty (ret : InfoRet) : bool :=
  match r_version ret, r_timestamp ret, r_changeset ret,
        r_uid ret, r_user ret, r_visible ret with
  | None, None, None, None, None, None => true
  | _, _, _, _, _, _ => false
  end.

(** ** Entity decoders *)

(** [tags[key] = val]: an [undefined] key names the property
    ["undefined"]. *)
Definition prop_key (key : option string) : string := default "undefined" key.

(** The one name whose assignment creates no property: [__proto__] is an
    accessor that [{}] inherits from [Object.prototype], and its setter
    ignores a value that is neither an object nor [null]; [val] is a
    string or [undefined]. Every other name, also one that
    [Object.prototype] defines ([constructor], [toString]), becomes an own
    enumerable property. *)
Definition settable (key : option string) : bool :=
  negb (String.eqb (prop_key key) "__proto__").

Definition tag_assign (tags : Tags) (key val : option string) : Tags :=
  if settable key then <[prop_key key := val]> tags else tags.

(** The tag loop shared, word for word, by [parse_node], [parse_way] and
    [parse_rel]:
    [for (i < keys.length) { key = strings[keys[i]]; val = strings[vals[i]];
       if (!filter || filter.has(key)) tags[key] = val; }].
    [vals] is walked in step with [keys]; a missing [vals[i]] is
    [undefined]. *)
Fixpoint tags_loop (strings : list string) (o : option TagOption)
    (keys vals : list Z) (tags : Tags) : Tags :=
  match keys with
  | [] => tags
  | k :: keys' =>
      let key := js_index strings k in
      let val := js_index_opt strings (head vals) in
      tags_loop strings o keys' (tail vals)
        (if tag_accepted o key then tag_assign tags key val else tags)
  end.

Definition fill_info (data : Data) (info : Info) : InfoRet :=
  {| r_version := if version info =? 0 then None else Some (version info);
     r_timestamp :=
       if timestamp info =? 0 then None
       else Some (num_mul (timestamp info) (d_date_granularity data));
     r_changeset := if changeset info =? 0 then None else Some (changeset info);
     r_uid := if uid info =? 0 then None else Some (uid info);
     r_user :=
       if user_sid info =? 0 then None
       else match js_index (d_strings data) (user_sid info) with
            | Some s => if String.eqb s "" then None else Some s
            | None => None
            end;
     r_visible :=
       match visible info with
       | Some false => Some false
       | _ => None
       end |}.

(** [if (data.withTags.<kind>) { assertArrays(keys, vals); ...;
     if (!isEmpty(tags)) e.tags = tags; }] *)
Definition decode_tags (data : Data) (kind : string) (keys vals : list Z)
  : outcome (option Tags) :=
  if tags_enabled (d_withTags data !! kind) then
    _ ← assertArrays [keys; vals];
    let tags := tags_loop (d_strings data) (d_withTags data !! kind) keys vals ∅ in
    Ok (if isEmpty_tags tags then None else Some tags)
  else Ok None.

(** [if (data.withInfo && e.info) { info = fill_info(data, e.info);
     if (!isEmpty(info)) e.info = info; }] *)
Definition decode_info (data : Data) (info : option Info) : option InfoRet :=
  if truthy (d_withInfo data) then
    match info with
    | Some i => let ret := fill_info data i in
                if isEmpty ret then None else Some ret
    | None => None
    end
  else None.

(** [offset + raw / data.granularity] *)
Definition scale (offset : float) (raw : Z) (granularity : float) : float :=
  PrimFloat.add offset (PrimFloat.div (number_of_Z raw) granularity).

Definition parse_node (n : WNode) (data : Data) : outcome OsmNode :=
  tags ← decode_tags data "node" (wn_keys n) (wn_vals n);
  Ok {| n_type := "node";
        n_id := wn_id n;
        n_lat := scale (d_lat_offset data) (wn_lat n) (d_granularity data);
        n_lon := scale (d_lon_offset data) (wn_lon n) (d_granularity data);
        n_tags := tags;
        n_info := decode_info data (wn_info n) |}.

(** [refs[i] = ref += w.refs[i]] *)
Fixpoint refs_loop (deltas : list Z) (ref : Z) : list Z :=
  match deltas with
  | [] => []
  | d :: deltas' => num_add ref d :: refs_loop deltas' (num_add ref d)
  end.

Definition parse_way (w : WWay) (data : Data) : outcome OsmWay :=
  let refs := refs_loop (ww_refs w) 0 in
  tags ← decode_tags data "way" (ww_keys w) (ww_vals w);
  Ok {| w_type := "way";
        w_id := ww_id w;
        w_refs := refs;
        w_tags := tags;
        w_info := decode_info data (ww_info w) |}.

(** [members[i] = { type: memberTypes[r.types[i]], ref: (ref += r.memids[i]),
                    role: strings[r.roles_sid[i]] }] *)
Fixpoint members_loop (strings : list string) (memids types roles_sid : list Z)
    (ref : Z) : list Member :=
  match memids with
  | [] => []
  | m :: memids' =>
      {| m_type := js_index_opt memberTypes (head types);
         m_ref := num_add ref m;
         m_role := js_index_opt strings (head roles_sid) |}
      :: members_loop strings memids' (tail types) (tail roles_sid) (num_add ref m)
  end.

Definition parse_rel (r : WRelation) (data : Data) : outcome OsmRelation :=
  _ ← assertArrays [wr_memids r; wr_types r; wr_roles_sid r];
  let members :=
    members_loop (d_strings data) (wr_memids r) (wr_types r) (wr_roles_sid r) 0 in
  tags ← decode_tags data "relation" (wr_keys r) (wr_vals r);
  Ok {| rl_type := "relation";
        rl_id := wr_id r;
        rl_members := members;
        rl_tags := tags;
        rl_info := decode_info data (wr_info r) |}.

(** *** Dense nodes *)

(** [while (dense.keys_vals[j] !== 0) { ...; j += 2; }]. A read past the
    end of the array is [undefined], which is [!== 0] at every later [j]:
    the loop then never exits ([Diverge]). [fuel] bounds the iterations
    that read inside the array; [length keys_vals] is always enough. *)
Fixpoint dense_tags_loop (fuel : nat) (strings : list string)
    (o : option TagOption) (keys_vals : list Z) (j : nat) (tags : Tags)
  : outcome (nat * Tags) :=
  match keys_vals !! j with
  | None => Diverge
  | Some 0 => Ok (j, tags)
  | Some k =>
      match fuel with
      | O => Diverge
      | S fuel' =>
          let key := js_index strings k in
          let val := js_index_opt strings (keys_vals !! (j + 1)%nat) in
          dense_tags_loop fuel' strings o keys_vals (j + 2)%nat
            (if tag_accepted o key then tag_assign tags key val else tags)
      end
  end.

(** The running values of [parse_dense]'s loop. *)
Record DenseAcc : Type := {
  a_id : Z; a_lat : Z; a_lon : Z;
  a_timestamp : Z; a_changeset : Z; a_uid : Z; a_user_sid : Z;
  a_j : nat
}.

Definition dense_start : DenseAcc :=
  {| a_id := 0; a_lat := 0; a_lon := 0;
     a_timestamp := 0; a_changeset := 0; a_uid := 0; a_user_sid := 0;
     a_j := 0%nat |}.

(** [if (data.withTags.node && dense.keys_vals.length > 0) { ... }]: the
    cursor [j] after the block and the node's [tags]. *)
Definition dense_tags_block (dense : DenseNodes) (data : Data) (acc : DenseAcc)
  : outcome (nat * option Tags) :=
  let o := d_withTags data !! "node" in
  if tags_enabled o && (0 <? Z.of_nat (length (dn_keys_vals dense))) then
    '(j, tags) ← dense_tags_loop (length (dn_keys_vals dense)) (d_strings data) o
                    (dn_keys_vals dense) (a_j acc) ∅;
    Ok (S j, if isEmpty_tags tags then None else Some tags)
  else Ok (a_j acc, None).

(** [if (data.withInfo && dinfo) { ... }]: the node's [info] and the
    running [timestamp], [changeset], [uid], [user_sid]. *)
Definition dense_info_block (dense : DenseNodes) (data : Data) (i : nat)
    (acc : DenseAcc) : outcome (option InfoRet * Z * Z * Z * Z) :=
  match truthy (d_withInfo data), dn_denseinfo dense with
  | true, Some dinfo =>
      _ ← assertArrays [dn_id dense; di_timestamp dinfo; di_changeset dinfo;
                        di_uid dinfo; di_user_sid dinfo; di_version dinfo];
      let timestamp := num_add (a_timestamp acc) (elem (di_timestamp dinfo) i) in
      let changeset := num_add (a_changeset acc) (elem (di_changeset dinfo) i) in
      let uid := num_add (a_uid acc) (elem (di_uid dinfo) i) in
      let user_sid := num_add (a_user_sid acc) (elem (di_user_sid dinfo) i) in
      let info := fill_info data
                    {| version := elem (di_version dinfo) i;
                       timestamp := timestamp;
                       changeset := changeset;
                       uid := uid;
                       user_sid := user_sid;
                       visible := di_visible dinfo !! i |} in
      Ok (if isEmpty info then None else Some info,
          timestamp, changeset, uid, user_sid)
  | _, _ => Ok (None, a_timestamp acc, a_changeset acc, a_uid acc, a_user_sid acc)
  end.

(** One round of [for (let i = 0; i < dense.id.length; i++)]. *)
Definition dense_round (dense : DenseNodes) (data : Data) (i : nat)
    (acc : DenseAcc) : outcome (OsmNode * DenseAcc) :=
  let id := num_add (a_id acc) (elem (dn_id dense) i) in
  let lat := num_add (a_lat acc) (elem (dn_lat dense) i) in
  let lon := num_add (a_lon acc) (elem (dn_lon dense) i) in
  '(j, tags) ← dense_tags_block dense data acc;
  '(info, timestamp, changeset, uid, user_sid) ← dense_info_block dense data i acc;
  Ok ({| n_type := "node";
         n_id := id;
         n_lat := scale (d_lat_offset data) lat (d_granularity data);
         n_lon := scale (d_lon_offset data) lon (d_granularity data);
         n_tags := tags;
         n_info := info |},
      {| a_id := id; a_lat := lat; a_lon := lon;
         a_timestamp := timestamp; a_changeset := changeset;
         a_uid := uid; a_user_sid := user_sid;
         a_j := j |}).

(** [n] rounds starting at index [i]. *)
Fixpoint dense_loop (dense : DenseNodes) (data : Data) (n : nat) (i : nat)
    (acc : DenseAcc) : outcome (list OsmNode) :=
  match n with
  | O => Ok []
  | S n' =>
      '(node, acc') ← dense_round dense data i acc;
      nodes ← dense_loop dense data n' (S i) acc';
      Ok (node :: nodes)
  end.

Definition parse_dense (dense : DenseNodes) (data : Data) : outcome (list OsmNode) :=
  _ ← assertArrays [dn_id dense; dn_lat dense; dn_lon dense];
  dense_loop dense data (length (dn_id dense)) 0%nat dense_start.

(** ** Blob and BlobHeader ([src/proto/fileformat.ts]) *)

Record IBlob : Type := {
  b_raw_size : Z;
  b_data : option string;
  b_raw : option Buffer;
  b_zlib_data : option Buffer;
  b_lzma_data : option Buffer;
  b_OBSOLETE_bzip2_data : option Buffer;
  b_lz4_data : option Buffer;
  b_zstd_data : option Buffer
}.

Record IBlobHeader : Type := {
  bh_type : string;
  bh_indexdata : option Buffer;
  bh_datasize : Z
}.

(** The object [Blob.read] starts from. *)
Definition Blob_start : IBlob :=
  {| b_raw_size := 0; b_data := None; b_raw := None; b_zlib_data := None;
     b_lzma_data := None; b_OBSOLETE_bzip2_data := None; b_lz4_data := None;
     b_zstd_data := None |}.

Definition BlobHeader_start : IBlobHeader :=
  {| bh_type := ""; bh_indexdata := None; bh_datasize := 0 |}.

(** The read cursor of a [Pbf] over the transform's buffer: [pbf.pos] and
    [pbf.length]. *)
Record Pbf : Type := { pos : Z; plength : Z }.

(** [function advance(step) { pbf.pos = pbf.length; pbf.length += step; }] *)
Definition advance (pbf : Pbf) (step : Z) : Pbf :=
  {| pos := plength pbf; plength := plength pbf + step |}.

(** The bytes a reader sees: [buf[pbf.pos .. pbf.length)]. *)
Definition window (buf : Buffer) (pbf : Pbf) : Buffer :=
  take (Z.to_nat (plength pbf - pos pbf)) (drop (Z.to_nat (pos pbf)) buf).

(** [buf.readUInt32BE(offset)]; Node raises a [RangeError] when the four
    bytes are not inside the buffer. *)
Definition readUInt32BE (buf : Buffer) (offset : Z) : outcome Z :=
  if offset <? 0 then Throw "ERR_OUT_OF_RANGE"
  else match drop (Z.to_nat offset) buf with
       | b0 :: b1 :: b2 :: b3 :: _ =>
           Ok (Z.of_N (Byte.to_N b0) * 16777216 + Z.of_N (Byte.to_N b1) * 65536
               + Z.of_N (Byte.to_N b2) * 256 + Z.of_N (Byte.to_N b3))
       | _ => Throw "ERR_OUT_OF_RANGE"
       end.

(** The four states of [this.status]. *)
Inductive Status : Type :=
| StLength      (* 0: the int32 with the header length *)
| StHeader      (* 1: the BlobHeader *)
| StOSMHeader   (* 2: the blob of an OSMHeader *)
| StOSMData.    (* 3: the blob of an OSMData *)

#[global] Instance Status_eq_dec : EqDecision Status.
Proof. solve_decision. Defined.

(** [this.with] *)
Record With : Type := {
  withTags : WithTags;
  withInfo : jsval;
  writeRaw : jsval
}.

Record OSMTransform : Type := {
  with_ : With;
  buffer : option Buffer;
  offset : Z;
  status : Status;
  needed : Z
}.

(** The option object given to the constructor; an absent property is
    [VUndefined]. *)
Record OSMOptions : Type := {
  o_withTags : jsval;
  o_withInfo : jsval;
  o_writeRaw : jsval
}.

(** The fields the constructor sets after [this.with]. *)
Definition fresh (w : With) : OSMTransform :=
  {| with_ := w; buffer := None; offset := 0; status := StLength; needed := 4 |}.

(** [constructor(osmopts, opts)] *)
Definition OSMTransform_new (osmopts : OSMOptions) : outcome OSMTransform :=
  wt ← with_tags (nullish (o_withTags osmopts) (VBool true));
  Ok (fresh {| withTags := wt;
               withInfo := nullish (o_withInfo osmopts) (VBool false);
               writeRaw := nullish (o_writeRaw osmopts) (VBool false) |}).

(** [_flush(callback)]:
    [assert(this.buffer?.length == this.offset && this.status == 0)].
    With no buffer, [undefined == this.offset] is false. *)
Definition _flush (t : OSMTransform) : outcome unit :=
  assert (match buffer t with
          | Some buf => Z.of_nat (length buf) =? offset t
          | None => false
          end && bool_decide (status t = StLength)) None.

Fixpoint traverse {A B : Type} (f : A -> outcome B) (l : list A) : outcome (list B) :=
  match l with
  | [] => Ok []
  | a :: l' => b ← f a; bs ← traverse f l'; Ok (b :: bs)
  end.

(** The scale fields [parse] rewrites on the block. *)
Definition block_data (pb : PrimitiveBlock) (wt : WithTags) (wi : jsval) : Data :=
  {| d_strings := toString_utf8 <$> pb_stringtable_s pb;
     d_date_granularity :=
       if pb_date_granularity pb =? 0 then 1000 else pb_date_granularity pb;
     d_granularity :=
       if (pb_granularity pb =? 0) || (pb_granularity pb =? 100) then 1e7%float
       else PrimFloat.div 1e9%float (number_of_Z (pb_granularity pb));
     d_lat_offset := PrimFloat.mul (number_of_Z (pb_lat_offset pb)) 1e-9%float;
     d_lon_offset := PrimFloat.mul (number_of_Z (pb_lon_offset pb)) 1e-9%float;
     d_withTags := wt;
     d_withInfo := wi |}.

(** One round of [for (const p of data.primitivegroup)]: the entities the
    group appends to the batch. *)
Definition parse_group (p : PrimitiveGroup) (data : Data) : outcome (list Entity) :=
  if 0 <? Z.of_nat (length (pg_changesets p)) then Throw "changesets not implemented"
  else
    ns ← traverse (fun n => parse_node n data) (pg_nodes p);
    ds ← match pg_dense p with
         | Some dense => parse_dense dense data
         | None => Ok []
         end;
    ws ← traverse (fun w => parse_way w data) (pg_ways p);
    rs ← traverse (fun r => parse_rel r data) (pg_relations p);
    Ok (((ENode <$> ns) ++ (ENode <$> ds) ++ (EWay <$> ws) ++ (ERelation <$> rs))%list).

Fixpoint parse_groups (ps : list PrimitiveGroup) (data : Data) : outcome (list Entity) :=
  match ps with
  | [] => Ok []
  | p :: ps' => es ← parse_group p data; rest ← parse_groups ps' data; Ok ((es ++ rest)%list)
  end.

(** ** Collaborators

    The parts the decoder consumes but the repository does not contain:
    the [pbf] wire reader, zlib's [inflateSync], and the generated readers
    of [proto/osmformat]. A [field] is one field occurrence that
    [pbf.readFields] hands to a [_readField] callback; the three [read*]
    functions are what the callback's read of that field returns. The
    readers are given the bytes of the read window [pbf.pos .. pbf.length):
    in a well-formed stream every field of a message ends inside it. A
    message whose last field runs past its window is outside the model:
    there [pbf] reads on into the buffer, or throws at its end, so what
    is read depends on the bytes that have arrived. *)
Class Collaborators : Type := {
  field : Type;
  decode_fields : Buffer -> list (Z * field);
  readVarint : field -> Z;
  readBytes : field -> Buffer;
  readString : field -> string;
  inflateSync : Buffer -> outcome Buffer;
  HeaderBlock : Type;
  HeaderBlock_read : Buffer -> HeaderBlock;
  PrimitiveBlock_read : Buffer -> PrimitiveBlock
}.

Section Framing.
Context `{Collaborators}.

(** [pbf.readFields(readField, result)] over the bytes of the window:
    [while (this.pos < end)] runs no round on an empty window. *)
Definition readFields {A : Type} (readField : Z -> A -> field -> A) (result : A)
    (bytes : Buffer) : A :=
  match bytes with
  | [] => result
  | _ => fold_left (fun obj tf => readField (fst tf) obj (snd tf))
           (decode_fields bytes) result
  end.

Definition Blob_readField (tag : Z) (obj : IBlob) (f : field) : IBlob :=
  if tag =? 2 then
    {| b_raw_size := readVarint f; b_data := b_data obj; b_raw := b_raw obj;
       b_zlib_data := b_zlib_data obj; b_lzma_data := b_lzma_data obj;
       b_OBSOLETE_bzip2_data := b_OBSOLETE_bzip2_data obj;
       b_lz4_data := b_lz4_data obj; b_zstd_data := b_zstd_data obj |}
  else if tag =? 1 then
    {| b_raw_size := b_raw_size obj; b_data := Some "raw"; b_raw := Some (readBytes f);
       b_zlib_data := b_zlib_data obj; b_lzma_data := b_lzma_data obj;
       b_OBSOLETE_bzip2_data := b_OBSOLETE_bzip2_data obj;
       b_lz4_data := b_lz4_data obj; b_zstd_data := b_zstd_data obj |}
  else if tag =? 3 then
    {| b_raw_size := b_raw_size obj; b_data := Some "zlib_data"; b_raw := b_raw obj;
       b_zlib_data := Some (readBytes f); b_lzma_data := b_lzma_data obj;
       b_OBSOLETE_bzip2_data := b_OBSOLETE_bzip2_data obj;
       b_lz4_data := b_lz4_data obj; b_zstd_data := b_zstd_data obj |}
  else if tag =? 4 then
    {| b_raw_size := b_raw_size obj; b_data := Some "lzma_data"; b_raw := b_raw obj;
       b_zlib_data := b_zlib_data obj; b_lzma_data := Some (readBytes f);
       b_OBSOLETE_bzip2_data := b_OBSOLETE_bzip2_data obj;
       b_lz4_data := b_lz4_data obj; b_zstd_data := b_zstd_data obj |}
  else if tag =? 5 then
    {| b_raw_size := b_raw_size obj; b_data := Some "OBSOLETE_bzip2_data";
       b_raw := b_raw obj;
       b_zlib_data := b_zlib_data obj; b_lzma_data := b_lzma_data obj;
       b_OBSOLETE_bzip2_data := Some (readBytes f);
       b_lz4_data := b_lz4_data obj; b_zstd_data := b_zstd_data obj |}
  else if tag =? 6 then
    {| b_raw_size := b_raw_size obj; b_data := Some "lz4_data"; b_raw := b_raw obj;
       b_zlib_data := b_zlib_data obj; b_lzma_data := b_lzma_data obj;
       b_OBSOLETE_bzip2_data := b_OBSOLETE_bzip2_data obj;
       b_lz4_data := Some (readBytes f); b_zstd_data := b_zstd_data obj |}
  else if tag =? 7 then
    {| b_raw_size := b_raw_size obj; b_data := Some "zstd_data"; b_raw := b_raw obj;
       b_zlib_data := b_zlib_data obj; b_lzma_data := b_lzma_data obj;
       b_OBSOLETE_bzip2_data := b_OBSOLETE_bzip2_data obj;
       b_lz4_data := b_lz4_data obj; b_zstd_data := Some (readBytes f) |}
  else obj.

Definition Blob_read (bytes : Buffer) : IBlob :=
  readFields Blob_readField Blob_start bytes.

Definition BlobHeader_readField (tag : Z) (obj : IBlobHeader) (f : field)
  : IBlobHeader :=
  if tag =? 1 then
    {| bh_type := readString f; bh_indexdata := bh_indexdata obj;
       bh_datasize := bh_datasize obj |}
  else if tag =? 2 then
    {| bh_type := bh_type obj; bh_indexdata := Some (readBytes f);
       bh_datasize := bh_datasize obj |}
  else if tag =? 3 then
    {| bh_type := bh_type obj; bh_indexdata := bh_indexdata obj;
       bh_datasize := readVarint f |}
  else obj.

Definition BlobHeader_read (bytes : Buffer) : IBlobHeader :=
  readFields BlobHeader_readField BlobHeader_start bytes.

(** [parse(buf, that)]. [that] is the transform's [with] record when
    [that instanceof OSMTransform], and the raw option value otherwise. *)
Definition parse (buf : Buffer) (that : With + jsval) : outcome (list Entity) :=
  let pb := PrimitiveBlock_read buf in
  '(wt, wi) ←
    match that with
    | inl w => Ok (withTags w, withInfo w)
    | inr opts =>
        wt ← with_tags (nullish opts (VBool true));
        match opts with
        | VUndefined =>
            Throw "Cannot read properties of undefined (reading 'withInfo')"
        | VNull => Throw "Cannot read properties of null (reading 'withInfo')"
        | _ => Ok (wt, nullish (get_prop opts "withInfo") (VBool false))
        end
    end;
  parse_groups (pb_primitivegroup pb) (block_data pb wt wi).

(** What the transform pushes to its readable side. *)
Inductive Output : Type :=
| PushHeader (header : list HeaderBlock)   (* [this.push([header])] *)
| PushRaw (zlib_data : Buffer)             (* [this.push(blob.zlib_data)] *)
| PushBatch (batch : list Entity).         (* [this.push(parse(buf, this))] *)

(** [`inflating ${blob.data} not implemented`] *)
Definition not_implemented (blob : IBlob) : string :=
  String.append "inflating "
    (String.append (default "null" (b_data blob)) " not implemented").

(** Status 2, between [BlobData.read] and the cursor update. *)
Definition OSMHeader_blob (blob : IBlob) : outcome Output :=
  buf ← match b_zlib_data blob with
        | Some z => z' ← inflateSync z; Ok (Some z')
        | None => Ok (b_raw blob)
        end;
  match buf with
  | Some buf => Ok (PushHeader [HeaderBlock_read buf])
  | None => Throw (not_implemented blob)
  end.

(** Status 3, between [BlobData.read] and the cursor update. *)
Definition OSMData_blob (w : With) (blob : IBlob) : outcome Output :=
  match b_zlib_data blob with
  | None => Throw (not_implemented blob)
  | Some z =>
      if truthy (writeRaw w) then Ok (PushRaw z)
      else buf ← inflateSync z;
           batch ← parse buf (inl w);
           Ok (PushBatch batch)
  end.

Definition set_frame (t : OSMTransform) (o : Z) (n : Z) (s : Status) : OSMTransform :=
  {| with_ := with_ t; buffer := buffer t; offset := o; status := s; needed := n |}.

(** The body of [while (true)] below the wait test, on the buffer [buf]
    ([this.buffer]): the new fields, the new read cursor, what was pushed. *)
Definition round (buf : Buffer) (t : OSMTransform) (pbf : Pbf)
  : outcome (OSMTransform * Pbf * list Output) :=
  match status t with
  | StLength =>
      let pbf := advance pbf 4 in
      l ← readUInt32BE buf (offset t);
      let pbf := advance pbf l in
      Ok (set_frame t (offset t + needed t) l StHeader, pbf, [])
  | StHeader =>
      let header := BlobHeader_read (window buf pbf) in
      _ ← assert (String.eqb (bh_type header) "OSMHeader"
                  || String.eqb (bh_type header) "OSMData")
                 (Some "input sequence error");
      Ok (set_frame t (offset t + needed t) (bh_datasize header)
            (if String.eqb (bh_type header) "OSMHeader" then StOSMHeader else StOSMData),
          advance pbf (bh_datasize header), [])
  | StOSMHeader =>
      let blob := Blob_read (window buf pbf) in
      out ← OSMHeader_blob blob;
      Ok (set_frame t (offset t + needed t) 4 StLength, pbf, [out])
  | StOSMData =>
      let blob := Blob_read (window buf pbf) in
      out ← OSMData_blob (with_ t) blob;
      Ok (set_frame t (offset t + needed t) 4 StLength, pbf, [out])
  end.

(** How a call of [_transform] ends. *)
Inductive Completion : Type :=
| Next                  (* [return next()] *)
| Threw (msg : string)  (* an [Error] left the call *)
| Hung                  (* the call never returns *)
| OutOfFuel.            (* the model's loop bound was reached *)

#[global] Instance Completion_eq_dec : EqDecision Completion.
Proof. solve_decision. Defined.

(** [while (true) { if (this.buffer && this.needed &&
       this.buffer.length - this.offset < this.needed) return next(); ... }] *)
Fixpoint loop (fuel : nat) (buf : Buffer) (t : OSMTransform) (pbf : Pbf)
    (outs : list Output) : Completion * OSMTransform * list Output :=
  if negb (needed t =? 0) && (Z.of_nat (length buf) - offset t <? needed t)
  then (Next, t, outs)
  else match fuel with
       | O => (OutOfFuel, t, outs)
       | S fuel' =>
           match round buf t pbf with
           | Ok (t', pbf', out) => loop fuel' buf t' pbf' (outs ++ out)%list
           | Throw msg => (Threw msg, t, outs)
           | Diverge => (Hung, t, outs)
           end
       end.

(** Three rounds consume at least one byte; see [vloop_enough]. *)
Definition loop_fuel (buf : Buffer) : nat := (3 * length buf + 3)%nat.

Definition _transform (chunk : Buffer) (t : OSMTransform)
  : Completion * OSMTransform * list Output :=
  let t :=
    match buffer t with
    | None =>
        {| with_ := with_ t; buffer := Some chunk; offset := offset t;
           status := status t; needed := needed t |}
    | Some b =>
        {| with_ := with_ t;
           buffer := Some (drop (Z.to_nat (offset t)) b ++ chunk)%list;
           offset := 0; status := status t; needed := needed t |}
    end in
  let buf := default [] (buffer t) in
  let pbf := {| pos := 0;
                plength := if bool_decide (status t = StLength) then 0 else needed t |} in
  loop (loop_fuel buf) buf t pbf [].

(** ** A decoding session: the stream feeds the chunks in order, then
    signals the end of input. A call that does not return normally ends the
    session: nothing more is pushed. *)
Record Session : Type := {
  transform : OSMTransform;
  pushed : list Output;
  failure : option Completion
}.

Definition open_session (t : OSMTransform) : Session :=
  {| transform := t; pushed := []; failure := None |}.

Definition write (s : Session) (chunk : Buffer) : Session :=
  match failure s with
  | Some _ => s
  | None =>
      let '(c, t', outs) := _transform chunk (transform s) in
      {| transform := t';
         pushed := (pushed s ++ outs)%list;
         failure := match c with Next => None | _ => Some c end |}
  end.

Definition finish (s : Session) : Session :=
  match failure s with
  | Some _ => s
  | None =>
      {| transform := transform s;
         pushed := pushed s;
         failure := match _flush (transform s) with
                    | Ok _ => None
                    | Throw msg => Some (Threw msg)
                    | Diverge => Some Hung
                    end |}
  end.

(** All chunks through [_transform], then [_flush]. *)
Definition decode_chunks (t : OSMTransform) (chunks : list Buffer) : Session :=
  finish (fold_left write chunks (open_session t)).

End Framing.

(** ** Vocabulary of the statements *)

(** The [info] property of an entity, as the three plain decoders and the
    dense decoder set it from the record given to [fill_info]. *)
Definition attached_info (data : Data) (info : Info) : option InfoRet :=
  if isEmpty (fill_info data info) then None else Some (fill_info data info).

(** The record [parse_dense] hands to [fill_info] for node [i]. *)
Definition dense_info_record (dinfo : DenseInfo) (i : nat) (acc : DenseAcc) : Info :=
  {| version := elem (di_version dinfo) i;
     timestamp := num_add (a_timestamp acc) (elem (di_timestamp dinfo) i);
     changeset := num_add (a_changeset acc) (elem (di_changeset dinfo) i);
     uid := num_add (a_uid acc) (elem (di_uid dinfo) i);
     user_sid := num_add (a_user_sid acc) (elem (di_user_sid dinfo) i);
     visible := di_visible dinfo !! i |}.

(** The sum of the first [i + 1] deltas, seeded at 0. *)
Definition prefix_sum (deltas : list Z) (i : nat) : Z :=
  foldr Z.add 0 (take (S i) deltas).

(** The same sum as JavaScript adds it: the value of [x] after the
    rounds 0 to [i] of [x += deltas[i]], seeded at 0. *)
Definition running (deltas : list Z) (i : nat) : Z :=
  fold_left num_add (take (S i) deltas) 0.

(** Deltas all of whose prefix sums a number holds exactly. *)
Definition exact_sums (deltas : list Z) : Prop :=
  forall i, (i < length deltas)%nat -> Z.abs (prefix_sum deltas i) <= 2 ^ 53.

(** The magnitude of a wire integer: a varint has at most 64 bits. *)
Definition wire_number (z : Z) : Prop := Z.abs z <= 2 ^ 64.

(** The key/value pairs of a record, read through the string table, in
    wire order: [(strings[keys[i]], strings[vals[i]])]. *)
Fixpoint decoded_pairs (strings : list string) (keys vals : list Z)
  : list (option string * option string) :=
  match keys with
  | [] => []
  | k :: keys' =>
      (js_index strings k, js_index_opt strings (head vals))
      :: decoded_pairs strings keys' (tail vals)
  end.

(** [if (accepted(key)) tags[key] = val] *)
Definition tag_put (accept : option string -> bool) (tags : Tags)
    (p : option string * option string) : Tags :=
  if accept p.1 then tag_assign tags p.1 p.2 else tags.

(** A key that is accepted and whose assignment creates a property. *)
Definition stored (accept : option string -> bool) (key : option string) : bool :=
  accept key && settable key.

(** The property names of [tags] are exactly those of the accepted pairs. *)
Definition keys_exactly (accept : option string -> bool)
    (ps : list (option string * option string)) (tags : Tags) : Prop :=
  forall name, is_Some (tags !! name) <->
    exists p, p ∈ ps /\ accept p.1 = true /\ prop_key p.1 = name.

(** An accepted pair is in [tags] unless a later accepted pair names the
    same property: the object keeps the last assignment. *)
Definition last_wins (accept : option string -> bool)
    (ps : list (option string * option string)) (tags : Tags) : Prop :=
  forall i p, ps !! i = Some p -> accept p.1 = true ->
    (forall i' q, (i < i')%nat -> ps !! i' = Some q -> accept q.1 = true ->
                  prop_key q.1 <> prop_key p.1) ->
    tags !! prop_key p.1 = Some p.2.

(** Every accepted pair is in [tags]. *)
Definition contains_every_pair (accept : option string -> bool)
    (ps : list (option string * option string)) (tags : Tags) : Prop :=
  forall p, p ∈ ps -> accept p.1 = true -> tags !! prop_key p.1 = Some p.2.

(** Membership of a decoded key in a configured list of strings. *)
Definition in_set (allowed : list string) (key : option string) : bool :=
  match key with
  | Some k => bool_decide (k ∈ allowed)
  | None => false
  end.

(** The tag filter laws, for the option [o] stored for the kind, the
    decoded pairs [ps] of the record and the [tags] property [result] of
    the emitted entity ([None]: no tags). [false] is the disabled policy,
    [true] allows all keys, a [Set] of strings allows its members; the
    key [__proto__] never makes a property. *)
Definition tag_filter_laws (o : option TagOption)
    (ps : list (option string * option string)) (result : option Tags) : Prop :=
  (o = Some (TBool false) -> result = None)
  /\ (o = Some (TBool true) ->
      (is_Some result <-> exists p, p ∈ ps /\ p.1 <> Some "__proto__")
      /\ forall tags, result = Some tags ->
           keys_exactly settable ps tags /\ last_wins settable ps tags)
  /\ (forall allowed, o = Some (TSet (VString <$> allowed)) ->
      (is_Some result <->
       exists p k, p ∈ ps /\ p.1 = Some k /\ k ∈ allowed /\ k <> "__proto__")
      /\ forall tags, result = Some tags ->
           keys_exactly (stored (in_set allowed)) ps tags
           /\ last_wins (stored (in_set allowed)) ps tags)
  /\ (o = Some (TSet []) -> result = None).

(** *** Dense tag segments, as the format describes them *)

(** One tag segment of a key/value-index array: the (key index, value
    index) pairs before the first key index equal to 0, and what follows
    that 0. [None]: the array ends before such a 0. *)
Fixpoint take_segment (kv : list Z) : option (list (Z * Z) * list Z) :=
  match kv with
  | [] => None
  | k :: rest =>
      if k =? 0 then Some ([], rest)
      else match rest with
           | [] => None
           | v :: rest' =>
               match take_segment rest' with
               | Some (ps, r) => Some ((k, v) :: ps, r)
               | None => None
               end
           end
  end.

(** [n] consecutive segments from the start of the array. *)
Fixpoint segments (n : nat) (kv : list Z) : option (list (list (Z * Z))) :=
  match n with
  | O => Some []
  | S n' =>
      match take_segment kv with
      | Some (seg, rest) =>
          match segments n' rest with
          | Some segs => Some (seg :: segs)
          | None => None
          end
      | None => None
      end
  end.

(** The pairs of a segment read through the string table. *)
Definition segment_pairs (strings : list string) (seg : list (Z * Z))
  : list (option string * option string) :=
  (fun kv => (js_index strings kv.1, js_index strings kv.2)) <$> seg.

(** The [tags] property a segment gives its node under the option [o]. *)
Definition segment_tags (o : option TagOption) (strings : list string)
    (seg : list (Z * Z)) : option Tags :=
  let tags := fold_left (tag_put (tag_accepted o)) (segment_pairs strings seg) ∅ in
  if isEmpty_tags tags then None else Some tags.

(** [data.withTags.node && dense.keys_vals.length > 0] *)
Definition dense_tags_consumed (dense : DenseNodes) (data : Data) : bool :=
  tags_enabled (d_withTags data !! "node")
  && (0 <? Z.of_nat (length (dn_keys_vals dense))).

(** The dense-info arrays that [parse_dense] checks against [id]. *)
Definition dense_info_parallel (dense : DenseNodes) (dinfo : DenseInfo) : Prop :=
  length (di_timestamp dinfo) = length (dn_id dense)
  /\ length (di_changeset dinfo) = length (dn_id dense)
  /\ length (di_uid dinfo) = length (dn_id dense)
  /\ length (di_user_sid dinfo) = length (dn_id dense)
  /\ length (di_version dinfo) = length (dn_id dense).

(** ** Sample records used by the examples *)

Definition ex_block : PrimitiveBlock :=
  {| pb_stringtable_s :=
       String.list_byte_of_string <$>
         [""; "highway"; "primary"; "secondary"; "name"; "alice"];
     pb_primitivegroup := [];
     pb_granularity := 100;
     pb_lat_offset := 0;
     pb_lon_offset := 0;
     pb_date_granularity := 1000 |}.

(** [withTags: true], [withTags: false] and a per-kind list, as
    [with_tags] resolves them. *)
Definition ex_tags_all : WithTags :=
  <["relation" := TBool true]> (<["way" := TBool true]> (<["node" := TBool true]> ∅)).

Definition ex_tags_none : WithTags :=
  <["relation" := TBool false]> (<["way" := TBool false]> (<["node" := TBool false]> ∅)).

Definition ex_data (wt : WithTags) (withInfo : bool) : Data :=
  block_data ex_block wt (VBool withInfo).

(** [withTags: { node: ["highway"], way: ["name"] }] *)
Definition ex_tags_sets : WithTags :=
  <["relation" := TBool true]>
    (<["way" := TSet [VString "name"]]> (<["node" := TSet [VString "highway"]]> ∅)).

(** A block whose string table holds [__proto__], and a node tagged
    [__proto__ = x]. *)
Definition ex_block_proto : PrimitiveBlock :=
  {| pb_stringtable_s := String.list_byte_of_string <$> [""; "__proto__"; "x"];
     pb_primitivegroup := [];
     pb_granularity := 100;
     pb_lat_offset := 0;
     pb_lon_offset := 0;
     pb_date_granularity := 1000 |}.

Definition ex_node_proto : WNode :=
  {| wn_id := 5; wn_lat := 0; wn_lon := 0;
     wn_keys := [1]; wn_vals := [2]; wn_info := None |}.

(** A node that carries the key [highway] twice. *)
Definition ex_node_twice : WNode :=
  {| wn_id := 7; wn_lat := 515000000; wn_lon := -1000000;
     wn_keys := [1; 1]; wn_vals := [2; 3]; wn_info := None |}.

(** A node with one key and no value. *)
Definition ex_node_ragged : WNode :=
  {| wn_id := 8; wn_lat := 0; wn_lon := 0;
     wn_keys := [1]; wn_vals := []; wn_info := None |}.

Definition ex_info : Info :=
  {| version := 3; timestamp := 1600000000; changeset := 0; uid := 42;
     user_sid := 5; visible := None |}.

(** An info whose timestamp is 2^53 - 1. *)
Definition ex_info_late : Info :=
  {| version := 1; timestamp := 9007199254740991; changeset := 0; uid := 0;
     user_sid := 0; visible := None |}.

Definition ex_node_info : WNode :=
  {| wn_id := 9; wn_lat := 10; wn_lon := 20;
     wn_keys := [4]; wn_vals := [5]; wn_info := Some ex_info |}.

(** The dense record of the scenario: three nodes, no tags, no info. *)
Definition ex_dense3 : DenseNodes :=
  {| dn_id := [1; 1; 1]; dn_lat := [0; 0; 0]; dn_lon := [0; 0; 0];
     dn_denseinfo := None; dn_keys_vals := [] |}.

(** Two dense nodes, the first with the id 2^53. *)
Definition ex_dense_far : DenseNodes :=
  {| dn_id := [9007199254740992; 1]; dn_lat := [0; 0]; dn_lon := [0; 0];
     dn_denseinfo := None; dn_keys_vals := [] |}.

(** Two dense nodes; the first has one tag, the second none. *)
Definition ex_dense_tagged : DenseNodes :=
  {| dn_id := [10; 5]; dn_lat := [100; -30]; dn_lon := [7; 7];
     dn_denseinfo := None; dn_keys_vals := [1; 2; 0; 0] |}.

(** One dense node whose tag segment lacks the closing 0. *)
Definition ex_dense_open : DenseNodes :=
  {| dn_id := [1]; dn_lat := [0]; dn_lon := [0];
     dn_denseinfo := None; dn_keys_vals := [1; 2] |}.

(** One dense node with a dense-info whose arrays are all empty. *)
Definition ex_dense_short_info : DenseNodes :=
  {| dn_id := [1]; dn_lat := [0]; dn_lon := [0];
     dn_denseinfo :=
       Some {| di_version := []; di_timestamp := []; di_changeset := [];
               di_uid := []; di_user_sid := []; di_visible := [] |};
     dn_keys_vals := [] |}.

(** One dense node with a full dense-info except for [visible]. *)
Definition ex_dense_no_visible : DenseNodes :=
  {| dn_id := [1]; dn_lat := [0]; dn_lon := [0];
     dn_denseinfo :=
       Some {| di_version := [2]; di_timestamp := [1600000000]; di_changeset := [77];
               di_uid := [42]; di_user_sid := [5]; di_visible := [] |};
     dn_keys_vals := [] |}.

(** A relation whose second member has the type code 7. *)
Definition ex_relation : WRelation :=
  {| wr_id := 12;
     wr_memids := [100; -40; 5]; wr_types := [0; 7; 2]; wr_roles_sid := [4; 4; 0];
     wr_keys := [1]; wr_vals := [2]; wr_info := None |}.

(** What [parse_dense] returns for a record: one node per [id], in order,
    whose [id], [lat] and [lon] come from the running sums of the deltas
    and whose tags come from its own segment of the key/value array. *)
Definition dense_nodes_spec (dense : DenseNodes) (data : Data)
    (nodes : list OsmNode) : Prop :=
  length nodes = length (dn_id dense)
  /\ forall i node, nodes !! i = Some node ->
       n_id node = running (dn_id dense) i
       /\ n_lat node = scale (d_lat_offset data) (running (dn_lat dense) i)
                         (d_granularity data)
       /\ n_lon node = scale (d_lon_offset data) (running (dn_lon dense) i)
                         (d_granularity data)
       /\ (dense_tags_consumed dense data = false -> n_tags node = None)
       /\ (dense_tags_consumed dense data = true ->
           forall segs,
             segments (length (dn_id dense)) (dn_keys_vals dense) = Some segs ->
             exists seg, segs !! i = Some seg
               /\ n_tags node = segment_tags (d_withTags data !! "node")
                                  (d_strings data) seg).

(** A divisor that is a number other than zero, an offset other than
    [-0]. *)
Definition usable_scale (offset granularity : float) : Prop :=
  Prim2SF granularity <> S754_nan
  /\ (forall s, Prim2SF granularity <> S754_zero s)
  /\ Prim2SF offset <> S754_zero true.

Definition ex_way : WWay :=
  {| ww_id := 30; ww_refs := [100; 1; 1; -2];
     ww_keys := [1; 4]; ww_vals := [3; 5]; ww_info := None |}.

Definition ex_way_ragged : WWay :=
  {| ww_id := 31; ww_refs := [100]; ww_keys := [1; 4]; ww_vals := [3];
     ww_info := None |}.

Definition ex_relation_ragged : WRelation :=
  {| wr_id := 13;
     wr_memids := [100]; wr_types := [0]; wr_roles_sid := [4];
     wr_keys := [1]; wr_vals := []; wr_info := None |}.

(** Relations with the type code 7: one with fewer roles than members,
    one with a key that has no value. *)
Definition ex_relation_unknown_short : WRelation :=
  {| wr_id := 15;
     wr_memids := [100; -40]; wr_types := [0; 7]; wr_roles_sid := [4];
     wr_keys := []; wr_vals := []; wr_info := None |}.

Definition ex_relation_unknown_ragged : WRelation :=
  {| wr_id := 16;
     wr_memids := [100]; wr_types := [7]; wr_roles_sid := [4];
     wr_keys := [1]; wr_vals := []; wr_info := None |}.

(** A relation whose member ids pass 2^53. *)
Definition ex_relation_far : WRelation :=
  {| wr_id := 17;
     wr_memids := [9007199254740992; 1]; wr_types := [0; 0]; wr_roles_sid := [4; 4];
     wr_keys := []; wr_vals := []; wr_info := None |}.

Definition ex_relation_short_roles : WRelation :=
  {| wr_id := 14;
     wr_memids := [100; 1]; wr_types := [0; 1]; wr_roles_sid := [4];
     wr_keys := []; wr_vals := []; wr_info := None |}.

(** ** The framing machine on the unread bytes

    A view of the transform that forgets how the bytes are stored: the
    status, the byte count awaited, and the bytes from the cursor to the
    end of the buffer. [vround] and [vloop] are [round] and [loop] read
    on this view; [loop_view] relates them. *)
Section FramingView.
Context `{Collaborators}.

Definition vround (w : With) (st : Status) (nd : Z) (unread : Buffer)
  : outcome (Status * Z * list Output) :=
  match st with
  | StLength =>
      l ← readUInt32BE unread 0;
      Ok (StHeader, l, [])
  | StHeader =>
      let header := BlobHeader_read (take (Z.to_nat nd) unread) in
      _ ← assert (String.eqb (bh_type header) "OSMHeader"
                  || String.eqb (bh_type header) "OSMData")
                 (Some "input sequence error");
      Ok (if String.eqb (bh_type header) "OSMHeader" then StOSMHeader else StOSMData,
          bh_datasize header, [])
  | StOSMHeader =>
      out ← OSMHeader_blob (Blob_read (take (Z.to_nat nd) unread));
      Ok (StLength, 4, [out])
  | StOSMData =>
      out ← OSMData_blob w (Blob_read (take (Z.to_nat nd) unread));
      Ok (StLength, 4, [out])
  end.

(** The wait test of the loop, on the number of unread bytes. *)
Definition waits (nd : Z) (unread : Buffer) : bool :=
  negb (nd =? 0) && (Z.of_nat (length unread) <? nd).

Fixpoint vloop (fuel : nat) (w : With) (st : Status) (nd : Z) (unread : Buffer)
    (outs : list Output) : Completion * (Status * Z * Buffer) * list Output :=
  if waits nd unread then (Next, (st, nd, unread), outs)
  else match fuel with
       | O => (OutOfFuel, (st, nd, unread), outs)
       | S fuel' =>
           match vround w st nd unread with
           | Ok (st', nd', out) =>
               vloop fuel' w st' nd' (drop (Z.to_nat nd) unread) (outs ++ out)%list
           | Throw msg => (Threw msg, (st, nd, unread), outs)
           | Diverge => (Hung, (st, nd, unread), outs)
           end
       end.

(** Rounds left before a byte must be consumed. *)
Definition rank (st : Status) : nat :=
  match st with
  | StLength => 2
  | StHeader => 1
  | StOSMHeader | StOSMData => 0
  end.

Definition enough (fuel : nat) (st : Status) (unread : Buffer) : Prop :=
  (3 * length unread + rank st < fuel)%nat.

(** What the constructor and every round establish about [needed]. *)
Definition needed_ok (st : Status) (nd : Z) : Prop :=
  match st with
  | StLength => nd = 4
  | StHeader => 0 <= nd
  | StOSMHeader | StOSMData => True
  end.

(** The unread bytes of a transform. *)
Definition unread_of (t : OSMTransform) : Buffer :=
  match buffer t with
  | Some b => drop (Z.to_nat (offset t)) b
  | None => []
  end.

(** The fields of a transform between two calls. *)
Definition transform_ok (t : OSMTransform) : Prop :=
  needed_ok (status t) (needed t)
  /\ match buffer t with
     | Some b => 0 <= offset t <= Z.of_nat (length b)
     | None => offset t = 0
     end.

End FramingView.

(** The read cursor agrees with the transform's fields inside the loop. *)
Definition frame_ok (buf : Buffer) (t : OSMTransform) (pbf : Pbf) : Prop :=
  0 <= offset t <= Z.of_nat (length buf)
  /\ needed_ok (status t) (needed t)
  /\ match status t with
     | StLength => plength pbf = offset t
     | _ => pos pbf = offset t /\ plength pbf = offset t + needed t
     end.

Section SessionView.
Context `{Collaborators}.

(** The machine run once over all the bytes received so far. *)
Definition session_view (w : With) (bytes : Buffer)
  : Completion * (Status * Z * Buffer) * list Output :=
  vloop (loop_fuel bytes) w StLength 4 bytes [].

(** A session that has received [bytes], in any number of chunks, is
    where that single run is. *)
Definition session_inv (w : With) (s : Session) (bytes : Buffer) : Prop :=
  let v := session_view w bytes in
  pushed s = v.2
  /\ failure s = match v.1.1 with Next => None | c => Some c end
  /\ (v.1.1 = Next ->
      transform_ok (transform s) /\ with_ (transform s) = w
      /\ (status (transform s), needed (transform s), unread_of (transform s)) = v.1.2).

End SessionView.

(** ** A stand-in for the collaborators, used by the examples

    Fields are split as the protobuf wire format frames them (varint key,
    wire types 0 and 2). [inflateSync] is the identity, a file header is
    kept as its bytes, and a data block is read as one dense group whose
    [id] deltas are the bytes of the payload, at coordinates 0. *)
Module Wire.

Record wire_field : Type := { wf_varint : Z; wf_bytes : Buffer }.

Fixpoint read_varint (bytes : Buffer) (shift : Z) : option (Z * Buffer) :=
  match bytes with
  | [] => None
  | b :: rest =>
      let v := Z.of_N (Byte.to_N b) in
      if v <? 128 then Some (Z.shiftl v shift, rest)
      else match read_varint rest (shift + 7) with
           | Some (hi, rest') => Some (Z.shiftl (v - 128) shift + hi, rest')
           | None => None
           end
  end.

Fixpoint fields (fuel : nat) (bytes : Buffer) : list (Z * wire_field) :=
  match fuel with
  | O => []
  | S fuel' =>
      match read_varint bytes 0 with
      | None => []
      | Some (key, rest) =>
          let tag := Z.shiftr key 3 in
          match read_varint rest 0 with
          | None => []
          | Some (v, rest') =>
              if Z.land key 7 =? 0 then
                (tag, {| wf_varint := v; wf_bytes := [] |}) :: fields fuel' rest'
              else if Z.land key 7 =? 2 then
                (tag, {| wf_varint := v; wf_bytes := take (Z.to_nat v) rest' |})
                :: fields fuel' (drop (Z.to_nat v) rest')
              else []
          end
      end
  end.

Definition dense_of_bytes (payload : Buffer) : PrimitiveBlock :=
  {| pb_stringtable_s := pb_stringtable_s ex_block;
     pb_primitivegroup :=
       [ {| pg_nodes := [];
            pg_dense :=
              Some {| dn_id := (fun b => Z.of_N (Byte.to_N b)) <$> payload;
                      dn_lat := (fun _ => 0) <$> payload;
                      dn_lon := (fun _ => 0) <$> payload;
                      dn_denseinfo := None;
                      dn_keys_vals := [] |};
            pg_ways := []; pg_relations := []; pg_changesets := [] |} ];
     pb_granularity := 100; pb_lat_offset := 0; pb_lon_offset := 0;
     pb_date_granularity := 1000 |}.

#[export] Instance collaborators : Collaborators :=
  {| field := wire_field;
     decode_fields := fun bytes => fields (length bytes) bytes;
     readVarint := wf_varint;
     readBytes := wf_bytes;
     readString := fun f => String.string_of_list_byte (wf_bytes f);
     inflateSync := fun b => Ok b;
     HeaderBlock := Buffer;
     HeaderBlock_read := fun b => b;
     PrimitiveBlock_read := dense_of_bytes |}.

(** Encoders of the sample streams. *)
Definition byte_of (z : Z) : byte := default Byte.x00 (Byte.of_N (Z.to_N z)).

Definition uint32be (n : Z) : Buffer :=
  [byte_of (n / 16777216 mod 256); byte_of (n / 65536 mod 256);
   byte_of (n / 256 mod 256); byte_of (n mod 256)].

(** A length-delimited field with a payload shorter than 128 bytes. *)
Definition bytes_field (tag : Z) (payload : Buffer) : Buffer :=
  (byte_of (tag * 8 + 2) :: byte_of (Z.of_nat (length payload)) :: payload)%list.

(** A varint field with a value below 128. *)
Definition small_varint_field (tag : Z) (v : Z) : Buffer :=
  [byte_of (tag * 8); byte_of v].

(** [[4-byte length][BlobHeader][Blob]] *)
Definition frame (type : string) (blob : Buffer) : Buffer :=
  let header := (bytes_field 1 (String.list_byte_of_string type)
                 ++ small_varint_field 3 (Z.of_nat (length blob)))%list in
  (uint32be (Z.of_nat (length header)) ++ header ++ blob)%list.

(** An OSMHeader frame with a [raw] blob, then an OSMData frame with a
    [zlib_data] blob of three id deltas. *)
Definition stream : Buffer :=
  (frame "OSMHeader" (bytes_field 1 [byte_of 1; byte_of 2])
   ++ frame "OSMData" (bytes_field 3 [byte_of 1; byte_of 1; byte_of 1]))%list.

Definition options : With :=
  {| withTags := ex_tags_all; withInfo := VBool false; writeRaw := VBool false |}.

End Wire.

(** The decoded pairs of node [i] of a dense record: those of the i-th
    segment of its key/value array (none when the array has no such
    segment). *)
Definition dense_pairs (dense : DenseNodes) (strings : list string) (i : nat)
  : list (option string * option string) :=
  match segments (length (dn_id dense)) (dn_keys_vals dense) with
  | Some segs => segment_pairs strings (default [] (segs !! i))
  | None => []
  end.

(** The value of an accumulator that holds [acc] once it has added
    [arr[i] .. arr[i + k]], in this order. *)
Fixpoint run_num (acc : Z) (arr : list Z) (i k : nat) : Z :=
  match k with
  | O => num_add acc (elem arr i)
  | S k' => run_num (num_add acc (elem arr i)) arr (S i) k'
  end.

Definition ex_group_changesets : PrimitiveGroup :=
  {| pg_nodes := [ex_node_twice]; pg_dense := None; pg_ways := [];
     pg_relations := []; pg_changesets := [1] |}.

(** The transform after the length of a frame of type ["Unknown"] has
    been read, and its read cursor. *)
Definition ex_unknown_frame : Buffer :=
  Wire.frame "Unknown" (Wire.bytes_field 1 [Wire.byte_of 1]).

Definition ex_unknown_transform : OSMTransform :=
  {| with_ := Wire.options; buffer := Some ex_unknown_frame; offset := 4;
     status := StHeader; needed := 11 |}.

Definition ex_unknown_pbf : Pbf := {| pos := 4; plength := 15 |}.

(** ** Streams of frames

    What a writer of the file format produces: the big-endian length of
    the BlobHeader, the BlobHeader, the Blob. *)

Definition byte_of_Z (z : Z) : byte := default Byte.x00 (Byte.of_N (Z.to_N z)).

(** The four bytes [readUInt32BE] reads back as [n]. *)
Definition uint32_bytes (n : Z) : Buffer :=
  [byte_of_Z (n / 16777216 mod 256); byte_of_Z (n / 65536 mod 256);
   byte_of_Z (n / 256 mod 256); byte_of_Z (n mod 256)].

Section Frames.
Context `{Collaborators}.

(** What the blob of a frame gives, by the type of its header (status 2
    or status 3 of [_transform]). *)
Definition blob_output (w : With) (type : string) (blob : Buffer) : outcome Output :=
  if String.eqb type "OSMHeader" then OSMHeader_blob (Blob_read blob)
  else OSMData_blob w (Blob_read blob).

(** [Frames w bytes outs]: [bytes] is a sequence of complete frames, each
    with a header of a known type whose [datasize] is the length of its
    blob, and the blobs give [outs], in order. *)
Inductive Frames (w : With) : Buffer -> list Output -> Prop :=
| Frames_nil : Frames w [] []
| Frames_cons (header blob rest : Buffer) (out : Output) (outs : list Output) :
    Z.of_nat (length header) < 4294967296 ->
    bh_type (BlobHeader_read header) = "OSMHeader"
    \/ bh_type (BlobHeader_read header) = "OSMData" ->
    bh_datasize (BlobHeader_read header) = Z.of_nat (length blob) ->
    blob_output w (bh_type (BlobHeader_read header)) blob = Ok out ->
    Frames w rest outs ->
    Frames w (uint32_bytes (Z.of_nat (length header)) ++ header ++ blob ++ rest)%list
           (out :: outs).

(** A frame that the input ends inside: fewer than four bytes of a length,
    a length with fewer header bytes than it announces, or a header of a
    known type with fewer blob bytes than its [datasize]. *)
Inductive Cut : Buffer -> Prop :=
| Cut_length (bytes : Buffer) :
    bytes <> [] -> (length bytes < 4)%nat -> Cut bytes
| Cut_header (l : Z) (part : Buffer) :
    0 <= l < 4294967296 -> Z.of_nat (length part) < l ->
    Cut (uint32_bytes l ++ part)%list
| Cut_blob (header part : Buffer) :
    Z.of_nat (length header) < 4294967296 ->
    bh_type (BlobHeader_read header) = "OSMHeader"
    \/ bh_type (BlobHeader_read header) = "OSMData" ->
    Z.of_nat (length part) < bh_datasize (BlobHeader_read header) ->
    Cut (uint32_bytes (Z.of_nat (length header)) ++ header ++ part)%list.

(** ** The facade [createOSMStream]

    [for await (const chunk of readable) for (const item of chunk) yield item]:
    every pushed value is iterated. A pushed array gives its elements; with
    [writeRaw] the pushed value is the [zlib_data] buffer, and iterating a
    buffer gives its bytes. *)
Inductive Item : Type :=
| ItemHeader (header : HeaderBlock)
| ItemByte (b : byte)
| ItemEntity (e : Entity).

Definition items_of (chunk : Output) : list Item :=
  match chunk with
  | PushHeader hs => ItemHeader <$> hs
  | PushRaw zlib_data => ItemByte <$> zlib_data
  | PushBatch batch => ItemEntity <$> batch
  end.

(** The file arrives in [chunks]. The result is what a consumer that runs
    the generator to its end has when the run ends without error: all the
    items, in order. Of a run that fails, the result is the error alone:
    the items that were yielded before the failure are not part of it.
    The loop bound of the model is never reached ([session_inv_fuel]). *)
Definition createOSMStream (opts : OSMOptions) (chunks : list Buffer)
  : outcome (list Item) :=
  t ← OSMTransform_new opts;
  let s := decode_chunks t chunks in
  match failure s with
  | None => Ok (concat (items_of <$> pushed s))
  | Some (Threw msg) => Throw msg
  | Some _ => Diverge
  end.

End Frames.

Section Kinds.
Context `{Collaborators}.

(** The kinds of values a run may push, and of items it may yield: bytes
    only with [writeRaw], entities only without. *)
Definition output_kind_ok (raw : bool) (out : Output) : bool :=
  match out with
  | PushHeader _ => true
  | PushRaw _ => raw
  | PushBatch _ => negb raw
  end.

Definition item_kind_ok (raw : bool) (it : Item) : bool :=
  match it with
  | ItemHeader _ => true
  | ItemByte _ => raw
  | ItemEntity _ => negb raw
  end.

End Kinds.

(** The pieces of the sample stream [Wire.stream], and what it decodes
    to. *)
Definition ex_frame_header (type : string) (blob : Buffer) : Buffer :=
  (Wire.bytes_field 1 (String.list_byte_of_string type)
   ++ Wire.small_varint_field 3 (Z.of_nat (length blob)))%list.

Definition ex_header_blob : Buffer := Wire.bytes_field 1 [Wire.byte_of 1; Wire.byte_of 2].

Definition ex_data_blob : Buffer :=
  Wire.bytes_field 3 [Wire.byte_of 1; Wire.byte_of 1; Wire.byte_of 1].

Definition ex_lzma_blob : Buffer := Wire.bytes_field 4 [Wire.byte_of 1].

Definition ex_stream_outs : list (@Output Wire.collaborators) :=
  [@PushHeader Wire.collaborators [[Wire.byte_of 1; Wire.byte_of 2]];
   PushBatch (ENode <$>
     [ {| n_type := "node"; n_id := 1; n_lat := 0; n_lon := 0;
          n_tags := None; n_info := None |};
       {| n_type := "node"; n_id := 2; n_lat := 0; n_lon := 0;
          n_tags := None; n_info := None |};
       {| n_type := "node"; n_id := 3; n_lat := 0; n_lon := 0;
          n_tags := None; n_info := None |} ])].

Definition ex_raw_options : OSMOptions :=
  {| o_withTags := VUndefined; o_withInfo := VUndefined; o_writeRaw := VBool true |}.

(** [createOSMStream(file)]: no option is given. *)
Definition ex_no_options : OSMOptions :=
  {| o_withTags := VUndefined; o_withInfo := VUndefined; o_writeRaw := VUndefined |}.

(** ** The writers of [proto/fileformat]

    [Blob.write] and [BlobHeader.write] are sequences of calls of the [pbf]
    writer: [writeVarintField], [writeBytesField], [writeStringField]. *)
Inductive Written : Type :=
| WVarint (v : Z)
| WBytes (b : Buffer)
| WString (s : string).

(** [if (obj.raw) pbf.writeBytesField(tag, obj.raw)]: a byte array is
    truthy, also when empty. *)
Definition write_bytes (tag : Z) (b : option Buffer) : list (Z * Written) :=
  match b with
  | Some b => [(tag, WBytes b)]
  | None => []
  end.

(** [Blob.write(obj, pbf)]; a [raw_size] of 0 is not written. *)
Definition Blob_write (obj : IBlob) : list (Z * Written) :=
  ((if b_raw_size obj =? 0 then [] else [(2, WVarint (b_raw_size obj))])
   ++ write_bytes 1 (b_raw obj)
   ++ write_bytes 3 (b_zlib_data obj)
   ++ write_bytes 4 (b_lzma_data obj)
   ++ write_bytes 5 (b_OBSOLETE_bzip2_data obj)
   ++ write_bytes 6 (b_lz4_data obj)
   ++ write_bytes 7 (b_zstd_data obj))%list.

(** [BlobHeader.write(obj, pbf)]; an empty [type] and a [datasize] of 0
    are not written. *)
Definition BlobHeader_write (obj : IBlobHeader) : list (Z * Written) :=
  ((if String.eqb (bh_type obj) "" then [] else [(1, WString (bh_type obj))])
   ++ write_bytes 2 (bh_indexdata obj)
   ++ (if bh_datasize obj =? 0 then [] else [(3, WVarint (bh_datasize obj))]))%list.

(** The name of the last payload [Blob.write] writes. *)
Definition written_data (obj : IBlob) : option string :=
  match b_zstd_data obj, b_lz4_data obj, b_OBSOLETE_bzip2_data obj,
        b_lzma_data obj, b_zlib_data obj, b_raw obj with
  | Some _, _, _, _, _, _ => Some "zstd_data"
  | None, Some _, _, _, _, _ => Some "lz4_data"
  | None, None, Some _, _, _, _ => Some "OBSOLETE_bzip2_data"
  | None, None, None, Some _, _, _ => Some "lzma_data"
  | None, None, None, None, Some _, _ => Some "zlib_data"
  | None, None, None, None, None, Some _ => Some "raw"
  | None, None, None, None, None, None => None
  end.

Definition set_data (obj : IBlob) (data : option string) : IBlob :=
  {| b_raw_size := b_raw_size obj; b_data := data; b_raw := b_raw obj;
     b_zlib_data := b_zlib_data obj; b_lzma_data := b_lzma_data obj;
     b_OBSOLETE_bzip2_data := b_OBSOLETE_bzip2_data obj;
     b_lz4_data := b_lz4_data obj; b_zstd_data := b_zstd_data obj |}.

(** [blob[name]] for the name of a payload. *)
Definition payload (blob : IBlob) (name : string) : option Buffer :=
  if String.eqb name "raw" then b_raw blob
  else if String.eqb name "zlib_data" then b_zlib_data blob
  else if String.eqb name "lzma_data" then b_lzma_data blob
  else if String.eqb name "OBSOLETE_bzip2_data" then b_OBSOLETE_bzip2_data blob
  else if String.eqb name "lz4_data" then b_lz4_data blob
  else if String.eqb name "zstd_data" then b_zstd_data blob
  else None.

Definition payload_names : list string :=
  ["raw"; "zlib_data"; "lzma_data"; "OBSOLETE_bzip2_data"; "lz4_data"; "zstd_data"].

(** What [Blob._readField] keeps: [data] is [null] exactly when no payload
    was read, and otherwise names a payload that was. *)
Definition data_names_payload (blob : IBlob) : Prop :=
  match b_data blob with
  | Some name => name ∈ payload_names /\ is_Some (payload blob name)
  | None => forall name, payload blob name = None
  end.

Section Written.
Context `{Collaborators}.

(** The read of a field gives what the write call was given. *)
Definition reads_back (f : field) (v : Written) : Prop :=
  match v with
  | WVarint z => readVarint f = z
  | WBytes b => readBytes f = b
  | WString s => readString f = s
  end.

(** [bytes] is a message in which the reader finds the fields of [calls],
    in order: what [pbf] guarantees for the bytes its writer produced for
    these calls. *)
Definition pbf_written (bytes : Buffer) (calls : list (Z * Written)) : Prop :=
  Forall2 (fun tf call => tf.1 = call.1 /\ reads_back tf.2 call.2)
    (match bytes with [] => [] | _ => decode_fields bytes end) calls.

End Written.

Definition ex_blob : IBlob :=
  {| b_raw_size := 5; b_data := Some "zlib_data"; b_raw := None;
     b_zlib_data := Some [Wire.byte_of 1; Wire.byte_of 1; Wire.byte_of 1];
     b_lzma_data := None; b_OBSOLETE_bzip2_data := None; b_lz4_data := None;
     b_zstd_data := None |}.

Definition ex_blob_header : IBlobHeader :=
  {| bh_type := "OSMData"; bh_indexdata := None; bh_datasize := 5 |}.

(** ** Batches *)

(** The kind and the id of an entity. *)
Definition entity_key (e : Entity) : string * Z :=
  match e with
  | ENode n => (n_type n, n_id n)
  | EWay w => (w_type w, w_id w)
  | ERelation r => (rl_type r, rl_id r)
  end.

(** The kinds and ids a primitive group holds, in the order [parse] walks
    it: plain nodes, dense nodes (their ids are running sums), ways,
    relations. *)
Definition group_keys (p : PrimitiveGroup) : list (string * Z) :=
  ((fun n => ("node", wn_id n)) <$> pg_nodes p)
  ++ match pg_dense p with
     | Some dense =>
         (fun i => ("node", running (dn_id dense) i)) <$> seq 0 (length (dn_id dense))
     | None => []
     end
  ++ ((fun w => ("way", ww_id w)) <$> pg_ways p)
  ++ ((fun r => ("relation", wr_id r)) <$> pg_relations p).

(** The kinds [with_tags] resolves. *)
Definition tag_kinds : list string := ["node"; "way"; "relation"].

(** Two dense nodes with a dense-info: the second is 60 time units and
    one changeset after the first, by the same user. *)
Definition ex_dense_info : DenseNodes :=
  {| dn_id := [10; 5]; dn_lat := [100; -30]; dn_lon := [7; 7];
     dn_denseinfo :=
       Some {| di_version := [1; 2]; di_timestamp := [1600000000; 60];
               di_changeset := [77; 1]; di_uid := [42; 0]; di_user_sid := [5; 0];
               di_visible := [] |};
     dn_keys_vals := [] |}.

(** A block whose second group is a changeset group, and collaborators
    whose block reader returns it. *)
Definition ex_block_changesets : PrimitiveBlock :=
  {| pb_stringtable_s := pb_stringtable_s ex_block;
     pb_primitivegroup :=
       [ {| pg_nodes := []; pg_dense := Some ex_dense3; pg_ways := [];
            pg_relations := []; pg_changesets := [] |};
         ex_group_changesets ];
     pb_granularity := 100; pb_lat_offset := 0; pb_lon_offset := 0;
     pb_date_granularity := 1000 |}.

Definition ex_changeset_reader : Collaborators :=
  {| field := Wire.wire_field;
     decode_fields := fun bytes => Wire.fields (length bytes) bytes;
     readVarint := Wire.wf_varint;
     readBytes := Wire.wf_bytes;
     readString := fun f => String.string_of_list_byte (Wire.wf_bytes f);
     inflateSync := fun b => Ok b;
     HeaderBlock := Buffer;
     HeaderBlock_read := fun b => b;
     PrimitiveBlock_read := fun _ => ex_block_changesets |}.

(** ** The older parser ([src/unnamed/part_001])

    The JavaScript parser the TypeScript one was ported from. Its option
    [withTags] is used by its truthiness only, it has the option
    [batchMode], it accepts [raw] data blobs, it refuses ways without
    refs and relations without members, it writes timestamps as ISO
    strings, and it has no [_flush]. The wire records, the [pbf] cursor
    and the collaborators are those of the TypeScript parser.

    [new Date(num).toISOString()] is the operation [toISOString] of the
    class [Dates]: it raises a [RangeError] for a time value outside the
    range of [Date]. *)
Module Legacy.

Class Dates : Type := { toISOString : Z -> outcome string }.

Record InfoRet : Type := {
  r_version : option Z;
  r_timestamp : option string;
  r_changeset : option Z;
  r_uid : option Z;
  r_user : option string;
  r_visible : option bool
}.

Record OsmNode : Type := {
  n_type : string; n_id : Z; n_lat : float; n_lon : float;
  n_tags : option Tags; n_info : option InfoRet
}.

Record OsmWay : Type := {
  w_type : string; w_id : Z; w_refs : list Z;
  w_tags : option Tags; w_info : option InfoRet
}.

Record OsmRelation : Type := {
  rl_type : string; rl_id : Z; rl_members : list Member;
  rl_tags : option Tags; rl_info : option InfoRet
}.

Inductive Entity : Type :=
| ENode (n : OsmNode)
| EWay (w : OsmWay)
| ERelation (r : OsmRelation).

(** The block as the decoders see it; [withTags] and [withInfo] are the
    option values themselves. *)
Record Data : Type := {
  d_strings : list string;
  d_date_granularity : Z;
  d_granularity : float;
  d_lat_offset : float;
  d_lon_offset : float;
  d_withTags : jsval;
  d_withInfo : jsval
}.

Definition isEmpty (ret : InfoRet) : bool :=
  match r_version ret, r_timestamp ret, r_changeset ret,
        r_uid ret, r_user ret, r_visible ret with
  | None, None, None, None, None, None => true
  | _, _, _, _, _, _ => false
  end.

(** [for (i < keys.length) tags[strings[keys[i]]] = strings[vals[i]]] *)
Fixpoint tags_loop (strings : list string) (keys vals : list Z) (tags : Tags) : Tags :=
  match keys with
  | [] => tags
  | k :: keys' =>
      tags_loop strings keys' (tail vals)
        (tag_assign tags (js_index strings k) (js_index_opt strings (head vals)))
  end.

(** [if (data.withTags) { assertArrays(keys, vals); ...;
     if (!isEmpty(tags)) e.tags = tags; }] *)
Definition decode_tags (data : Data) (keys vals : list Z) : outcome (option Tags) :=
  if truthy (d_withTags data) then
    _ ← assertArrays [keys; vals];
    let tags := tags_loop (d_strings data) keys vals ∅ in
    Ok (if isEmpty_tags tags then None else Some tags)
  else Ok None.

Section Decoders.
Context `{Dates}.

(** [new Date(num).toISOString().substring(0, 19) + 'Z'] *)
Definition date_string (num : Z) : outcome string :=
  iso ← toISOString num;
  Ok (String.append (String.substring 0 19 iso) "Z").

Definition fill_info (data : Data) (info : Info) : outcome InfoRet :=
  ts ← (if timestamp info =? 0 then Ok None
        else s ← date_string (num_mul (timestamp info) (d_date_granularity data));
             Ok (Some s));
  Ok {| r_version := if version info =? 0 then None else Some (version info);
        r_timestamp := ts;
        r_changeset := if changeset info =? 0 then None else Some (changeset info);
        r_uid := if uid info =? 0 then None else Some (uid info);
        r_user :=
          if user_sid info =? 0 then None
          else match js_index (d_strings data) (user_sid info) with
               | Some s => if String.eqb s "" then None else Some s
               | None => None
               end;
        r_visible :=
          match visible info with
          | Some false => Some false
          | _ => None
          end |}.

(** [if (data.withInfo && e.info) { info = fill_info(data, e.info);
     if (!isEmpty(info)) e.info = info; }] *)
Definition decode_info (data : Data) (info : option Info) : outcome (option InfoRet) :=
  if truthy (d_withInfo data) then
    match info with
    | Some i => ret ← fill_info data i;
                Ok (if isEmpty ret then None else Some ret)
    | None => Ok None
    end
  else Ok None.

Definition parse_node (n : WNode) (data : Data) : outcome OsmNode :=
  tags ← decode_tags data (wn_keys n) (wn_vals n);
  info ← decode_info data (wn_info n);
  Ok {| n_type := "node";
        n_id := wn_id n;
        n_lat := scale (d_lat_offset data) (wn_lat n) (d_granularity data);
        n_lon := scale (d_lon_offset data) (wn_lon n) (d_granularity data);
        n_tags := tags;
        n_info := info |}.

(** [assert(refs.length > 0, 'no nodes in way ' + w.id)] *)
Definition parse_way (w : WWay) (data : Data) : outcome OsmWay :=
  let refs := refs_loop (ww_refs w) 0 in
  _ ← assert (0 <? Z.of_nat (length refs))
         (Some (String.append "no nodes in way " (number_string (ww_id w))));
  tags ← decode_tags data (ww_keys w) (ww_vals w);
  info ← decode_info data (ww_info w);
  Ok {| w_type := "way";
        w_id := ww_id w;
        w_refs := refs;
        w_tags := tags;
        w_info := info |}.

Definition parse_rel (r : WRelation) (data : Data) : outcome OsmRelation :=
  _ ← assertArrays [wr_memids r; wr_types r; wr_roles_sid r];
  let members :=
    members_loop (d_strings data) (wr_memids r) (wr_types r) (wr_roles_sid r) 0 in
  _ ← assert (0 <? Z.of_nat (length members))
         (Some (String.append "no members in relation " (number_string (wr_id r))));
  tags ← decode_tags data (wr_keys r) (wr_vals r);
  info ← decode_info data (wr_info r);
  Ok {| rl_type := "relation";
        rl_id := wr_id r;
        rl_members := members;
        rl_tags := tags;
        rl_info := info |}.

(** [while (dense.keys_vals[j] !== 0) { tags[strings[keys_vals[j]]] =
     strings[keys_vals[j + 1]]; j += 2; }], with the fuel of
    [dense_tags_loop]. *)
Fixpoint dense_tags_loop (fuel : nat) (strings : list string) (keys_vals : list Z)
    (j : nat) (tags : Tags) : outcome (nat * Tags) :=
  match keys_vals !! j with
  | None => Diverge
  | Some 0 => Ok (j, tags)
  | Some k =>
      match fuel with
      | O => Diverge
      | S fuel' =>
          dense_tags_loop fuel' strings keys_vals (j + 2)%nat
            (tag_assign tags (js_index strings k)
               (js_index_opt strings (keys_vals !! (j + 1)%nat)))
      end
  end.

Definition dense_tags_block (dense : DenseNodes) (data : Data) (acc : DenseAcc)
  : outcome (nat * option Tags) :=
  if truthy (d_withTags data) && (0 <? Z.of_nat (length (dn_keys_vals dense))) then
    '(j, tags) ← dense_tags_loop (length (dn_keys_vals dense)) (d_strings data)
                    (dn_keys_vals dense) (a_j acc) ∅;
    Ok (S j, if isEmpty_tags tags then None else Some tags)
  else Ok (a_j acc, None).

(** [if (data.withInfo && dinfo) { ... }]: [version], [timestamp] and
    [changeset] are always set, so the info is never empty. *)
Definition dense_info_block (dense : DenseNodes) (data : Data) (i : nat)
    (acc : DenseAcc) : outcome (option InfoRet * Z * Z * Z * Z) :=
  match truthy (d_withInfo data), dn_denseinfo dense with
  | true, Some dinfo =>
      _ ← assertArrays [dn_id dense; di_timestamp dinfo; di_changeset dinfo;
                        di_uid dinfo; di_user_sid dinfo; di_version dinfo];
      let timestamp := num_add (a_timestamp acc) (elem (di_timestamp dinfo) i) in
      let changeset := num_add (a_changeset acc) (elem (di_changeset dinfo) i) in
      let uid := num_add (a_uid acc) (elem (di_uid dinfo) i) in
      let user := num_add (a_user_sid acc) (elem (di_user_sid dinfo) i) in
      s ← date_string (num_mul timestamp (d_date_granularity data));
      let info :=
        {| r_version := Some (elem (di_version dinfo) i);
           r_timestamp := Some s;
           r_changeset := Some changeset;
           r_uid := if uid =? 0 then None else Some uid;
           r_user := match js_index (d_strings data) user with
                     | Some s => if String.eqb s "" then None else Some s
                     | None => None
                     end;
           r_visible := match di_visible dinfo !! i with
                        | Some false => Some false
                        | _ => None
                        end |} in
      Ok (if isEmpty info then None else Some info,
          timestamp, changeset, uid, user)
  | _, _ => Ok (None, a_timestamp acc, a_changeset acc, a_uid acc, a_user_sid acc)
  end.

Definition dense_round (dense : DenseNodes) (data : Data) (i : nat)
    (acc : DenseAcc) : outcome (OsmNode * DenseAcc) :=
  let id := num_add (a_id acc) (elem (dn_id dense) i) in
  let lat := num_add (a_lat acc) (elem (dn_lat dense) i) in
  let lon := num_add (a_lon acc) (elem (dn_lon dense) i) in
  '(j, tags) ← dense_tags_block dense data acc;
  '(info, timestamp, changeset, uid, user_sid) ← dense_info_block dense data i acc;
  Ok ({| n_type := "node";
         n_id := id;
         n_lat := scale (d_lat_offset data) lat (d_granularity data);
         n_lon := scale (d_lon_offset data) lon (d_granularity data);
         n_tags := tags;
         n_info := info |},
      {| a_id := id; a_lat := lat; a_lon := lon;
         a_timestamp := timestamp; a_changeset := changeset;
         a_uid := uid; a_user_sid := user_sid;
         a_j := j |}).

Fixpoint dense_loop (dense : DenseNodes) (data : Data) (n : nat) (i : nat)
    (acc : DenseAcc) : outcome (list OsmNode) :=
  match n with
  | O => Ok []
  | S n' =>
      '(node, acc') ← dense_round dense data i acc;
      nodes ← dense_loop dense data n' (S i) acc';
      Ok (node :: nodes)
  end.

Definition parse_dense (dense : DenseNodes) (data : Data) : outcome (list OsmNode) :=
  _ ← assertArrays [dn_id dense; dn_lat dense; dn_lon dense];
  dense_loop dense data (length (dn_id dense)) 0%nat dense_start.

Definition parse_group (p : PrimitiveGroup) (data : Data) : outcome (list Entity) :=
  if 0 <? Z.of_nat (length (pg_changesets p)) then Throw "changesets not implemented"
  else
    ns ← traverse (fun n => parse_node n data) (pg_nodes p);
    ds ← match pg_dense p with
         | Some dense => parse_dense dense data
         | None => Ok []
         end;
    ws ← traverse (fun w => parse_way w data) (pg_ways p);
    rs ← traverse (fun r => parse_rel r data) (pg_relations p);
    Ok (((ENode <$> ns) ++ (ENode <$> ds) ++ (EWay <$> ws) ++ (ERelation <$> rs))%list).

Fixpoint parse_groups (ps : list PrimitiveGroup) (data : Data) : outcome (list Entity) :=
  match ps with
  | [] => Ok []
  | p :: ps' => es ← parse_group p data; rest ← parse_groups ps' data; Ok ((es ++ rest)%list)
  end.

End Decoders.
(** [this.with] of the older transform: the option values, or their
    defaults [true], [false], [false]. *)
Record With : Type := {
  withTags : jsval;
  withInfo : jsval;
  batchMode : jsval
}.

Record OSMOptions : Type := {
  o_withTags : jsval;
  o_withInfo : jsval;
  o_batchMode : jsval
}.

Record OSMTransform : Type := {
  with_ : With;
  buffer : option Buffer;
  offset : Z;
  status : Status;
  needed : Z
}.

Definition fresh (w : With) : OSMTransform :=
  {| with_ := w; buffer := None; offset := 0; status := StLength; needed := 4 |}.

(** [constructor(osmopts, opts)] *)
Definition OSMTransform_new (osmopts : OSMOptions) : OSMTransform :=
  fresh {| withTags := nullish (o_withTags osmopts) (VBool true);
           withInfo := nullish (o_withInfo osmopts) (VBool false);
           batchMode := nullish (o_batchMode osmopts) (VBool false) |}.

(** The scale fields status 3 rewrites on the block. *)
Definition block_data (pb : PrimitiveBlock) (w : With) : Data :=
  {| d_strings := toString_utf8 <$> pb_stringtable_s pb;
     d_date_granularity :=
       if pb_date_granularity pb =? 0 then 1000 else pb_date_granularity pb;
     d_granularity :=
       if (pb_granularity pb =? 0) || (pb_granularity pb =? 100) then 1e7%float
       else PrimFloat.div 1e9%float (number_of_Z (pb_granularity pb));
     d_lat_offset := PrimFloat.mul (number_of_Z (pb_lat_offset pb)) 1e-9%float;
     d_lon_offset := PrimFloat.mul (number_of_Z (pb_lon_offset pb)) 1e-9%float;
     d_withTags := withTags w;
     d_withInfo := withInfo w |}.

Section Framing.
Context `{Collaborators} `{Dates}.

(** What the older transform pushes. *)
Inductive Output : Type :=
| PushHeader (header : HeaderBlock)          (* [this.push(header)] *)
| PushHeaders (headers : list HeaderBlock)   (* [this.push([header])] *)
| PushBatch (batch : list Entity).           (* [this.push(batch)] *)

(** [blob.zlib_data ? inflateSync(blob.zlib_data) : blob.raw] *)
Definition blob_bytes (blob : IBlob) : outcome (option Buffer) :=
  match b_zlib_data blob with
  | Some z => z' ← inflateSync z; Ok (Some z')
  | None => Ok (b_raw blob)
  end.

(** Status 2, between [BlobData.read] and the cursor update. *)
Definition OSMHeader_blob (w : With) (blob : IBlob) : outcome Output :=
  buf ← blob_bytes blob;
  match buf with
  | Some buf =>
      let header := HeaderBlock_read buf in
      Ok (if truthy (batchMode w) then PushHeaders [header] else PushHeader header)
  | None => Throw (not_implemented blob)
  end.

(** Status 3 from [PrimitiveBlock.read] to the end of the loop over the
    groups: the batch. *)
Definition parse_block (buf : Buffer) (w : With) : outcome (list Entity) :=
  let pb := PrimitiveBlock_read buf in
  parse_groups (pb_primitivegroup pb) (block_data pb w).

(** Status 3, between [BlobData.read] and the cursor update. *)
Definition OSMData_blob (w : With) (blob : IBlob) : outcome Output :=
  buf ← blob_bytes blob;
  match buf with
  | Some buf => batch ← parse_block buf w; Ok (PushBatch batch)
  | None => Throw (not_implemented blob)
  end.

Definition set_frame (t : OSMTransform) (o : Z) (n : Z) (s : Status) : OSMTransform :=
  {| with_ := with_ t; buffer := buffer t; offset := o; status := s; needed := n |}.

(** The body of [while (true)] below the wait test; [fwd] is [advance]. *)
Definition round (buf : Buffer) (t : OSMTransform) (pbf : Pbf)
  : outcome (OSMTransform * Pbf * list Output) :=
  match status t with
  | StLength =>
      let pbf := advance pbf 4 in
      l ← readUInt32BE buf (offset t);
      let pbf := advance pbf l in
      Ok (set_frame t (offset t + needed t) l StHeader, pbf, [])
  | StHeader =>
      let header := BlobHeader_read (window buf pbf) in
      _ ← assert (String.eqb (bh_type header) "OSMHeader"
                  || String.eqb (bh_type header) "OSMData")
                 (Some "input sequence error");
      Ok (set_frame t (offset t + needed t) (bh_datasize header)
            (if String.eqb (bh_type header) "OSMHeader" then StOSMHeader else StOSMData),
          advance pbf (bh_datasize header), [])
  | StOSMHeader =>
      let blob := Blob_read (window buf pbf) in
      out ← OSMHeader_blob (with_ t) blob;
      Ok (set_frame t (offset t + needed t) 4 StLength, pbf, [out])
  | StOSMData =>
      let blob := Blob_read (window buf pbf) in
      out ← OSMData_blob (with_ t) blob;
      Ok (set_frame t (offset t + needed t) 4 StLength, pbf, [out])
  end.

(** [while (true) { if (this.buffer.length - this.offset < this.needed)
       return next(); ... }] *)
Fixpoint loop (fuel : nat) (buf : Buffer) (t : OSMTransform) (pbf : Pbf)
    (outs : list Output) : Completion * OSMTransform * list Output :=
  if Z.of_nat (length buf) - offset t <? needed t
  then (Next, t, outs)
  else match fuel with
       | O => (OutOfFuel, t, outs)
       | S fuel' =>
           match round buf t pbf with
           | Ok (t', pbf', out) => loop fuel' buf t' pbf' (outs ++ out)%list
           | Throw msg => (Threw msg, t, outs)
           | Diverge => (Hung, t, outs)
           end
       end.

Definition _transform (chunk : Buffer) (t : OSMTransform)
  : Completion * OSMTransform * list Output :=
  let t :=
    match buffer t with
    | None =>
        {| with_ := with_ t; buffer := Some chunk; offset := offset t;
           status := status t; needed := needed t |}
    | Some b =>
        {| with_ := with_ t;
           buffer := Some (drop (Z.to_nat (offset t)) b ++ chunk)%list;
           offset := 0; status := status t; needed := needed t |}
    end in
  let buf := default [] (buffer t) in
  let pbf := {| pos := 0;
                plength := if bool_decide (status t = StLength) then 0 else needed t |} in
  loop (loop_fuel buf) buf t pbf [].

(** A decoding session: the chunks in order. There is no [_flush]: the
    end of the input is not examined. *)
Record Session : Type := {
  transform : OSMTransform;
  pushed : list Output;
  failure : option Completion
}.

Definition open_session (t : OSMTransform) : Session :=
  {| transform := t; pushed := []; failure := None |}.

Definition write (s : Session) (chunk : Buffer) : Session :=
  match failure s with
  | Some _ => s
  | None =>
      let '(c, t', outs) := _transform chunk (transform s) in
      {| transform := t';
         pushed := (pushed s ++ outs)%list;
         failure := match c with Next => None | _ => Some c end |}
  end.

Definition decode_chunks (t : OSMTransform) (chunks : list Buffer) : Session :=
  fold_left write chunks (open_session t).

(** [createOSMStream]: [if (Array.isArray(chunk)) for (const item of
    chunk) yield item; else yield chunk]. *)
Inductive Item : Type :=
| ItemHeader (header : HeaderBlock)
| ItemEntity (e : Entity).

Definition items_of (chunk : Output) : list Item :=
  match chunk with
  | PushHeader header => [ItemHeader header]
  | PushHeaders headers => ItemHeader <$> headers
  | PushBatch batch => ItemEntity <$> batch
  end.

Definition createOSMStream (opts : OSMOptions) (chunks : list Buffer)
  : outcome (list Item) :=
  let s := decode_chunks (OSMTransform_new opts) chunks in
  match failure s with
  | None => Ok (concat (items_of <$> pushed s))
  | Some (Threw msg) => Throw msg
  | Some _ => Diverge
  end.

(** *** The machine on the unread bytes, as [vround] and [vloop] *)

Definition vround (w : With) (st : Status) (nd : Z) (unread : Buffer)
  : outcome (Status * Z * list Output) :=
  match st with
  | StLength =>
      l ← readUInt32BE unread 0;
      Ok (StHeader, l, [])
  | StHeader =>
      let header := BlobHeader_read (take (Z.to_nat nd) unread) in
      _ ← assert (String.eqb (bh_type header) "OSMHeader"
                  || String.eqb (bh_type header) "OSMData")
                 (Some "input sequence error");
      Ok (if String.eqb (bh_type header) "OSMHeader" then StOSMHeader else StOSMData,
          bh_datasize header, [])
  | StOSMHeader =>
      out ← OSMHeader_blob w (Blob_read (take (Z.to_nat nd) unread));
      Ok (StLength, 4, [out])
  | StOSMData =>
      out ← OSMData_blob w (Blob_read (take (Z.to_nat nd) unread));
      Ok (StLength, 4, [out])
  end.

Fixpoint vloop (fuel : nat) (w : With) (st : Status) (nd : Z) (unread : Buffer)
    (outs : list Output) : Completion * (Status * Z * Buffer) * list Output :=
  if waits nd unread then (Next, (st, nd, unread), outs)
  else match fuel with
       | O => (OutOfFuel, (st, nd, unread), outs)
       | S fuel' =>
           match vround w st nd unread with
           | Ok (st', nd', out) =>
               vloop fuel' w st' nd' (drop (Z.to_nat nd) unread) (outs ++ out)%list
           | Throw msg => (Threw msg, (st, nd, unread), outs)
           | Diverge => (Hung, (st, nd, unread), outs)
           end
       end.

Definition unread_of (t : OSMTransform) : Buffer :=
  match buffer t with
  | Some b => drop (Z.to_nat (offset t)) b
  | None => []
  end.

Definition transform_ok (t : OSMTransform) : Prop :=
  needed_ok (status t) (needed t)
  /\ match buffer t with
     | Some b => 0 <= offset t <= Z.of_nat (length b)
     | None => offset t = 0
     end.

Definition frame_ok (buf : Buffer) (t : OSMTransform) (pbf : Pbf) : Prop :=
  0 <= offset t <= Z.of_nat (length buf)
  /\ needed_ok (status t) (needed t)
  /\ match status t with
     | StLength => plength pbf = offset t
     | _ => pos pbf = offset t /\ plength pbf = offset t + needed t
     end.

Definition session_view (w : With) (bytes : Buffer)
  : Completion * (Status * Z * Buffer) * list Output :=
  vloop (loop_fuel bytes) w StLength 4 bytes [].

Definition session_inv (w : With) (s : Session) (bytes : Buffer) : Prop :=
  let v := session_view w bytes in
  pushed s = v.2
  /\ failure s = match v.1.1 with Next => None | c => Some c end
  /\ (v.1.1 = Next ->
      transform_ok (transform s) /\ with_ (transform s) = w
      /\ (status (transform s), needed (transform s), unread_of (transform s)) = v.1.2).

(** *** Streams of frames *)

(** What the blob of a frame gives, by the type of its header (status 2
    or status 3 of [_transform]). *)
Definition blob_output (w : With) (type : string) (blob : Buffer) : outcome Output :=
  if String.eqb type "OSMHeader" then OSMHeader_blob w (Blob_read blob)
  else OSMData_blob w (Blob_read blob).

(** [Frames w bytes outs]: [bytes] is a sequence of complete frames, each
    with a header of a known type whose [datasize] is the length of its
    blob, and the blobs give [outs], in order. *)
Inductive Frames (w : With) : Buffer -> list Output -> Prop :=
| Frames_nil : Frames w [] []
| Frames_cons (header blob rest : Buffer) (out : Output) (outs : list Output) :
    Z.of_nat (length header) < 4294967296 ->
    bh_type (BlobHeader_read header) = "OSMHeader"
    \/ bh_type (BlobHeader_read header) = "OSMData" ->
    bh_datasize (BlobHeader_read header) = Z.of_nat (length blob) ->
    blob_output w (bh_type (BlobHeader_read header)) blob = Ok out ->
    Frames w rest outs ->
    Frames w (uint32_bytes (Z.of_nat (length header)) ++ header ++ blob ++ rest)%list
           (out :: outs).

End Framing.
End Legacy.

(** ** The two parsers side by side *)

(** The block of the older parser that holds what [data] holds, with the
    option values [wt] and [wi]. *)
Definition legacy_data (data : Data) (wt wi : jsval) : Legacy.Data :=
  {| Legacy.d_strings := d_strings data;
     Legacy.d_date_granularity := d_date_granularity data;
     Legacy.d_granularity := d_granularity data;
     Legacy.d_lat_offset := d_lat_offset data;
     Legacy.d_lon_offset := d_lon_offset data;
     Legacy.d_withTags := wt;
     Legacy.d_withInfo := wi |}.

(** An entity without info, as the older parser builds it. *)
Definition legacy_node (n : OsmNode) : Legacy.OsmNode :=
  {| Legacy.n_type := n_type n; Legacy.n_id := n_id n;
     Legacy.n_lat := n_lat n; Legacy.n_lon := n_lon n;
     Legacy.n_tags := n_tags n; Legacy.n_info := None |}.

Definition legacy_way (w : OsmWay) : Legacy.OsmWay :=
  {| Legacy.w_type := w_type w; Legacy.w_id := w_id w;
     Legacy.w_refs := w_refs w; Legacy.w_tags := w_tags w;
     Legacy.w_info := None |}.

Definition legacy_relation (r : OsmRelation) : Legacy.OsmRelation :=
  {| Legacy.rl_type := rl_type r; Legacy.rl_id := rl_id r;
     Legacy.rl_members := rl_members r;
     Legacy.rl_tags := rl_tags r; Legacy.rl_info := None |}.

Definition legacy_entity (e : Entity) : Legacy.Entity :=
  match e with
  | ENode n => Legacy.ENode (legacy_node n)
  | EWay w => Legacy.EWay (legacy_way w)
  | ERelation r => Legacy.ERelation (legacy_relation r)
  end.

Definition entity_info (e : Entity) : option InfoRet :=
  match e with
  | ENode n => n_info n
  | EWay w => w_info w
  | ERelation r => rl_info r
  end.

(** The boolean [withTags] option [b], resolved for every kind. *)
Definition tags_policy (b : bool) : WithTags :=
  <["relation" := TBool b]> (<["way" := TBool b]> (<["node" := TBool b]> ∅)).

(** No way without refs and no relation without members. *)
Definition group_populated (p : PrimitiveGroup) : Prop :=
  Forall (fun w => ww_refs w <> []) (pg_ways p)
  /\ Forall (fun r => wr_memids r <> []) (pg_relations p).

(** A [Date] for the examples: the ISO string of an instant in the
    proleptic Gregorian calendar, UTC, with four digits for the years 0 to
    9999 and a sign and six digits for the others; a time value outside
    the range of [Date] is refused. *)
Definition pad (width : nat) (z : Z) : string :=
  String.append (zeros (width - String.length (pretty z))) (pretty z).

Definition iso_string (ms : Z) : string :=
  let days := ms / 86400000 in
  let rem := ms mod 86400000 in
  let z := days + 719468 in
  let era := z / 146097 in
  let doe := z mod 146097 in
  let yoe := (doe - doe / 1460 + doe / 36524 - doe / 146096) / 365 in
  let doy := doe - (365 * yoe + yoe / 4 - yoe / 100) in
  let mp := (5 * doy + 2) / 153 in
  let d := doy - (153 * mp + 2) / 5 + 1 in
  let m := if mp <? 10 then mp + 3 else mp - 9 in
  let y := yoe + era * 400 + (if m <=? 2 then 1 else 0) in
  String.concat ""
    [ if (0 <=? y) && (y <=? 9999) then pad 4 y
      else String.append (if y <? 0 then "-" else "+") (pad 6 (Z.abs y));
      "-"; pad 2 m; "-"; pad 2 d; "T";
      pad 2 (rem / 3600000); ":"; pad 2 (rem / 60000 mod 60); ":";
      pad 2 (rem / 1000 mod 60); "."; pad 3 (rem mod 1000); "Z" ].

Definition ex_dates : Legacy.Dates :=
  {| Legacy.toISOString := fun num =>
       if (num <? -8640000000000000) || (8640000000000000 <? num)
       then Throw "Invalid time value"
       else Ok (iso_string num) |}.

Definition ex_legacy_with : Legacy.With :=
  {| Legacy.withTags := VBool true; Legacy.withInfo := VBool false;
     Legacy.batchMode := VBool false |}.

(** What the older transform pushes for the sample stream [Wire.stream]. *)
Definition ex_legacy_stream_outs : list (@Legacy.Output Wire.collaborators) :=
  [@Legacy.PushHeader Wire.collaborators [Wire.byte_of 1; Wire.byte_of 2];
   Legacy.PushBatch (Legacy.ENode <$>
     [ {| Legacy.n_type := "node"; Legacy.n_id := 1; Legacy.n_lat := 0;
          Legacy.n_lon := 0; Legacy.n_tags := None; Legacy.n_info := None |};
       {| Legacy.n_type := "node"; Legacy.n_id := 2; Legacy.n_lat := 0;
          Legacy.n_lon := 0; Legacy.n_tags := None; Legacy.n_info := None |};
       {| Legacy.n_type := "node"; Legacy.n_id := 3; Legacy.n_lat := 0;
          Legacy.n_lon := 0; Legacy.n_tags := None; Legacy.n_info := None |} ])].

Definition ex_way_empty : WWay :=
  {| ww_id := 77; ww_refs := []; ww_keys := [1]; ww_vals := [2]; ww_info := None |}.

Definition ex_relation_empty : WRelation :=
  {| wr_id := -5; wr_memids := []; wr_types := []; wr_roles_sid := [];
     wr_keys := []; wr_vals := []; wr_info := None |}.

(** The info the older dense loop attaches to node [i], from the running
    sums [ts], [cs], [ui], [us]: version, timestamp and changeset are
    always there. *)
Definition legacy_dense_info `{Legacy.Dates}
    (ldata : Legacy.Data) (dinfo : DenseInfo) (i : nat) (ts cs ui us : Z)
    (info : Legacy.InfoRet) : Prop :=
  Legacy.r_version info = Some (elem (di_version dinfo) i)
  /\ (exists iso,
        Legacy.toISOString (num_mul ts (Legacy.d_date_granularity ldata)) = Ok iso
        /\ Legacy.r_timestamp info
           = Some (String.append (String.substring 0 19 iso) "Z"))
  /\ Legacy.r_changeset info = Some cs
  /\ Legacy.r_uid info = (if ui =? 0 then None else Some ui)
  /\ Legacy.r_user info
     = match js_index (Legacy.d_strings ldata) us with
       | Some s => if String.eqb s "" then None else Some s
       | None => None
       end
  /\ Legacy.r_visible info
     = match di_visible dinfo !! i with
       | Some false => Some false
       | _ => None
       end.

(** Two [this.with] that differ in [batchMode] at most, and two pushed
    values that the facade of the older parser turns into the same
    items. *)
Definition same_but_batchMode (w1 w2 : Legacy.With) : Prop :=
  Legacy.withTags w1 = Legacy.withTags w2 /\ Legacy.withInfo w1 = Legacy.withInfo w2.

Definition same_items `{Collaborators} (out1 out2 : Legacy.Output) : Prop :=
  Legacy.items_of out1 = Legacy.items_of out2.

(** A per-kind value that [with_tags] resolves: absent, [null], a boolean
    or an array. *)
Definition kind_value_ok (v : jsval) : bool :=
  match v with
  | VUndefined | VNull | VBool _ | VArray _ => true
  | _ => false
  end.

(** * Properties *)

(** ** Numbers that hold integers

    [binary64] is followed through the reference implementation of
    IEEE 754 ([SpecFloat]): an integer up to 2^53 in magnitude is its own
    nearest number, and every integer other than 0 has a normal number. *)

Lemma digits2_pos_bounds (p : positive) :
  2 ^ (Zpos (digits2_pos p) - 1) <= Zpos p < 2 ^ Zpos (digits2_pos p).
Proof.
  induction p as [p IH|p IH|]; cbn [digits2_pos].
  - assert (2 ^ Zpos (digits2_pos p) = 2 * 2 ^ (Zpos (digits2_pos p) - 1)) as Hd.
    { rewrite <- Z.pow_succ_r by lia. f_equal. lia. }
    rewrite Pos2Z.inj_succ, Z.pow_succ_r by lia.
    replace (Z.succ (Zpos (digits2_pos p)) - 1) with (Zpos (digits2_pos p)) by lia.
    rewrite Pos2Z.inj_xI. lia.
  - assert (2 ^ Zpos (digits2_pos p) = 2 * 2 ^ (Zpos (digits2_pos p) - 1)) as Hd.
    { rewrite <- Z.pow_succ_r by lia. f_equal. lia. }
    rewrite Pos2Z.inj_succ, Z.pow_succ_r by lia.
    replace (Z.succ (Zpos (digits2_pos p)) - 1) with (Zpos (digits2_pos p)) by lia.
    change (Zpos p~0) with (2 * Zpos p). lia.
  - change (1 <= 1 < 2). lia.
Qed.

Lemma digits2_pos_le (p : positive) (n : Z) :
  Zpos p < 2 ^ n -> 0 <= n -> Zpos (digits2_pos p) <= n.
Proof.
  intros Hp Hn. destruct (digits2_pos_bounds p) as [Hlo _].
  destruct (Z.le_gt_cases (Zpos (digits2_pos p)) n) as [|Hgt]; [assumption|].
  assert (2 ^ n <= 2 ^ (Zpos (digits2_pos p) - 1)) by (apply Z.pow_le_mono_r; lia). lia.
Qed.

Lemma iter_xO_value (p k : positive) : Zpos (Pos.iter xO p k) = Zpos p * 2 ^ Zpos k.
Proof.
  induction k as [|k IH] using Pos.peano_ind.
  - simpl. lia.
  - rewrite Pos.iter_succ, Pos2Z.inj_succ, Z.pow_succ_r by lia.
    change (Zpos (Pos.iter xO p k)~0) with (2 * Zpos (Pos.iter xO p k)). rewrite IH. lia.
Qed.

Lemma iter_xO_digits (p k : positive) :
  digits2_pos (Pos.iter xO p k) = (digits2_pos p + k)%positive.
Proof.
  induction k as [|k IH] using Pos.peano_ind.
  - simpl. lia.
  - rewrite Pos.iter_succ. cbn [digits2_pos]. rewrite IH. lia.
Qed.

Lemma binary_round_aux_canonical (s : bool) (m : positive) (e : Z) :
  digits2_pos m = 53%positive -> -1074 <= e <= 971 ->
  binary_round_aux prec emax s (Zpos m) e loc_Exact = S754_finite s m e.
Proof.
  intros Hd He.
  assert (fexp prec emax (Zdigits2 (Zpos m) + e) - e = 0) as Hf.
  { cbn [Zdigits2]. rewrite Hd. unfold fexp, emin, prec, emax. lia. }
  unfold binary_round_aux, shr_fexp. rewrite Hf. cbn [shr shr_record_of_loc].
  cbn [shr_m loc_of_shr_record round_nearest_even]. rewrite Hf. cbn [shr shr_m].
  replace (e <=? emax - prec) with true; [reflexivity|].
  symmetry. apply Z.leb_le. unfold emax, prec. lia.
Qed.

(** The binary64 value of an integer below 2^53 holds it exactly. *)
Lemma binary_round_small (s : bool) (p : positive) :
  Zpos p < 2 ^ 53 ->
  exists m e, binary_round prec emax s p 0 = S754_finite s m e
    /\ -52 <= e <= 0 /\ Zpos m = Zpos p * 2 ^ (- e).
Proof.
  intros Hp. pose proof (digits2_pos_le p 53 Hp ltac:(lia)) as Hd.
  pose proof (Pos2Z.is_pos (digits2_pos p)) as Hd0.
  unfold binary_round, shl_align.
  rewrite Z.add_0_r.
  assert (fexp prec emax (Zpos (digits2_pos p)) = Zpos (digits2_pos p) - 53) as Hf.
  { unfold fexp, emin, prec, emax. lia. }
  rewrite Hf. rewrite Z.sub_0_r.
  destruct (Zpos (digits2_pos p) - 53) as [|k|k] eqn:Hk; [|lia|].
  - exists p, 0. split; [|split; [lia|simpl; lia]].
    apply binary_round_aux_canonical; lia.
  - exists (Pos.iter xO p k), (Zneg k). split; [|split; [lia|]].
    + apply binary_round_aux_canonical; [|lia].
      rewrite iter_xO_digits. lia.
    + rewrite iter_xO_value. reflexivity.
Qed.

Lemma integer_of_binary_round (s : bool) (p : positive) :
  Zpos p < 2 ^ 53 ->
  integer_of (binary_round prec emax s p 0) = (if s then -1 else 1) * Zpos p.
Proof.
  intros Hp. destruct (binary_round_small s p Hp) as (m & e & -> & He & Hm).
  unfold integer_of. f_equal.
  destruct (Z.leb_spec 0 e) as [H0|H0].
  - replace e with 0 in * by lia. rewrite Hm. simpl. lia.
  - rewrite Hm. apply Z.div_mul. apply Z.pow_nonzero; lia.
Qed.

Lemma nearest_small (z : Z) : Z.abs z < 2 ^ 53 -> nearest z = z.
Proof.
  intros Hz. unfold nearest, binary64, binary_normalize.
  destruct z as [|p|p]; [reflexivity| |].
  - rewrite integer_of_binary_round by (simpl in Hz; exact Hz). lia.
  - rewrite integer_of_binary_round by (simpl in Hz; exact Hz). lia.
Qed.

(** Every integer up to 2^53 in magnitude is a binary64 number. *)
Lemma nearest_safe (z : Z) : Z.abs z <= 2 ^ 53 -> nearest z = z.
Proof.
  intros Hz. destruct (Z.eq_dec (Z.abs z) (2 ^ 53)) as [He|Hne].
  - destruct (Z.abs_spec z) as [[_ Ha]|[_ Ha]]; rewrite Ha in He.
    + subst z. vm_compute. reflexivity.
    + replace z with (- 2 ^ 53) by lia. vm_compute. reflexivity.
  - apply nearest_small. lia.
Qed.

Lemma digits2_pos_ge (p : positive) (n : Z) :
  2 ^ (n - 1) <= Zpos p -> n <= Zpos (digits2_pos p).
Proof.
  intros Hp. destruct (digits2_pos_bounds p) as [_ Hhi].
  destruct (Z.le_gt_cases n (Zpos (digits2_pos p))) as [|Hgt]; [assumption|].
  assert (2 ^ Zpos (digits2_pos p) <= 2 ^ (n - 1)) by (apply Z.pow_le_mono_r; lia). lia.
Qed.

Lemma digits2_pos_53 (p : positive) :
  2 ^ 52 <= Zpos p < 2 ^ 53 -> digits2_pos p = 53%positive.
Proof.
  intros [Hlo Hhi].
  pose proof (digits2_pos_le p 53 Hhi ltac:(lia)).
  pose proof (digits2_pos_ge p 53 Hlo). lia.
Qed.

Lemma shr_1_m (r : shr_record) : 0 <= shr_m r -> shr_m (shr_1 r) = shr_m r / 2.
Proof.
  destruct r as [m r0 s0]. destruct m as [|[p|p|]|p]; cbn [shr_1 shr_m]; intros Hm.
  - reflexivity.
  - change (Zpos p~1) with (1 + 2 * Zpos p).
    rewrite (Z.mul_comm 2), Z.div_add by lia. reflexivity.
  - change (Zpos p~0) with (2 * Zpos p).
    rewrite (Z.mul_comm 2), Z.div_mul by lia. reflexivity.
  - reflexivity.
  - lia.
Qed.

Lemma iter_pos_shr_1 (n : positive) :
  forall r, 0 <= shr_m r ->
  shr_m (SpecFloat.iter_pos shr_1 n r) = shr_m r / 2 ^ Zpos n.
Proof.
  assert (forall r, 0 <= shr_m r -> 0 <= shr_m (shr_1 r)) as Hnn.
  { intros r Hr. rewrite shr_1_m by exact Hr. apply Z.div_pos; lia. }
  induction n as [n IH|n IH|]; intros r Hr; cbn [SpecFloat.iter_pos].
  - assert (0 <= shr_m (SpecFloat.iter_pos shr_1 n (shr_1 r))) as H1.
    { rewrite IH by auto. apply Z.div_pos; [auto|]. apply Z.pow_pos_nonneg; lia. }
    rewrite IH by exact H1. rewrite IH by auto. rewrite shr_1_m by exact Hr.
    rewrite !Z.div_div by (try apply Z.pow_pos_nonneg; lia).
    f_equal. replace (Zpos n~1) with (1 + Zpos n + Zpos n) by lia.
    rewrite !Z.pow_add_r by lia. lia.
  - assert (0 <= shr_m (SpecFloat.iter_pos shr_1 n r)) as H1.
    { rewrite IH by auto. apply Z.div_pos; [auto|]. apply Z.pow_pos_nonneg; lia. }
    rewrite IH by exact H1. rewrite IH by auto.
    rewrite !Z.div_div by (try apply Z.pow_pos_nonneg; lia).
    f_equal. replace (Zpos n~0) with (Zpos n + Zpos n) by lia.
    rewrite !Z.pow_add_r by lia. lia.
  - rewrite shr_1_m by exact Hr. reflexivity.
Qed.

Lemma shr_record_of_loc_m (m : Z) (l : location) : shr_m (shr_record_of_loc m l) = m.
Proof. destruct l as [|[| |]]; reflexivity. Qed.

Lemma round_nearest_even_range (m : Z) (l : location) :
  round_nearest_even m l = m \/ round_nearest_even m l = m + 1.
Proof.
  destruct l as [|[| |]]; cbn [round_nearest_even]; auto.
  destruct (Z.even m); auto.
Qed.

(** The first shift of [binary_round_aux] leaves a mantissa of 53 digits. *)
Lemma shr_fexp_normal (m : positive) (e : Z) (l : location) :
  53 <= Zpos (digits2_pos m) -> -1074 <= e ->
  exists r, shr_fexp prec emax (Zpos m) e l = (r, e + Zpos (digits2_pos m) - 53)
    /\ 2 ^ 52 <= shr_m r < 2 ^ 53.
Proof.
  intros Hd He. unfold shr_fexp, shr. cbn [Zdigits2].
  assert (fexp prec emax (Zpos (digits2_pos m) + e) - e = Zpos (digits2_pos m) - 53) as ->.
  { unfold fexp, emin, prec, emax. lia. }
  destruct (digits2_pos_bounds m) as [Hlo Hhi].
  destruct (Zpos (digits2_pos m) - 53) as [|k|k] eqn:Hk; [| |lia].
  - eexists. split; [f_equal; lia|]. rewrite shr_record_of_loc_m.
    replace (Zpos (digits2_pos m)) with 53 in * by lia. simpl in Hlo. lia.
  - eexists. split; [f_equal; lia|].
    rewrite iter_pos_shr_1 by (rewrite shr_record_of_loc_m; lia).
    rewrite shr_record_of_loc_m.
    assert (0 < 2 ^ Zpos k) as Hk0 by (apply Z.pow_pos_nonneg; lia).
    replace (Zpos (digits2_pos m) - 1) with (Zpos k + 52) in Hlo by lia.
    replace (Zpos (digits2_pos m)) with (Zpos k + 53) in Hhi by lia.
    rewrite Z.pow_add_r in Hlo, Hhi by lia.
    split.
    + apply Z.div_le_lower_bound; lia.
    + apply Z.div_lt_upper_bound; lia.
Qed.

(** Rounding a mantissa of at least 53 digits whose value lies in the
    range of the normal numbers gives a normal number. *)
Lemma binary_round_aux_normal (s : bool) (m : positive) (e : Z) (l : location) :
  53 <= Zpos (digits2_pos m) -> -1074 <= e -> Zpos (digits2_pos m) + e <= 1023 ->
  exists m' e', binary_round_aux prec emax s (Zpos m) e l = S754_finite s m' e'
    /\ digits2_pos m' = 53%positive /\ e <= e' <= 971.
Proof.
  intros Hd He Hhi.
  destruct (shr_fexp_normal m e l Hd He) as (r & Hr & Hlo & Hup).
  unfold binary_round_aux. rewrite Hr.
  set (e1 := e + Zpos (digits2_pos m) - 53).
  set (m1 := round_nearest_even (shr_m r) (loc_of_shr_record r)).
  assert (2 ^ 52 <= m1 <= 2 ^ 53) as Hm1.
  { destruct (round_nearest_even_range (shr_m r) (loc_of_shr_record r)) as [Heq|Heq];
      fold m1 in Heq; lia. }
  destruct (Z.eq_dec m1 (2 ^ 53)) as [Htop|Hnot].
  - rewrite Htop. change (2 ^ 53) with 9007199254740992. unfold shr_fexp.
    assert (fexp prec emax (Zdigits2 9007199254740992 + e1) - e1 = 1) as ->.
    { change (Zdigits2 9007199254740992) with 54. unfold fexp, emin, prec, emax. lia. }
    cbn [shr shr_record_of_loc SpecFloat.iter_pos shr_1 shr_m].
    exists 4503599627370496%positive, (e1 + 1).
    replace (e1 + 1 <=? emax - prec) with true
      by (symmetry; apply Z.leb_le; unfold emax, prec; lia).
    split; [reflexivity|]. split; [reflexivity | lia].
  - destruct m1 as [|p1|p1] eqn:Hp1; [lia| |lia].
    assert (digits2_pos p1 = 53%positive) as Hd1 by (apply digits2_pos_53; lia).
    unfold shr_fexp. cbn [Zdigits2]. rewrite Hd1.
    assert (fexp prec emax (53 + e1) - e1 = 0) as ->.
    { unfold fexp, emin, prec, emax. lia. }
    cbn [shr shr_record_of_loc shr_m]. exists p1, e1.
    replace (e1 <=? emax - prec) with true
      by (symmetry; apply Z.leb_le; unfold emax, prec; lia).
    split; [reflexivity|]. split; [exact Hd1 | lia].
Qed.

(** Every integer other than 0 below 2^1023 in magnitude has a normal
    binary64 number. *)
Lemma binary64_normal (z : Z) :
  z <> 0 -> Z.abs z < 2 ^ 1023 ->
  exists s m e, binary64 z = S754_finite s m e
    /\ digits2_pos m = 53%positive /\ -52 <= e <= 971.
Proof.
  assert (forall s p, Zpos p < 2 ^ 1023 ->
            exists m e, binary_round prec emax s p 0 = S754_finite s m e
              /\ digits2_pos m = 53%positive /\ -52 <= e <= 971) as Hround.
  { intros s p Hp. unfold binary_round, shl_align. rewrite Z.add_0_r, Z.sub_0_r.
    pose proof (digits2_pos_le p 1023 Hp ltac:(lia)) as Hd.
    pose proof (Pos2Z.is_pos (digits2_pos p)) as Hd0.
    assert (fexp prec emax (Zpos (digits2_pos p)) = Zpos (digits2_pos p) - 53) as ->.
    { unfold fexp, emin, prec, emax. lia. }
    destruct (Zpos (digits2_pos p) - 53) as [|k|k] eqn:Hk.
    - destruct (binary_round_aux_normal s p 0 loc_Exact) as (m & e & -> & Hm & He);
        [lia..|]. exists m, e. split; [reflexivity|]. split; [exact Hm | lia].
    - destruct (binary_round_aux_normal s p 0 loc_Exact) as (m & e & -> & Hm & He);
        [lia..|]. exists m, e. split; [reflexivity|]. split; [exact Hm | lia].
    - destruct (binary_round_aux_normal s (Pos.iter xO p k) (Zneg k) loc_Exact)
        as (m & e & -> & Hm & He); rewrite ?iter_xO_digits; [lia..|].
      exists m, e. split; [reflexivity|]. split; [exact Hm | lia]. }
  intros Hz Hb. unfold binary64, binary_normalize.
  destruct z as [|p|p]; [contradiction| |].
  - destruct (Hround false p Hb) as (m & e & H1 & H2). eauto.
  - destruct (Hround true p Hb) as (m & e & H1 & H2). eauto.
Qed.

Lemma normal_valid (s : bool) (m : positive) (e : Z) :
  digits2_pos m = 53%positive -> -1074 <= e <= 971 ->
  valid_binary (S754_finite s m e) = true.
Proof.
  intros Hm He. unfold SpecFloat.valid_binary, bounded, canonical_mantissa.
  rewrite Hm. apply andb_true_intro. split.
  - apply Z.eqb_eq. unfold fexp, emin, prec, emax. lia.
  - apply Z.leb_le. unfold emax, prec. lia.
Qed.

Lemma number_of_Z_normal (z : Z) :
  z <> 0 -> Z.abs z < 2 ^ 1023 ->
  exists s m e, Prim2SF (number_of_Z z) = S754_finite s m e
    /\ digits2_pos m = 53%positive /\ -52 <= e <= 971.
Proof.
  intros Hz Hb. destruct (binary64_normal z Hz Hb) as (s & m & e & Hbin & Hm & He).
  exists s, m, e. unfold number_of_Z. rewrite Hbin.
  rewrite Prim2SF_SF2Prim by (apply normal_valid; [exact Hm | lia]). auto.
Qed.

Lemma Zpos_mul_digits (a b : positive) :
  digits2_pos a = 53%positive -> digits2_pos b = 53%positive ->
  105 <= Zpos (digits2_pos (a * b)) <= 106.
Proof.
  intros Ha Hb.
  pose proof (digits2_pos_bounds a) as Ba. pose proof (digits2_pos_bounds b) as Bb.
  rewrite Ha in Ba. rewrite Hb in Bb. simpl in Ba, Bb.
  split.
  - apply digits2_pos_ge. rewrite Pos2Z.inj_mul.
    change (2 ^ (105 - 1)) with (4503599627370496 * 4503599627370496). nia.
  - apply digits2_pos_le; [|lia]. rewrite Pos2Z.inj_mul.
    change (2 ^ 106) with (9007199254740992 * 9007199254740992). nia.
Qed.

(** [x * 1e-9] for an integer [x]: never [-0]. *)
Lemma offset_not_negative_zero (lo : Z) :
  Z.abs lo < 2 ^ 1023 ->
  Prim2SF (PrimFloat.mul (number_of_Z lo) 1e-9%float) <> S754_zero true.
Proof.
  intros Hb. rewrite FloatAxioms.mul_spec.
  destruct (Z.eq_dec lo 0) as [->|Hz]; [vm_compute; discriminate|].
  destruct (number_of_Z_normal lo Hz Hb) as (s & m & e & -> & Hm & He).
  change (Prim2SF 1e-9%float) with (S754_finite false 4835703278458517 (-82)).
  unfold SF64mul, SFmul.
  pose proof (Zpos_mul_digits m 4835703278458517 Hm eq_refl) as Hd.
  destruct (binary_round_aux_normal (xorb s false) (m * 4835703278458517) (e + -82) loc_Exact)
    as (m' & e' & -> & _); [lia..|]. discriminate.
Qed.

(** [1e9 / g] for an integer [g] other than 0: a number other than 0. *)
Lemma granularity_finite (g : Z) :
  g <> 0 -> Z.abs g < 2 ^ 1023 ->
  exists s m e, Prim2SF (PrimFloat.div 1e9%float (number_of_Z g)) = S754_finite s m e.
Proof.
  intros Hz Hb. rewrite FloatAxioms.div_spec.
  destruct (number_of_Z_normal g Hz Hb) as (s & m & e & -> & Hm & He).
  change (Prim2SF 1e9%float) with (S754_finite false 8388608000000000 (-23)).
  unfold SF64div, SFdiv, SFdiv_core_binary. cbn [Zdigits2]. rewrite Hm.
  change (digits2_pos 8388608000000000) with 53%positive.
  assert (Z.min (fexp prec emax (53 + -23 - (53 + e))) (-23 - e) = -76 - e) as ->.
  { unfold fexp, emin, prec, emax. lia. }
  replace (-23 - e - (-76 - e)) with 53 by lia.
  change (Z.shiftl 8388608000000000 53) with 75557863725914323419136000000000.
  pose proof (digits2_pos_bounds m) as Bm. rewrite Hm in Bm. simpl in Bm.
  pose proof (Z_div_mod 75557863725914323419136000000000 (Zpos m) ltac:(lia)) as Hdm.
  destruct (Z.div_eucl 75557863725914323419136000000000 (Zpos m)) as [q r].
  destruct Hdm as [Hq Hr].
  assert (2 ^ 52 < q < 2 ^ 54) as Bq by (simpl; nia).
  destruct q as [|q|q]; [lia| |lia].
  assert (53 <= Zpos (digits2_pos q) <= 54) as Hdq.
  { split; [apply digits2_pos_ge; simpl; lia | apply digits2_pos_le; lia]. }
  destruct (binary_round_aux_normal (xorb false s) q (-76 - e) (new_location (Zpos m) r))
    as (m' & e' & -> & _); [lia..|]. eauto.
Qed.

Lemma num_add_exact (a b : Z) : Z.abs (a + b) <= 2 ^ 53 -> num_add a b = a + b.
Proof. apply nearest_safe. Qed.

Lemma num_mul_exact (a b : Z) : Z.abs (a * b) <= 2 ^ 53 -> num_mul a b = a * b.
Proof. apply nearest_safe. Qed.

(** ** End of input: [_flush] *)

Lemma flush_ok_iff (t : OSMTransform) :
  _flush t = Ok tt <->
  (exists buf, buffer t = Some buf /\ Z.of_nat (length buf) = offset t)
  /\ status t = StLength.
Proof.
  unfold _flush. split.
  - destruct (buffer t) as [buf|] eqn:Hb; simpl.
    + destruct (Z.eqb_spec (Z.of_nat (length buf)) (offset t)) as [He|He]; simpl.
      * case_bool_decide as Hs; simpl; [|discriminate].
        intros _. split; [exists buf; auto | exact Hs].
      * discriminate.
    + discriminate.
  - intros [(buf & Hb & Hl) Hs]. rewrite Hb.
    rewrite (proj2 (Z.eqb_eq _ _) Hl). simpl.
    rewrite bool_decide_eq_true_2 by exact Hs. reflexivity.
Qed.

Lemma flush_ok_or_format_error (t : OSMTransform) :
  _flush t = Ok tt \/ _flush t = Throw FormatError.
Proof.
  unfold _flush.
  destruct (_ && _); [left | right]; reflexivity.
Qed.

(** C10. A transform that has never been given a chunk has no buffer:
    [_flush] raises the format error although the state is the initial
    one awaiting a length, with cursor 0. A stream of zero chunks is
    rejected and nothing is pushed. Every transform the constructor
    returns starts this way. *)
Theorem C10_flush_before_any_chunk `{Collaborators} (w : With) :
  _flush (fresh w) = Throw FormatError
  /\ status (fresh w) = StLength /\ offset (fresh w) = 0 /\ buffer (fresh w) = None
  /\ failure (decode_chunks (fresh w) []) = Some (Threw FormatError)
  /\ pushed (decode_chunks (fresh w) []) = []
  /\ (forall osmopts t, OSMTransform_new osmopts = Ok t -> exists w', t = fresh w').
Proof.
  repeat split.
  intros osmopts t. unfold OSMTransform_new.
  destruct (with_tags _) as [wt| |]; simpl; [|discriminate|discriminate].
  intros [= <-]. eexists. reflexivity.
Qed.

(** ** Parallel arrays: [assertArrays] *)

Lemma assertArrays_from_spec (n : Z) (args : list (list Z)) :
  0 <= n ->
  assertArrays_from n args =
  if forallb (fun arg => n =? Z.of_nat (length arg)) args
  then Ok tt else Throw FormatError.
Proof.
  intros Hn. induction args as [|arg rest IH]; simpl; [reflexivity|].
  destruct (Z.ltb_spec n 0) as [Hlt|_]; [lia|].
  destruct (n =? Z.of_nat (length arg)); simpl; [exact IH | reflexivity].
Qed.

Lemma assertArrays_cons (first : list Z) (rest : list (list Z)) :
  assertArrays (first :: rest) =
  if forallb (fun arg => Z.of_nat (length first) =? Z.of_nat (length arg)) rest
  then Ok tt else Throw FormatError.
Proof.
  unfold assertArrays. simpl. apply assertArrays_from_spec. lia.
Qed.

Lemma assertArrays_pair (a b : list Z) :
  assertArrays [a; b] =
  if bool_decide (length a = length b) then Ok tt else Throw FormatError.
Proof.
  rewrite assertArrays_cons. simpl. rewrite andb_true_r.
  case_bool_decide as Hl.
  - rewrite Hl, Z.eqb_refl. reflexivity.
  - destruct (Z.eqb_spec (Z.of_nat (length a)) (Z.of_nat (length b))); [lia|reflexivity].
Qed.

Lemma assertArrays_ok_all (first : list Z) (rest : list (list Z)) :
  Forall (fun arg => length arg = length first) rest ->
  assertArrays (first :: rest) = Ok tt.
Proof.
  intros Hall. rewrite assertArrays_cons.
  replace (forallb _ rest) with true; [reflexivity|].
  symmetry. apply forallb_forall. intros x Hx.
  rewrite Forall_forall in Hall. apply list_elem_of_In in Hx.
  rewrite (Hall x Hx). apply Z.eqb_refl.
Qed.

Lemma assertArrays_throws (first : list Z) (rest : list (list Z)) :
  Exists (fun arg => length arg <> length first) rest ->
  assertArrays (first :: rest) = Throw FormatError.
Proof.
  intros Hex. rewrite assertArrays_cons.
  replace (forallb _ rest) with false; [reflexivity|].
  symmetry. apply not_true_is_false. intros Hall.
  rewrite forallb_forall in Hall.
  apply Exists_exists in Hex as (x & Hx & Hne).
  apply list_elem_of_In in Hx. specialize (Hall x Hx).
  apply Z.eqb_eq in Hall. lia.
Qed.

(** ** Tag-filter options *)

Lemma with_tags_boolean (b : bool) :
  exists wt, with_tags (VBool b) = Ok wt /\
    wt !! "node" = Some (TBool b) /\ wt !! "way" = Some (TBool b) /\
    wt !! "relation" = Some (TBool b).
Proof. eexists. split; [reflexivity|]. repeat split. Qed.

(** C6 (the behaviour at a configuration that is neither a boolean nor an
    object). [with_tags] starts from [result = {}], which is truthy: a
    number or a string as [withTags] skips the loop and is returned as
    the empty object instead of raising ["wrong withTags option."]. The
    constructor succeeds, and every kind then reads [undefined], which
    disables its tags. *)
Theorem C6_non_object_option_accepted (n : Z) (s : string) :
  with_tags (VNumber n) = Ok ∅
  /\ with_tags (VString s) = Ok ∅
  /\ OSMTransform_new {| o_withTags := VNumber n; o_withInfo := VUndefined;
                         o_writeRaw := VUndefined |}
     = Ok (fresh {| withTags := ∅; withInfo := VBool false; writeRaw := VBool false |})
  /\ tags_enabled ((∅ : WithTags) !! "node") = false
  /\ tags_enabled ((∅ : WithTags) !! "way") = false
  /\ tags_enabled ((∅ : WithTags) !! "relation") = false.
Proof. repeat split. Qed.

(** The shapes [with_tags] does resolve or reject. *)
Lemma with_tags_object_kinds (props : list (string * jsval)) (k : string) :
  k ∈ ["node"; "way"; "relation"] ->
  (forall k', k' ∈ ["node"; "way"; "relation"] ->
     is_Some (with_tags_kind (nullish (assoc k' props) (VBool true)))) ->
  exists wt, with_tags (VObject props) = Ok wt /\
    wt !! k = with_tags_kind (nullish (assoc k props) (VBool true)).
Proof.
  intros Hk Hall. unfold with_tags. simpl.
  destruct (Hall "node") as [rn Hn]; [repeat constructor|].
  destruct (Hall "way") as [rw Hw]; [repeat constructor|].
  destruct (Hall "relation") as [rr Hr]; [repeat constructor|].
  rewrite Hn, Hw, Hr. eexists. split; [reflexivity|].
  apply list_elem_of_In in Hk. simpl in Hk.
  destruct Hk as [<-|[<-|[<-|[]]]]; rewrite ?Hn, ?Hw, ?Hr; reflexivity.
Qed.

Lemma with_tags_kind_list (xs : list jsval) :
  with_tags_kind (VArray xs) = Some (if bool_decide (xs = []) then TBool false else TSet xs).
Proof. destruct xs; reflexivity. Qed.

Lemma with_tags_object_rejected (props : list (string * jsval)) (k : string) :
  k ∈ ["node"; "way"; "relation"] ->
  with_tags_kind (nullish (assoc k props) (VBool true)) = None ->
  with_tags (VObject props) = Throw "wrong withTags option.".
Proof.
  intros Hk Hbad. unfold with_tags. simpl.
  apply list_elem_of_In in Hk. simpl in Hk.
  destruct Hk as [<-|[<-|[<-|[]]]].
  - rewrite Hbad. reflexivity.
  - destruct (with_tags_kind (nullish (assoc "node" props) _)); [|reflexivity].
    rewrite Hbad. reflexivity.
  - destruct (with_tags_kind (nullish (assoc "node" props) _)); [|reflexivity].
    destruct (with_tags_kind (nullish (assoc "way" props) _)); [|reflexivity].
    rewrite Hbad. reflexivity.
Qed.

(** ** Blob payloads *)

Section BlobProps.
Context `{Collaborators}.

Lemma OSMHeader_blob_raw (blob : IBlob) (raw : Buffer) :
  b_zlib_data blob = None -> b_raw blob = Some raw ->
  OSMHeader_blob blob = Ok (PushHeader [HeaderBlock_read raw]).
Proof. intros Hz Hr. unfold OSMHeader_blob. rewrite Hz, Hr. reflexivity. Qed.

Lemma OSMHeader_blob_zlib (blob : IBlob) (z : Buffer) :
  b_zlib_data blob = Some z ->
  OSMHeader_blob blob =
  match inflateSync z with
  | Ok buf => Ok (PushHeader [HeaderBlock_read buf])
  | Throw msg => Throw msg
  | Diverge => Diverge
  end.
Proof.
  intros Hz. unfold OSMHeader_blob. rewrite Hz.
  destruct (inflateSync z); reflexivity.
Qed.

Lemma OSMData_blob_zlib (w : With) (blob : IBlob) (z : Buffer) :
  b_zlib_data blob = Some z -> truthy (writeRaw w) = false ->
  OSMData_blob w blob =
  match inflateSync z with
  | Ok buf => match parse buf (inl w) with
              | Ok batch => Ok (PushBatch batch)
              | Throw msg => Throw msg
              | Diverge => Diverge
              end
  | Throw msg => Throw msg
  | Diverge => Diverge
  end.
Proof.
  intros Hz Hw. unfold OSMData_blob. rewrite Hz, Hw.
  destruct (inflateSync z) as [buf| |]; reflexivity.
Qed.

(** A blob in which neither [raw] nor [zlib_data] is populated is refused
    by both paths, with the name of the field read last in the message. *)
Lemma unsupported_codec_refused (w : With) (blob : IBlob) :
  b_zlib_data blob = None -> b_raw blob = None ->
  OSMHeader_blob blob = Throw (not_implemented blob)
  /\ OSMData_blob w blob = Throw (not_implemented blob).
Proof.
  intros Hz Hr. unfold OSMHeader_blob, OSMData_blob. rewrite Hz, Hr. split; reflexivity.
Qed.

(** C5 (the behaviour at a data blob whose payload is [raw]). The OSMData
    path asserts [blob.zlib_data] alone: a blob read from a single [raw]
    field (tag 1) is refused with ["inflating raw not implemented"] and
    pushes nothing, while the OSMHeader path passes the same blob's bytes
    through unchanged. *)
Theorem C5_raw_data_blob_refused (w : With) (f : field) :
  OSMData_blob w (Blob_readField 1 Blob_start f)
  = Throw "inflating raw not implemented"
  /\ OSMHeader_blob (Blob_readField 1 Blob_start f)
     = Ok (PushHeader [HeaderBlock_read (readBytes f)]).
Proof. split; reflexivity. Qed.

End BlobProps.

(** ** Info reconstruction: [fill_info] *)

Lemma isEmpty_true_iff (ret : InfoRet) :
  isEmpty ret = true <->
  r_version ret = None /\ r_timestamp ret = None /\ r_changeset ret = None
  /\ r_uid ret = None /\ r_user ret = None /\ r_visible ret = None.
Proof.
  unfold isEmpty.
  destruct (r_version ret), (r_timestamp ret), (r_changeset ret),
    (r_uid ret), (r_user ret), (r_visible ret); simpl;
    split; intros Hx; try discriminate; try reflexivity;
    try (repeat split; reflexivity);
    destruct Hx as (?&?&?&?&?&?); discriminate.
Qed.

Lemma nonzero_field (x y : Z) :
  (is_Some (if x =? 0 then None else Some y) <-> x <> 0)
  /\ (forall v, (if x =? 0 then None else Some y) = Some v -> v = y).
Proof.
  destruct (Z.eqb_spec x 0) as [->|Hx]; split.
  - split; [intros [v Hv]; discriminate | intros Hx; contradiction].
  - discriminate.
  - split; [intros _; exact Hx | intros _; eexists; reflexivity].
  - intros v [= <-]. reflexivity.
Qed.

Lemma fill_info_user (data : Data) (info : Info) (s : string) :
  r_user (fill_info data info) = Some s <->
  user_sid info <> 0 /\ js_index (d_strings data) (user_sid info) = Some s /\ s <> "".
Proof.
  unfold fill_info; simpl.
  destruct (Z.eqb_spec (user_sid info) 0) as [Hz|Hz].
  - split; [discriminate | intros [Hne _]; contradiction].
  - destruct (js_index (d_strings data) (user_sid info)) as [s'|].
    + destruct (String.eqb_spec s' "") as [->|Hs'].
      * split; [discriminate | intros (_ & [= <-] & Hs); contradiction].
      * split; [intros [= <-]; auto | intros (_ & [= <-] & _); reflexivity].
    + split; [discriminate | intros (_ & Hx & _); discriminate].
Qed.

Lemma fill_info_visible (data : Data) (info : Info) :
  (r_visible (fill_info data info) = Some false <-> visible info = Some false)
  /\ r_visible (fill_info data info) <> Some true.
Proof.
  unfold fill_info; simpl.
  destruct (visible info) as [[|]|]; split; try split; congruence.
Qed.

Lemma parse_node_info (n : WNode) (data : Data) (node : OsmNode) :
  parse_node n data = Ok node -> n_info node = decode_info data (wn_info n).
Proof.
  unfold parse_node. destruct (decode_tags _ _ _ _); simpl; [|discriminate..].
  intros [= <-]. reflexivity.
Qed.

Lemma parse_way_info (w : WWay) (data : Data) (way : OsmWay) :
  parse_way w data = Ok way -> w_info way = decode_info data (ww_info w).
Proof.
  unfold parse_way. destruct (decode_tags _ _ _ _); simpl; [|discriminate..].
  intros [= <-]. reflexivity.
Qed.

Lemma parse_rel_info (r : WRelation) (data : Data) (rel : OsmRelation) :
  parse_rel r data = Ok rel -> rl_info rel = decode_info data (wr_info r).
Proof.
  unfold parse_rel. destruct (assertArrays _); simpl; [|discriminate..].
  destruct (decode_tags _ _ _ _); simpl; [|discriminate..].
  intros [= <-]. reflexivity.
Qed.

Lemma dense_round_info (dense : DenseNodes) (data : Data) (i : nat)
    (acc acc' : DenseAcc) (node : OsmNode) (dinfo : DenseInfo) :
  dense_round dense data i acc = Ok (node, acc') ->
  truthy (d_withInfo data) = true -> dn_denseinfo dense = Some dinfo ->
  n_info node = attached_info data (dense_info_record dinfo i acc).
Proof.
  unfold dense_round, dense_info_block. intros Hr Hw Hd. rewrite Hw, Hd in Hr.
  destruct (dense_tags_block dense data acc) as [[j tags]| |]; simpl in Hr;
    [|discriminate..].
  destruct (assertArrays _); simpl in Hr; [|discriminate..].
  injection Hr as <- _. reflexivity.
Qed.

(** C4 (amended: the product is a JavaScript number). The record
    [fill_info] builds from a wire info record holds [version] iff the
    wire version is nonzero; [timestamp] iff the raw count is nonzero,
    equal to the raw count times [date_granularity] as JavaScript
    multiplies them: the exact product when it is at most 2^53 in
    magnitude, the nearest binary64 number beyond; [changeset] and [uid]
    each iff nonzero; [user] iff [user_sid] is nonzero and the string
    table yields a non-empty string there; [visible] only as [false],
    exactly when the wire value is [false]. With info enabled and a wire
    info present, a node, way, relation or dense node carries that
    record when some field qualifies and no [info] at all when none
    does. *)
Theorem C4_info_reconstruction (data : Data) (info : Info) :
  let ret := fill_info data info in
  ((is_Some (r_version ret) <-> version info <> 0)
   /\ forall v, r_version ret = Some v -> v = version info)
  /\ ((is_Some (r_timestamp ret) <-> timestamp info <> 0)
      /\ forall v, r_timestamp ret = Some v ->
           v = nearest (timestamp info * d_date_granularity data)
           /\ (Z.abs (timestamp info * d_date_granularity data) <= 2 ^ 53 ->
               v = timestamp info * d_date_granularity data))
  /\ ((is_Some (r_changeset ret) <-> changeset info <> 0)
      /\ forall v, r_changeset ret = Some v -> v = changeset info)
  /\ ((is_Some (r_uid ret) <-> uid info <> 0)
      /\ forall v, r_uid ret = Some v -> v = uid info)
  /\ (forall s, r_user ret = Some s <->
        user_sid info <> 0
        /\ js_index (d_strings data) (user_sid info) = Some s /\ s <> "")
  /\ ((r_visible ret = Some false <-> visible info = Some false)
      /\ r_visible ret <> Some true)
  /\ (attached_info data info = None <->
        r_version ret = None /\ r_timestamp ret = None /\ r_changeset ret = None
        /\ r_uid ret = None /\ r_user ret = None /\ r_visible ret = None)
  /\ (attached_info data info <> None -> attached_info data info = Some ret)
  /\ (truthy (d_withInfo data) = true ->
      (forall n node, wn_info n = Some info -> parse_node n data = Ok node ->
         n_info node = attached_info data info)
      /\ (forall w way, ww_info w = Some info -> parse_way w data = Ok way ->
            w_info way = attached_info data info)
      /\ (forall r rel, wr_info r = Some info -> parse_rel r data = Ok rel ->
            rl_info rel = attached_info data info)
      /\ (forall dense dinfo i acc acc' node,
            dn_denseinfo dense = Some dinfo ->
            info = dense_info_record dinfo i acc ->
            dense_round dense data i acc = Ok (node, acc') ->
            n_info node = attached_info data info)).
Proof.
  intros ret.
  split; [apply nonzero_field|].
  split.
  { split; [apply nonzero_field|]. intros v Hv.
    apply nonzero_field in Hv. subst v. split; [reflexivity|].
    apply num_mul_exact. }
  split; [apply nonzero_field|].
  split; [apply nonzero_field|].
  split; [intros s; apply fill_info_user|].
  split; [apply fill_info_visible|].
  split.
  { unfold attached_info. fold ret. rewrite <- isEmpty_true_iff.
    destruct (isEmpty ret); split; congruence. }
  split.
  { unfold attached_info. fold ret. destruct (isEmpty ret); congruence. }
  intros Hw. repeat split.
  - intros n node Hi Hp. rewrite (parse_node_info _ _ _ Hp).
    unfold decode_info. rewrite Hw, Hi. reflexivity.
  - intros w way Hi Hp. rewrite (parse_way_info _ _ _ Hp).
    unfold decode_info. rewrite Hw, Hi. reflexivity.
  - intros r rel Hi Hp. rewrite (parse_rel_info _ _ _ Hp).
    unfold decode_info. rewrite Hw, Hi. reflexivity.
  - intros dense dinfo i acc acc' node Hd -> Hr.
    exact (dense_round_info _ _ _ _ _ _ _ Hr Hw Hd).
Qed.

(** ** Delta decoding: running sums *)

Lemma prefix_sum_cons_0 (d : Z) (deltas : list Z) :
  prefix_sum (d :: deltas) 0 = d.
Proof. unfold prefix_sum. simpl. rewrite ?take_0. simpl. lia. Qed.

Lemma prefix_sum_cons_S (d : Z) (deltas : list Z) (i : nat) :
  prefix_sum (d :: deltas) (S i) = d + prefix_sum deltas i.
Proof. reflexivity. Qed.

Lemma prefix_sum_take (deltas : list Z) (i j : nat) :
  (j <= i)%nat -> prefix_sum (take (S i) deltas) j = prefix_sum deltas j.
Proof.
  intros Hj. unfold prefix_sum. rewrite take_take. do 2 f_equal. lia.
Qed.

(** Sums that stay within 2^53 are added without rounding. *)
Lemma fold_num_add_exact (l : list Z) :
  forall acc,
  (forall j, (j < length l)%nat -> Z.abs (acc + prefix_sum l j) <= 2 ^ 53) ->
  fold_left num_add l acc = acc + foldr Z.add 0 l.
Proof.
  induction l as [|d l IH]; intros acc Hb; simpl; [lia|].
  assert (num_add acc d = acc + d) as ->.
  { apply num_add_exact. specialize (Hb 0%nat ltac:(simpl; lia)).
    rewrite prefix_sum_cons_0 in Hb. exact Hb. }
  rewrite IH; [lia|]. intros j Hj.
  specialize (Hb (S j) ltac:(simpl; lia)). rewrite prefix_sum_cons_S in Hb.
  rewrite <- Z.add_assoc. exact Hb.
Qed.

Lemma running_exact (deltas : list Z) (i : nat) :
  exact_sums deltas -> (i < length deltas)%nat ->
  running deltas i = prefix_sum deltas i.
Proof.
  intros Hex Hi. unfold running. rewrite fold_num_add_exact.
  - unfold prefix_sum. lia.
  - intros j Hj. rewrite length_take in Hj.
    rewrite prefix_sum_take by lia. rewrite Z.add_0_l. apply Hex. lia.
Qed.

Lemma run_num_fold (arr : list Z) (k : nat) :
  forall (acc : Z) (i : nat), (i + k < length arr)%nat ->
  run_num acc arr i k = fold_left num_add (take (S k) (drop i arr)) acc.
Proof.
  induction k as [|k IH]; intros acc i Hlt;
    destruct (lookup_lt_is_Some_2 arr i) as [x Hx]; try lia;
    rewrite (drop_S _ _ _ Hx); cbn [run_num take fold_left]; unfold elem;
    rewrite Hx; cbn [default].
  - rewrite ?take_0. reflexivity.
  - rewrite IH by lia. reflexivity.
Qed.

Lemma run_num_running (arr : list Z) (k : nat) :
  (k < length arr)%nat -> run_num 0 arr 0 k = running arr k.
Proof. intros Hk. rewrite run_num_fold by lia. rewrite drop_0. reflexivity. Qed.

Lemma refs_loop_lookup (deltas : list Z) (ref : Z) (i : nat) :
  (i < length deltas)%nat ->
  refs_loop deltas ref !! i = Some (fold_left num_add (take (S i) deltas) ref).
Proof.
  revert ref i. induction deltas as [|d deltas IH]; intros ref i Hi; simpl in Hi; [lia|].
  destruct i as [|i]; simpl.
  - rewrite ?take_0. reflexivity.
  - rewrite IH by lia. reflexivity.
Qed.

Lemma refs_loop_length (deltas : list Z) (ref : Z) :
  length (refs_loop deltas ref) = length deltas.
Proof. revert ref. induction deltas; intros; simpl; auto. Qed.

(** ** Relation members *)

Lemma head_drop {A : Type} (l : list A) (i : nat) : head (drop i l) = l !! i.
Proof.
  revert i. induction l as [|x l IH]; intros [|i]; simpl; auto.
Qed.

Lemma members_loop_length (strings : list string) (memids types roles_sid : list Z)
    (ref : Z) :
  length (members_loop strings memids types roles_sid ref) = length memids.
Proof.
  revert types roles_sid ref.
  induction memids; intros; simpl; auto.
Qed.

Lemma members_loop_lookup (strings : list string) (memids types roles_sid : list Z)
    (ref : Z) (i : nat) :
  (i < length memids)%nat ->
  members_loop strings memids types roles_sid ref !! i =
  Some {| m_type := js_index_opt memberTypes (types !! i);
          m_ref := fold_left num_add (take (S i) memids) ref;
          m_role := js_index_opt strings (roles_sid !! i) |}.
Proof.
  revert types roles_sid ref i.
  induction memids as [|m memids IH]; intros types roles_sid ref i Hi;
    simpl in Hi; [lia|].
  destruct i as [|i]; simpl.
  - rewrite ?take_0. destruct types, roles_sid; reflexivity.
  - rewrite IH by lia.
    do 2 f_equal; [destruct types; reflexivity | destruct roles_sid; reflexivity].
Qed.

Lemma memberTypes_unknown (ty : Z) :
  ~ (0 <= ty <= 2) -> js_index memberTypes ty = None.
Proof.
  intros Hty. unfold js_index.
  destruct (Z.ltb_spec ty 0) as [|Hge]; [reflexivity|].
  apply lookup_ge_None. simpl. lia.
Qed.

Lemma memberTypes_known (ty : Z) :
  0 <= ty <= 2 -> is_Some (js_index memberTypes ty).
Proof.
  intros Hty. unfold js_index.
  destruct (Z.ltb_spec ty 0) as [|Hge]; [lia|].
  apply lookup_lt_is_Some. simpl. lia.
Qed.

(** ** The tag loop *)

Lemma tags_loop_fold (strings : list string) (o : option TagOption)
    (keys vals : list Z) (tags : Tags) :
  tags_loop strings o keys vals tags =
  fold_left (tag_put (tag_accepted o)) (decoded_pairs strings keys vals) tags.
Proof.
  revert vals tags. induction keys as [|k keys IH]; intros vals tags; simpl;
    [reflexivity|].
  rewrite IH. reflexivity.
Qed.

Lemma decoded_pairs_length (strings : list string) (keys vals : list Z) :
  length (decoded_pairs strings keys vals) = length keys.
Proof. revert vals. induction keys; intros; simpl; auto. Qed.

Lemma decoded_pairs_lookup (strings : list string) (keys vals : list Z) (i : nat) :
  decoded_pairs strings keys vals !! i =
  (fun k => (js_index strings k, js_index_opt strings (vals !! i))) <$> keys !! i.
Proof.
  revert vals i. induction keys as [|k keys IH]; intros vals i; [reflexivity|].
  destruct i as [|i]; simpl.
  - destruct vals; reflexivity.
  - rewrite IH. destruct vals; simpl; [|reflexivity].
    destruct (keys !! i); reflexivity.
Qed.

Lemma tag_put_stored (accept : option string -> bool) (tags : Tags)
    (p : option string * option string) :
  tag_put accept tags p
  = if stored accept p.1 then <[prop_key p.1 := p.2]> tags else tags.
Proof.
  unfold tag_put, tag_assign, stored. destruct (accept p.1), (settable p.1); reflexivity.
Qed.

Lemma settable_spec (key : option string) :
  settable key = true <-> key <> Some "__proto__".
Proof.
  unfold settable, prop_key. destruct key as [k|]; cbn [default from_option id].
  - destruct (String.eqb_spec k "__proto__") as [->|Hne]; cbn [negb]; split.
    + discriminate.
    + intros Hc. contradiction.
    + intros _ [= Hk]. contradiction.
    + reflexivity.
  - split; [discriminate | reflexivity].
Qed.

Section TagFold.
Variables accept store : option string -> bool.
Hypothesis store_spec : forall key, stored accept key = store key.

Lemma tag_put_store (tags : Tags) (p : option string * option string) :
  tag_put accept tags p = if store p.1 then <[prop_key p.1 := p.2]> tags else tags.
Proof. rewrite tag_put_stored, store_spec. reflexivity. Qed.

Lemma fold_tag_put_keep (ps : list (option string * option string)) (tags : Tags)
    (name : string) :
  (forall p, p ∈ ps -> store p.1 = true -> prop_key p.1 <> name) ->
  fold_left (tag_put accept) ps tags !! name = tags !! name.
Proof.
  revert tags. induction ps as [|p ps IH]; intros tags Hno; simpl; [reflexivity|].
  rewrite IH.
  - rewrite tag_put_store. destruct (store p.1) eqn:Ha; [|reflexivity].
    apply lookup_insert_ne. apply Hno; [left | exact Ha].
  - intros q Hq. apply Hno. right. exact Hq.
Qed.

Lemma fold_tag_put_dom (ps : list (option string * option string)) (tags : Tags)
    (name : string) :
  is_Some (fold_left (tag_put accept) ps tags !! name) <->
  is_Some (tags !! name)
  \/ exists p, p ∈ ps /\ store p.1 = true /\ prop_key p.1 = name.
Proof.
  revert tags. induction ps as [|p ps IH]; intros tags; simpl.
  - split; [auto|]. intros [Hs|(p & Hp & _)]; [exact Hs|]. inversion Hp.
  - rewrite IH. rewrite tag_put_store. split.
    + intros [Hs|(q & Hq & Ha & Hn)].
      * destruct (store p.1) eqn:Ha; [|auto].
        destruct (decide (prop_key p.1 = name)) as [He|Hne].
        -- right. exists p. split; [left|auto].
        -- rewrite lookup_insert_ne in Hs by exact Hne. auto.
      * right. exists q. split; [right; exact Hq | auto].
    + intros [Hs|(q & Hq & Ha & Hn)].
      * left. destruct (store p.1); [|exact Hs].
        destruct (decide (prop_key p.1 = name)) as [He|Hne].
        -- rewrite He, lookup_insert_eq. eauto.
        -- rewrite lookup_insert_ne by exact Hne. exact Hs.
      * apply elem_of_cons in Hq as [->|Hq].
        -- left. rewrite Ha, Hn, lookup_insert_eq. eauto.
        -- right. exists q. auto.
Qed.

Lemma fold_tag_put_last (ps : list (option string * option string)) (tags : Tags) :
  last_wins store ps (fold_left (tag_put accept) ps tags).
Proof.
  revert tags. induction ps as [|p0 ps IH]; intros tags i p Hi Ha Hlater.
  - discriminate.
  - destruct i as [|i]; simpl in Hi |- *.
    + injection Hi as ->.
      rewrite fold_tag_put_keep.
      * rewrite tag_put_store, Ha. apply lookup_insert_eq.
      * intros q Hq Haq. apply list_elem_of_lookup in Hq as [i' Hi'].
        apply (Hlater (S i') q); [lia | exact Hi' | exact Haq].
    + apply (IH _ i p Hi Ha). intros i' q Hlt Hq Haq.
      apply (Hlater (S i') q); [lia | exact Hq | exact Haq].
Qed.

Lemma fold_tag_put_exactly (ps : list (option string * option string)) :
  keys_exactly store ps (fold_left (tag_put accept) ps ∅).
Proof.
  intros name. rewrite fold_tag_put_dom. rewrite lookup_empty. split.
  - intros [[x Hx]|Hp]; [discriminate | exact Hp].
  - auto.
Qed.

Lemma fold_tag_put_empty (ps : list (option string * option string)) :
  fold_left (tag_put accept) ps ∅ = ∅ <->
  forall p, p ∈ ps -> store p.1 = false.
Proof.
  split.
  - intros He p Hp. destruct (store p.1) eqn:Ha; [|reflexivity].
    assert (is_Some (fold_left (tag_put accept) ps ∅ !! prop_key p.1)) as [x Hx].
    { apply fold_tag_put_dom. right. exists p. auto. }
    rewrite He, lookup_empty in Hx. discriminate.
  - intros Hno. apply map_eq. intros name. rewrite lookup_empty.
    apply eq_None_not_Some. rewrite fold_tag_put_dom, lookup_empty.
    intros [[x Hx]|(p & Hp & Ha & _)]; [discriminate|].
    rewrite (Hno p Hp) in Ha. discriminate.
Qed.

(** What the filtered tags are for a filter that stores the keys
    [store] holds. *)
Lemma filtered_tags_spec (ps : list (option string * option string)) :
  let tags := fold_left (tag_put accept) ps ∅ in
  let result := if isEmpty_tags tags then None else Some tags in
  (is_Some result <-> exists p, p ∈ ps /\ store p.1 = true)
  /\ forall tags', result = Some tags' ->
       keys_exactly store ps tags' /\ last_wins store ps tags'.
Proof.
  intros tags result. subst result. unfold isEmpty_tags. split.
  - case_bool_decide as He.
    + split; [intros [x Hx]; discriminate|].
      intros (p & Hp & Ha). subst tags. rewrite fold_tag_put_empty in He.
      rewrite (He p Hp) in Ha. discriminate.
    + split; [|eauto]. intros _.
      destruct (existsb (fun p => store p.1) ps) eqn:Hex.
      * apply existsb_exists in Hex as (p & Hp & Ha).
        exists p. split; [apply list_elem_of_In; exact Hp | exact Ha].
      * exfalso. apply He. apply fold_tag_put_empty. intros p Hp.
        destruct (store p.1) eqn:Ha; [|reflexivity].
        assert (existsb (fun p => store p.1) ps = true) as Hc; [|congruence].
        apply existsb_exists. exists p.
        split; [apply list_elem_of_In; exact Hp | exact Ha].
  - intros tags' Hr. case_bool_decide; [discriminate|].
    injection Hr as <-. split; [apply fold_tag_put_exactly | apply fold_tag_put_last].
Qed.

End TagFold.

Lemma set_has_strings (allowed : list string) (key : option string) :
  set_has (VString <$> allowed) key = in_set allowed key.
Proof.
  unfold set_has, in_set. destruct key as [k|].
  - induction allowed as [|s allowed IH]; [reflexivity|].
    cbn [fmap list_fmap existsb]. rewrite IH.
    destruct (String.eqb_spec s k) as [->|Hne]; simpl.
    + symmetry. apply bool_decide_eq_true_2. left.
    + apply bool_decide_ext. split.
      * intros Hin. right. exact Hin.
      * intros Hin. apply elem_of_cons in Hin as [->|Hin]; [contradiction|exact Hin].
  - induction allowed as [|s allowed IH]; [reflexivity|]. exact IH.
Qed.

Lemma decode_tags_disabled (data : Data) (kind : string) (keys vals : list Z) :
  tags_enabled (d_withTags data !! kind) = false ->
  decode_tags data kind keys vals = Ok None.
Proof. intros Hd. unfold decode_tags. rewrite Hd. reflexivity. Qed.

Lemma decode_tags_mismatch (data : Data) (kind : string) (keys vals : list Z) :
  tags_enabled (d_withTags data !! kind) = true ->
  length keys <> length vals ->
  decode_tags data kind keys vals = Throw FormatError.
Proof.
  intros He Hl. unfold decode_tags. rewrite He, assertArrays_pair.
  rewrite bool_decide_eq_false_2 by exact Hl. reflexivity.
Qed.

Lemma decode_tags_enabled (data : Data) (kind : string) (keys vals : list Z) :
  tags_enabled (d_withTags data !! kind) = true ->
  length keys = length vals ->
  decode_tags data kind keys vals =
  Ok (let tags := fold_left (tag_put (tag_accepted (d_withTags data !! kind)))
                    (decoded_pairs (d_strings data) keys vals) ∅ in
      if isEmpty_tags tags then None else Some tags).
Proof.
  intros He Hl. unfold decode_tags. rewrite He, assertArrays_pair.
  rewrite bool_decide_eq_true_2 by exact Hl. simpl.
  rewrite tags_loop_fold. reflexivity.
Qed.

Lemma filtered_tags_laws (o : option TagOption)
    (ps : list (option string * option string)) :
  tags_enabled o = true ->
  tag_filter_laws o ps
    (let tags := fold_left (tag_put (tag_accepted o)) ps ∅ in
     if isEmpty_tags tags then None else Some tags).
Proof.
  intros He. cbv zeta.
  split; [|split; [|split]].
  - intros Ho. rewrite Ho in He. discriminate.
  - intros Ho.
    destruct (filtered_tags_spec (tag_accepted o) settable) with (ps := ps)
      as [Hsome Hlaws].
    { intros key. rewrite Ho. reflexivity. }
    split; [|exact Hlaws]. rewrite Hsome. split.
    + intros (p & Hp & Hs). exists p. split; [exact Hp|]. apply settable_spec, Hs.
    + intros (p & Hp & Hs). exists p. split; [exact Hp|]. apply settable_spec, Hs.
  - intros allowed Ho.
    destruct (filtered_tags_spec (tag_accepted o) (stored (in_set allowed)))
      with (ps := ps) as [Hsome Hlaws].
    { intros key. rewrite Ho. unfold stored. cbn [tag_accepted].
      rewrite set_has_strings. reflexivity. }
    split; [|exact Hlaws]. rewrite Hsome. split.
    + intros (p & Hp & Ha). unfold stored in Ha. apply andb_true_iff in Ha as [Ha Hs].
      unfold in_set in Ha.
      destruct p.1 as [k|] eqn:Hk; [|discriminate].
      exists p, k. split; [exact Hp|]. split; [exact Hk|].
      apply bool_decide_eq_true_1 in Ha. split; [exact Ha|].
      apply settable_spec in Hs. congruence.
    + intros (p & k & Hp & Hk & Hin & Hne). exists p. split; [exact Hp|].
      unfold stored, in_set. rewrite Hk. apply andb_true_iff. split.
      * apply bool_decide_eq_true_2. exact Hin.
      * apply settable_spec. congruence.
  - intros Ho.
    destruct (filtered_tags_spec (tag_accepted o) (fun _ => false)) with (ps := ps)
      as [Hsome _].
    { intros key. rewrite Ho. reflexivity. }
    destruct (if isEmpty_tags _ then None else Some _) as [tags|]; [|reflexivity].
    destruct Hsome as [Hsome _]. destruct Hsome as (p & _ & Hp); [eauto | discriminate].
Qed.

Lemma no_tags_laws (o : option TagOption)
    (ps : list (option string * option string)) :
  tags_enabled o = false -> tag_filter_laws o ps None.
Proof.
  intros He. split; [|split; [|split]].
  - reflexivity.
  - intros Ho. rewrite Ho in He. discriminate.
  - intros allowed Ho. rewrite Ho in He. discriminate.
  - reflexivity.
Qed.

Lemma decode_tags_laws (data : Data) (kind : string) (keys vals : list Z) :
  (tags_enabled (d_withTags data !! kind) = true -> length keys = length vals) ->
  exists result, decode_tags data kind keys vals = Ok result
    /\ tag_filter_laws (d_withTags data !! kind)
         (decoded_pairs (d_strings data) keys vals) result.
Proof.
  intros Hl. destruct (tags_enabled (d_withTags data !! kind)) eqn:He.
  - rewrite decode_tags_enabled by auto.
    eexists. split; [reflexivity|]. apply filtered_tags_laws. exact He.
  - rewrite decode_tags_disabled by assumption.
    eexists. split; [reflexivity|]. apply no_tags_laws. exact He.
Qed.

Lemma decode_tags_returns (data : Data) (kind : string) (keys vals : list Z) :
  (tags_enabled (d_withTags data !! kind) = true -> length keys = length vals) ->
  exists result, decode_tags data kind keys vals = Ok result.
Proof.
  intros Hl. destruct (tags_enabled (d_withTags data !! kind)) eqn:He.
  - rewrite decode_tags_enabled by auto. eauto.
  - rewrite decode_tags_disabled by auto. eauto.
Qed.

(** ** Relations *)

(** C9 (amended: the arrays of the relation must be parallel). A relation
    whose [types] array holds an integer outside 0..2 is decoded without
    error when its [memids], [types] and [roles_sid] have the same
    length and, with tags enabled for relations, so have its [keys] and
    [vals]: the member at that index is emitted with an undefined
    [type], since [memberTypes[r.types[i]]] is an unchecked read of the
    three-entry table; every member, that one included, gets its [ref]
    as the running sum of [memids] (the exact sum as long as the sums
    stay within 2^53) and its [role] from the string table. *)
Theorem C9_unknown_member_type (r : WRelation) (data : Data) :
  length (wr_types r) = length (wr_memids r) ->
  length (wr_roles_sid r) = length (wr_memids r) ->
  (tags_enabled (d_withTags data !! "relation") = true ->
   length (wr_keys r) = length (wr_vals r)) ->
  exists rel, parse_rel r data = Ok rel
    /\ length (rl_members rel) = length (wr_memids r)
    /\ forall i ty, wr_types r !! i = Some ty ->
         exists m, rl_members rel !! i = Some m
           /\ m_type m = js_index memberTypes ty
           /\ (~ (0 <= ty <= 2) -> m_type m = None)
           /\ (0 <= ty <= 2 -> is_Some (m_type m))
           /\ m_ref m = running (wr_memids r) i
           /\ (exact_sums (wr_memids r) -> m_ref m = prefix_sum (wr_memids r) i)
           /\ m_role m = js_index_opt (d_strings data) (wr_roles_sid r !! i).
Proof.
  intros Ht Hr Hk.
  destruct (decode_tags_returns data "relation" _ _ Hk) as [tags Htags].
  unfold parse_rel. rewrite assertArrays_ok_all by (repeat constructor; assumption).
  simpl. rewrite Htags. eexists. split; [reflexivity|]. simpl.
  split; [apply members_loop_length|].
  intros i ty Hi.
  assert (i < length (wr_memids r))%nat as Hlt.
  { rewrite <- Ht. apply lookup_lt_Some in Hi. exact Hi. }
  rewrite members_loop_lookup by exact Hlt. eexists. split; [reflexivity|]. simpl.
  rewrite Hi. simpl.
  split; [reflexivity|].
  split; [apply memberTypes_unknown|].
  split; [apply memberTypes_known|].
  split; [reflexivity|].
  split; [|reflexivity].
  intros Hex. apply (running_exact _ _ Hex Hlt).
Qed.

(** ** Length checks of the plain decoders *)

Lemma parse_node_mismatch (n : WNode) (data : Data) :
  tags_enabled (d_withTags data !! "node") = true ->
  length (wn_keys n) <> length (wn_vals n) ->
  parse_node n data = Throw FormatError.
Proof.
  intros He Hl. unfold parse_node. rewrite decode_tags_mismatch by assumption.
  reflexivity.
Qed.

Lemma parse_way_mismatch (w : WWay) (data : Data) :
  tags_enabled (d_withTags data !! "way") = true ->
  length (ww_keys w) <> length (ww_vals w) ->
  parse_way w data = Throw FormatError.
Proof.
  intros He Hl. unfold parse_way. rewrite decode_tags_mismatch by assumption.
  reflexivity.
Qed.

Lemma parse_rel_members_mismatch (r : WRelation) (data : Data) :
  length (wr_types r) <> length (wr_memids r)
  \/ length (wr_roles_sid r) <> length (wr_memids r) ->
  parse_rel r data = Throw FormatError.
Proof.
  intros Hl. unfold parse_rel. rewrite assertArrays_throws; [reflexivity|].
  destruct Hl as [Hl|Hl].
  - apply Exists_cons_hd. exact Hl.
  - apply Exists_cons_tl, Exists_cons_hd. exact Hl.
Qed.

Lemma parse_rel_tags_mismatch (r : WRelation) (data : Data) :
  tags_enabled (d_withTags data !! "relation") = true ->
  length (wr_keys r) <> length (wr_vals r) ->
  parse_rel r data = Throw FormatError.
Proof.
  intros He Hl. unfold parse_rel.
  destruct (assertArrays [wr_memids r; wr_types r; wr_roles_sid r]) as [[]| |] eqn:Ha.
  - simpl. rewrite decode_tags_mismatch by assumption. reflexivity.
  - rewrite assertArrays_cons in Ha. destruct (forallb _ _); [discriminate|].
    injection Ha as <-. reflexivity.
  - rewrite assertArrays_cons in Ha. destruct (forallb _ _); discriminate.
Qed.

(** ** Dense nodes *)

Lemma take_segment_rest (kv : list Z) (seg : list (Z * Z)) (rest : list Z) :
  take_segment kv = Some (seg, rest) -> rest = drop (S (2 * length seg)) kv.
Proof.
  revert kv rest.
  induction seg as [|p seg IH]; intros kv rest Hs.
  - destruct kv as [|k kv]; simpl in Hs; [discriminate|].
    destruct (k =? 0).
    + injection Hs as <-. reflexivity.
    + destruct kv as [|v kv]; [discriminate|].
      destruct (take_segment kv) as [[ps r]|]; discriminate.
  - destruct kv as [|k kv]; simpl in Hs; [discriminate|].
    destruct (k =? 0); [discriminate|].
    destruct kv as [|v kv]; [discriminate|].
    destruct (take_segment kv) as [[ps r]|] eqn:Hkv; [|discriminate].
    injection Hs as _ Hps Hr. rewrite <- Hr. rewrite Hps in Hkv.
    rewrite (IH kv r Hkv).
    simpl. replace (length seg + S (length seg + 0))%nat
      with (S (2 * length seg))%nat by lia. reflexivity.
Qed.

Lemma dense_tags_loop_spec (strings : list string) (o : option TagOption)
    (kv : list Z) (fuel : nat) (j : nat) (tags : Tags) :
  (length kv - j <= fuel)%nat ->
  dense_tags_loop fuel strings o kv j tags =
  match take_segment (drop j kv) with
  | Some (seg, _) =>
      Ok ((j + 2 * length seg)%nat,
          fold_left (tag_put (tag_accepted o)) (segment_pairs strings seg) tags)
  | None => Diverge
  end.
Proof.
  revert j tags. induction fuel as [|fuel IH]; intros j tags Hf.
  - rewrite drop_ge by lia. simpl. rewrite (lookup_ge_None_2 kv j) by lia. reflexivity.
  - destruct (drop j kv) as [|k rest] eqn:Hd.
    + pose proof (head_drop kv j) as Hh. rewrite Hd in Hh. simpl in Hh.
      simpl. rewrite <- Hh. reflexivity.
    + pose proof (head_drop kv j) as Hh. rewrite Hd in Hh. simpl in Hh.
      assert (drop (j + 2) kv = drop 1 rest) as Hd2.
      { rewrite <- drop_drop. rewrite Hd. reflexivity. }
      assert (kv !! (j + 1)%nat = head rest) as Hv.
      { rewrite <- head_drop. rewrite <- drop_drop, Hd. reflexivity. }
      assert (length kv - (j + 2) <= fuel)%nat as Hf' by lia.
      cbn [dense_tags_loop]. rewrite <- Hh.
      destruct k as [|p|p].
      * simpl. rewrite Nat.add_0_r. reflexivity.
      * rewrite (IH _ _ Hf'), Hd2, Hv. cbn [take_segment Z.eqb].
        destruct rest as [|v rest']; [reflexivity|]. simpl drop.
        rewrite drop_0.
        destruct (take_segment rest') as [[ps r]|]; [|reflexivity].
        simpl. f_equal. f_equal. lia.
      * rewrite (IH _ _ Hf'), Hd2, Hv. cbn [take_segment Z.eqb].
        destruct rest as [|v rest']; [reflexivity|]. simpl drop.
        rewrite drop_0.
        destruct (take_segment rest') as [[ps r]|]; [|reflexivity].
        simpl. f_equal. f_equal. lia.
Qed.

Section DenseProps.
Variables (dense : DenseNodes) (data : Data).

Let kv := dn_keys_vals dense.
Let o := d_withTags data !! "node".

Hypothesis info_parallel :
  truthy (d_withInfo data) = true ->
  forall dinfo, dn_denseinfo dense = Some dinfo -> dense_info_parallel dense dinfo.

Lemma dense_info_block_returns (i : nat) (acc : DenseAcc) :
  exists r, dense_info_block dense data i acc = Ok r.
Proof.
  unfold dense_info_block.
  destruct (truthy (d_withInfo data)) eqn:Hw; [|eauto].
  destruct (dn_denseinfo dense) as [dinfo|] eqn:Hd; [|eauto].
  destruct (info_parallel eq_refl dinfo eq_refl) as (H1 & H2 & H3 & H4 & H5).
  rewrite assertArrays_ok_all by (repeat constructor; assumption).
  simpl. eauto.
Qed.

Lemma dense_round_ok (i : nat) (acc : DenseAcc) :
  (dense_tags_consumed dense data = true ->
   exists seg rest, take_segment (drop (a_j acc) kv) = Some (seg, rest)) ->
  exists node acc', dense_round dense data i acc = Ok (node, acc')
    /\ n_id node = num_add (a_id acc) (elem (dn_id dense) i)
    /\ n_lat node = scale (d_lat_offset data) (num_add (a_lat acc) (elem (dn_lat dense) i))
                      (d_granularity data)
    /\ n_lon node = scale (d_lon_offset data) (num_add (a_lon acc) (elem (dn_lon dense) i))
                      (d_granularity data)
    /\ a_id acc' = num_add (a_id acc) (elem (dn_id dense) i)
    /\ a_lat acc' = num_add (a_lat acc) (elem (dn_lat dense) i)
    /\ a_lon acc' = num_add (a_lon acc) (elem (dn_lon dense) i)
    /\ (if dense_tags_consumed dense data
        then forall seg rest, take_segment (drop (a_j acc) kv) = Some (seg, rest) ->
               n_tags node = segment_tags o (d_strings data) seg
               /\ drop (a_j acc') kv = rest
        else n_tags node = None /\ a_j acc' = a_j acc).
Proof.
  intros Hseg. unfold dense_round, dense_tags_block.
  change (tags_enabled (d_withTags data !! "node")
          && (0 <? Z.of_nat (length (dn_keys_vals dense))))
    with (dense_tags_consumed dense data).
  destruct (dense_info_block_returns i acc) as [[[[[info ts] cs] ui] us] Hinfo].
  rewrite Hinfo.
  destruct (dense_tags_consumed dense data) eqn:Hc.
  - destruct (Hseg eq_refl) as (seg & rest & Hs).
    rewrite dense_tags_loop_spec by lia. fold kv. rewrite Hs.
    eexists _, _. split; [reflexivity|]. simpl.
    repeat (split; [reflexivity|]).
    intros seg' rest' Hs'. injection Hs' as <- <-.
    split; [reflexivity|]. rewrite (take_segment_rest _ _ _ Hs).
    rewrite drop_drop. f_equal. lia.
  - eexists _, _. split; [reflexivity|]. simpl.
    repeat (split; [reflexivity|]). split; reflexivity.
Qed.

Lemma dense_loop_spec (n : nat) :
  forall (i : nat) (acc : DenseAcc) (segs : list (list (Z * Z))),
  (dense_tags_consumed dense data = true ->
   segments n (drop (a_j acc) kv) = Some segs) ->
  exists nodes, dense_loop dense data n i acc = Ok nodes
    /\ length nodes = n
    /\ forall k node, nodes !! k = Some node ->
         n_id node = run_num (a_id acc) (dn_id dense) i k
         /\ n_lat node = scale (d_lat_offset data)
                           (run_num (a_lat acc) (dn_lat dense) i k) (d_granularity data)
         /\ n_lon node = scale (d_lon_offset data)
                           (run_num (a_lon acc) (dn_lon dense) i k) (d_granularity data)
         /\ n_tags node =
            if dense_tags_consumed dense data
            then segs !! k ≫= segment_tags o (d_strings data)
            else None.
Proof.
  induction n as [|n IH]; intros i acc segs Hsegs.
  - exists []. split; [reflexivity|]. split; [reflexivity|]. intros k node Hk. discriminate.
  - assert (dense_tags_consumed dense data = true ->
            exists seg rest segs',
              take_segment (drop (a_j acc) kv) = Some (seg, rest)
              /\ segments n rest = Some segs' /\ segs = seg :: segs') as Hsplit.
    { intros Hc. specialize (Hsegs Hc). simpl in Hsegs.
      destruct (take_segment (drop (a_j acc) kv)) as [[seg rest]|] eqn:Hs; [|discriminate].
      destruct (segments n rest) as [segs'|] eqn:Hss; [|discriminate].
      injection Hsegs as <-. exists seg, rest, segs'. auto. }
    destruct (dense_round_ok i acc) as
      (node & acc' & Hr & Hid & Hlat & Hlon & Haid & Halat & Halon & Htags).
    { intros Hc. destruct (Hsplit Hc) as (seg & rest & _ & Hs & _). eauto. }
    destruct (IH (S i) acc' (tail segs)) as (nodes & Hl & Hlen & Hnodes).
    { intros Hc. rewrite Hc in Htags.
      destruct (Hsplit Hc) as (seg & rest & segs' & Hs & Hss & ->).
      destruct (Htags seg rest Hs) as [_ ->]. exact Hss. }
    cbn [dense_loop]. rewrite Hr. cbn [mbind outcome_bind]. rewrite Hl.
    eexists. split; [reflexivity|]. split; [simpl; lia|].
    intros [|k] nd Hk; simpl in Hk.
    + injection Hk as <-. simpl. rewrite Hid, Hlat, Hlon.
      repeat (split; [reflexivity|]).
      destruct (dense_tags_consumed dense data) eqn:Hc; [|apply Htags].
      destruct (Hsplit eq_refl) as (seg & rest & segs' & Hs & Hss & ->).
      destruct (Htags seg rest Hs) as [-> _]. reflexivity.
    + destruct (Hnodes k nd Hk) as (Hi & Hla & Hlo & Ht).
      rewrite Hi, Hla, Hlo, Ht, Haid, Halat, Halon. cbn [run_num].
      do 3 (split; [reflexivity|]).
      destruct (dense_tags_consumed dense data); [|reflexivity].
      destruct segs; reflexivity.
Qed.

End DenseProps.

(** [offset + 0 / granularity] is [offset] for every divisor that is a
    nonzero number and every offset other than [-0]. *)
Lemma scale_zero (offset granularity : float) :
  Prim2SF granularity <> S754_nan ->
  (forall s, Prim2SF granularity <> S754_zero s) ->
  Prim2SF offset <> S754_zero true ->
  scale offset 0 granularity = offset.
Proof.
  intros Hnan Hzero Hoff. apply Prim2SF_inj. unfold scale.
  rewrite FloatAxioms.add_spec, FloatAxioms.div_spec.
  change (number_of_Z 0) with 0%float.
  change (Prim2SF 0%float) with (S754_zero false).
  destruct (Prim2SF granularity) as [s|s| |s m e] eqn:Hg.
  - exfalso. apply (Hzero s). reflexivity.
  - cbn. destruct (Prim2SF offset) as [[|]|?| |? ? ?]; try reflexivity; try congruence.
    all: destruct s; reflexivity.
  - congruence.
  - cbn. destruct (Prim2SF offset) as [[|]|?| |? ? ?]; try reflexivity; try congruence.
    all: destruct s; reflexivity.
Qed.

Lemma parse_dense_spec (dense : DenseNodes) (data : Data) :
  length (dn_lat dense) = length (dn_id dense) ->
  length (dn_lon dense) = length (dn_id dense) ->
  (dense_tags_consumed dense data = true ->
   is_Some (segments (length (dn_id dense)) (dn_keys_vals dense))) ->
  (truthy (d_withInfo data) = true ->
   forall dinfo, dn_denseinfo dense = Some dinfo -> dense_info_parallel dense dinfo) ->
  exists nodes, parse_dense dense data = Ok nodes /\ dense_nodes_spec dense data nodes.
Proof.
  intros Hlat Hlon Hsegs Hinfo.
  unfold parse_dense. rewrite assertArrays_ok_all by (repeat constructor; assumption).
  cbn [mbind outcome_bind].
  set (segs0 := default [] (segments (length (dn_id dense)) (dn_keys_vals dense))).
  destruct (dense_loop_spec dense data Hinfo (length (dn_id dense)) 0%nat dense_start segs0)
    as (nodes & Hl & Hlen & Hnodes).
  { intros Hc. destruct (Hsegs Hc) as [segs Hs]. subst segs0.
    simpl. rewrite drop_0, Hs. reflexivity. }
  exists nodes. split; [exact Hl|]. split; [exact Hlen|].
  intros i node Hi.
  assert (i < length (dn_id dense))%nat as Hlt.
  { rewrite <- Hlen. apply lookup_lt_Some in Hi. exact Hi. }
  destruct (Hnodes i node Hi) as (Hid & Hla & Hlo & Ht).
  cbn [dense_start a_id a_lat a_lon] in Hid, Hla, Hlo.
  rewrite run_num_running in Hid, Hla, Hlo by lia.
  split; [exact Hid|]. split; [exact Hla|]. split; [exact Hlo|].
  split.
  - intros Hc. rewrite Hc in Ht. exact Ht.
  - intros Hc segs Hs. rewrite Hc in Ht. subst segs0. rewrite Hs in Ht. simpl in Ht.
    destruct (segs !! i) as [seg|] eqn:Hseg.
    + exists seg. split; [reflexivity | exact Ht].
    + exfalso. apply lookup_ge_None in Hseg.
      assert (length segs = length (dn_id dense)) as Hls; [|lia].
      clear -Hs. revert Hs. generalize (dn_keys_vals dense) as kv.
      generalize (length (dn_id dense)) as n. intros n. revert segs.
      induction n as [|n IH]; intros segs kv Hs; simpl in Hs.
      * injection Hs as <-. reflexivity.
      * destruct (take_segment kv) as [[seg rest]|]; [|discriminate].
        destruct (segments n rest) as [segs'|] eqn:Hss; [|discriminate].
        injection Hs as <-. simpl. f_equal. apply (IH _ _ Hss).
Qed.

Lemma nil_tags_laws (o : option TagOption) : tag_filter_laws o [] None.
Proof.
  split; [|split; [|split]]; try reflexivity.
  - intros _. split; [|discriminate].
    split; [intros [x Hx]; discriminate | intros (p & Hp & _); inversion Hp].
  - intros allowed _. split; [|discriminate].
    split; [intros [x Hx]; discriminate | intros (p & k & Hp & _); inversion Hp].
Qed.

Lemma segments_nil (n : nat) : segments (S n) [] = None.
Proof. reflexivity. Qed.

Lemma parse_dense_tags (dense : DenseNodes) (data : Data) :
  length (dn_lat dense) = length (dn_id dense) ->
  length (dn_lon dense) = length (dn_id dense) ->
  (dense_tags_consumed dense data = true ->
   is_Some (segments (length (dn_id dense)) (dn_keys_vals dense))) ->
  (truthy (d_withInfo data) = true ->
   forall dinfo, dn_denseinfo dense = Some dinfo -> dense_info_parallel dense dinfo) ->
  exists nodes, parse_dense dense data = Ok nodes
    /\ forall i node, nodes !! i = Some node ->
         tag_filter_laws (d_withTags data !! "node")
           (dense_pairs dense (d_strings data) i) (n_tags node).
Proof.
  intros Hlat Hlon Hsegs Hinfo.
  destruct (parse_dense_spec dense data Hlat Hlon Hsegs Hinfo)
    as (nodes & Hp & Hlen & Hnodes).
  exists nodes. split; [exact Hp|]. intros i node Hi.
  destruct (Hnodes i node Hi) as (_ & _ & _ & Hoff & Hon).
  destruct (dense_tags_consumed dense data) eqn:Hc.
  - destruct (Hsegs eq_refl) as [segs Hs].
    destruct (Hon eq_refl segs Hs) as (seg & Hseg & ->).
    unfold dense_pairs. rewrite Hs, Hseg. simpl.
    apply filtered_tags_laws.
    unfold dense_tags_consumed in Hc. apply andb_true_iff in Hc as [Hc _]. exact Hc.
  - rewrite (Hoff eq_refl).
    unfold dense_tags_consumed in Hc. apply andb_false_iff in Hc as [Hc|Hc].
    + apply no_tags_laws. exact Hc.
    + assert (dn_keys_vals dense = []) as Hkv.
      { destruct (dn_keys_vals dense); [reflexivity|]. simpl in Hc. discriminate. }
      assert (i < length (dn_id dense))%nat as Hlt.
      { rewrite <- Hlen. apply lookup_lt_Some in Hi. exact Hi. }
      unfold dense_pairs. rewrite Hkv.
      destruct (length (dn_id dense)) as [|n]; [lia|].
      rewrite segments_nil. apply nil_tags_laws.
Qed.

(** C2 (amended: an object keeps one value per key, and the key
    [__proto__] makes no property). A plain node, way or relation whose
    [keys] and [vals] have equal lengths when tags are enabled for its
    kind (and whose member arrays are parallel), and the nodes of a
    well-formed dense record, are decoded, and the entity's [tags] obey
    the filter laws of the option stored for its kind: [false] never
    yields tags; [true] yields tags iff the record has at least one pair
    whose key is not [__proto__]; a set of strings yields tags iff some
    decoded key other than [__proto__] is a member, and none for the
    empty set. When present, the property names are exactly the accepted
    decoded keys other than [__proto__], and each such pair is held
    unless a later one has the same key. *)
Theorem C2_tag_filter_laws (data : Data) :
  (forall n,
     (tags_enabled (d_withTags data !! "node") = true ->
      length (wn_keys n) = length (wn_vals n)) ->
     exists node, parse_node n data = Ok node
       /\ tag_filter_laws (d_withTags data !! "node")
            (decoded_pairs (d_strings data) (wn_keys n) (wn_vals n)) (n_tags node))
  /\ (forall w,
        (tags_enabled (d_withTags data !! "way") = true ->
         length (ww_keys w) = length (ww_vals w)) ->
        exists way, parse_way w data = Ok way
          /\ tag_filter_laws (d_withTags data !! "way")
               (decoded_pairs (d_strings data) (ww_keys w) (ww_vals w)) (w_tags way))
  /\ (forall r, length (wr_types r) = length (wr_memids r) ->
        length (wr_roles_sid r) = length (wr_memids r) ->
        (tags_enabled (d_withTags data !! "relation") = true ->
         length (wr_keys r) = length (wr_vals r)) ->
        exists rel, parse_rel r data = Ok rel
          /\ tag_filter_laws (d_withTags data !! "relation")
               (decoded_pairs (d_strings data) (wr_keys r) (wr_vals r)) (rl_tags rel))
  /\ (forall dense,
        length (dn_lat dense) = length (dn_id dense) ->
        length (dn_lon dense) = length (dn_id dense) ->
        (dense_tags_consumed dense data = true ->
         is_Some (segments (length (dn_id dense)) (dn_keys_vals dense))) ->
        (truthy (d_withInfo data) = true ->
         forall dinfo, dn_denseinfo dense = Some dinfo ->
                       dense_info_parallel dense dinfo) ->
        exists nodes, parse_dense dense data = Ok nodes
          /\ forall i node, nodes !! i = Some node ->
               tag_filter_laws (d_withTags data !! "node")
                 (dense_pairs dense (d_strings data) i) (n_tags node)).
Proof.
  split; [|split; [|split]].
  - intros n Hl. destruct (decode_tags_laws data "node" _ _ Hl) as (result & Hd & Hlaws).
    unfold parse_node. rewrite Hd. eexists. split; [reflexivity | exact Hlaws].
  - intros w Hl. destruct (decode_tags_laws data "way" _ _ Hl) as (result & Hd & Hlaws).
    unfold parse_way. rewrite Hd. eexists. split; [reflexivity | exact Hlaws].
  - intros r Ht Hr Hl.
    destruct (decode_tags_laws data "relation" _ _ Hl) as (result & Hd & Hlaws).
    unfold parse_rel. rewrite assertArrays_ok_all by (repeat constructor; assumption).
    simpl. rewrite Hd. eexists. split; [reflexivity | exact Hlaws].
  - intros dense. apply parse_dense_tags.
Qed.

(** The scale fields [parse] computes are usable: the divisor is a
    number other than 0, the offsets are not [-0]. *)
Lemma wire_number_finite (z : Z) : wire_number z -> Z.abs z < 2 ^ 1023.
Proof.
  unfold wire_number. intros Hz.
  assert (2 ^ 64 < 2 ^ 1023) by (apply Z.pow_lt_mono_r; lia). lia.
Qed.

Lemma block_scale_usable (pb : PrimitiveBlock) (wt : WithTags) (wi : jsval) :
  wire_number (pb_granularity pb) -> wire_number (pb_lat_offset pb) ->
  wire_number (pb_lon_offset pb) ->
  usable_scale (d_lat_offset (block_data pb wt wi)) (d_granularity (block_data pb wt wi))
  /\ usable_scale (d_lon_offset (block_data pb wt wi))
       (d_granularity (block_data pb wt wi)).
Proof.
  intros Hg Hlat Hlon. apply wire_number_finite in Hg, Hlat, Hlon.
  assert (exists s m e, Prim2SF (d_granularity (block_data pb wt wi)) = S754_finite s m e)
    as (s & m & e & Hgran).
  { cbn [block_data d_granularity].
    destruct (Z.eqb_spec (pb_granularity pb) 0) as [_|Hz]; cbn [orb].
    - exists false, 5368709120000000%positive, (-29). vm_compute. reflexivity.
    - destruct (pb_granularity pb =? 100).
      + exists false, 5368709120000000%positive, (-29). vm_compute. reflexivity.
      + apply granularity_finite; assumption. }
  unfold usable_scale. rewrite Hgran. cbn [block_data d_lat_offset d_lon_offset].
  split; (split; [discriminate|]; split; [discriminate|]);
    apply offset_not_negative_zero; assumption.
Qed.

(** The exact prefix sums, where a number holds them. *)
Lemma dense_nodes_exact (dense : DenseNodes) (data : Data) (nodes : list OsmNode) :
  dense_nodes_spec dense data nodes ->
  forall i node, nodes !! i = Some node ->
    (exact_sums (dn_id dense) -> n_id node = prefix_sum (dn_id dense) i)
    /\ (exact_sums (dn_lat dense) -> length (dn_lat dense) = length (dn_id dense) ->
        n_lat node = scale (d_lat_offset data) (prefix_sum (dn_lat dense) i)
                       (d_granularity data))
    /\ (exact_sums (dn_lon dense) -> length (dn_lon dense) = length (dn_id dense) ->
        n_lon node = scale (d_lon_offset data) (prefix_sum (dn_lon dense) i)
                       (d_granularity data)).
Proof.
  intros [Hlen Hnodes] i node Hi.
  assert (i < length (dn_id dense))%nat as Hlt.
  { rewrite <- Hlen. apply lookup_lt_Some in Hi. exact Hi. }
  destruct (Hnodes i node Hi) as (Hid & Hla & Hlo & _).
  split; [|split].
  - intros Hex. rewrite Hid. apply running_exact; assumption.
  - intros Hex Hl. rewrite Hla, running_exact by (try assumption; lia). reflexivity.
  - intros Hex Hl. rewrite Hlo, running_exact by (try assumption; lia). reflexivity.
Qed.

(** C3 (amended: the closing zeros and the dense-info lengths are
    preconditions, and the sums are JavaScript numbers). For a dense
    record whose [id], [lat], [lon] have the same length N, whose
    key/value array, when it is consumed (tags enabled for nodes and the
    array non-empty), holds N segments each closed by a key index 0, and
    whose dense-info arrays, when info is enabled, have length N: the
    decoder returns exactly N nodes in order; the i-th has the running
    sums of the [id], [lat], [lon] deltas, which are the exact prefix
    sums as long as these stay within 2^53 in magnitude, the coordinates
    as offset plus sum divided by the divisor; one cursor walks the
    key/value array, node i taking the i-th segment. In every block as
    [parse] prepares it (the [granularity] and the offsets of the wire
    block being integers of at most 64 bits), the record [id=[1,1,1]],
    [lat=lon=[0,0,0]] without tags and dense-info gives three nodes with
    ids 1, 2, 3 whose coordinates are the block's offsets. *)
Theorem C3_dense_decoding :
  (forall (data : Data) (dense : DenseNodes),
     length (dn_lat dense) = length (dn_id dense) ->
     length (dn_lon dense) = length (dn_id dense) ->
     (dense_tags_consumed dense data = true ->
      is_Some (segments (length (dn_id dense)) (dn_keys_vals dense))) ->
     (truthy (d_withInfo data) = true ->
      forall dinfo, dn_denseinfo dense = Some dinfo -> dense_info_parallel dense dinfo) ->
     exists nodes, parse_dense dense data = Ok nodes
       /\ dense_nodes_spec dense data nodes
       /\ forall i node, nodes !! i = Some node ->
            (exact_sums (dn_id dense) -> n_id node = prefix_sum (dn_id dense) i)
            /\ (exact_sums (dn_lat dense) ->
                n_lat node = scale (d_lat_offset data) (prefix_sum (dn_lat dense) i)
                               (d_granularity data))
            /\ (exact_sums (dn_lon dense) ->
                n_lon node = scale (d_lon_offset data) (prefix_sum (dn_lon dense) i)
                               (d_granularity data)))
  /\ (forall (pb : PrimitiveBlock) (wt : WithTags) (wi : jsval),
        wire_number (pb_granularity pb) -> wire_number (pb_lat_offset pb) ->
        wire_number (pb_lon_offset pb) ->
        exists n1 n2 n3,
          parse_dense ex_dense3 (block_data pb wt wi) = Ok [n1; n2; n3]
          /\ n_id n1 = 1 /\ n_id n2 = 2 /\ n_id n3 = 3
          /\ Forall (fun n => n_lat n = d_lat_offset (block_data pb wt wi)
                              /\ n_lon n = d_lon_offset (block_data pb wt wi))
               [n1; n2; n3]).
Proof.
  split.
  - intros data dense Hlat Hlon Hsegs Hinfo.
    destruct (parse_dense_spec dense data Hlat Hlon Hsegs Hinfo) as (nodes & Hp & Hspec).
    exists nodes. split; [exact Hp|]. split; [exact Hspec|].
    intros i node Hi.
    destruct (dense_nodes_exact dense data nodes Hspec i node Hi) as (Hid & Hla & Hlo).
    auto.
  - intros pb wt wi Hg Hla Hlo.
    destruct (block_scale_usable pb wt wi Hg Hla Hlo)
      as [(Hnan & Hzero & Hoff) (_ & _ & Hoff')].
    set (data := block_data pb wt wi) in *.
    destruct (parse_dense_spec ex_dense3 data) as (nodes & Hp & Hlen & Hnodes);
      [reflexivity | reflexivity | | discriminate |].
    { unfold dense_tags_consumed. rewrite andb_false_r. discriminate. }
    destruct nodes as [|n1 [|n2 [|n3 [|n4 nodes]]]]; try discriminate.
    exists n1, n2, n3. split; [exact Hp|].
    destruct (Hnodes 0%nat n1 eq_refl) as (Hi1 & Hla1 & Hlo1 & _).
    destruct (Hnodes 1%nat n2 eq_refl) as (Hi2 & Hla2 & Hlo2 & _).
    destruct (Hnodes 2%nat n3 eq_refl) as (Hi3 & Hla3 & Hlo3 & _).
    rewrite Hi1, Hi2, Hi3.
    do 3 (split; [vm_compute; reflexivity|]).
    repeat constructor.
    all: first [rewrite Hla1 | rewrite Hla2 | rewrite Hla3
               | rewrite Hlo1 | rewrite Hlo2 | rewrite Hlo3].
    all: match goal with
         | |- scale _ ?r _ = _ =>
             replace r with 0 by (vm_compute; reflexivity)
         end.
    all: apply scale_zero; assumption.
Qed.

(** ** Length checks of the dense decoder *)

Lemma not_parallel_exists (dense : DenseNodes) (dinfo : DenseInfo) :
  ~ dense_info_parallel dense dinfo ->
  Exists (fun arg => length arg <> length (dn_id dense))
    [di_timestamp dinfo; di_changeset dinfo; di_uid dinfo; di_user_sid dinfo;
     di_version dinfo].
Proof.
  intros Hnp. unfold dense_info_parallel in Hnp.
  destruct (decide (length (di_timestamp dinfo) = length (dn_id dense))) as [H1|H1];
    [|apply Exists_cons_hd; exact H1].
  apply Exists_cons_tl.
  destruct (decide (length (di_changeset dinfo) = length (dn_id dense))) as [H2|H2];
    [|apply Exists_cons_hd; exact H2].
  apply Exists_cons_tl.
  destruct (decide (length (di_uid dinfo) = length (dn_id dense))) as [H3|H3];
    [|apply Exists_cons_hd; exact H3].
  apply Exists_cons_tl.
  destruct (decide (length (di_user_sid dinfo) = length (dn_id dense))) as [H4|H4];
    [|apply Exists_cons_hd; exact H4].
  apply Exists_cons_tl.
  destruct (decide (length (di_version dinfo) = length (dn_id dense))) as [H5|H5];
    [|apply Exists_cons_hd; exact H5].
  exfalso. apply Hnp. auto.
Qed.

Lemma parse_dense_info_mismatch (dense : DenseNodes) (data : Data) (dinfo : DenseInfo) :
  truthy (d_withInfo data) = true ->
  dn_denseinfo dense = Some dinfo ->
  dn_id dense <> [] ->
  (dense_tags_consumed dense data = true -> is_Some (take_segment (dn_keys_vals dense))) ->
  ~ dense_info_parallel dense dinfo ->
  parse_dense dense data = Throw FormatError.
Proof.
  intros Hw Hd Hid Hseg Hnp. unfold parse_dense.
  rewrite assertArrays_cons. destruct (forallb _ _); [|reflexivity].
  cbn [mbind outcome_bind].
  assert (exists n, length (dn_id dense) = S n) as [n Hn].
  { destruct (dn_id dense); [contradiction|]. simpl. eauto. }
  rewrite Hn. cbn [dense_loop]. unfold dense_round.
  assert (exists jt, dense_tags_block dense data dense_start = Ok jt) as [[j tags] Ht].
  { unfold dense_tags_block.
    change (tags_enabled (d_withTags data !! "node")
            && (0 <? Z.of_nat (length (dn_keys_vals dense))))
      with (dense_tags_consumed dense data).
    destruct (dense_tags_consumed dense data); [|eauto].
    destruct (Hseg eq_refl) as [[seg rest] Hs].
    rewrite dense_tags_loop_spec by lia. simpl. rewrite drop_0, Hs. eauto. }
  rewrite Ht. cbn [mbind outcome_bind].
  unfold dense_info_block. rewrite Hw, Hd.
  rewrite assertArrays_throws; [reflexivity|].
  apply not_parallel_exists. exact Hnp.
Qed.

(** C8 (amended: the tag arrays are checked only when tags are enabled for
    the kind, and [visible] is not among the checked dense-info arrays).
    With tags enabled for its kind, a plain node, way or relation whose
    [keys] and [vals] differ in length fails with the format error; a
    relation whose [memids], [types], [roles_sid] differ in length always
    does; and with info enabled, a dense record of at least one node whose
    first tag segment (if consumed) is closed fails with the format error
    unless [timestamp], [changeset], [uid], [user_sid] and [version] all
    have the length of [id]. *)
Theorem C8_parallel_arrays (data : Data) :
  (forall n, tags_enabled (d_withTags data !! "node") = true ->
     length (wn_keys n) <> length (wn_vals n) ->
     parse_node n data = Throw FormatError)
  /\ (forall w, tags_enabled (d_withTags data !! "way") = true ->
        length (ww_keys w) <> length (ww_vals w) ->
        parse_way w data = Throw FormatError)
  /\ (forall r, tags_enabled (d_withTags data !! "relation") = true ->
        length (wr_keys r) <> length (wr_vals r) ->
        parse_rel r data = Throw FormatError)
  /\ (forall r, length (wr_types r) <> length (wr_memids r)
                \/ length (wr_roles_sid r) <> length (wr_memids r) ->
        parse_rel r data = Throw FormatError)
  /\ (forall dense dinfo,
        truthy (d_withInfo data) = true ->
        dn_denseinfo dense = Some dinfo ->
        dn_id dense <> [] ->
        (dense_tags_consumed dense data = true ->
         is_Some (take_segment (dn_keys_vals dense))) ->
        ~ dense_info_parallel dense dinfo ->
        parse_dense dense data = Throw FormatError).
Proof.
  split; [intros n; apply parse_node_mismatch|].
  split; [intros w; apply parse_way_mismatch|].
  split; [intros r; apply parse_rel_tags_mismatch|].
  split; [intros r; apply parse_rel_members_mismatch|].
  intros dense dinfo. apply parse_dense_info_mismatch.
Qed.

(** ** Instances on the sample records *)

Lemma C2_tag_filter_laws_witness :
  (exists node, parse_node ex_node_twice (ex_data ex_tags_all false) = Ok node
     /\ tag_filter_laws (d_withTags (ex_data ex_tags_all false) !! "node")
          (decoded_pairs (d_strings (ex_data ex_tags_all false))
             (wn_keys ex_node_twice) (wn_vals ex_node_twice))
          (n_tags node))
  /\ (exists node, parse_node ex_node_ragged (ex_data ex_tags_none false) = Ok node
        /\ tag_filter_laws (d_withTags (ex_data ex_tags_none false) !! "node")
             (decoded_pairs (d_strings (ex_data ex_tags_none false))
                (wn_keys ex_node_ragged) (wn_vals ex_node_ragged))
             (n_tags node))
  /\ (exists way, parse_way ex_way (ex_data ex_tags_sets false) = Ok way
        /\ tag_filter_laws (d_withTags (ex_data ex_tags_sets false) !! "way")
             (decoded_pairs (d_strings (ex_data ex_tags_sets false))
                (ww_keys ex_way) (ww_vals ex_way))
             (w_tags way))
  /\ (exists rel, parse_rel ex_relation (ex_data ex_tags_all false) = Ok rel
        /\ tag_filter_laws (d_withTags (ex_data ex_tags_all false) !! "relation")
             (decoded_pairs (d_strings (ex_data ex_tags_all false))
                (wr_keys ex_relation) (wr_vals ex_relation))
             (rl_tags rel))
  /\ (exists nodes,
        parse_dense ex_dense_tagged (ex_data ex_tags_all false) = Ok nodes
        /\ forall i node, nodes !! i = Some node ->
             tag_filter_laws (d_withTags (ex_data ex_tags_all false) !! "node")
               (dense_pairs ex_dense_tagged (d_strings (ex_data ex_tags_all false)) i)
               (n_tags node)).
Proof.
  destruct (C2_tag_filter_laws (ex_data ex_tags_all false)) as (Hn & _ & Hr & Hd).
  destruct (C2_tag_filter_laws (ex_data ex_tags_none false)) as (Hnone & _).
  destruct (C2_tag_filter_laws (ex_data ex_tags_sets false)) as (_ & Hsets & _).
  split; [apply Hn; reflexivity|].
  split; [apply Hnone; discriminate|].
  split; [apply Hsets; reflexivity|].
  split; [apply Hr; reflexivity|].
  apply Hd.
  - reflexivity.
  - reflexivity.
  - intros _. vm_compute. eexists. reflexivity.
  - vm_compute. discriminate.
Defined.

(** With the filter [way: ["name"]], the way tagged [highway = secondary]
    and [name = alice] keeps the name only. *)
Example way_filtered_by_set :
  w_tags <$> parse_way ex_way (ex_data ex_tags_sets false)
  = Ok (Some {[ "name" := Some "alice" ]}).
Proof. vm_compute. reflexivity. Qed.

(** The claim as first stated, that the tags hold every decoded pair and
    are present as soon as the record has a pair, fails on a record that
    repeats a key (the later value replaces the earlier one) and on a
    record whose only key is [__proto__] (no property is created, and
    the node has no tags). *)
Lemma C2_counterexample_lost_pairs :
  (d_withTags (ex_data ex_tags_all false) !! "node" = Some (TBool true)
   /\ length (wn_keys ex_node_twice) = length (wn_vals ex_node_twice)
   /\ exists node tags,
        parse_node ex_node_twice (ex_data ex_tags_all false) = Ok node
        /\ n_tags node = Some tags
        /\ (Some "highway", Some "primary")
             ∈ decoded_pairs (d_strings (ex_data ex_tags_all false))
                 (wn_keys ex_node_twice) (wn_vals ex_node_twice)
        /\ tags !! "highway" = Some (Some "secondary")
        /\ ~ contains_every_pair (fun _ => true)
               (decoded_pairs (d_strings (ex_data ex_tags_all false))
                  (wn_keys ex_node_twice) (wn_vals ex_node_twice))
               tags)
  /\ (d_withTags (block_data ex_block_proto ex_tags_all (VBool false)) !! "node"
      = Some (TBool true)
      /\ decoded_pairs (d_strings (block_data ex_block_proto ex_tags_all (VBool false)))
           (wn_keys ex_node_proto) (wn_vals ex_node_proto)
         = [(Some "__proto__", Some "x")]
      /\ exists node,
           parse_node ex_node_proto (block_data ex_block_proto ex_tags_all (VBool false))
           = Ok node
           /\ n_tags node = None).
Proof.
  split.
  - split; [reflexivity|]. split; [reflexivity|].
    eexists _, _. split; [vm_compute; reflexivity|].
    split; [reflexivity|]. split; [left|]. split; [vm_compute; reflexivity|].
    intros Hall.
    specialize (Hall (Some "highway", Some "primary") ltac:(left) eq_refl).
    vm_compute in Hall. discriminate.
  - split; [reflexivity|]. split; [vm_compute; reflexivity|].
    eexists. split; [vm_compute; reflexivity|]. reflexivity.
Qed.

Lemma C3_dense_decoding_witness :
  (exists nodes,
     parse_dense ex_dense_tagged (ex_data ex_tags_all false) = Ok nodes
     /\ dense_nodes_spec ex_dense_tagged (ex_data ex_tags_all false) nodes)
  /\ (exists n1 n2 n3,
        parse_dense ex_dense3 (ex_data ex_tags_all false) = Ok [n1; n2; n3]
        /\ n_id n1 = 1 /\ n_id n2 = 2 /\ n_id n3 = 3
        /\ n_lat n1 = d_lat_offset (ex_data ex_tags_all false)
        /\ n_lon n1 = d_lon_offset (ex_data ex_tags_all false)).
Proof.
  destruct C3_dense_decoding as [Hgeneral Hscenario].
  split.
  - destruct (Hgeneral (ex_data ex_tags_all false) ex_dense_tagged)
      as (nodes & Hp & Hspec & _).
    + reflexivity.
    + reflexivity.
    + intros _. vm_compute. eexists. reflexivity.
    + vm_compute. discriminate.
    + exists nodes. split; assumption.
  - destruct (Hscenario ex_block ex_tags_all (VBool false))
      as (n1 & n2 & n3 & Hp & H1 & H2 & H3 & Hoff).
    + vm_compute. discriminate.
    + vm_compute. discriminate.
    + vm_compute. discriminate.
    + exists n1, n2, n3. repeat (split; [assumption|]).
      apply Forall_cons in Hoff as [[Hlat Hlon] _]. split; assumption.
Defined.

(** The claim as first stated, N nodes with the prefix sums for every
    record with parallel [id], [lat], [lon], fails on a record whose tag
    segment is never closed (the decoder does not return), on one whose
    dense-info arrays are shorter than [id] (the decoder raises), and on
    one whose ids pass 2^53: the second id is 2^53 again, not 2^53 + 1. *)
Lemma C3_counterexample_dense :
  length (dn_lat ex_dense_open) = length (dn_id ex_dense_open)
  /\ length (dn_lon ex_dense_open) = length (dn_id ex_dense_open)
  /\ parse_dense ex_dense_open (ex_data ex_tags_all false) = Diverge
  /\ length (dn_lat ex_dense_short_info) = length (dn_id ex_dense_short_info)
  /\ length (dn_lon ex_dense_short_info) = length (dn_id ex_dense_short_info)
  /\ parse_dense ex_dense_short_info (ex_data ex_tags_all true) = Throw FormatError
  /\ (fun nodes : list OsmNode => n_id <$> nodes)
       <$> parse_dense ex_dense_far (ex_data ex_tags_all false)
     = Ok [9007199254740992; 9007199254740992]
  /\ prefix_sum (dn_id ex_dense_far) 1 = 9007199254740993.
Proof. repeat split; vm_compute; reflexivity. Qed.

Lemma C4_info_reconstruction_witness :
  exists node,
    parse_node ex_node_info (ex_data ex_tags_all true) = Ok node
    /\ n_info node = attached_info (ex_data ex_tags_all true) ex_info.
Proof.
  eexists. split; [vm_compute; reflexivity|].
  destruct (C4_info_reconstruction (ex_data ex_tags_all true) ex_info)
    as (_ & _ & _ & _ & _ & _ & _ & _ & Hentities).
  destruct (Hentities eq_refl) as (Hnode & _).
  apply (Hnode ex_node_info); [reflexivity | vm_compute; reflexivity].
Defined.

(** The claim as first stated, a timestamp equal to the raw count times
    [date_granularity], fails where JavaScript rounds the product: the raw
    count 2^53 - 1 with the granularity 1000 gives 9007199254740990976,
    24 less than the product. *)
Lemma C4_counterexample_rounded_timestamp :
  d_date_granularity (ex_data ex_tags_all true) = 1000
  /\ timestamp ex_info_late = 9007199254740991
  /\ r_timestamp (fill_info (ex_data ex_tags_all true) ex_info_late)
     = Some 9007199254740990976
  /\ timestamp ex_info_late * d_date_granularity (ex_data ex_tags_all true)
     = 9007199254740991000.
Proof. repeat split; vm_compute; reflexivity. Qed.

Lemma C8_parallel_arrays_witness :
  parse_node ex_node_ragged (ex_data ex_tags_all true) = Throw FormatError
  /\ parse_way ex_way_ragged (ex_data ex_tags_all true) = Throw FormatError
  /\ parse_rel ex_relation_ragged (ex_data ex_tags_all true) = Throw FormatError
  /\ parse_rel ex_relation_short_roles (ex_data ex_tags_all true) = Throw FormatError
  /\ parse_dense ex_dense_short_info (ex_data ex_tags_all true) = Throw FormatError.
Proof.
  destruct (C8_parallel_arrays (ex_data ex_tags_all true)) as (Hn & Hw & Hr & Hm & Hd).
  split; [apply Hn; [reflexivity | vm_compute; lia]|].
  split; [apply Hw; [reflexivity | vm_compute; lia]|].
  split; [apply Hr; [reflexivity | vm_compute; lia]|].
  split; [apply Hm; right; vm_compute; lia|].
  eapply Hd.
  - reflexivity.
  - reflexivity.
  - discriminate.
  - vm_compute. discriminate.
  - intros (Hts & _). vm_compute in Hts. discriminate.
Defined.

(** The claim as first stated fails where the arrays are not checked:
    with tags disabled a node whose [keys] and [vals] differ in length is
    decoded, and a dense-info whose [visible] array is shorter than [id]
    is accepted. *)
Lemma C8_counterexample_unchecked_arrays :
  (length (wn_keys ex_node_ragged) <> length (wn_vals ex_node_ragged)
   /\ exists node, parse_node ex_node_ragged (ex_data ex_tags_none false) = Ok node)
  /\ (exists dinfo, dn_denseinfo ex_dense_no_visible = Some dinfo
        /\ length (di_visible dinfo) <> length (dn_id ex_dense_no_visible)
        /\ exists nodes,
             parse_dense ex_dense_no_visible (ex_data ex_tags_all true) = Ok nodes).
Proof.
  split.
  - split; [vm_compute; lia|]. eexists. vm_compute. reflexivity.
  - eexists. split; [reflexivity|]. split; [vm_compute; lia|].
    eexists. vm_compute. reflexivity.
Qed.

Lemma C9_unknown_member_type_witness :
  exists rel, parse_rel ex_relation (ex_data ex_tags_all true) = Ok rel
    /\ length (rl_members rel) = length (wr_memids ex_relation)
    /\ forall i ty, wr_types ex_relation !! i = Some ty ->
         exists m, rl_members rel !! i = Some m
           /\ m_type m = js_index memberTypes ty
           /\ (~ (0 <= ty <= 2) -> m_type m = None)
           /\ (0 <= ty <= 2 -> is_Some (m_type m))
           /\ m_ref m = running (wr_memids ex_relation) i
           /\ (exact_sums (wr_memids ex_relation) ->
               m_ref m = prefix_sum (wr_memids ex_relation) i)
           /\ m_role m = js_index_opt (d_strings (ex_data ex_tags_all true))
                           (wr_roles_sid ex_relation !! i).
Proof.
  apply (C9_unknown_member_type ex_relation (ex_data ex_tags_all true));
    intros; reflexivity.
Defined.

(** The claim as first stated, that decoding does not fail for any
    relation with a type code outside 0..2, fails on a relation with
    such a code whose [roles_sid] is shorter than [memids], and, with
    tags enabled, on one whose [keys] and [vals] differ in length: both
    raise the format error. *)
Lemma C9_counterexample_ragged_relation :
  (wr_types ex_relation_unknown_short !! 1%nat = Some 7
   /\ parse_rel ex_relation_unknown_short (ex_data ex_tags_all false)
      = Throw FormatError)
  /\ (wr_types ex_relation_unknown_ragged !! 0%nat = Some 7
      /\ length (wr_types ex_relation_unknown_ragged)
         = length (wr_memids ex_relation_unknown_ragged)
      /\ length (wr_roles_sid ex_relation_unknown_ragged)
         = length (wr_memids ex_relation_unknown_ragged)
      /\ parse_rel ex_relation_unknown_ragged (ex_data ex_tags_all false)
         = Throw FormatError).
Proof. repeat split; vm_compute; reflexivity. Qed.

(** Member refs are added as JavaScript numbers: past 2^53 a ref is
    not the exact sum. *)
Example relation_refs_rounded :
  (fun rel => m_ref <$> rl_members rel)
    <$> parse_rel ex_relation_far (ex_data ex_tags_all false)
  = Ok [9007199254740992; 9007199254740992].
Proof. vm_compute. reflexivity. Qed.

Example relation_with_unknown_type :
  rl_members <$> parse_rel ex_relation (ex_data ex_tags_all true) =
  Ok [ {| m_type := Some "node"; m_ref := 100; m_role := Some "name" |};
       {| m_type := None; m_ref := 60; m_role := Some "name" |};
       {| m_type := Some "relation"; m_ref := 65; m_role := Some "" |} ].
Proof. vm_compute. reflexivity. Qed.

(** ** The framing machine *)

Lemma readUInt32BE_nonneg (buf : Buffer) (o l : Z) :
  readUInt32BE buf o = Ok l -> 0 <= l.
Proof.
  unfold readUInt32BE. destruct (o <? 0); [discriminate|].
  destruct (drop (Z.to_nat o) buf) as [|b0 [|b1 [|b2 [|b3 rest]]]]; try discriminate.
  intros [= <-]. lia.
Qed.

Lemma readUInt32BE_drop (buf : Buffer) (o : Z) :
  0 <= o -> readUInt32BE buf o = readUInt32BE (drop (Z.to_nat o) buf) 0.
Proof.
  intros Ho. unfold readUInt32BE.
  destruct (Z.ltb_spec o 0) as [|_]; [lia|]. simpl. rewrite drop_0. reflexivity.
Qed.

Lemma readUInt32BE_app (unread chunk : Buffer) :
  (4 <= length unread)%nat ->
  readUInt32BE (unread ++ chunk) 0 = readUInt32BE unread 0.
Proof.
  intros Hl. destruct unread as [|b0 [|b1 [|b2 [|b3 rest]]]]; simpl in Hl; try lia.
  reflexivity.
Qed.

Section FramingProps.
Context `{Collaborators}.

Lemma Blob_read_nil : Blob_read [] = Blob_start.
Proof. reflexivity. Qed.

Lemma OSMHeader_blob_start : OSMHeader_blob Blob_start = Throw (not_implemented Blob_start).
Proof. reflexivity. Qed.

Lemma OSMData_blob_start (w : With) :
  OSMData_blob w Blob_start = Throw (not_implemented Blob_start).
Proof. reflexivity. Qed.

Lemma take_needed_nonempty (nd : Z) (unread : Buffer) :
  waits nd unread = false ->
  take (Z.to_nat nd) unread <> [] -> 1 <= nd <= Z.of_nat (length unread).
Proof.
  unfold waits. intros Hw Hne.
  destruct (Z.eqb_spec nd 0) as [->|Hnz]; [contradiction Hne; reflexivity|].
  simpl in Hw. apply Z.ltb_ge in Hw.
  destruct (Z.le_gt_cases nd 0) as [Hle|Hgt]; [|lia].
  exfalso. apply Hne. replace (Z.to_nat nd) with 0%nat by lia. reflexivity.
Qed.

(** A round that ends a blob has consumed at least one byte. *)
Lemma vround_blob_consumes (w : With) (st : Status) (nd : Z) (unread : Buffer)
    (r : Status * Z * list Output) :
  st = StOSMHeader \/ st = StOSMData ->
  waits nd unread = false ->
  vround w st nd unread = Ok r ->
  1 <= nd <= Z.of_nat (length unread).
Proof.
  intros Hst Hw Hr. apply take_needed_nonempty; [exact Hw|]. intros Hnil.
  destruct Hst as [-> | ->]; simpl in Hr; rewrite Hnil, Blob_read_nil in Hr.
  - rewrite OSMHeader_blob_start in Hr. discriminate.
  - rewrite OSMData_blob_start in Hr. discriminate.
Qed.

Lemma vround_needed_ok (w : With) (st : Status) (nd : Z) (unread : Buffer)
    (st' : Status) (nd' : Z) (out : list Output) :
  vround w st nd unread = Ok (st', nd', out) -> needed_ok st' nd'.
Proof.
  destruct st; simpl.
  - destruct (readUInt32BE unread 0) as [l| |] eqn:Hl; simpl; [|discriminate..].
    intros [= <- <- <-]. simpl. exact (readUInt32BE_nonneg _ _ _ Hl).
  - destruct (assert _ _); simpl; [|discriminate..].
    intros [= <- <- <-]. destruct (String.eqb _ _); exact I.
  - destruct (OSMHeader_blob _); simpl; [|discriminate..].
    intros [= <- <- <-]. reflexivity.
  - destruct (OSMData_blob _ _); simpl; [|discriminate..].
    intros [= <- <- <-]. reflexivity.
Qed.

(** A round reads only the bytes it waited for. *)
Lemma vround_app (w : With) (st : Status) (nd : Z) (unread chunk : Buffer) :
  needed_ok st nd -> waits nd unread = false ->
  vround w st nd (unread ++ chunk) = vround w st nd unread.
Proof.
  intros Hok Hw.
  assert (nd <= Z.of_nat (length unread) \/ nd = 0) as Hle.
  { unfold waits in Hw. destruct (Z.eqb_spec nd 0); [auto|].
    simpl in Hw. apply Z.ltb_ge in Hw. auto. }
  assert (take (Z.to_nat nd) (unread ++ chunk) = take (Z.to_nat nd) unread) as Ht.
  { destruct Hle as [Hle| ->]; [|reflexivity]. apply take_app_le. lia. }
  destruct st; simpl in *.
  - subst nd. rewrite readUInt32BE_app by lia. reflexivity.
  - rewrite Ht. reflexivity.
  - rewrite Ht. reflexivity.
  - rewrite Ht. reflexivity.
Qed.

Lemma waits_app (nd : Z) (unread chunk : Buffer) :
  waits nd unread = false -> waits nd (unread ++ chunk) = false.
Proof.
  unfold waits. rewrite length_app. destruct (nd =? 0); [reflexivity|]. simpl.
  rewrite !Z.ltb_ge. lia.
Qed.

Lemma vround_measure (w : With) (st : Status) (nd : Z) (unread : Buffer)
    (st' : Status) (nd' : Z) (out : list Output) :
  waits nd unread = false ->
  vround w st nd unread = Ok (st', nd', out) ->
  (3 * length (drop (Z.to_nat nd) unread) + rank st' < 3 * length unread + rank st)%nat.
Proof.
  intros Hw Hr. rewrite length_drop.
  destruct st.
  - simpl in Hr. destruct (readUInt32BE unread 0); simpl in Hr; [|discriminate..].
    injection Hr as <- _ _. simpl. lia.
  - simpl in Hr. destruct (assert _ _); simpl in Hr; [|discriminate..].
    injection Hr as <- _ _. destruct (String.eqb _ _); simpl; lia.
  - pose proof (vround_blob_consumes w _ _ _ _ (or_introl eq_refl) Hw Hr) as Hc.
    simpl in Hr. destruct (OSMHeader_blob _); simpl in Hr; [|discriminate..].
    injection Hr as <- _ _. simpl. lia.
  - pose proof (vround_blob_consumes w _ _ _ _ (or_intror eq_refl) Hw Hr) as Hc.
    simpl in Hr. destruct (OSMData_blob _ _); simpl in Hr; [|discriminate..].
    injection Hr as <- _ _. simpl. lia.
Qed.

End FramingProps.

Section LoopProps.
Context `{Collaborators}.
Variable w : With.

Lemma vloop_fuel (f1 : nat) :
  forall (f2 : nat) (st : Status) (nd : Z) (unread : Buffer) (outs : list Output),
  enough f1 st unread -> enough f2 st unread ->
  vloop f1 w st nd unread outs = vloop f2 w st nd unread outs.
Proof.
  induction f1 as [|f1 IH]; intros f2 st nd unread outs H1 H2.
  - unfold enough in H1. lia.
  - destruct f2 as [|f2]; [unfold enough in H2; lia|].
    cbn [vloop]. destruct (waits nd unread) eqn:Hw; [reflexivity|].
    destruct (vround w st nd unread) as [[[st' nd'] out]| |] eqn:Hr; try reflexivity.
    pose proof (vround_measure w _ _ _ _ _ _ Hw Hr) as Hm.
    apply IH; unfold enough in *; lia.
Qed.

(** The loop bound is never reached. *)
Lemma vloop_enough (fuel : nat) :
  forall (st : Status) (nd : Z) (unread : Buffer) (outs : list Output),
  enough fuel st unread ->
  (vloop fuel w st nd unread outs).1.1 <> OutOfFuel.
Proof.
  induction fuel as [|fuel IH]; intros st nd unread outs He.
  - unfold enough in He. lia.
  - cbn [vloop]. destruct (waits nd unread) eqn:Hw; [discriminate|].
    destruct (vround w st nd unread) as [[[st' nd'] out]| |] eqn:Hr; try discriminate.
    pose proof (vround_measure w _ _ _ _ _ _ Hw Hr) as Hm.
    apply IH. unfold enough in *. lia.
Qed.

Lemma vloop_outs (fuel : nat) :
  forall (st : Status) (nd : Z) (unread : Buffer) (outs : list Output),
  vloop fuel w st nd unread outs =
  ((vloop fuel w st nd unread []).1.1, (vloop fuel w st nd unread []).1.2,
   (outs ++ (vloop fuel w st nd unread []).2)%list).
Proof.
  induction fuel as [|fuel IH]; intros st nd unread outs.
  - simpl. destruct (waits nd unread); simpl; rewrite app_nil_r; reflexivity.
  - cbn [vloop]. destruct (waits nd unread); [simpl; rewrite app_nil_r; reflexivity|].
    destruct (vround w st nd unread) as [[[st' nd'] out]| |];
      try (simpl; rewrite app_nil_r; reflexivity).
    rewrite IH. rewrite (IH _ _ _ ([] ++ out)%list). simpl.
    rewrite app_assoc. reflexivity.
Qed.

Lemma drop_needed_app (nd : Z) (unread chunk : Buffer) :
  waits nd unread = false ->
  drop (Z.to_nat nd) (unread ++ chunk) = (drop (Z.to_nat nd) unread ++ chunk)%list.
Proof.
  intros Hw. unfold waits in Hw.
  destruct (Z.eqb_spec nd 0) as [->|Hnz]; [reflexivity|].
  simpl in Hw. apply Z.ltb_ge in Hw.
  rewrite drop_app_le by lia. reflexivity.
Qed.

(** Feeding more bytes after the loop has stopped gives what the loop
    gives on all the bytes at once. *)
Lemma vloop_more (chunk : Buffer) (fuel : nat) :
  forall (fuel2 : nat) (st : Status) (nd : Z) (unread : Buffer) (outs : list Output)
         (cpl : Completion) (st' : Status) (nd' : Z) (unread' : Buffer)
         (outs' : list Output),
  needed_ok st nd ->
  enough fuel st unread -> enough fuel2 st (unread ++ chunk) ->
  vloop fuel w st nd unread outs = (cpl, (st', nd', unread'), outs') ->
  (cpl = Next ->
   needed_ok st' nd'
   /\ forall fuel3, enough fuel3 st' (unread' ++ chunk) ->
        vloop fuel2 w st nd (unread ++ chunk) outs
        = vloop fuel3 w st' nd' (unread' ++ chunk) outs')
  /\ (cpl <> Next ->
      exists v, vloop fuel2 w st nd (unread ++ chunk) outs = (cpl, v, outs')).
Proof.
  induction fuel as [|fuel IH];
    intros fuel2 st nd unread outs cpl st' nd' unread' outs' Hok He He2 Hl.
  - unfold enough in He. lia.
  - cbn [vloop] in Hl. destruct (waits nd unread) eqn:Hw.
    + injection Hl as <- <- <- <- <-. split; [|congruence].
      intros _. split; [exact Hok|]. intros fuel3 He3.
      apply vloop_fuel; assumption.
    + destruct fuel2 as [|fuel2]; [unfold enough in He2; lia|].
      cbn [vloop]. rewrite (waits_app _ _ _ Hw), (vround_app _ _ _ _ _ Hok Hw).
      destruct (vround w st nd unread) as [[[st1 nd1] out]| |] eqn:Hr.
      * rewrite (drop_needed_app _ _ _ Hw).
        pose proof (vround_measure w _ _ _ _ _ _ Hw Hr) as Hm.
        assert (vround w st nd (unread ++ chunk) = Ok (st1, nd1, out)) as Hr2.
        { rewrite (vround_app _ _ _ _ _ Hok Hw). exact Hr. }
        pose proof (vround_measure w _ _ _ _ _ _ (waits_app _ _ chunk Hw) Hr2) as Hm2.
        rewrite (drop_needed_app _ _ _ Hw) in Hm2.
        apply (IH fuel2 st1 nd1 _ _ cpl st' nd' unread' outs').
        -- exact (vround_needed_ok _ _ _ _ _ _ _ Hr).
        -- unfold enough in *. lia.
        -- unfold enough in *. lia.
        -- exact Hl.
      * injection Hl as <- <- <- <- <-. split; [discriminate|]. intros _. eauto.
      * injection Hl as <- <- <- <- <-. split; [discriminate|]. intros _. eauto.
Qed.

End LoopProps.

Section ViewProps.
Context `{Collaborators}.

Lemma window_view (buf : Buffer) (t : OSMTransform) (pbf : Pbf) :
  pos pbf = offset t -> plength pbf = offset t + needed t ->
  window buf pbf = take (Z.to_nat (needed t)) (drop (Z.to_nat (offset t)) buf).
Proof.
  intros Hp Hl. unfold window. rewrite Hp, Hl. do 2 f_equal. lia.
Qed.

Lemma waits_view (buf : Buffer) (t : OSMTransform) :
  0 <= offset t <= Z.of_nat (length buf) ->
  negb (needed t =? 0) && (Z.of_nat (length buf) - offset t <? needed t)
  = waits (needed t) (drop (Z.to_nat (offset t)) buf).
Proof.
  intros Ho. unfold waits. rewrite length_drop.
  replace (Z.of_nat (length buf - Z.to_nat (offset t)))
    with (Z.of_nat (length buf) - offset t) by lia.
  reflexivity.
Qed.

Lemma drop_offset_needed (buf : Buffer) (o n : Z) :
  0 <= o -> 0 <= n ->
  drop (Z.to_nat (o + n)) buf = drop (Z.to_nat n) (drop (Z.to_nat o) buf).
Proof.
  intros Ho Hn. rewrite drop_drop. f_equal. lia.
Qed.

(** [round] computes [vround] on the unread bytes and keeps the cursor in
    step. *)
Lemma round_view (buf : Buffer) (t : OSMTransform) (pbf : Pbf) :
  frame_ok buf t pbf ->
  waits (needed t) (drop (Z.to_nat (offset t)) buf) = false ->
  match vround (with_ t) (status t) (needed t) (drop (Z.to_nat (offset t)) buf) with
  | Ok (st', nd', out) =>
      exists pbf',
        round buf t pbf = Ok (set_frame t (offset t + needed t) nd' st', pbf', out)
        /\ frame_ok buf (set_frame t (offset t + needed t) nd' st') pbf'
        /\ drop (Z.to_nat (offset t + needed t)) buf
           = drop (Z.to_nat (needed t)) (drop (Z.to_nat (offset t)) buf)
  | Throw msg => round buf t pbf = Throw msg
  | Diverge => round buf t pbf = Diverge
  end.
Proof.
  intros (Ho & Hok & Hpbf) Hw.
  set (unread := drop (Z.to_nat (offset t)) buf) in *.
  assert (Z.of_nat (length unread) = Z.of_nat (length buf) - offset t) as Hlen.
  { subst unread. rewrite length_drop. lia. }
  destruct (vround (with_ t) (status t) (needed t) unread)
    as [[[st' nd'] out]| |] eqn:Hr.
  - assert (0 <= needed t <= Z.of_nat (length unread)) as Hn.
    { destruct (status t) eqn:Hst; simpl in Hok.
      - rewrite Hok in *. unfold waits in Hw. simpl in Hw. apply Z.ltb_ge in Hw. lia.
      - unfold waits in Hw. destruct (Z.eqb_spec (needed t) 0) as [->|Hnz]; [lia|].
        simpl in Hw. apply Z.ltb_ge in Hw. lia.
      - pose proof (vround_blob_consumes _ _ _ _ _ (or_introl eq_refl) Hw Hr). lia.
      - pose proof (vround_blob_consumes _ _ _ _ _ (or_intror eq_refl) Hw Hr). lia. }
    pose proof (vround_needed_ok _ _ _ _ _ _ _ Hr) as Hok'.
    assert (drop (Z.to_nat (offset t + needed t)) buf
            = drop (Z.to_nat (needed t)) unread) as Hdrop.
    { subst unread. apply drop_offset_needed; lia. }
    unfold round. destruct (status t) eqn:Hst; simpl in Hr, Hok.
    + rewrite readUInt32BE_drop by lia. fold unread.
      destruct (readUInt32BE unread 0) as [l| |]; simpl in Hr; [|discriminate..].
      injection Hr as <- <- <-. eexists. split; [reflexivity|].
      split; [|exact Hdrop].
      split; [simpl; lia|]. split; [exact Hok'|]. simpl. lia.
    + destruct Hpbf as [Hp Hl]. rewrite (window_view buf t pbf Hp Hl). fold unread.
      destruct (assert _ _); simpl in Hr; [|discriminate..].
      injection Hr as <- <- <-. eexists. split; [reflexivity|].
      split; [|exact Hdrop].
      split; [simpl; lia|]. split; [exact Hok'|].
      destruct (String.eqb _ _); simpl; lia.
    + destruct Hpbf as [Hp Hl]. rewrite (window_view buf t pbf Hp Hl). fold unread.
      destruct (OSMHeader_blob _); simpl in Hr; [|discriminate..].
      injection Hr as <- <- <-. eexists. split; [reflexivity|].
      split; [|exact Hdrop].
      split; [simpl; lia|]. split; [exact Hok'|]. simpl. lia.
    + destruct Hpbf as [Hp Hl]. rewrite (window_view buf t pbf Hp Hl). fold unread.
      destruct (OSMData_blob _ _); simpl in Hr; [|discriminate..].
      injection Hr as <- <- <-. eexists. split; [reflexivity|].
      split; [|exact Hdrop].
      split; [simpl; lia|]. split; [exact Hok'|]. simpl. lia.
  - unfold round. destruct (status t) eqn:Hst; simpl in Hr, Hok.
    + rewrite readUInt32BE_drop by lia. fold unread.
      destruct (readUInt32BE unread 0); simpl in Hr; [discriminate| |discriminate].
      injection Hr as <-. reflexivity.
    + destruct Hpbf as [Hp Hl]. rewrite (window_view buf t pbf Hp Hl). fold unread.
      destruct (assert _ _); simpl in Hr; [discriminate| |discriminate].
      injection Hr as <-. reflexivity.
    + destruct Hpbf as [Hp Hl]. rewrite (window_view buf t pbf Hp Hl). fold unread.
      destruct (OSMHeader_blob _); simpl in Hr; [discriminate| |discriminate].
      injection Hr as <-. reflexivity.
    + destruct Hpbf as [Hp Hl]. rewrite (window_view buf t pbf Hp Hl). fold unread.
      destruct (OSMData_blob _ _); simpl in Hr; [discriminate| |discriminate].
      injection Hr as <-. reflexivity.
  - unfold round. destruct (status t) eqn:Hst; simpl in Hr, Hok.
    + rewrite readUInt32BE_drop by lia. fold unread.
      destruct (readUInt32BE unread 0); simpl in Hr; [discriminate..|]. reflexivity.
    + destruct Hpbf as [Hp Hl]. rewrite (window_view buf t pbf Hp Hl). fold unread.
      destruct (assert _ _); simpl in Hr; [discriminate..|]. reflexivity.
    + destruct Hpbf as [Hp Hl]. rewrite (window_view buf t pbf Hp Hl). fold unread.
      destruct (OSMHeader_blob _); simpl in Hr; [discriminate..|]. reflexivity.
    + destruct Hpbf as [Hp Hl]. rewrite (window_view buf t pbf Hp Hl). fold unread.
      destruct (OSMData_blob _ _); simpl in Hr; [discriminate..|]. reflexivity.
Qed.

End ViewProps.

Section SessionProps.
Context `{Collaborators}.

(** [loop] is [vloop] on the unread bytes. *)
Lemma loop_view (buf : Buffer) (fuel : nat) :
  forall (t : OSMTransform) (pbf : Pbf) (outs : list Output),
  frame_ok buf t pbf ->
  let r := loop fuel buf t pbf outs in
  let v := vloop fuel (with_ t) (status t) (needed t)
             (drop (Z.to_nat (offset t)) buf) outs in
  r.1.1 = v.1.1 /\ r.2 = v.2
  /\ (status r.1.2, needed r.1.2, drop (Z.to_nat (offset r.1.2)) buf) = v.1.2
  /\ with_ r.1.2 = with_ t /\ buffer r.1.2 = buffer t
  /\ 0 <= offset r.1.2 <= Z.of_nat (length buf).
Proof.
  induction fuel as [|fuel IH]; intros t pbf outs Hf; cbn zeta.
  - simpl. rewrite (waits_view buf t) by apply Hf.
    destruct (waits _ _); simpl; repeat split; apply Hf.
  - cbn [loop vloop]. rewrite (waits_view buf t) by apply Hf.
    destruct (waits _ _) eqn:Hw; [simpl; repeat split; apply Hf|].
    pose proof (round_view buf t pbf Hf Hw) as Hr.
    destruct (vround _ _ _ _) as [[[st' nd'] out]| |].
    + destruct Hr as (pbf' & -> & Hf' & Hdrop).
      specialize (IH _ pbf' (outs ++ out)%list Hf'). cbn zeta in IH.
      simpl in IH. rewrite Hdrop in IH. exact IH.
    + rewrite Hr. simpl. repeat split; apply Hf.
    + rewrite Hr. simpl. repeat split; apply Hf.
Qed.

Lemma enough_loop_fuel (st : Status) (unread : Buffer) :
  enough (loop_fuel unread) st unread.
Proof. unfold enough, loop_fuel. destruct st; simpl; lia. Qed.

(** [_transform] runs [vloop] on the unread bytes followed by the chunk. *)
Lemma transform_view (chunk : Buffer) (t : OSMTransform) :
  transform_ok t ->
  let r := _transform chunk t in
  let v := vloop (loop_fuel (unread_of t ++ chunk)) (with_ t) (status t) (needed t)
             (unread_of t ++ chunk) [] in
  r.1.1 = v.1.1 /\ r.2 = v.2
  /\ (status r.1.2, needed r.1.2, unread_of r.1.2) = v.1.2
  /\ with_ r.1.2 = with_ t
  /\ exists b, buffer r.1.2 = Some b /\ 0 <= offset r.1.2 <= Z.of_nat (length b).
Proof.
  intros (Hok & Hbuf). cbn zeta.
  set (bytes := (unread_of t ++ chunk)%list).
  assert (exists tn pbf,
            _transform chunk t = loop (loop_fuel bytes) bytes tn pbf []
            /\ frame_ok bytes tn pbf
            /\ with_ tn = with_ t /\ status tn = status t /\ needed tn = needed t
            /\ offset tn = 0 /\ buffer tn = Some bytes)
    as (tn & pbf & -> & Hf & Hw & Hs & Hn & Ho & Hb).
  { subst bytes. unfold _transform, unread_of.
    destruct (buffer t) as [b|] eqn:Hbt.
    - eexists _, _. split; [reflexivity|]. cbn [with_ status needed offset buffer].
      split; [|auto]. split; [simpl; lia|]. split; [exact Hok|].
      simpl. destruct (status t); simpl; auto.
    - eexists _, _. split; [reflexivity|]. cbn [with_ status needed offset buffer].
      split; [|auto]. split; [simpl; lia|]. split; [exact Hok|].
      simpl. destruct (status t); simpl; rewrite ?Hbuf; auto. }
  pose proof (loop_view bytes (loop_fuel bytes) tn pbf [] Hf) as Hl.
  cbn zeta in Hl. rewrite Hw, Hs, Hn, Ho in Hl. simpl drop in Hl.
  destruct Hl as (H1 & H2 & H3 & H4 & H5 & H6).
  split; [exact H1|]. split; [exact H2|].
  split; [unfold unread_of at 1; rewrite H5, Hb; exact H3|].
  split; [exact H4|]. exists bytes. rewrite H5. split; [exact Hb | exact H6].
Qed.

End SessionProps.

Section ChunkProps.
Context `{Collaborators}.
Variable w : With.

Lemma vloop_needed_ok (fuel : nat) :
  forall (st : Status) (nd : Z) (unread : Buffer) (outs : list Output),
  needed_ok st nd ->
  (vloop fuel w st nd unread outs).1.1 = Next ->
  needed_ok (vloop fuel w st nd unread outs).1.2.1.1
            (vloop fuel w st nd unread outs).1.2.1.2.
Proof.
  induction fuel as [|fuel IH]; intros st nd unread outs Hok.
  - simpl. destruct (waits nd unread); simpl; [auto | discriminate].
  - cbn [vloop]. destruct (waits nd unread); [simpl; auto|].
    destruct (vround w st nd unread) as [[[st' nd'] out]| |] eqn:Hr;
      [|simpl; discriminate..].
    apply IH. exact (vround_needed_ok _ _ _ _ _ _ _ Hr).
Qed.

Lemma session_inv_open : session_inv w (open_session (fresh w)) [].
Proof.
  unfold session_inv, session_view. simpl.
  split; [reflexivity|]. split; [reflexivity|]. intros _.
  split; [split; reflexivity|]. split; reflexivity.
Qed.

Lemma write_inv (s : Session) (bytes chunk : Buffer) :
  session_inv w s bytes ->
  session_inv w (write s chunk) (bytes ++ chunk)
  /\ (failure (write s chunk) = None -> buffer (transform (write s chunk)) <> None).
Proof.
  unfold session_inv, session_view. cbn zeta.
  destruct (vloop (loop_fuel bytes) w StLength 4 bytes [])
    as [[cpl [[st nd] unread]] outs] eqn:Hv.
  cbn [fst snd]. intros (Hp & Hfail & Hlive).
  destruct (vloop_more w chunk (loop_fuel bytes) (loop_fuel (bytes ++ chunk))
              StLength 4 bytes [] cpl st nd unread outs)
    as [Hnext Hstop]; [reflexivity | apply enough_loop_fuel.. | exact Hv |].
  destruct (decide (cpl = Next)) as [->|Hne].
  - destruct (Hnext eq_refl) as [Hok Hmore]. destruct (Hlive eq_refl) as (Htok & Hw & Hst).
    injection Hst as Hs Hn Hu.
    rewrite (Hmore (loop_fuel (unread ++ chunk))) by apply enough_loop_fuel.
    rewrite vloop_outs.
    pose proof (transform_view chunk (transform s) Htok) as Htv. cbn zeta in Htv.
    rewrite Hw, Hs, Hn, Hu in Htv.
    pose proof (vloop_needed_ok (loop_fuel (unread ++ chunk)) st nd (unread ++ chunk) [] Hok)
      as Hok'.
    unfold write. rewrite Hfail.
    destruct (_transform chunk (transform s)) as [[c t'] outs'].
    cbn [fst snd] in Htv. destruct Htv as (H1 & H2 & H3 & H4 & (b & Hb & Hbounds)).
    cbn [fst snd transform pushed failure].
    destruct (vloop (loop_fuel (unread ++ chunk)) w st nd (unread ++ chunk) [])
      as [[c1 [[st1 nd1] unread1]] outs1].
    cbn [fst snd] in *. subst c1 outs1. injection H3 as <- <- <-.
    split.
    + split; [rewrite Hp; reflexivity|]. split; [destruct c; reflexivity|].
      intros ->. split; [|auto].
      split; [apply Hok'; reflexivity|]. rewrite Hb. exact Hbounds.
    + intros _. rewrite Hb. discriminate.
  - destruct (Hstop Hne) as [v Hv2]. rewrite Hv2. cbn [fst snd].
    assert (failure s = Some cpl) as Hf.
    { rewrite Hfail. destruct cpl; congruence. }
    unfold write. rewrite Hf.
    split; [|rewrite Hf; discriminate].
    split; [exact Hp|]. split; [exact Hfail|]. intros Hc. contradiction.
Qed.

Lemma feed_inv (chunks : list Buffer) :
  session_inv w (fold_left write chunks (open_session (fresh w))) (concat chunks)
  /\ (chunks <> [] ->
      failure (fold_left write chunks (open_session (fresh w))) = None ->
      buffer (transform (fold_left write chunks (open_session (fresh w)))) <> None).
Proof.
  induction chunks as [|chunk chunks [IH _]] using rev_ind.
  - split; [apply session_inv_open | congruence].
  - rewrite fold_left_app, concat_app. simpl. rewrite app_nil_r.
    destruct (write_inv _ _ chunk IH) as [Hinv Hbuf]. split; [exact Hinv|].
    intros _. exact Hbuf.
Qed.

Lemma flush_view (t : OSMTransform) (b : Buffer) :
  buffer t = Some b -> 0 <= offset t <= Z.of_nat (length b) ->
  _flush t =
  if bool_decide (unread_of t = []) && bool_decide (status t = StLength)
  then Ok tt else Throw FormatError.
Proof.
  intros Hb Ho. unfold _flush, unread_of. rewrite Hb.
  assert ((Z.of_nat (length b) =? offset t)
          = bool_decide (drop (Z.to_nat (offset t)) b = [])) as ->.
  { destruct (Z.eqb_spec (Z.of_nat (length b)) (offset t)) as [He|Hne].
    - symmetry. apply bool_decide_eq_true_2. apply drop_ge. lia.
    - symmetry. apply bool_decide_eq_false_2. intros Hd.
      apply (f_equal length) in Hd. rewrite length_drop in Hd. simpl in Hd. lia. }
  destruct (_ && _); reflexivity.
Qed.

End ChunkProps.

Section ChunkIndependence.
Context `{Collaborators}.
Variable w : With.

Lemma finish_pushed (s : Session) : pushed (finish s) = pushed s.
Proof. unfold finish. destruct (failure s); reflexivity. Qed.

Lemma finish_not_out_of_fuel (s : Session) :
  failure s <> Some OutOfFuel -> failure (finish s) <> Some OutOfFuel.
Proof.
  intros Hs. unfold finish. destruct (failure s) eqn:Hf; [rewrite Hf; exact Hs|].
  simpl. destruct (_flush (transform s)); discriminate.
Qed.

Lemma session_inv_fuel (s : Session) (bytes : Buffer) :
  session_inv w s bytes -> failure s <> Some OutOfFuel.
Proof.
  intros (_ & Hf & _). rewrite Hf.
  pose proof (vloop_enough w (loop_fuel bytes) StLength 4 bytes []
                (enough_loop_fuel _ _)) as Hne.
  unfold session_view. destruct (vloop _ _ _ _ _ _).1.1; congruence.
Qed.

(** Two sessions that received the same bytes, each in at least one
    chunk, end alike. *)
Lemma finish_same (s1 s2 : Session) (bytes : Buffer) :
  session_inv w s1 bytes -> session_inv w s2 bytes ->
  (failure s1 = None -> buffer (transform s1) <> None) ->
  (failure s2 = None -> buffer (transform s2) <> None) ->
  failure (finish s1) = failure (finish s2).
Proof.
  intros (_ & Hf1 & Hl1) (_ & Hf2 & Hl2) Hb1 Hb2.
  unfold finish. cbn zeta in *.
  destruct ((session_view w bytes).1.1) eqn:Hc.
  - rewrite Hf1, Hf2. simpl.
    destruct (Hl1 eq_refl) as ((_ & Hbo1) & _ & Hv1).
    destruct (Hl2 eq_refl) as ((_ & Hbo2) & _ & Hv2).
    rewrite <- Hv1 in Hv2. injection Hv2 as Hs Hn Hu.
    specialize (Hb1 Hf1). specialize (Hb2 Hf2).
    destruct (buffer (transform s1)) as [b1|] eqn:Hbuf1; [|contradiction].
    destruct (buffer (transform s2)) as [b2|] eqn:Hbuf2; [|contradiction].
    rewrite (flush_view _ b1 Hbuf1 Hbo1), (flush_view _ b2 Hbuf2 Hbo2).
    rewrite Hs, Hu. reflexivity.
  - rewrite Hf1, Hf2. simpl. congruence.
  - rewrite Hf1, Hf2. simpl. congruence.
  - rewrite Hf1, Hf2. simpl. congruence.
Qed.

(** A chunk that leaves fewer unread bytes than awaited changes nothing
    but the buffer. *)
Lemma write_waits (s : Session) (bytes chunk : Buffer) :
  session_inv w s bytes -> failure s = None ->
  waits (needed (transform s)) (unread_of (transform s) ++ chunk) = true ->
  pushed (write s chunk) = pushed s /\ failure (write s chunk) = None
  /\ status (transform (write s chunk)) = status (transform s)
  /\ needed (transform (write s chunk)) = needed (transform s)
  /\ unread_of (transform (write s chunk)) = (unread_of (transform s) ++ chunk)%list.
Proof.
  intros (_ & Hf & Hlive) Hnone Hwait. cbn zeta in *.
  assert ((session_view w bytes).1.1 = Next) as Hnext.
  { rewrite Hnone in Hf. destruct (session_view w bytes).1.1; congruence. }
  destruct (Hlive Hnext) as (Htok & _ & _).
  pose proof (transform_view chunk (transform s) Htok) as Htv. cbn zeta in Htv.
  assert (forall fuel,
            vloop fuel (with_ (transform s)) (status (transform s))
              (needed (transform s)) (unread_of (transform s) ++ chunk) []
            = (Next, (status (transform s), needed (transform s),
                      (unread_of (transform s) ++ chunk)%list), [])) as Hv.
  { intros [|fuel]; simpl; rewrite Hwait; reflexivity. }
  rewrite Hv in Htv. unfold write. rewrite Hnone.
  destruct (_transform chunk (transform s)) as [[c t'] outs'].
  cbn [fst snd] in Htv. destruct Htv as (-> & -> & H3 & _).
  injection H3 as Hs Hn Hu.
  cbn [pushed failure transform]. rewrite app_nil_r. auto.
Qed.

End ChunkIndependence.

(** C1. Chunk-boundary independence. Starting from a new transform, feeding
    a byte sequence in any partition into chunks and then signalling the
    end of input pushes exactly the outputs, in the same order, that
    feeding the whole sequence as one chunk pushes; with at least one
    chunk the two runs also end alike (both without error, or both with
    the same error). The loop of [_transform] always returns within its
    bound. A chunk that leaves fewer unread bytes than the count awaited
    makes no progress: nothing is pushed, the status and the awaited
    count are unchanged and the chunk is only appended to the unread
    bytes. *)
Theorem C1_chunk_boundary_independence `{Collaborators} (w : With)
    (chunks : list Buffer) :
  let split := decode_chunks (fresh w) chunks in
  let whole := decode_chunks (fresh w) [concat chunks] in
  pushed split = pushed whole
  /\ (chunks <> [] -> failure split = failure whole)
  /\ failure split <> Some OutOfFuel /\ failure whole <> Some OutOfFuel
  /\ forall chunk,
       let s := fold_left write chunks (open_session (fresh w)) in
       failure s = None ->
       waits (needed (transform s)) (unread_of (transform s) ++ chunk) = true ->
       pushed (write s chunk) = pushed s /\ failure (write s chunk) = None
       /\ status (transform (write s chunk)) = status (transform s)
       /\ needed (transform (write s chunk)) = needed (transform s)
       /\ unread_of (transform (write s chunk))
          = (unread_of (transform s) ++ chunk)%list.
Proof.
  cbn zeta. unfold decode_chunks.
  destruct (feed_inv w chunks) as [Hinv1 Hbuf1].
  destruct (feed_inv w [concat chunks]) as [Hinv2 Hbuf2].
  simpl concat in Hinv2. rewrite app_nil_r in Hinv2.
  split.
  { rewrite !finish_pushed. destruct Hinv1 as (-> & _). destruct Hinv2 as (-> & _).
    reflexivity. }
  split.
  { intros Hne. apply (finish_same w _ _ (concat chunks)); auto. }
  split; [apply finish_not_out_of_fuel, (session_inv_fuel w _ _ Hinv1)|].
  split; [apply finish_not_out_of_fuel, (session_inv_fuel w _ _ Hinv2)|].
  intros chunk. apply (write_waits w _ (concat chunks)). exact Hinv1.
Qed.

(** At the end of a stream of at least one chunk whose bytes the machine
    has worked through without error, the decode succeeds exactly when
    the machine awaits a length and no byte is left unread. *)
Lemma decode_end `{Collaborators} (w : With) (chunks : list Buffer) :
  chunks <> [] ->
  (session_view w (concat chunks)).1.1 = Next ->
  (failure (decode_chunks (fresh w) chunks) = None <->
     (session_view w (concat chunks)).1.2.1.1 = StLength
     /\ (session_view w (concat chunks)).1.2.2 = [])
  /\ (failure (decode_chunks (fresh w) chunks) = None
      \/ failure (decode_chunks (fresh w) chunks) = Some (Threw FormatError)).
Proof.
  intros Hne Hnext. unfold decode_chunks.
  destruct (feed_inv w chunks) as [(_ & Hf & Hlive) Hbuf]. cbn zeta in *.
  rewrite Hnext in Hf. destruct (Hlive Hnext) as ((_ & Hbo) & _ & Hv).
  specialize (Hbuf Hne Hf).
  set (s := fold_left write chunks (open_session (fresh w))) in *.
  destruct (buffer (transform s)) as [b|] eqn:Hb; [|contradiction].
  unfold finish. rewrite Hf. cbn [failure].
  rewrite (flush_view _ b Hb Hbo). rewrite <- Hv. cbn [fst snd].
  destruct (bool_decide (unread_of (transform s) = [])) eqn:Hu;
    destruct (bool_decide (status (transform s) = StLength)) eqn:Hs; simpl.
  - apply bool_decide_eq_true_1 in Hu, Hs. split; [|auto]. split; auto.
  - apply bool_decide_eq_false_1 in Hs. split; [|auto].
    split; [discriminate | intros [Hc _]; contradiction].
  - apply bool_decide_eq_false_1 in Hu. split; [|auto].
    split; [discriminate | intros [_ Hc]; contradiction].
  - apply bool_decide_eq_false_1 in Hu. split; [|auto].
    split; [discriminate | intros [_ Hc]; contradiction].
Qed.

(** C7. When the end of input is signalled to a live session, the decode
    ends without error if and only if the cursor [offset] equals the
    length of the buffer and the state is the one awaiting a length
    ([status == 0]); in every other situation, in particular while a
    blob of [datasize] bytes is still awaited, the error raised is the
    format error, and nothing further is pushed. For a stream of at
    least one chunk that the machine has worked through, this means: no
    error exactly when a length is awaited and no byte is left unread. *)
Theorem C7_end_of_input `{Collaborators} (w : With) (chunks : list Buffer)
    (t : OSMTransform) (outs : list Output) :
  let s := {| transform := t; pushed := outs; failure := None |} in
  (failure (finish s) = None <->
     (exists buf, buffer t = Some buf /\ Z.of_nat (length buf) = offset t)
     /\ status t = StLength)
  /\ (failure (finish s) = None \/ failure (finish s) = Some (Threw FormatError))
  /\ (status t = StOSMHeader \/ status t = StOSMData ->
      failure (finish s) = Some (Threw FormatError))
  /\ pushed (finish s) = outs
  /\ (chunks <> [] ->
      (session_view w (concat chunks)).1.1 = Next ->
      (failure (decode_chunks (fresh w) chunks) = None <->
         (session_view w (concat chunks)).1.2.1.1 = StLength
         /\ (session_view w (concat chunks)).1.2.2 = [])
      /\ (failure (decode_chunks (fresh w) chunks) = None
          \/ failure (decode_chunks (fresh w) chunks) = Some (Threw FormatError))).
Proof.
  simpl. unfold finish; simpl.
  pose proof (flush_ok_iff t) as Hiff.
  split; [|split; [|split; [|split]]]; [..|reflexivity|apply decode_end].
  - destruct (flush_ok_or_format_error t) as [Hok|Herr].
    + rewrite Hok. split; [intros _; apply Hiff, Hok | reflexivity].
    + rewrite Herr. split; [discriminate|].
      intros Hc. apply Hiff in Hc. rewrite Hc in Herr. discriminate.
  - destruct (flush_ok_or_format_error t) as [-> | ->]; auto.
  - intros Hst. destruct (flush_ok_or_format_error t) as [Hok | ->]; [|reflexivity].
    apply Hiff in Hok as [_ Hs]. rewrite Hs in Hst. destruct Hst; discriminate.
Qed.

(** ** The machine on sample streams *)

Section WireExamples.
Import Wire.

Example stream_whole :
  pushed (decode_chunks (fresh options) [stream])
  = [PushHeader [[byte_of 1; byte_of 2]];
     PushBatch (ENode <$>
       [ {| n_type := "node"; n_id := 1; n_lat := 0; n_lon := 0;
            n_tags := None; n_info := None |};
         {| n_type := "node"; n_id := 2; n_lat := 0; n_lon := 0;
            n_tags := None; n_info := None |};
         {| n_type := "node"; n_id := 3; n_lat := 0; n_lon := 0;
            n_tags := None; n_info := None |} ])]
  /\ failure (decode_chunks (fresh options) [stream]) = None.
Proof. split; vm_compute; reflexivity. Qed.

Example stream_bytewise :
  pushed (decode_chunks (fresh options) ((fun b => [b]) <$> stream))
  = pushed (decode_chunks (fresh options) [stream])
  /\ failure (decode_chunks (fresh options) ((fun b => [b]) <$> stream)) = None.
Proof. split; vm_compute; reflexivity. Qed.

(** The data frame announces 5 bytes of blob; the stream ends after 4. *)
Example stream_truncated :
  status (transform (decode_chunks (fresh options) [take 40 stream])) = StOSMData
  /\ needed (transform (decode_chunks (fresh options) [take 40 stream])) = 5
  /\ pushed (decode_chunks (fresh options) [take 40 stream])
     = [PushHeader [[byte_of 1; byte_of 2]]]
  /\ failure (decode_chunks (fresh options) [take 40 stream])
     = Some (Threw FormatError).
Proof. repeat split; vm_compute; reflexivity. Qed.

Example unknown_header_type :
  let r := decode_chunks (fresh options) [frame "Unknown" (bytes_field 1 [byte_of 1])] in
  pushed r = [] /\ failure r = Some (Threw "input sequence error").
Proof. split; vm_compute; reflexivity. Qed.

Example lzma_data_blob :
  let r := decode_chunks (fresh options) [frame "OSMData" (bytes_field 4 [byte_of 1])] in
  pushed r = [] /\ failure r = Some (Threw "inflating lzma_data not implemented").
Proof. split; vm_compute; reflexivity. Qed.

Example raw_data_blob :
  let r := decode_chunks (fresh options) [frame "OSMData" (bytes_field 1 [byte_of 1])] in
  pushed r = [] /\ failure r = Some (Threw "inflating raw not implemented").
Proof. split; vm_compute; reflexivity. Qed.

Example no_chunk :
  failure (decode_chunks (fresh options) []) = Some (Threw FormatError)
  /\ failure (decode_chunks (fresh options) [[]]) = None.
Proof. split; vm_compute; reflexivity. Qed.

End WireExamples.

(** ** [with_tags] on sample options *)

Example with_tags_lists :
  with_tags (VObject [("node", VArray [VString "highway"; VString "name"]);
                      ("way", VArray [])])
  = Ok (<["relation" := TBool true]>
          (<["way" := TBool false]>
             (<["node" := TSet [VString "highway"; VString "name"]]> ∅))).
Proof. vm_compute. reflexivity. Qed.

Example with_tags_bad_kind :
  with_tags (VObject [("node", VNumber 3)]) = Throw "wrong withTags option.".
Proof. reflexivity. Qed.

Example with_tags_true : with_tags (VBool true) = Ok ex_tags_all.
Proof. reflexivity. Qed.

Example dense_tagged_nodes :
  exists n1 n2,
    parse_dense ex_dense_tagged (ex_data ex_tags_all false) = Ok [n1; n2]
    /\ n_id n1 = 10 /\ n_tags n1 = Some (<["highway" := Some "primary"]> (∅ : Tags))
    /\ n_id n2 = 15 /\ n_tags n2 = None.
Proof. eexists _, _. split; [vm_compute; reflexivity|]. repeat split. Qed.

(** ** Further properties of the decoders *)

(** X1. Way refs are delta-decoded: when the way decodes (its tag arrays
    are parallel or tags are disabled for ways), [refs] has as many
    entries as the wire array, and the i-th is the running sum of the
    first [i + 1] wire deltas as JavaScript adds them: their exact sum as
    long as the sums stay within 2^53 in magnitude. *)
Theorem way_refs_delta_decoded (w : WWay) (data : Data) :
  (tags_enabled (d_withTags data !! "way") = true ->
   length (ww_keys w) = length (ww_vals w)) ->
  exists way, parse_way w data = Ok way
    /\ w_id way = ww_id w
    /\ length (w_refs way) = length (ww_refs w)
    /\ forall i, (i < length (ww_refs w))%nat ->
         w_refs way !! i = Some (running (ww_refs w) i)
         /\ (exact_sums (ww_refs w) ->
             w_refs way !! i = Some (prefix_sum (ww_refs w) i)).
Proof.
  intros Hk. destruct (decode_tags_returns data "way" _ _ Hk) as [tags Htags].
  unfold parse_way. rewrite Htags. eexists. split; [reflexivity|]. simpl.
  split; [reflexivity|]. split; [apply refs_loop_length|].
  intros i Hi. rewrite refs_loop_lookup by exact Hi. split; [reflexivity|].
  intros Hex. f_equal. apply (running_exact _ _ Hex Hi).
Qed.

Lemma way_refs_delta_decoded_witness :
  exists way, parse_way ex_way (ex_data ex_tags_all false) = Ok way
    /\ w_id way = ww_id ex_way
    /\ length (w_refs way) = length (ww_refs ex_way)
    /\ forall i, (i < length (ww_refs ex_way))%nat ->
         w_refs way !! i = Some (running (ww_refs ex_way) i)
         /\ (exact_sums (ww_refs ex_way) ->
             w_refs way !! i = Some (prefix_sum (ww_refs ex_way) i)).
Proof.
  apply (way_refs_delta_decoded ex_way (ex_data ex_tags_all false)).
  intros _. reflexivity.
Defined.

Example way_refs_sample :
  w_refs <$> parse_way ex_way (ex_data ex_tags_all false) = Ok [100; 101; 102; 100].
Proof. vm_compute. reflexivity. Qed.

(** A primitive group with a non-empty [changesets] list makes the
    block fail with ["changesets not implemented"], whatever else the
    group holds. *)
Lemma changesets_refused (p : PrimitiveGroup) (data : Data) :
  pg_changesets p <> [] ->
  parse_group p data = Throw "changesets not implemented".
Proof.
  intros Hne. unfold parse_group.
  destruct (pg_changesets p) as [|c cs]; [contradiction|]. reflexivity.
Qed.

Lemma changesets_refused_witness :
  parse_group ex_group_changesets (ex_data ex_tags_all false)
  = Throw "changesets not implemented".
Proof. apply changesets_refused. discriminate. Defined.

(** A BlobHeader whose type is neither ["OSMHeader"] nor ["OSMData"]
    ends the round with ["input sequence error"]: the blob that follows
    is never read. *)
Lemma unknown_blob_type_refused `{Collaborators} (buf : Buffer)
    (t : OSMTransform) (pbf : Pbf) :
  status t = StHeader ->
  bh_type (BlobHeader_read (window buf pbf)) <> "OSMHeader" ->
  bh_type (BlobHeader_read (window buf pbf)) <> "OSMData" ->
  round buf t pbf = Throw "input sequence error".
Proof.
  intros Hs Hh Hd. unfold round. rewrite Hs.
  destruct (String.eqb_spec (bh_type (BlobHeader_read (window buf pbf))) "OSMHeader");
    [contradiction|].
  destruct (String.eqb_spec (bh_type (BlobHeader_read (window buf pbf))) "OSMData");
    [contradiction|].
  reflexivity.
Qed.

Lemma unknown_blob_type_refused_witness :
  @round Wire.collaborators ex_unknown_frame ex_unknown_transform ex_unknown_pbf
  = Throw "input sequence error".
Proof.
  apply (@unknown_blob_type_refused Wire.collaborators).
  - reflexivity.
  - vm_compute. discriminate.
  - vm_compute. discriminate.
Defined.

(** ** Streams of frames *)

Lemma byte_of_Z_value (z : Z) :
  0 <= z < 256 -> Z.of_N (Byte.to_N (byte_of_Z z)) = z.
Proof.
  intros Hz. unfold byte_of_Z.
  destruct (Byte.of_N (Z.to_N z)) as [b|] eqn:E; simpl.
  - apply Byte.to_of_N in E. rewrite E. lia.
  - apply Byte.of_N_None_iff in E. lia.
Qed.

(** [readUInt32BE] reads a big-endian length back. *)
Lemma readUInt32BE_uint32_bytes (n : Z) (rest : Buffer) :
  0 <= n < 4294967296 -> readUInt32BE (uint32_bytes n ++ rest) 0 = Ok n.
Proof.
  intros Hn. unfold readUInt32BE, uint32_bytes. simpl.
  rewrite !byte_of_Z_value by (apply Z.mod_pos_bound; lia).
  f_equal.
  assert (n / 16777216 = n / 65536 / 256) as E1 by (rewrite Z.div_div by lia; reflexivity).
  assert (n / 65536 = n / 256 / 256) as E2 by (rewrite Z.div_div by lia; reflexivity).
  rewrite (Z.mod_small (n / 16777216)) by
    (split; [apply Z.div_pos; lia | apply Z.div_lt_upper_bound; lia]).
  rewrite (Z.mod_eq (n / 65536) 256), (Z.mod_eq (n / 256) 256), (Z.mod_eq n 256) by lia.
  rewrite <- E1, <- E2. lia.
Qed.

Section FrameProps.
Context `{Collaborators}.
Variable w : With.

(** The session after all the chunks and the end of input, read off the
    single run over the bytes. *)
Lemma decode_view (chunks : list Buffer) :
  chunks <> [] ->
  let v := session_view w (concat chunks) in
  let s := decode_chunks (fresh w) chunks in
  pushed s = v.2
  /\ failure s = match v.1.1 with
                 | Next =>
                     if bool_decide (v.1.2.2 = []) && bool_decide (v.1.2.1.1 = StLength)
                     then None else Some (Threw FormatError)
                 | c => Some c
                 end.
Proof.
  intros Hne v s. subst s. unfold decode_chunks.
  destruct (feed_inv w chunks) as [(Hp & Hf & Hlive) Hbuf]. cbn zeta in *.
  fold v in Hp, Hf, Hlive.
  rewrite finish_pushed. split; [exact Hp|].
  set (s := fold_left write chunks (open_session (fresh w))) in *.
  destruct (v.1.1) eqn:Hc.
  - destruct (Hlive eq_refl) as ((_ & Hbo) & _ & Hv).
    specialize (Hbuf Hne Hf).
    destruct (buffer (transform s)) as [b|] eqn:Hb; [|contradiction].
    unfold finish. rewrite Hf. cbn [failure].
    rewrite (flush_view _ b Hb Hbo). rewrite <- Hv. cbn [fst snd].
    destruct (bool_decide (unread_of (transform s) = [])
              && bool_decide (status (transform s) = StLength)); reflexivity.
  - unfold finish. rewrite Hf. exact Hf.
  - unfold finish. rewrite Hf. exact Hf.
  - unfold finish. rewrite Hf. exact Hf.
Qed.

Lemma waits_enough (nd : Z) (bytes rest : Buffer) :
  nd = Z.of_nat (length bytes) -> waits nd (bytes ++ rest) = false.
Proof.
  intros ->. unfold waits. rewrite length_app.
  destruct (Z.of_nat (length bytes) =? 0); simpl; [reflexivity|].
  apply Z.ltb_ge. lia.
Qed.

Lemma waits_short (nd : Z) (part : Buffer) :
  Z.of_nat (length part) < nd -> waits nd part = true.
Proof.
  intros Hl. unfold waits.
  destruct (Z.eqb_spec nd 0) as [->|_]; [lia|]. simpl. apply Z.ltb_lt. exact Hl.
Qed.

Lemma vloop_step (fuel : nat) (st st' : Status) (nd nd' : Z) (unread : Buffer)
    (out outs : list Output) :
  waits nd unread = false ->
  vround w st nd unread = Ok (st', nd', out) ->
  vloop (S fuel) w st nd unread outs
  = vloop fuel w st' nd' (drop (Z.to_nat nd) unread) (outs ++ out).
Proof. intros Hw Hr. cbn [vloop]. rewrite Hw, Hr. reflexivity. Qed.

(** The first round on a frame: the length. *)
Lemma vloop_length (fuel : nat) (l : Z) (rest : Buffer) (outs0 : list Output) :
  0 <= l < 4294967296 ->
  vloop (S fuel) w StLength 4 (uint32_bytes l ++ rest) outs0
  = vloop fuel w StHeader l rest outs0.
Proof.
  intros Hl.
  rewrite (vloop_step fuel StLength StHeader 4 l _ [] outs0).
  - rewrite app_nil_r. reflexivity.
  - apply (waits_enough 4 (uint32_bytes l)). reflexivity.
  - cbn [vround]. rewrite readUInt32BE_uint32_bytes by lia. reflexivity.
Qed.

(** The first two rounds on a frame: the length, then the header. *)
Lemma vloop_header (fuel : nat) (header rest : Buffer) (outs0 : list Output) :
  Z.of_nat (length header) < 4294967296 ->
  bh_type (BlobHeader_read header) = "OSMHeader"
  \/ bh_type (BlobHeader_read header) = "OSMData" ->
  vloop (S (S fuel)) w StLength 4
    (uint32_bytes (Z.of_nat (length header)) ++ header ++ rest) outs0
  = vloop fuel w
      (if String.eqb (bh_type (BlobHeader_read header)) "OSMHeader"
       then StOSMHeader else StOSMData)
      (bh_datasize (BlobHeader_read header)) rest outs0.
Proof.
  intros Hl Ht. rewrite vloop_length by lia.
  erewrite vloop_step.
  - rewrite Nat2Z.id, drop_app_length, app_nil_r. reflexivity.
  - apply waits_enough. reflexivity.
  - cbn [vround]. rewrite Nat2Z.id, take_app_length.
    assert (String.eqb (bh_type (BlobHeader_read header)) "OSMHeader"
            || String.eqb (bh_type (BlobHeader_read header)) "OSMData" = true) as Ha.
    { destruct Ht as [-> | ->]; reflexivity. }
    rewrite Ha. reflexivity.
Qed.

(** A header of another type ends the run at the second round. *)
Lemma vloop_unknown (fuel : nat) (header rest : Buffer) (outs0 : list Output) :
  Z.of_nat (length header) < 4294967296 ->
  bh_type (BlobHeader_read header) <> "OSMHeader" ->
  bh_type (BlobHeader_read header) <> "OSMData" ->
  vloop (S (S fuel)) w StLength 4
    (uint32_bytes (Z.of_nat (length header)) ++ header ++ rest) outs0
  = (Threw "input sequence error",
     (StHeader, Z.of_nat (length header), (header ++ rest)%list), outs0).
Proof.
  intros Hl Hh Hd. rewrite vloop_length by lia. cbn [vloop vround].
  rewrite (waits_enough _ header rest eq_refl), Nat2Z.id, take_app_length.
  destruct (String.eqb_spec (bh_type (BlobHeader_read header)) "OSMHeader");
    [contradiction|].
  destruct (String.eqb_spec (bh_type (BlobHeader_read header)) "OSMData");
    [contradiction|].
  reflexivity.
Qed.

(** The third round: the blob. *)
Lemma vloop_blob (fuel : nat) (type : string) (nd : Z) (blob rest : Buffer)
    (outs0 : list Output) :
  type = "OSMHeader" \/ type = "OSMData" ->
  nd = Z.of_nat (length blob) ->
  vloop (S fuel) w (if String.eqb type "OSMHeader" then StOSMHeader else StOSMData)
    nd (blob ++ rest) outs0
  = match blob_output w type blob with
    | Ok out => vloop fuel w StLength 4 rest (outs0 ++ [out])
    | Throw msg =>
        (Threw msg, (if String.eqb type "OSMHeader" then StOSMHeader else StOSMData,
                     nd, (blob ++ rest)%list), outs0)
    | Diverge =>
        (Hung, (if String.eqb type "OSMHeader" then StOSMHeader else StOSMData,
                nd, (blob ++ rest)%list), outs0)
    end.
Proof.
  intros Ht ->. cbn [vloop]. rewrite (waits_enough _ blob rest eq_refl).
  unfold blob_output.
  destruct Ht as [-> | ->]; cbn [String.eqb Ascii.eqb Bool.eqb vround];
    rewrite Nat2Z.id, take_app_length, drop_app_length.
  - destruct (OSMHeader_blob (Blob_read blob)); reflexivity.
  - destruct (OSMData_blob w (Blob_read blob)); reflexivity.
Qed.

(** Complete frames are consumed three rounds each. *)
Lemma frames_rounds (bytes : Buffer) (outs : list Output) :
  Frames w bytes outs ->
  forall (tail : Buffer) (fuel : nat) (outs0 : list Output),
  vloop (3 * length outs + fuel) w StLength 4 (bytes ++ tail) outs0
  = vloop fuel w StLength 4 tail (outs0 ++ outs).
Proof.
  induction 1 as [|header blob rest out outs Hl Ht Hd Ho HF IH]; intros tail fuel outs0.
  - rewrite app_nil_r. reflexivity.
  - replace (3 * length (out :: outs) + fuel)%nat
      with (S (S (S (3 * length outs + fuel)))) by (simpl; lia).
    rewrite <- !app_assoc. rewrite vloop_header by assumption.
    rewrite vloop_blob by assumption. rewrite Ho, IH, <- app_assoc. reflexivity.
Qed.

(** The single run over complete frames followed by [tail]. *)
Lemma frames_then (bytes tail : Buffer) (outs : list Output) :
  Frames w bytes outs ->
  session_view w (bytes ++ tail)
  = vloop (S (S (S (3 * length tail)))) w StLength 4 tail outs.
Proof.
  intros HF. unfold session_view.
  rewrite (vloop_fuel w _ (3 * length outs + loop_fuel (bytes ++ tail))).
  - rewrite (frames_rounds _ _ HF). apply vloop_fuel.
    + unfold enough, loop_fuel. rewrite length_app. simpl. lia.
    + unfold enough. simpl. lia.
  - apply enough_loop_fuel.
  - unfold enough, loop_fuel. simpl. lia.
Qed.

(** The run stops inside a frame that is cut, and waits. *)
Lemma cut_view (tail : Buffer) (outs : list Output) (fuel : nat) :
  Cut tail ->
  exists st nd unread,
    vloop (S (S fuel)) w StLength 4 tail outs = (Next, (st, nd, unread), outs)
    /\ (unread <> [] \/ st <> StLength).
Proof.
  intros [bytes Hne Hl | l part Hl Hp | header part Hl Ht Hp].
  - exists StLength, 4, bytes. split; [|left; exact Hne].
    cbn [vloop]. rewrite waits_short by lia. reflexivity.
  - exists StHeader, l, part. split; [|right; discriminate].
    rewrite vloop_length by exact Hl. cbn [vloop].
    rewrite waits_short by exact Hp. reflexivity.
  - eexists _, _, part. split.
    + replace (uint32_bytes (Z.of_nat (length header)) ++ header ++ part)%list
        with (uint32_bytes (Z.of_nat (length header)) ++ header ++ part ++ [])%list
        by (rewrite app_nil_r; reflexivity).
      rewrite vloop_header by assumption. rewrite app_nil_r.
      destruct fuel; cbn [vloop]; rewrite waits_short by exact Hp; reflexivity.
    + right. destruct (String.eqb _ _); discriminate.
Qed.

End FrameProps.

(** Every chunk list whose bytes begin with a complete frame is not
    empty. *)
Lemma chunks_nonempty (chunks : list Buffer) (bytes : Buffer) (n : Z) (rest : Buffer) :
  concat chunks = (bytes ++ uint32_bytes n ++ rest)%list -> chunks <> [].
Proof.
  intros Hc ->. simpl in Hc. symmetry in Hc. apply app_eq_nil in Hc as [_ Hc].
  discriminate Hc.
Qed.

(** X4. Functional correctness of the framing engine: when the bytes of
    the input are a sequence of complete frames (4-byte big-endian header
    length, a BlobHeader of type OSMHeader or OSMData whose datasize is
    the length of the blob that follows, the blob), each of whose blobs
    decodes, then however the bytes are cut into chunks the transform
    pushes exactly one value per frame, in order, namely what the blob
    of that frame gives, and the end of input is accepted. *)
Theorem frames_decoded `{Collaborators} (w : With) (bytes : Buffer)
    (outs : list Output) (chunks : list Buffer) :
  Frames w bytes outs -> chunks <> [] -> concat chunks = bytes ->
  pushed (decode_chunks (fresh w) chunks) = outs
  /\ failure (decode_chunks (fresh w) chunks) = None.
Proof.
  intros HF Hne Hc.
  destruct (decode_view w chunks Hne) as [Hp Hf]. cbn zeta in *.
  rewrite Hc in Hp, Hf.
  pose proof (frames_then w bytes [] outs HF) as Hv. rewrite app_nil_r in Hv.
  rewrite Hv in Hp, Hf. cbn in Hp, Hf. split; assumption.
Qed.

(** X5. Truncation: when the input is a sequence of complete frames
    followed by a frame that the input ends inside (a partial length, a
    partial header, or a partial blob), then however the bytes are cut
    into chunks the values of the complete frames are pushed, nothing is
    pushed for the cut frame, and the end of input raises the format
    error. *)
Theorem cut_stream_rejected `{Collaborators} (w : With) (bytes tail : Buffer)
    (outs : list Output) (chunks : list Buffer) :
  Frames w bytes outs -> Cut tail -> concat chunks = (bytes ++ tail)%list ->
  pushed (decode_chunks (fresh w) chunks) = outs
  /\ failure (decode_chunks (fresh w) chunks) = Some (Threw FormatError).
Proof.
  intros HF HC Hc.
  assert (chunks <> []) as Hne.
  { intros ->. simpl in Hc. symmetry in Hc. apply app_eq_nil in Hc as [_ ->].
    inversion HC; subst; try discriminate; contradiction. }
  destruct (decode_view w chunks Hne) as [Hp Hf]. cbn zeta in *.
  rewrite Hc in Hp, Hf. rewrite (frames_then w bytes tail outs HF) in Hp, Hf.
  destruct (cut_view w tail outs (S (3 * length tail)) HC)
    as (st & nd & unread & Hv & Hor).
  rewrite Hv in Hp, Hf. cbn [fst snd] in Hp, Hf. split; [exact Hp|].
  rewrite Hf. destruct Hor as [Hu | Hs].
  - rewrite (bool_decide_eq_false_2 _ Hu). reflexivity.
  - rewrite (bool_decide_eq_false_2 _ Hs), andb_false_r. reflexivity.
Qed.

(** X3. A frame of an unknown type: after any number of complete frames,
    a BlobHeader whose type is neither OSMHeader nor OSMData ends the
    session with the error ["input sequence error"] as soon as the header
    has arrived. The values of the earlier frames stay pushed, and
    neither the blob of that frame nor anything after it is read: the
    result is the same whatever bytes follow the header and however the
    input is cut into chunks. *)
Theorem unknown_type_stops `{Collaborators} (w : With) (bytes header more : Buffer)
    (outs : list Output) (chunks : list Buffer) :
  Frames w bytes outs ->
  Z.of_nat (length header) < 4294967296 ->
  bh_type (BlobHeader_read header) <> "OSMHeader" ->
  bh_type (BlobHeader_read header) <> "OSMData" ->
  concat chunks
  = (bytes ++ uint32_bytes (Z.of_nat (length header)) ++ header ++ more)%list ->
  pushed (decode_chunks (fresh w) chunks) = outs
  /\ failure (decode_chunks (fresh w) chunks) = Some (Threw "input sequence error").
Proof.
  intros HF Hl Hh Hd Hc.
  destruct (decode_view w chunks (chunks_nonempty _ _ _ _ Hc)) as [Hp Hf].
  cbn zeta in *.
  rewrite Hc in Hp, Hf. rewrite (frames_then w bytes _ outs HF) in Hp, Hf.
  rewrite vloop_unknown in Hp, Hf by assumption.
  cbn in Hp, Hf. split; assumption.
Qed.

(** X6. A block that fails: after any number of complete frames, a
    complete frame whose blob raises an error (an unsupported
    compression, a failing inflate, a block that does not decode) ends
    the session with that error. The values of the earlier frames stay
    pushed, nothing is pushed for the failing frame, and nothing after
    it is decoded, however the input is cut into chunks. *)
Theorem failing_block_stops `{Collaborators} (w : With)
    (bytes header blob more : Buffer) (outs : list Output) (msg : string)
    (chunks : list Buffer) :
  Frames w bytes outs ->
  Z.of_nat (length header) < 4294967296 ->
  bh_type (BlobHeader_read header) = "OSMHeader"
  \/ bh_type (BlobHeader_read header) = "OSMData" ->
  bh_datasize (BlobHeader_read header) = Z.of_nat (length blob) ->
  blob_output w (bh_type (BlobHeader_read header)) blob = Throw msg ->
  concat chunks
  = (bytes ++ uint32_bytes (Z.of_nat (length header)) ++ header ++ blob ++ more)%list ->
  pushed (decode_chunks (fresh w) chunks) = outs
  /\ failure (decode_chunks (fresh w) chunks) = Some (Threw msg).
Proof.
  intros HF Hl Ht Hd Hb Hc.
  destruct (decode_view w chunks (chunks_nonempty _ _ _ _ Hc)) as [Hp Hf].
  cbn zeta in *.
  rewrite Hc in Hp, Hf. rewrite (frames_then w bytes _ outs HF) in Hp, Hf.
  rewrite vloop_header in Hp, Hf by assumption.
  rewrite vloop_blob in Hp, Hf by assumption.
  rewrite Hb in Hp, Hf. cbn [fst snd] in Hp, Hf. split; assumption.
Qed.

(** The sample stream is two complete frames. *)
Lemma ex_header_frame :
  @Frames Wire.collaborators Wire.options (Wire.frame "OSMHeader" ex_header_blob)
    (take 1 ex_stream_outs).
Proof.
  change (Wire.frame "OSMHeader" ex_header_blob)
    with (uint32_bytes (Z.of_nat (length (ex_frame_header "OSMHeader" ex_header_blob)))
          ++ ex_frame_header "OSMHeader" ex_header_blob ++ ex_header_blob ++ [])%list.
  apply Frames_cons.
  - vm_compute. reflexivity.
  - left. vm_compute. reflexivity.
  - vm_compute. reflexivity.
  - vm_compute. reflexivity.
  - apply Frames_nil.
Qed.

Lemma ex_stream_frames :
  @Frames Wire.collaborators Wire.options Wire.stream ex_stream_outs.
Proof.
  change Wire.stream
    with (uint32_bytes (Z.of_nat (length (ex_frame_header "OSMHeader" ex_header_blob)))
          ++ ex_frame_header "OSMHeader" ex_header_blob ++ ex_header_blob
          ++ uint32_bytes (Z.of_nat (length (ex_frame_header "OSMData" ex_data_blob)))
          ++ ex_frame_header "OSMData" ex_data_blob ++ ex_data_blob ++ [])%list.
  apply Frames_cons.
  - vm_compute. reflexivity.
  - left. vm_compute. reflexivity.
  - vm_compute. reflexivity.
  - vm_compute. reflexivity.
  - apply Frames_cons.
    + vm_compute. reflexivity.
    + right. vm_compute. reflexivity.
    + vm_compute. reflexivity.
    + vm_compute. reflexivity.
    + apply Frames_nil.
Qed.

Section FrameWitnesses.
Import Wire.

Lemma frames_decoded_witness :
  pushed (decode_chunks (fresh options) [take 7 stream; drop 7 stream])
  = ex_stream_outs
  /\ failure (decode_chunks (fresh options) [take 7 stream; drop 7 stream]) = None.
Proof.
  apply (frames_decoded options stream).
  - exact ex_stream_frames.
  - discriminate.
  - vm_compute. reflexivity.
Defined.

(** The data frame announces 5 bytes of blob; the input ends after 4. *)
Lemma cut_stream_rejected_witness :
  pushed (decode_chunks (fresh options) [take 40 stream]) = take 1 ex_stream_outs
  /\ failure (decode_chunks (fresh options) [take 40 stream])
     = Some (Threw FormatError).
Proof.
  apply (cut_stream_rejected options (frame "OSMHeader" ex_header_blob)
           (uint32_bytes (Z.of_nat (length (ex_frame_header "OSMData" ex_data_blob)))
            ++ ex_frame_header "OSMData" ex_data_blob ++ take 4 ex_data_blob)).
  - exact ex_header_frame.
  - apply Cut_blob.
    + vm_compute. reflexivity.
    + right. vm_compute. reflexivity.
    + vm_compute. reflexivity.
  - vm_compute. reflexivity.
Defined.

Lemma unknown_type_stops_witness :
  pushed (decode_chunks (fresh options)
            [(frame "OSMHeader" ex_header_blob ++ frame "Unknown" ex_data_blob)%list])
  = take 1 ex_stream_outs
  /\ failure (decode_chunks (fresh options)
                [(frame "OSMHeader" ex_header_blob
                  ++ frame "Unknown" ex_data_blob)%list])
     = Some (Threw "input sequence error").
Proof.
  apply (unknown_type_stops options (frame "OSMHeader" ex_header_blob)
           (ex_frame_header "Unknown" ex_data_blob) ex_data_blob).
  - exact ex_header_frame.
  - vm_compute. reflexivity.
  - vm_compute. discriminate.
  - vm_compute. discriminate.
  - vm_compute. reflexivity.
Defined.

(** A data frame compressed with lzma between a header frame and a
    second data frame. *)
Lemma failing_block_stops_witness :
  pushed (decode_chunks (fresh options)
            [frame "OSMHeader" ex_header_blob;
             (frame "OSMData" ex_lzma_blob ++ frame "OSMData" ex_data_blob)%list])
  = take 1 ex_stream_outs
  /\ failure (decode_chunks (fresh options)
                [frame "OSMHeader" ex_header_blob;
                 (frame "OSMData" ex_lzma_blob ++ frame "OSMData" ex_data_blob)%list])
     = Some (Threw "inflating lzma_data not implemented").
Proof.
  apply (failing_block_stops options (frame "OSMHeader" ex_header_blob)
           (ex_frame_header "OSMData" ex_lzma_blob) ex_lzma_blob
           (frame "OSMData" ex_data_blob)).
  - exact ex_header_frame.
  - vm_compute. reflexivity.
  - right. vm_compute. reflexivity.
  - vm_compute. reflexivity.
  - vm_compute. reflexivity.
  - vm_compute. reflexivity.
Defined.

End FrameWitnesses.

(** ** The facade [createOSMStream] *)

Section FacadeProps.
Context `{Collaborators}.

Lemma vround_kind (w : With) (st : Status) (nd : Z) (unread : Buffer)
    (st' : Status) (nd' : Z) (out : list Output) :
  vround w st nd unread = Ok (st', nd', out) ->
  Forall (fun o => output_kind_ok (truthy (writeRaw w)) o = true) out.
Proof.
  destruct st; cbn [vround].
  - destruct (readUInt32BE unread 0); [|discriminate..].
    intros [= _ _ <-]. constructor.
  - destruct (assert _ _); [|discriminate..]. intros [= _ _ <-]. constructor.
  - unfold OSMHeader_blob.
    destruct (b_zlib_data _) as [z|].
    + destruct (inflateSync z); [|discriminate..]. cbn.
      intros [= _ _ <-]. repeat constructor.
    + cbn. destruct (b_raw _); [|discriminate].
      intros [= _ _ <-]. repeat constructor.
  - unfold OSMData_blob.
    destruct (b_zlib_data _) as [z|]; [|discriminate].
    destruct (truthy (writeRaw w)) eqn:Hr.
    + cbn. intros [= _ _ <-]. repeat constructor.
    + destruct (inflateSync z) as [a| |]; [|discriminate..]. cbn [mbind outcome_bind].
      destruct (parse a (inl w)); [|discriminate..]. cbn [mbind outcome_bind].
      intros [= _ _ <-]. repeat constructor.
Qed.

Lemma vloop_kind (w : With) (fuel : nat) :
  forall (st : Status) (nd : Z) (unread : Buffer) (outs : list Output),
  Forall (fun o => output_kind_ok (truthy (writeRaw w)) o = true) outs ->
  Forall (fun o => output_kind_ok (truthy (writeRaw w)) o = true)
    (vloop fuel w st nd unread outs).2.
Proof.
  induction fuel as [|fuel IH]; intros st nd unread outs Ho; cbn [vloop].
  - destruct (waits nd unread); exact Ho.
  - destruct (waits nd unread); [exact Ho|].
    destruct (vround w st nd unread) as [[[st' nd'] out]| |] eqn:Hr; [|exact Ho..].
    apply IH. apply Forall_app. split; [exact Ho|].
    exact (vround_kind _ _ _ _ _ _ _ Hr).
Qed.

Lemma pushed_kind (w : With) (chunks : list Buffer) :
  Forall (fun o => output_kind_ok (truthy (writeRaw w)) o = true)
    (pushed (decode_chunks (fresh w) chunks)).
Proof.
  destruct chunks as [|c chunks].
  - constructor.
  - destruct (decode_view w (c :: chunks)) as [Hp _]; [discriminate|].
    cbn zeta in Hp. rewrite Hp. apply vloop_kind. constructor.
Qed.

Lemma items_kind (raw : bool) (out : Output) :
  output_kind_ok raw out = true ->
  Forall (fun it => item_kind_ok raw it = true) (items_of out).
Proof.
  destruct out; simpl; intros Hk; apply Forall_fmap, Forall_forall; intros; exact Hk.
Qed.

End FacadeProps.

(** X7. The facade on a well-formed file does not depend on how the
    file is read: when the constructor accepts the options and the
    bytes of the file are a sequence of complete frames each of whose
    blobs decodes, then however the bytes arrive in one or more chunks
    [createOSMStream] ends without error and yields the items of the
    value of every frame, frame after frame: what it yields when the
    whole file arrives as one chunk. (A file read in no chunk at all is
    refused, see C10; nothing is said of a file that is not such a
    sequence of frames.) *)
Theorem createOSMStream_chunking `{Collaborators} (opts : OSMOptions) (w : With)
    (bytes : Buffer) (outs : list Output) (chunks : list Buffer) :
  OSMTransform_new opts = Ok (fresh w) ->
  Frames w bytes outs -> chunks <> [] -> concat chunks = bytes ->
  createOSMStream opts chunks = Ok (concat (items_of <$> outs))
  /\ createOSMStream opts [bytes] = Ok (concat (items_of <$> outs)).
Proof.
  intros Hnew HF Hne Hc. unfold createOSMStream. rewrite Hnew.
  cbn [mbind outcome_bind].
  pose proof (frames_then w bytes [] outs HF) as Hv. rewrite app_nil_r in Hv.
  split.
  - destruct (decode_view w chunks Hne) as [Hp Hf]. cbn zeta in Hp, Hf.
    rewrite Hc, Hv in Hp, Hf. cbn in Hp, Hf. rewrite Hf, Hp. reflexivity.
  - destruct (decode_view w [bytes]) as [Hp Hf]; [discriminate|]. cbn zeta in Hp, Hf.
    simpl concat in Hp, Hf. rewrite app_nil_r, Hv in Hp, Hf. cbn in Hp, Hf.
    rewrite Hf, Hp. reflexivity.
Qed.

(** The sample stream, cut inside the header of its first frame, read
    with no option. *)
Lemma createOSMStream_chunking_witness :
  @createOSMStream Wire.collaborators ex_no_options
    [take 7 Wire.stream; drop 7 Wire.stream]
  = Ok (concat (items_of <$> ex_stream_outs))
  /\ @createOSMStream Wire.collaborators ex_no_options [Wire.stream]
     = Ok (concat (items_of <$> ex_stream_outs)).
Proof.
  apply (@createOSMStream_chunking Wire.collaborators ex_no_options Wire.options
           Wire.stream ex_stream_outs).
  - reflexivity.
  - exact ex_stream_frames.
  - discriminate.
  - vm_compute. reflexivity.
Defined.

(** X8. What the facade yields: every pushed value is iterated, so with
    [writeRaw] truthy a run that ends without error yields only file
    headers and single bytes (never an entity, never a buffer), and with
    [writeRaw] falsy or absent it yields only file headers and entities.
    The bytes are those of the compressed payload: with [writeRaw], a
    data blob that is accepted has a [zlib_data], and its items are the
    bytes of that [zlib_data], in order. *)
Theorem createOSMStream_item_kinds `{Collaborators} (opts : OSMOptions)
    (chunks : list Buffer) (items : list Item) :
  createOSMStream opts chunks = Ok items ->
  Forall (fun it =>
            item_kind_ok (truthy (nullish (o_writeRaw opts) (VBool false))) it = true)
    items
  /\ forall (w : With) (blob : IBlob) (out : Output),
       truthy (writeRaw w) = true -> OSMData_blob w blob = Ok out ->
       exists z, b_zlib_data blob = Some z /\ items_of out = ItemByte <$> z.
Proof.
  intros Hrun. split.
  - revert Hrun. unfold createOSMStream, OSMTransform_new.
    destruct (with_tags _) as [wt| |]; [|discriminate..]. cbn [mbind outcome_bind].
    set (w := {| withTags := wt; withInfo := _; writeRaw := _ |}).
    destruct (failure _) as [[]|]; try discriminate.
    intros [= <-]. apply Forall_concat, Forall_fmap.
    eapply Forall_impl; [apply (pushed_kind w chunks)|].
    intros out Hk. apply items_kind. exact Hk.
  - intros w blob out Hraw. unfold OSMData_blob.
    destruct (b_zlib_data blob) as [z|]; [|discriminate].
    rewrite Hraw. intros [= <-]. exists z. split; reflexivity.
Qed.

(** With [writeRaw], the sample stream gives its header and the three
    bytes of the data blob's [zlib_data] field. *)
Lemma createOSMStream_item_kinds_witness :
  Forall (fun it => @item_kind_ok Wire.collaborators true it = true)
    (@ItemHeader Wire.collaborators [Wire.byte_of 1; Wire.byte_of 2]
     :: (ItemByte <$> [Wire.byte_of 1; Wire.byte_of 1; Wire.byte_of 1])).
Proof.
  apply (@createOSMStream_item_kinds Wire.collaborators ex_raw_options [Wire.stream]).
  vm_compute. reflexivity.
Defined.

(** ** [Blob] and [BlobHeader]: write, then read *)

Section WrittenProps.
Context `{Collaborators}.

Lemma readFields_fold {A : Type} (readField : Z -> A -> field -> A) (result : A)
    (bytes : Buffer) :
  readFields readField result bytes
  = fold_left (fun obj tf => readField tf.1 obj tf.2)
      (match bytes with [] => [] | _ => decode_fields bytes end) result.
Proof. destruct bytes; reflexivity. Qed.

Lemma Blob_readField_data (tag : Z) (obj : IBlob) (f : field) :
  data_names_payload obj -> data_names_payload (Blob_readField tag obj f).
Proof.
  intros Hobj. unfold Blob_readField.
  repeat match goal with
         | |- context [if ?c then _ else _] => destruct c
         end;
    try exact Hobj;
    try (split; [unfold payload_names; set_solver | eexists; reflexivity]).
Qed.

End WrittenProps.

(** X9. A BlobHeader survives a write followed by a read: for every
    header object, when the [pbf] reader finds in the message the fields
    that [BlobHeader.write] wrote, [BlobHeader.read] returns the object
    that was written. The fields the writer leaves out (an empty type, no
    indexdata, a datasize of 0) are the defaults the reader starts
    from. *)
Theorem BlobHeader_write_read `{Collaborators} (obj : IBlobHeader) (bytes : Buffer) :
  pbf_written bytes (BlobHeader_write obj) -> BlobHeader_read bytes = obj.
Proof.
  unfold pbf_written, BlobHeader_read. rewrite readFields_fold.
  generalize (match bytes with [] => [] | _ => decode_fields bytes end).
  intros fs. destruct obj as [type indexdata datasize].
  unfold BlobHeader_write, write_bytes. cbn [bh_type bh_indexdata bh_datasize].
  destruct (String.eqb_spec type "") as [->|_];
    destruct indexdata as [ix|];
    destruct (Z.eqb_spec datasize 0) as [->|_]; cbn [app];
    intros HF;
    repeat match goal with
           | HF : Forall2 _ _ (_ :: _) |- _ =>
               apply Forall2_cons_inv_r in HF as ([? ?] & ? & [Ht Hr] & HF & ->);
               cbn in Ht, Hr; subst
           | HF : Forall2 _ _ [] |- _ => apply Forall2_nil_inv_r in HF as ->
           end;
    reflexivity.
Qed.

Lemma BlobHeader_write_read_witness :
  @BlobHeader_read Wire.collaborators (ex_frame_header "OSMData" ex_data_blob)
  = ex_blob_header.
Proof.
  apply (@BlobHeader_write_read Wire.collaborators).
  vm_compute. repeat constructor.
Defined.

(** X10. A Blob survives a write followed by a read, up to [data]: for
    every blob object, when the [pbf] reader finds in the message the
    fields that [Blob.write] wrote, [Blob.read] returns the written
    [raw_size] and payloads unchanged, and sets [data] to the name of
    the last payload in the order of writing (raw, zlib_data, lzma_data,
    OBSOLETE_bzip2_data, lz4_data, zstd_data), or to [null] when the blob
    has no payload: [Blob.write] does not write [data]. *)
Theorem Blob_write_read `{Collaborators} (obj : IBlob) (bytes : Buffer) :
  pbf_written bytes (Blob_write obj) ->
  Blob_read bytes = set_data obj (written_data obj).
Proof.
  unfold pbf_written, Blob_read. rewrite readFields_fold.
  generalize (match bytes with [] => [] | _ => decode_fields bytes end).
  intros fs. destruct obj as [raw_size data raw zlib lzma bzip2 lz4 zstd].
  unfold Blob_write, write_bytes, set_data, written_data.
  cbn [b_raw_size b_data b_raw b_zlib_data b_lzma_data b_OBSOLETE_bzip2_data
       b_lz4_data b_zstd_data].
  destruct (Z.eqb_spec raw_size 0) as [->|_];
    destruct raw, zlib, lzma, bzip2, lz4, zstd; cbn [app];
    intros HF;
    repeat match goal with
           | HF : Forall2 _ _ (_ :: _) |- _ =>
               apply Forall2_cons_inv_r in HF as ([? ?] & ? & [Ht Hr] & HF & ->);
               cbn in Ht, Hr; subst
           | HF : Forall2 _ _ [] |- _ => apply Forall2_nil_inv_r in HF as ->
           end;
    reflexivity.
Qed.

Lemma Blob_write_read_witness :
  @Blob_read Wire.collaborators (Wire.small_varint_field 2 5 ++ ex_data_blob)%list
  = ex_blob.
Proof.
  apply (@Blob_write_read Wire.collaborators ex_blob).
  vm_compute. repeat constructor.
Defined.

(** X11. [Blob.read] keeps [data] in step with the payloads: for every
    message, the [data] of the blob read from it is [null] exactly when
    no payload field was read, and otherwise is the name of one of the
    six payload fields, and that field is populated. So the error
    ["inflating <data> not implemented"] names a payload the blob does
    carry, or [null] for a blob without payload. *)
Theorem Blob_read_data `{Collaborators} (bytes : Buffer) :
  match b_data (Blob_read bytes) with
  | Some name => name ∈ payload_names /\ is_Some (payload (Blob_read bytes) name)
  | None => forall name, payload (Blob_read bytes) name = None
  end.
Proof.
  change (data_names_payload (Blob_read bytes)).
  unfold Blob_read. rewrite readFields_fold.
  generalize (match bytes with [] => [] | _ => decode_fields bytes end).
  intros fs.
  assert (data_names_payload Blob_start) as Hstart.
  { intros name. unfold payload.
    repeat match goal with
           | |- context [if ?c then _ else _] => destruct c
           end; reflexivity. }
  revert Hstart. generalize Blob_start.
  induction fs as [|[tag f] fs IH]; intros obj Hobj; [exact Hobj|].
  simpl. apply IH, Blob_readField_data, Hobj.
Qed.

(** ** Batches and dense info *)

Lemma traverse_ok {A B : Type} (f : A -> outcome B) (l : list A) (bs : list B) :
  traverse f l = Ok bs -> Forall2 (fun a b => f a = Ok b) l bs.
Proof.
  revert bs. induction l as [|a l IH]; intros bs; simpl.
  - intros [= <-]. constructor.
  - destruct (f a) as [b| |] eqn:Hf; [|discriminate..]. cbn [mbind outcome_bind].
    destruct (traverse f l) as [bs'| |]; [|discriminate..]. cbn [mbind outcome_bind].
    intros [= <-]. constructor; [exact Hf | apply IH; reflexivity].
Qed.

Lemma traverse_keys {A B : Type} (f : A -> outcome B) (ka : A -> string * Z)
    (kb : B -> string * Z) (l : list A) (bs : list B) :
  (forall a b, f a = Ok b -> kb b = ka a) ->
  traverse f l = Ok bs -> kb <$> bs = ka <$> l.
Proof.
  intros Hk Ht. apply traverse_ok in Ht.
  induction Ht as [|a b l bs Hab _ IH]; [reflexivity|].
  rewrite !fmap_cons, (Hk a b Hab), IH. reflexivity.
Qed.

Lemma parse_node_key (n : WNode) (data : Data) (node : OsmNode) :
  parse_node n data = Ok node -> (n_type node, n_id node) = ("node", wn_id n).
Proof.
  unfold parse_node. destruct (decode_tags _ _ _ _); [|discriminate..].
  intros [= <-]. reflexivity.
Qed.

Lemma parse_way_key (w : WWay) (data : Data) (way : OsmWay) :
  parse_way w data = Ok way -> (w_type way, w_id way) = ("way", ww_id w).
Proof.
  unfold parse_way. destruct (decode_tags _ _ _ _); [|discriminate..].
  intros [= <-]. reflexivity.
Qed.

Lemma parse_rel_key (r : WRelation) (data : Data) (rel : OsmRelation) :
  parse_rel r data = Ok rel -> (rl_type rel, rl_id rel) = ("relation", wr_id r).
Proof.
  unfold parse_rel. destruct (assertArrays _); [|discriminate..].
  cbn [mbind outcome_bind].
  destruct (decode_tags _ _ _ _); [|discriminate..].
  intros [= <-]. reflexivity.
Qed.

(** What a round of the dense loop that returns leaves. *)
Lemma dense_round_returns (dense : DenseNodes) (data : Data) (i : nat)
    (acc acc' : DenseAcc) (node : OsmNode) :
  dense_round dense data i acc = Ok (node, acc') ->
  n_type node = "node"
  /\ n_id node = num_add (a_id acc) (elem (dn_id dense) i)
  /\ a_id acc' = num_add (a_id acc) (elem (dn_id dense) i)
  /\ (truthy (d_withInfo data) = true ->
      forall dinfo, dn_denseinfo dense = Some dinfo ->
        dense_info_parallel dense dinfo
        /\ n_info node = attached_info data (dense_info_record dinfo i acc)
        /\ a_timestamp acc' = num_add (a_timestamp acc) (elem (di_timestamp dinfo) i)
        /\ a_changeset acc' = num_add (a_changeset acc) (elem (di_changeset dinfo) i)
        /\ a_uid acc' = num_add (a_uid acc) (elem (di_uid dinfo) i)
        /\ a_user_sid acc' = num_add (a_user_sid acc) (elem (di_user_sid dinfo) i)).
Proof.
  unfold dense_round.
  destruct (dense_tags_block dense data acc) as [[j tags]| |]; [|discriminate..].
  cbn [mbind outcome_bind].
  destruct (dense_info_block dense data i acc) as [[[[[info ts] cs] ui] us]| |] eqn:Hb;
    [|discriminate..].
  cbn [mbind outcome_bind]. intros [= <- <-]. cbn.
  repeat (split; [reflexivity|]).
  intros Hw dinfo Hd. unfold dense_info_block in Hb. rewrite Hw, Hd in Hb.
  destruct (assertArrays _) eqn:Ha; [|discriminate..].
  cbn [mbind outcome_bind] in Hb. injection Hb as <- <- <- <- <-.
  split; [|repeat split].
  rewrite assertArrays_cons in Ha.
  destruct (forallb _ _) eqn:Hall; [|discriminate].
  cbn [forallb] in Hall. rewrite !andb_true_iff, !Z.eqb_eq in Hall.
  unfold dense_info_parallel. lia.
Qed.

Lemma dense_loop_returns (dense : DenseNodes) (data : Data) (n : nat) :
  forall (i : nat) (acc : DenseAcc) (nodes : list OsmNode),
  dense_loop dense data n i acc = Ok nodes ->
  length nodes = n
  /\ forall k node, nodes !! k = Some node ->
       n_type node = "node"
       /\ n_id node = run_num (a_id acc) (dn_id dense) i k
       /\ (truthy (d_withInfo data) = true ->
           forall dinfo, dn_denseinfo dense = Some dinfo ->
             dense_info_parallel dense dinfo
             /\ n_info node =
                attached_info data
                  {| version := elem (di_version dinfo) (i + k);
                     timestamp := run_num (a_timestamp acc) (di_timestamp dinfo) i k;
                     changeset := run_num (a_changeset acc) (di_changeset dinfo) i k;
                     uid := run_num (a_uid acc) (di_uid dinfo) i k;
                     user_sid := run_num (a_user_sid acc) (di_user_sid dinfo) i k;
                     visible := di_visible dinfo !! (i + k)%nat |}).
Proof.
  induction n as [|n IH]; intros i acc nodes; cbn [dense_loop].
  - intros [= <-]. split; [reflexivity|]. intros k node Hk. discriminate.
  - destruct (dense_round dense data i acc) as [[node acc']| |] eqn:Hr; [|discriminate..].
    cbn [mbind outcome_bind].
    destruct (dense_loop dense data n (S i) acc') as [rest| |] eqn:Hl; [|discriminate..].
    cbn [mbind outcome_bind]. intros [= <-].
    destruct (dense_round_returns _ _ _ _ _ _ Hr) as (Hty & Hid & Haid & Hinfo).
    destruct (IH _ _ _ Hl) as [Hlen Hrest].
    split; [simpl; lia|].
    intros [|k] nd Hk; simpl in Hk.
    + injection Hk as <-. split; [exact Hty|]. split; [exact Hid|].
      intros Hw dinfo Hd. destruct (Hinfo Hw dinfo Hd) as (Hpar & Hi & _).
      split; [exact Hpar|]. rewrite Hi. unfold dense_info_record. cbn [run_num].
      rewrite Nat.add_0_r. reflexivity.
    + destruct (Hrest k nd Hk) as (Hty' & Hid' & Hinfo').
      split; [exact Hty'|]. split; [rewrite Hid', Haid; reflexivity|].
      intros Hw dinfo Hd.
      destruct (Hinfo Hw dinfo Hd) as (Hpar & _ & Hts & Hcs & Hui & Hus).
      destruct (Hinfo' Hw dinfo Hd) as (_ & Hi').
      split; [exact Hpar|]. rewrite Hi', Hts, Hcs, Hui, Hus. cbn [run_num].
      replace (S i + k)%nat with (i + S k)%nat by lia. reflexivity.
Qed.

Lemma parse_dense_returns (dense : DenseNodes) (data : Data) (nodes : list OsmNode) :
  parse_dense dense data = Ok nodes ->
  length nodes = length (dn_id dense)
  /\ forall k node, nodes !! k = Some node ->
       n_type node = "node"
       /\ n_id node = running (dn_id dense) k
       /\ (truthy (d_withInfo data) = true ->
           forall dinfo, dn_denseinfo dense = Some dinfo ->
             dense_info_parallel dense dinfo
             /\ n_info node =
                attached_info data
                  {| version := elem (di_version dinfo) k;
                     timestamp := running (di_timestamp dinfo) k;
                     changeset := running (di_changeset dinfo) k;
                     uid := running (di_uid dinfo) k;
                     user_sid := running (di_user_sid dinfo) k;
                     visible := di_visible dinfo !! k |}).
Proof.
  unfold parse_dense. destruct (assertArrays _); [|discriminate..].
  cbn [mbind outcome_bind]. intros Hl.
  destruct (dense_loop_returns _ _ _ _ _ _ Hl) as [Hlen Hnodes].
  split; [exact Hlen|]. intros k node Hk.
  assert (k < length (dn_id dense))%nat as Hlt.
  { rewrite <- Hlen. apply lookup_lt_is_Some_1. eauto. }
  destruct (Hnodes k node Hk) as (Hty & Hid & Hinfo).
  split; [exact Hty|].
  split; [rewrite Hid; apply run_num_running; exact Hlt|].
  intros Hw dinfo Hd.
  destruct (Hinfo Hw dinfo Hd) as (Hpar & ->). split; [exact Hpar|].
  destruct Hpar as (H1 & H2 & H3 & H4 & H5).
  cbn [dense_start a_timestamp a_changeset a_uid a_user_sid].
  rewrite !run_num_running by lia. reflexivity.
Qed.

Lemma parse_dense_keys (dense : DenseNodes) (data : Data) (nodes : list OsmNode) :
  parse_dense dense data = Ok nodes ->
  (fun n => (n_type n, n_id n)) <$> nodes
  = (fun i => ("node", running (dn_id dense) i)) <$> seq 0 (length (dn_id dense)).
Proof.
  intros Hp. destruct (parse_dense_returns _ _ _ Hp) as [Hlen Hnodes].
  apply list_eq. intros k. rewrite !list_lookup_fmap.
  destruct (nodes !! k) as [node|] eqn:Hk.
  - assert (k < length (dn_id dense))%nat as Hlt.
    { rewrite <- Hlen. apply lookup_lt_is_Some_1. eauto. }
    rewrite lookup_seq_lt by exact Hlt. simpl.
    destruct (Hnodes k node Hk) as (-> & -> & _). reflexivity.
  - apply lookup_ge_None_1 in Hk. rewrite lookup_seq_ge by lia. reflexivity.
Qed.

Lemma parse_group_keys (p : PrimitiveGroup) (data : Data) (es : list Entity) :
  parse_group p data = Ok es -> entity_key <$> es = group_keys p.
Proof.
  unfold parse_group. destruct (0 <? _); [discriminate|].
  destruct (traverse _ (pg_nodes p)) as [ns| |] eqn:Hn; [|discriminate..].
  cbn [mbind outcome_bind].
  destruct (match pg_dense p with Some d => parse_dense d data | None => Ok [] end)
    as [ds| |] eqn:Hd; [|discriminate..].
  cbn [mbind outcome_bind].
  destruct (traverse _ (pg_ways p)) as [ws| |] eqn:Hw; [|discriminate..].
  cbn [mbind outcome_bind].
  destruct (traverse _ (pg_relations p)) as [rs| |] eqn:Hr; [|discriminate..].
  cbn [mbind outcome_bind]. intros [= <-].
  unfold group_keys. rewrite !fmap_app, <- !list_fmap_compose.
  f_equal; [|f_equal; [|f_equal]].
  - apply (traverse_keys _ (fun n => ("node", wn_id n)) _ _ _
             (fun a b => parse_node_key a data b) Hn).
  - destruct (pg_dense p) as [dense|].
    + apply (parse_dense_keys _ _ _ Hd).
    + injection Hd as <-. reflexivity.
  - apply (traverse_keys _ (fun w => ("way", ww_id w)) _ _ _
             (fun a b => parse_way_key a data b) Hw).
  - apply (traverse_keys _ (fun r => ("relation", wr_id r)) _ _ _
             (fun a b => parse_rel_key a data b) Hr).
Qed.

Lemma parse_groups_keys (ps : list PrimitiveGroup) (data : Data) (es : list Entity) :
  parse_groups ps data = Ok es -> entity_key <$> es = concat (group_keys <$> ps).
Proof.
  revert es. induction ps as [|p ps IH]; intros es; simpl.
  - intros [= <-]. reflexivity.
  - destruct (parse_group p data) as [es1| |] eqn:Hg; [|discriminate..].
    cbn [mbind outcome_bind].
    destruct (parse_groups ps data) as [es2| |]; [|discriminate..].
    cbn [mbind outcome_bind]. intros [= <-].
    rewrite fmap_app, (parse_group_keys _ _ _ Hg), (IH es2 eq_refl). reflexivity.
Qed.

(** X13. A batch lists the entities of its block, in order: whenever
    [parse] returns, the kinds and ids of the returned entities are, group
    after group in the order of the block, those of the group's plain
    nodes, then of its dense nodes (ids being the running sums of the id
    deltas as JavaScript adds them, the exact prefix sums while these
    stay within 2^53), then of its ways, then of its relations. No
    entity is dropped, repeated or moved. *)
Theorem parse_entities_in_order `{Collaborators} (buf : Buffer) (that : With + jsval)
    (batch : list Entity) :
  parse buf that = Ok batch ->
  entity_key <$> batch
  = concat (group_keys <$> pb_primitivegroup (PrimitiveBlock_read buf))
  /\ forall p dense i,
       p ∈ pb_primitivegroup (PrimitiveBlock_read buf) -> pg_dense p = Some dense ->
       exact_sums (dn_id dense) -> (i < length (dn_id dense))%nat ->
       running (dn_id dense) i = prefix_sum (dn_id dense) i.
Proof.
  intros Hp. split.
  - revert Hp. unfold parse.
    destruct (match that with inl w => _ | inr opts => _ end) as [[wt wi]| |];
      [|discriminate..].
    cbn [mbind outcome_bind]. apply parse_groups_keys.
  - intros p dense i _ _ Hex Hi. apply running_exact; assumption.
Qed.

(** X14. Dense info is delta-decoded: whenever [parse_dense] returns
    with info enabled on a record that carries a dense-info, the info of
    the i-th node is what [fill_info] makes (and [isEmpty] keeps) of the
    record whose timestamp, changeset, uid and user_sid are the running
    sums of the first i+1 entries of the respective arrays as JavaScript
    adds them (their exact sums while the sums of the array stay within
    2^53), whose version is [version[i]] and whose visible is
    [visible[i]] (undefined past the end of that array). *)
Theorem dense_info_delta_decoded (dense : DenseNodes) (data : Data)
    (dinfo : DenseInfo) (nodes : list OsmNode) (i : nat) (node : OsmNode) :
  parse_dense dense data = Ok nodes ->
  truthy (d_withInfo data) = true ->
  dn_denseinfo dense = Some dinfo ->
  nodes !! i = Some node ->
  n_info node =
  attached_info data
    {| version := elem (di_version dinfo) i;
       timestamp := running (di_timestamp dinfo) i;
       changeset := running (di_changeset dinfo) i;
       uid := running (di_uid dinfo) i;
       user_sid := running (di_user_sid dinfo) i;
       visible := di_visible dinfo !! i |}
  /\ (exact_sums (di_timestamp dinfo) ->
      running (di_timestamp dinfo) i = prefix_sum (di_timestamp dinfo) i)
  /\ (exact_sums (di_changeset dinfo) ->
      running (di_changeset dinfo) i = prefix_sum (di_changeset dinfo) i)
  /\ (exact_sums (di_uid dinfo) ->
      running (di_uid dinfo) i = prefix_sum (di_uid dinfo) i)
  /\ (exact_sums (di_user_sid dinfo) ->
      running (di_user_sid dinfo) i = prefix_sum (di_user_sid dinfo) i).
Proof.
  intros Hp Hw Hd Hi. destruct (parse_dense_returns _ _ _ Hp) as [Hlen Hnodes].
  destruct (Hnodes i node Hi) as (_ & _ & Hinfo).
  destruct (Hinfo Hw dinfo Hd) as ((H1 & H2 & H3 & H4 & H5) & Hn).
  assert (i < length (dn_id dense))%nat as Hlt.
  { rewrite <- Hlen. apply lookup_lt_is_Some_1. eauto. }
  split; [exact Hn|].
  repeat split; intros Hex; apply running_exact; try assumption; lia.
Qed.

(** ** [assertArrays] *)

(** X12. [assertArrays] accepts its arguments exactly when they all have
    the same length (no argument and one argument are accepted), and
    otherwise raises the format error. *)
Theorem assertArrays_parallel (args : list (list Z)) :
  (assertArrays args = Ok tt <->
   forall a b, a ∈ args -> b ∈ args -> length a = length b)
  /\ (assertArrays args = Ok tt \/ assertArrays args = Throw FormatError).
Proof.
  destruct args as [|first rest].
  - split; [|left; reflexivity]. split; [|reflexivity].
    intros _ a b Ha. apply elem_of_nil in Ha. contradiction.
  - rewrite assertArrays_cons.
    destruct (forallb _ rest) eqn:Hall.
    + split; [|left; reflexivity]. split; [|reflexivity]. intros _.
      rewrite forallb_forall in Hall.
      assert (forall a, a ∈ first :: rest -> length a = length first) as Hlen.
      { intros a Ha. apply elem_of_cons in Ha as [->|Ha]; [reflexivity|].
        apply list_elem_of_In in Ha. specialize (Hall a Ha).
        apply Z.eqb_eq in Hall. lia. }
      intros a b Ha Hb. rewrite (Hlen a Ha), (Hlen b Hb). reflexivity.
    + split; [|right; reflexivity]. split; [discriminate|]. intros Hpar.
      exfalso. apply not_true_iff_false in Hall. apply Hall.
      apply forallb_forall. intros a Ha. apply list_elem_of_In in Ha.
      apply Z.eqb_eq. f_equal. apply Hpar; [left | right; exact Ha].
Qed.

(** ** Shapes of the [withTags] option *)

(** X15. Edge shapes of the [withTags] option: a list given for all
    kinds at once (an array at the top level, even empty) enables every
    tag of every kind, as [true] does; a property other than node, way and
    relation is ignored; an empty list for a kind is the same as [false]
    for that kind; and the resolved option is either empty (the option was
    neither a boolean nor an object) or defines all three kinds. *)
Theorem with_tags_shapes :
  (forall xs, with_tags (VArray xs) = with_tags (VBool true))
  /\ (forall props k v,
        k ∉ tag_kinds ->
        with_tags (VObject ((k, v) :: props)) = with_tags (VObject props))
  /\ (forall props k,
        with_tags (VObject ((k, VArray []) :: props))
        = with_tags (VObject ((k, VBool false) :: props)))
  /\ (forall opt wt, with_tags opt = Ok wt ->
        wt = ∅ \/ forall k, k ∈ tag_kinds -> is_Some (wt !! k)).
Proof.
  split; [|split; [|split]].
  - intros xs. reflexivity.
  - intros props k v Hk. unfold with_tags. cbn [typeof String.eqb andb negb].
    assert (forall k', k' ∈ tag_kinds -> assoc k' ((k, v) :: props) = assoc k' props) as Ha.
    { intros k' Hk'. cbn [assoc]. destruct (String.eqb_spec k' k) as [->|_];
        [contradiction | reflexivity]. }
    cbn [with_tags_loop get_prop].
    rewrite !Ha by (unfold tag_kinds; set_solver). reflexivity.
  - intros props k. unfold with_tags. cbn [typeof String.eqb andb negb].
    cbn [with_tags_loop get_prop assoc].
    destruct (String.eqb "node" k), (String.eqb "way" k), (String.eqb "relation" k);
      reflexivity.
  - intros opt wt. unfold with_tags.
    destruct opt as [| |b|n|s|xs|props]; cbn [typeof String.eqb andb negb];
      try (intros [= <-]; left; reflexivity).
    + intros [= <-]. right. intros k Hk.
      unfold tag_kinds in Hk. repeat (apply elem_of_cons in Hk as [->|Hk]); 
        [eexists; reflexivity..|]. apply elem_of_nil in Hk. contradiction.
    + intros [= <-]. right. intros k Hk.
      unfold tag_kinds in Hk. repeat (apply elem_of_cons in Hk as [->|Hk]); 
        [eexists; reflexivity..|]. apply elem_of_nil in Hk. contradiction.
    + cbn [with_tags_loop get_prop].
      destruct (with_tags_kind (nullish (assoc "node" props) _)) as [n|]; [|discriminate].
      destruct (with_tags_kind (nullish (assoc "way" props) _)) as [w|]; [|discriminate].
      destruct (with_tags_kind (nullish (assoc "relation" props) _)) as [r|]; [|discriminate].
      intros [= <-]. right. intros k Hk.
      unfold tag_kinds in Hk. repeat (apply elem_of_cons in Hk as [->|Hk]); 
        [eexists; reflexivity..|]. apply elem_of_nil in Hk. contradiction.
Qed.

(** ** [parse] called directly *)

(** X16. The exported [parse] with options instead of a transform: called
    without options (or with [null]) it always throws, after reading the
    block; and it resolves the tag policy from the option object itself,
    not from its [withTags] property, so that an object without the keys
    node, way and relation (such as [{withTags: false}]) decodes with
    every tag enabled. *)
Theorem parse_called_directly `{Collaborators} (buf : Buffer) :
  (exists msg, parse buf (inr VUndefined) = Throw msg)
  /\ (exists msg, parse buf (inr VNull) = Throw msg)
  /\ forall (props : list (string * jsval)) (raw : jsval),
       assoc "node" props = VUndefined -> assoc "way" props = VUndefined ->
       assoc "relation" props = VUndefined ->
       parse buf (inr (VObject props))
       = parse buf (inl {| withTags := tags_policy true;
                           withInfo := nullish (assoc "withInfo" props) (VBool false);
                           writeRaw := raw |}).
Proof.
  split; [eexists; reflexivity|]. split; [eexists; reflexivity|].
  intros props raw Hn Hw Hr. unfold parse, with_tags.
  cbn [nullish typeof String.eqb andb negb with_tags_loop get_prop].
  rewrite Hn, Hw, Hr. reflexivity.
Qed.

(** ** String-table indices are not checked *)

(** X17. A tag key index outside the string table is not an error: with
    every tag enabled for the kind and parallel keys and vals, a record
    with such a key index decodes, and its tags carry a property whose
    name is ["undefined"]. *)
Theorem tag_index_out_of_range (data : Data) (kind : string) (keys vals : list Z)
    (i : nat) (k : Z) :
  d_withTags data !! kind = Some (TBool true) ->
  length keys = length vals ->
  keys !! i = Some k ->
  (k < 0 \/ Z.of_nat (length (d_strings data)) <= k) ->
  exists tags, decode_tags data kind keys vals = Ok (Some tags)
    /\ is_Some (tags !! "undefined").
Proof.
  intros Ho Hlen Hk Hrange.
  rewrite decode_tags_enabled by (try rewrite Ho; auto).
  set (tags := fold_left _ _ ∅).
  assert (is_Some (tags !! "undefined")) as Hu.
  { apply (fold_tag_put_dom _ (stored (tag_accepted (d_withTags data !! kind)))
             (fun _ => eq_refl)). right.
    exists (js_index (d_strings data) k, js_index_opt (d_strings data) (vals !! i)).
    split.
    - apply list_elem_of_lookup. exists i.
      rewrite decoded_pairs_lookup, Hk. reflexivity.
    - cbn [fst].
      assert (js_index (d_strings data) k = None) as ->.
      { unfold js_index. destruct (Z.ltb_spec k 0); [reflexivity|].
        apply lookup_ge_None_2. lia. }
      rewrite Ho. split; reflexivity. }
  exists tags. split; [|exact Hu]. cbn zeta.
  unfold isEmpty_tags. rewrite bool_decide_eq_false_2; [reflexivity|].
  intros He. rewrite He, lookup_empty in Hu. destruct Hu as [? Hu]. discriminate.
Qed.

(** ** Changeset groups *)

Lemma parse_groups_changesets (ps1 ps2 : list PrimitiveGroup) (p : PrimitiveGroup)
    (data : Data) :
  pg_changesets p <> [] ->
  (forall batch, parse_groups (ps1 ++ p :: ps2) data <> Ok batch)
  /\ forall earlier, parse_groups ps1 data = Ok earlier ->
       parse_groups (ps1 ++ p :: ps2) data = Throw "changesets not implemented".
Proof.
  intros Hc.
  assert (parse_group p data = Throw "changesets not implemented") as Hp.
  { unfold parse_group. destruct (pg_changesets p); [contradiction|]. reflexivity. }
  induction ps1 as [|q ps1 [IH1 IH2]]; simpl.
  - rewrite Hp. split; [discriminate|reflexivity].
  - destruct (parse_group q data) as [es| |]; cbn [mbind outcome_bind].
    + split.
      * intros batch.
        destruct (parse_groups (ps1 ++ p :: ps2) data) as [rest| |] eqn:Hr;
          [|discriminate..].
        exfalso. exact (IH1 rest eq_refl).
      * intros earlier He.
        destruct (parse_groups ps1 data) as [e1| |]; [|discriminate..].
        rewrite (IH2 e1 eq_refl). reflexivity.
    + split; [discriminate|]. discriminate.
    + split; [discriminate|]. discriminate.
Qed.

(** X2. A block with a changeset group is lost as a whole: when some
    group of the block has a non-empty changesets list, [parse] never
    returns a batch, whatever the other groups hold; and when the groups
    before it decode, the error is ["changesets not implemented"]. *)
Theorem changesets_block_lost `{Collaborators} (buf : Buffer) (w : With)
    (ps1 ps2 : list PrimitiveGroup) (p : PrimitiveGroup) :
  pb_primitivegroup (PrimitiveBlock_read buf) = (ps1 ++ p :: ps2)%list ->
  pg_changesets p <> [] ->
  (forall batch, parse buf (inl w) <> Ok batch)
  /\ (forall earlier,
        parse_groups ps1 (block_data (PrimitiveBlock_read buf) (withTags w) (withInfo w))
        = Ok earlier ->
        parse buf (inl w) = Throw "changesets not implemented").
Proof.
  intros Hg Hc. unfold parse. cbn [mbind outcome_bind]. rewrite Hg.
  apply parse_groups_changesets. exact Hc.
Qed.

Section Drain.
Context `{Collaborators}.
Variable w : With.

Lemma vloop_next_waits (fuel : nat) :
  forall (st : Status) (nd : Z) (unread : Buffer) (outs : list Output),
  (vloop fuel w st nd unread outs).1.1 = Next ->
  waits (vloop fuel w st nd unread outs).1.2.1.2
        (vloop fuel w st nd unread outs).1.2.2 = true.
Proof.
  induction fuel as [|fuel IH]; intros st nd unread outs; cbn [vloop].
  - destruct (waits nd unread) eqn:Hw; [intros _; exact Hw | discriminate].
  - destruct (waits nd unread) eqn:Hw; [intros _; exact Hw|].
    destruct (vround w st nd unread) as [[[st' nd'] out]| |]; [|discriminate..].
    apply IH.
Qed.

Lemma loop_buffer (buf : Buffer) (fuel : nat) :
  forall (t : OSMTransform) (pbf : Pbf) (outs : list Output),
  buffer (loop fuel buf t pbf outs).1.2 = buffer t.
Proof.
  induction fuel as [|fuel IH]; intros t pbf outs; cbn [loop].
  - destruct (_ && _); reflexivity.
  - destruct (_ && _); [reflexivity|].
    destruct (round buf t pbf) as [[[t' pbf'] out]| |] eqn:Hr; [|reflexivity..].
    rewrite IH. unfold round in Hr.
    destruct (status t).
    + destruct (readUInt32BE _ _); [|discriminate..]. injection Hr as <- _ _. reflexivity.
    + destruct (assert _ _); [|discriminate..]. injection Hr as <- _ _. reflexivity.
    + destruct (OSMHeader_blob _); [|discriminate..]. injection Hr as <- _ _. reflexivity.
    + destruct (OSMData_blob _ _); [|discriminate..]. injection Hr as <- _ _. reflexivity.
Qed.

Lemma transform_buffer (chunk : Buffer) (t : OSMTransform) :
  buffer (_transform chunk t).1.2 = Some (unread_of t ++ chunk)%list.
Proof.
  unfold _transform. rewrite loop_buffer. unfold unread_of.
  destruct (buffer t); reflexivity.
Qed.

End Drain.

(** X18. Between two calls the transform holds only what it could not
    process: after a call of [_transform] that returns, the buffer is the
    bytes that were unread before the call followed by the chunk (bytes
    consumed by earlier calls are dropped), the offset lies inside it,
    fewer unread bytes remain than the next unit needs (everything
    processable was processed), and a header length is awaited with
    [needed = 4]. *)
Theorem transform_drains `{Collaborators} (w : With) (chunks : list Buffer)
    (chunk : Buffer) :
  let before := fold_left write chunks (open_session (fresh w)) in
  let after := write before chunk in
  failure after = None ->
  buffer (transform after) = Some (unread_of (transform before) ++ chunk)%list
  /\ 0 <= offset (transform after)
     <= Z.of_nat (length (unread_of (transform before) ++ chunk))
  /\ Z.of_nat (length (unread_of (transform after))) < needed (transform after)
  /\ (status (transform after) = StLength -> needed (transform after) = 4).
Proof.
  intros before after Hf.
  assert (failure before = None) as Hfb.
  { subst after. unfold write in Hf. destruct (failure before) eqn:E; [|reflexivity].
    rewrite E in Hf. discriminate. }
  assert (buffer (transform after) = Some (unread_of (transform before) ++ chunk)%list)
    as Hbuf.
  { subst after. unfold write. rewrite Hfb.
    pose proof (transform_buffer chunk (transform before)) as Hb.
    destruct (_transform chunk (transform before)) as [[c t'] outs]. exact Hb. }
  destruct (feed_inv w (chunks ++ [chunk])) as [(_ & Hfa & Hlive) _].
  rewrite fold_left_app in Hfa, Hlive. cbn [fold_left] in Hfa, Hlive.
  fold before in Hfa, Hlive. fold after in Hfa, Hlive. cbn zeta in *.
  set (v := session_view w (concat (chunks ++ [chunk]))) in *.
  destruct (v.1.1) eqn:Hc; try (rewrite Hf in Hfa; discriminate).
  destruct (Hlive eq_refl) as ((Hnd & Hbo) & _ & Hv).
  rewrite Hbuf in Hbo.
  assert (waits v.1.2.1.2 v.1.2.2 = true) as Hw
    by (apply (vloop_next_waits w); exact Hc).
  rewrite <- Hv in Hw. cbn [fst snd] in Hw.
  split; [exact Hbuf|]. split; [exact Hbo|]. split.
  - unfold waits in Hw. apply andb_true_iff in Hw as [_ Hw].
    apply Z.ltb_lt in Hw. exact Hw.
  - intros Hs. unfold needed_ok in Hnd. rewrite Hs in Hnd. exact Hnd.
Qed.

(** *** Witnesses *)

Lemma parse_entities_in_order_witness :
  entity_key <$> [ENode {| n_type := "node"; n_id := 4; n_lat := 0; n_lon := 0;
                           n_tags := None; n_info := None |};
                  ENode {| n_type := "node"; n_id := 6; n_lat := 0; n_lon := 0;
                           n_tags := None; n_info := None |}]
  = concat (group_keys <$>
              pb_primitivegroup (Wire.dense_of_bytes [Wire.byte_of 4; Wire.byte_of 2])).
Proof.
  apply (@parse_entities_in_order Wire.collaborators [Wire.byte_of 4; Wire.byte_of 2]
           (inl Wire.options)).
  vm_compute. reflexivity.
Defined.

(** The second node of [ex_dense_info]: timestamp 1600000060 units,
    changeset 78, the uid and the user of the first node. *)
Lemma dense_info_delta_decoded_witness :
  exists nodes node,
    parse_dense ex_dense_info (ex_data ex_tags_all true) = Ok nodes
    /\ nodes !! 1%nat = Some node
    /\ n_info node =
       Some {| r_version := Some 2; r_timestamp := Some 1600000060000;
               r_changeset := Some 78; r_uid := Some 42; r_user := Some "alice";
               r_visible := None |}.
Proof.
  eexists _, _. split; [vm_compute; reflexivity|]. split; [reflexivity|].
  eapply eq_trans.
  - eapply (dense_info_delta_decoded ex_dense_info (ex_data ex_tags_all true)
              {| di_version := [1; 2]; di_timestamp := [1600000000; 60];
                 di_changeset := [77; 1]; di_uid := [42; 0]; di_user_sid := [5; 0];
                 di_visible := [] |} _ 1).
    + vm_compute. reflexivity.
    + reflexivity.
    + reflexivity.
    + reflexivity.
  - vm_compute. reflexivity.
Defined.

Lemma tag_index_out_of_range_witness :
  exists tags,
    decode_tags (ex_data ex_tags_all false) "node" [1; 99] [2; 3] = Ok (Some tags)
    /\ is_Some (tags !! "undefined").
Proof.
  apply (tag_index_out_of_range (ex_data ex_tags_all false) "node" [1; 99] [2; 3] 1 99).
  - reflexivity.
  - reflexivity.
  - reflexivity.
  - right. vm_compute. discriminate.
Defined.

Lemma changesets_block_lost_witness :
  (forall batch, @parse ex_changeset_reader [] (inl Wire.options) <> Ok batch)
  /\ (forall earlier,
        parse_groups (take 1 (pb_primitivegroup ex_block_changesets))
          (block_data ex_block_changesets ex_tags_all (VBool false)) = Ok earlier ->
        @parse ex_changeset_reader [] (inl Wire.options)
        = Throw "changesets not implemented").
Proof.
  apply (@changesets_block_lost ex_changeset_reader [] Wire.options
           (take 1 (pb_primitivegroup ex_block_changesets)) [] ex_group_changesets).
  - reflexivity.
  - discriminate.
Defined.

Lemma transform_drains_witness :
  let before :=
    fold_left (@write Wire.collaborators) [take 7 Wire.stream]
      (open_session (fresh Wire.options)) in
  let after := @write Wire.collaborators before (take 30 (drop 7 Wire.stream)) in
  buffer (transform after)
  = Some (unread_of (transform before) ++ take 30 (drop 7 Wire.stream))%list
  /\ 0 <= offset (transform after)
     <= Z.of_nat (length (unread_of (transform before)
                          ++ take 30 (drop 7 Wire.stream)))
  /\ Z.of_nat (length (unread_of (transform after))) < needed (transform after)
  /\ (status (transform after) = StLength -> needed (transform after) = 4).
Proof.
  apply (@transform_drains Wire.collaborators Wire.options [take 7 Wire.stream]
           (take 30 (drop 7 Wire.stream))).
  vm_compute. reflexivity.
Defined.

(** ** The older parser and the TypeScript parser *)

Section LegacyProps.
Context `{Legacy.Dates}.
Variables (data : Data) (b : bool) (wt wi : jsval).
Hypothesis tags_boolean : d_withTags data = tags_policy b.
Hypothesis same_tags : truthy wt = b.
Hypothesis no_info_legacy : truthy wi = false.
Hypothesis no_info : truthy (d_withInfo data) = false.

Let ldata := legacy_data data wt wi.

Lemma policy_kind (kind : string) :
  kind ∈ tag_kinds -> d_withTags data !! kind = Some (TBool b).
Proof.
  intros Hk. rewrite tags_boolean. unfold tag_kinds in Hk.
  repeat (apply elem_of_cons in Hk as [->|Hk]); [reflexivity..|].
  apply elem_of_nil in Hk. contradiction.
Qed.

Lemma legacy_tags_loop (strings : list string) (keys vals : list Z) (tags : Tags) :
  Legacy.tags_loop strings keys vals tags
  = tags_loop strings (Some (TBool true)) keys vals tags.
Proof.
  revert vals tags. induction keys as [|k keys IH]; intros vals tags; [reflexivity|].
  simpl. apply IH.
Qed.

Lemma legacy_decode_tags (kind : string) (keys vals : list Z) :
  kind ∈ tag_kinds ->
  Legacy.decode_tags ldata keys vals = decode_tags data kind keys vals.
Proof.
  intros Hk. unfold Legacy.decode_tags, decode_tags.
  rewrite (policy_kind kind Hk). cbn [Legacy.d_withTags ldata legacy_data tags_enabled].
  rewrite same_tags. destruct b; [|reflexivity].
  rewrite legacy_tags_loop. reflexivity.
Qed.

Lemma legacy_decode_info (info : option Info) :
  Legacy.decode_info ldata info = Ok None.
Proof.
  unfold Legacy.decode_info. cbn [Legacy.d_withInfo ldata legacy_data].
  rewrite no_info_legacy. reflexivity.
Qed.

Lemma port_decode_info (info : option Info) : decode_info data info = None.
Proof. unfold decode_info. rewrite no_info. reflexivity. Qed.

Lemma legacy_parse_node (n : WNode) :
  Legacy.parse_node n ldata = legacy_node <$> parse_node n data.
Proof.
  unfold Legacy.parse_node, parse_node.
  rewrite (legacy_decode_tags "node") by (unfold tag_kinds; set_solver).
  rewrite legacy_decode_info, port_decode_info.
  destruct (decode_tags data "node" (wn_keys n) (wn_vals n)); reflexivity.
Qed.

Lemma legacy_parse_way (w : WWay) :
  ww_refs w <> [] ->
  Legacy.parse_way w ldata = legacy_way <$> parse_way w data.
Proof.
  intros Hr. unfold Legacy.parse_way, parse_way.
  rewrite refs_loop_length.
  destruct (ww_refs w) as [|r rs] eqn:E; [contradiction|].
  cbn [length assert Z.ltb Z.of_nat Z.compare mbind outcome_bind].
  rewrite (legacy_decode_tags "way") by (unfold tag_kinds; set_solver).
  rewrite legacy_decode_info, port_decode_info.
  destruct (decode_tags data "way" (ww_keys w) (ww_vals w)); reflexivity.
Qed.

Lemma legacy_parse_rel (r : WRelation) :
  wr_memids r <> [] ->
  Legacy.parse_rel r ldata = legacy_relation <$> parse_rel r data.
Proof.
  intros Hm. unfold Legacy.parse_rel, parse_rel.
  destruct (assertArrays _); [|reflexivity..]. cbn [mbind outcome_bind].
  rewrite members_loop_length.
  destruct (wr_memids r) as [|m ms] eqn:E; [contradiction|].
  cbn [length assert Z.ltb Z.of_nat Z.compare mbind outcome_bind].
  rewrite (legacy_decode_tags "relation") by (unfold tag_kinds; set_solver).
  rewrite legacy_decode_info, port_decode_info.
  destruct (decode_tags data "relation" (wr_keys r) (wr_vals r)); reflexivity.
Qed.

Lemma legacy_dense_tags_loop (fuel : nat) (strings : list string) (kv : list Z) :
  forall (j : nat) (tags : Tags),
  Legacy.dense_tags_loop fuel strings kv j tags
  = dense_tags_loop fuel strings (Some (TBool true)) kv j tags.
Proof.
  induction fuel as [|fuel IH]; intros j tags; cbn [Legacy.dense_tags_loop dense_tags_loop].
  - reflexivity.
  - destruct (kv !! j) as [[| |]|]; try reflexivity; apply IH.
Qed.

Lemma legacy_dense_round (dense : DenseNodes) (i : nat) (acc : DenseAcc) :
  Legacy.dense_round dense ldata i acc
  = (fun na => (legacy_node na.1, na.2)) <$> dense_round dense data i acc.
Proof.
  unfold Legacy.dense_round, dense_round.
  unfold Legacy.dense_tags_block, dense_tags_block.
  rewrite (policy_kind "node") by (unfold tag_kinds; set_solver).
  cbn [Legacy.d_withTags ldata legacy_data tags_enabled]. rewrite same_tags.
  unfold Legacy.dense_info_block, dense_info_block.
  cbn [Legacy.d_withInfo ldata legacy_data]. rewrite no_info_legacy, no_info.
  destruct b; cbn [andb].
  - destruct (0 <? Z.of_nat (length (dn_keys_vals dense))); [|reflexivity].
    rewrite legacy_dense_tags_loop.
    destruct (dense_tags_loop _ _ _ _ _ _) as [[j tags]| |]; reflexivity.
  - reflexivity.
Qed.

Lemma legacy_dense_loop (dense : DenseNodes) (n : nat) :
  forall (i : nat) (acc : DenseAcc),
  Legacy.dense_loop dense ldata n i acc
  = (fun ns : list OsmNode => legacy_node <$> ns) <$> dense_loop dense data n i acc.
Proof.
  induction n as [|n IH]; intros i acc; cbn [Legacy.dense_loop dense_loop].
  - reflexivity.
  - rewrite legacy_dense_round.
    destruct (dense_round dense data i acc) as [[node acc']| |]; [|reflexivity..].
    cbn [fmap outcome_fmap mbind outcome_bind fst snd]. rewrite IH.
    destruct (dense_loop dense data n (S i) acc'); reflexivity.
Qed.

Lemma legacy_parse_dense (dense : DenseNodes) :
  Legacy.parse_dense dense ldata
  = (fun ns : list OsmNode => legacy_node <$> ns) <$> parse_dense dense data.
Proof.
  unfold Legacy.parse_dense, parse_dense.
  destruct (assertArrays _); [|reflexivity..]. cbn [mbind outcome_bind].
  apply legacy_dense_loop.
Qed.

Lemma legacy_traverse {A B C : Type} (f : A -> outcome B) (g : A -> outcome C)
    (h : B -> C) (l : list A) (P : A -> Prop) :
  (forall a, P a -> g a = h <$> f a) -> Forall P l ->
  traverse g l = (fun bs : list B => h <$> bs) <$> traverse f l.
Proof.
  intros Hfg Hl. induction Hl as [|a l Ha _ IH]; [reflexivity|].
  cbn [traverse]. rewrite (Hfg a Ha), IH.
  destruct (f a); [|reflexivity..]. cbn [fmap outcome_fmap mbind outcome_bind].
  destruct (traverse f l); reflexivity.
Qed.

Lemma legacy_parse_group (p : PrimitiveGroup) :
  group_populated p ->
  Legacy.parse_group p ldata
  = (fun es : list Entity => legacy_entity <$> es) <$> parse_group p data.
Proof.
  intros [Hways Hrels]. unfold Legacy.parse_group, parse_group.
  destruct (0 <? _); [reflexivity|].
  rewrite (legacy_traverse (fun n => parse_node n data) _ legacy_node (pg_nodes p)
             (fun _ => True))
    by (auto using legacy_parse_node || (apply Forall_true; auto)).
  destruct (traverse _ (pg_nodes p)) as [ns| |]; [|reflexivity..].
  cbn [fmap outcome_fmap mbind outcome_bind].
  assert (match pg_dense p with
          | Some dense => Legacy.parse_dense dense ldata
          | None => Ok []
          end
          = (fun ns : list OsmNode => legacy_node <$> ns) <$> match pg_dense p with
                                 | Some dense => parse_dense dense data
                                 | None => Ok []
                                 end) as ->.
  { destruct (pg_dense p); [apply legacy_parse_dense | reflexivity]. }
  destruct (match pg_dense p with Some _ => _ | None => _ end) as [ds| |];
    [|reflexivity..].
  cbn [fmap outcome_fmap mbind outcome_bind].
  rewrite (legacy_traverse (fun w => parse_way w data) _ legacy_way (pg_ways p) _
             legacy_parse_way Hways).
  destruct (traverse _ (pg_ways p)) as [ws| |]; [|reflexivity..].
  cbn [fmap outcome_fmap mbind outcome_bind].
  rewrite (legacy_traverse (fun r => parse_rel r data) _ legacy_relation
             (pg_relations p) _ legacy_parse_rel Hrels).
  destruct (traverse _ (pg_relations p)) as [rs| |]; [|reflexivity..].
  cbn [fmap outcome_fmap mbind outcome_bind].
  rewrite !fmap_app, <- !list_fmap_compose. reflexivity.
Qed.

Lemma legacy_parse_groups (ps : list PrimitiveGroup) :
  Forall group_populated ps ->
  Legacy.parse_groups ps ldata
  = (fun es : list Entity => legacy_entity <$> es) <$> parse_groups ps data.
Proof.
  induction 1 as [|p ps Hp _ IH]; [reflexivity|].
  cbn [Legacy.parse_groups parse_groups]. rewrite (legacy_parse_group p Hp), IH.
  destruct (parse_group p data) as [es| |]; [|reflexivity..].
  cbn [fmap outcome_fmap mbind outcome_bind].
  destruct (parse_groups ps data) as [rest| |]; [|reflexivity..].
  cbn [fmap outcome_fmap mbind outcome_bind]. rewrite fmap_app. reflexivity.
Qed.

End LegacyProps.

(** With info disabled no entity carries one. *)
Lemma dense_loop_no_info (dense : DenseNodes) (data : Data) (n : nat) :
  truthy (d_withInfo data) = false ->
  forall (i : nat) (acc : DenseAcc) (nodes : list OsmNode),
  dense_loop dense data n i acc = Ok nodes ->
  Forall (fun node => n_info node = None) nodes.
Proof.
  intros Hw. induction n as [|n IH]; intros i acc nodes; cbn [dense_loop].
  - intros [= <-]. constructor.
  - unfold dense_round, dense_info_block. rewrite Hw.
    destruct (dense_tags_block dense data acc) as [[j tags]| |]; [|discriminate..].
    cbn [mbind outcome_bind].
    destruct (dense_loop dense data n (S i) _) as [rest| |] eqn:Hl; [|discriminate..].
    cbn [mbind outcome_bind]. intros [= <-].
    constructor; [reflexivity | exact (IH _ _ _ Hl)].
Qed.

Lemma traverse_Forall {A B : Type} (f : A -> outcome B) (P : B -> Prop)
    (l : list A) (bs : list B) :
  (forall a b, f a = Ok b -> P b) -> traverse f l = Ok bs -> Forall P bs.
Proof.
  intros Hf Ht. apply traverse_ok in Ht.
  induction Ht as [|a b l bs Hab _ IH]; constructor; eauto.
Qed.

Lemma parse_node_no_info (data : Data) (n : WNode) (node : OsmNode) :
  truthy (d_withInfo data) = false -> parse_node n data = Ok node -> n_info node = None.
Proof.
  intros Hw. unfold parse_node. destruct (decode_tags _ _ _ _); [|discriminate..].
  intros [= <-]. unfold decode_info. cbn. rewrite Hw. reflexivity.
Qed.

Lemma parse_way_no_info (data : Data) (w : WWay) (way : OsmWay) :
  truthy (d_withInfo data) = false -> parse_way w data = Ok way -> w_info way = None.
Proof.
  intros Hw. unfold parse_way. destruct (decode_tags _ _ _ _); [|discriminate..].
  intros [= <-]. unfold decode_info. cbn. rewrite Hw. reflexivity.
Qed.

Lemma parse_rel_no_info (data : Data) (r : WRelation) (rel : OsmRelation) :
  truthy (d_withInfo data) = false -> parse_rel r data = Ok rel -> rl_info rel = None.
Proof.
  intros Hw. unfold parse_rel. destruct (assertArrays _); [|discriminate..].
  cbn [mbind outcome_bind]. destruct (decode_tags _ _ _ _); [|discriminate..].
  intros [= <-]. unfold decode_info. cbn. rewrite Hw. reflexivity.
Qed.

Lemma parse_groups_no_info (ps : list PrimitiveGroup) (data : Data)
    (es : list Entity) :
  truthy (d_withInfo data) = false ->
  parse_groups ps data = Ok es -> Forall (fun e => entity_info e = None) es.
Proof.
  intros Hw. revert es. induction ps as [|p ps IH]; intros es; cbn [parse_groups].
  - intros [= <-]. constructor.
  - destruct (parse_group p data) as [es1| |] eqn:Hg; [|discriminate..].
    cbn [mbind outcome_bind].
    destruct (parse_groups ps data) as [es2| |]; [|discriminate..].
    cbn [mbind outcome_bind]. intros [= <-].
    apply Forall_app. split; [|apply IH; reflexivity].
    unfold parse_group in Hg. destruct (0 <? _); [discriminate|].
    destruct (traverse _ (pg_nodes p)) as [ns| |] eqn:Hn; [|discriminate..].
    cbn [mbind outcome_bind] in Hg.
    destruct (match pg_dense p with Some d => parse_dense d data | None => Ok [] end)
      as [ds| |] eqn:Hd; [|discriminate..].
    cbn [mbind outcome_bind] in Hg.
    destruct (traverse _ (pg_ways p)) as [ws| |] eqn:Hws; [|discriminate..].
    cbn [mbind outcome_bind] in Hg.
    destruct (traverse _ (pg_relations p)) as [rs| |] eqn:Hrs; [|discriminate..].
    cbn [mbind outcome_bind] in Hg. injection Hg as <-.
    rewrite !Forall_app, !Forall_fmap. repeat split.
    + apply (traverse_Forall _ _ _ _ (fun a b => parse_node_no_info data a b Hw) Hn).
    + destruct (pg_dense p) as [dense|]; [|injection Hd as <-; constructor].
      unfold parse_dense in Hd. destruct (assertArrays _); [|discriminate..].
      exact (dense_loop_no_info _ _ _ Hw _ _ _ Hd).
    + apply (traverse_Forall _ _ _ _ (fun a b => parse_way_no_info data a b Hw) Hws).
    + apply (traverse_Forall _ _ _ _ (fun a b => parse_rel_no_info data a b Hw) Hrs).
Qed.

(** X19. The TypeScript parser decodes a block as the older parser
    did: with info disabled in both, a boolean [withTags] in the
    TypeScript transform and a [withTags] of the same truthiness in the
    older one, and a block without a way that has no refs and without a
    relation that has no members, the older parser's batch is the
    TypeScript parser's batch, entity by entity (same kinds, ids,
    coordinates, refs, members and tags, no info on either side), and it
    fails with the same error when the TypeScript parser fails. *)
Theorem legacy_block_agreement `{Collaborators} `{Legacy.Dates} (buf : Buffer)
    (w : With) (lw : Legacy.With) (b : bool) :
  withTags w = tags_policy b ->
  truthy (Legacy.withTags lw) = b ->
  truthy (withInfo w) = false ->
  truthy (Legacy.withInfo lw) = false ->
  Forall group_populated (pb_primitivegroup (PrimitiveBlock_read buf)) ->
  Legacy.parse_block buf lw
  = (fun batch : list Entity => legacy_entity <$> batch) <$> parse buf (inl w)
  /\ forall batch, parse buf (inl w) = Ok batch ->
       Forall (fun e => entity_info e = None) batch.
Proof.
  intros Hwt Hlt Hwi Hli Hpop. unfold Legacy.parse_block, parse.
  cbn [mbind outcome_bind]. split.
  - apply (legacy_parse_groups
             (block_data (PrimitiveBlock_read buf) (withTags w) (withInfo w)) b
             (Legacy.withTags lw) (Legacy.withInfo lw)); assumption.
  - intros batch. apply parse_groups_no_info. exact Hwi.
Qed.

Lemma number_string_safe (z : Z) : Z.abs z <= 2 ^ 53 -> number_string z = pretty z.
Proof.
  intros Hz. unfold number_string.
  destruct (Z.leb_spec (Z.abs z) (2 ^ 53)) as [_|Hgt]; [reflexivity | lia].
Qed.

(** X20. Empty ways and relations: the older parser refuses a way
    without refs with the error ["no nodes in way <id>"] and a relation
    without members with ["no members in relation <id>"], whatever the
    options, where the id reads as JavaScript prints the number: its
    decimal digits for an id up to 2^53 in magnitude. The TypeScript
    parser returns such a way with an empty refs list and such a relation
    with an empty members list. *)
Theorem legacy_rejects_empty `{Legacy.Dates} :
  (forall (w : WWay) (ldata : Legacy.Data),
     ww_refs w = [] ->
     Legacy.parse_way w ldata
     = Throw (String.append "no nodes in way " (number_string (ww_id w)))
     /\ (Z.abs (ww_id w) <= 2 ^ 53 ->
         Legacy.parse_way w ldata
         = Throw (String.append "no nodes in way " (pretty (ww_id w)))))
  /\ (forall (r : WRelation) (ldata : Legacy.Data),
        wr_memids r = [] -> wr_types r = [] -> wr_roles_sid r = [] ->
        Legacy.parse_rel r ldata
        = Throw (String.append "no members in relation " (number_string (wr_id r)))
        /\ (Z.abs (wr_id r) <= 2 ^ 53 ->
            Legacy.parse_rel r ldata
            = Throw (String.append "no members in relation " (pretty (wr_id r)))))
  /\ (forall (w : WWay) (data : Data),
        ww_refs w = [] -> length (ww_keys w) = length (ww_vals w) ->
        exists way, parse_way w data = Ok way /\ w_refs way = [])
  /\ (forall (r : WRelation) (data : Data),
        wr_memids r = [] -> wr_types r = [] -> wr_roles_sid r = [] ->
        length (wr_keys r) = length (wr_vals r) ->
        exists rel, parse_rel r data = Ok rel /\ rl_members rel = []).
Proof.
  split; [|split; [|split]].
  - intros w ldata Hr.
    assert (Legacy.parse_way w ldata
            = Throw (String.append "no nodes in way " (number_string (ww_id w)))) as Hw.
    { unfold Legacy.parse_way. rewrite Hr. reflexivity. }
    split; [exact Hw|]. intros Hid. rewrite Hw, number_string_safe by exact Hid.
    reflexivity.
  - intros r ldata Hm Ht Hs.
    assert (Legacy.parse_rel r ldata
            = Throw (String.append "no members in relation " (number_string (wr_id r))))
      as Hw.
    { unfold Legacy.parse_rel. rewrite Hm, Ht, Hs. reflexivity. }
    split; [exact Hw|]. intros Hid. rewrite Hw, number_string_safe by exact Hid.
    reflexivity.
  - intros w data Hr Hl. unfold parse_way. rewrite Hr.
    destruct (decode_tags_returns data "way" (ww_keys w) (ww_vals w)) as [tags ->];
      [auto|].
    eexists. split; reflexivity.
  - intros r data Hm Ht Hs Hl. unfold parse_rel. rewrite Hm, Ht, Hs.
    cbn [assertArrays assertArrays_from length Z.of_nat Z.ltb Z.compare Z.eqb assert
         mbind outcome_bind].
    destruct (decode_tags_returns data "relation" (wr_keys r) (wr_vals r)) as [tags ->];
      [auto|].
    eexists. split; reflexivity.
Qed.

(** Ids past 2^53 read as JavaScript prints them. *)
Example number_string_samples :
  number_string <$> [77; -5; 9007199254740992; 9007199254740994;
                     1152921504606846976; -1152921504606846976;
                     9223372036854775808; 18446744073709551616]
  = ["77"; "-5"; "9007199254740992"; "9007199254740994";
     "1152921504606847000"; "-1152921504606847000";
     "9223372036854776000"; "18446744073709552000"].
Proof. vm_compute. reflexivity. Qed.

(** X21. [fill_info] in the two parsers: on the same info record the
    older parser's result has the version, changeset, uid, user and
    visible of the TypeScript parser's result, is empty exactly when that
    one is, and carries a timestamp exactly when that one does: the
    first 19 characters of the ISO string of the same number of
    milliseconds, followed by Z. It fails only when [Date] refuses that
    number. *)
Theorem legacy_fill_info_fields `{Legacy.Dates} (data : Data)
    (wt wi : jsval) (info : Info) :
  let port := fill_info data info in
  match Legacy.fill_info (legacy_data data wt wi) info with
  | Ok ret =>
      Legacy.r_version ret = r_version port
      /\ Legacy.r_changeset ret = r_changeset port
      /\ Legacy.r_uid ret = r_uid port
      /\ Legacy.r_user ret = r_user port
      /\ Legacy.r_visible ret = r_visible port
      /\ match r_timestamp port with
         | Some ms =>
             exists iso, Legacy.toISOString ms = Ok iso
               /\ Legacy.r_timestamp ret
                  = Some (String.append (String.substring 0 19 iso) "Z")
         | None => Legacy.r_timestamp ret = None
         end
      /\ Legacy.isEmpty ret = isEmpty port
  | Throw msg =>
      exists ms, r_timestamp port = Some ms /\ Legacy.toISOString ms = Throw msg
  | Diverge =>
      exists ms, r_timestamp port = Some ms /\ Legacy.toISOString ms = Diverge
  end.
Proof.
  unfold Legacy.fill_info, fill_info, Legacy.date_string.
  cbn [legacy_data Legacy.d_date_granularity Legacy.d_strings r_version r_timestamp
       r_changeset r_uid r_user r_visible].
  destruct (timestamp info =? 0) eqn:Hts.
  - cbn [mbind outcome_bind]. repeat (split; [reflexivity|]).
    unfold Legacy.isEmpty, isEmpty. cbn. reflexivity.
  - destruct (Legacy.toISOString (num_mul (timestamp info) (d_date_granularity data)))
      as [iso| |] eqn:Hiso;
      cbn [mbind outcome_bind].
    + repeat (split; [reflexivity|]). split; [eauto|].
      unfold Legacy.isEmpty, isEmpty. cbn.
      destruct (version info =? 0); reflexivity.
    + eauto.
    + eauto.
Qed.

Section LegacyDense.
Context `{Legacy.Dates}.
Variables (dense : DenseNodes) (ldata : Legacy.Data) (dinfo : DenseInfo).
Hypothesis info_enabled : truthy (Legacy.d_withInfo ldata) = true.
Hypothesis has_info : dn_denseinfo dense = Some dinfo.

Lemma legacy_dense_loop_length (n : nat) :
  forall (i : nat) (acc : DenseAcc) (nodes : list Legacy.OsmNode),
  Legacy.dense_loop dense ldata n i acc = Ok nodes -> length nodes = n.
Proof.
  induction n as [|n IH]; intros i acc nodes; cbn [Legacy.dense_loop].
  - intros [= <-]. reflexivity.
  - destruct (Legacy.dense_round _ _ _ _) as [[nd acc']| |]; [|discriminate..].
    cbn [mbind outcome_bind].
    destruct (Legacy.dense_loop _ _ _ _ _) as [rest| |] eqn:Hl; [|discriminate..].
    cbn [mbind outcome_bind]. intros [= <-]. simpl. rewrite (IH _ _ _ Hl). reflexivity.
Qed.

Lemma legacy_dense_round_returns (i : nat) (acc acc' : DenseAcc)
    (node : Legacy.OsmNode) :
  Legacy.dense_round dense ldata i acc = Ok (node, acc') ->
  dense_info_parallel dense dinfo
  /\ (exists info, Legacy.n_info node = Some info
        /\ legacy_dense_info ldata dinfo i
             (num_add (a_timestamp acc) (elem (di_timestamp dinfo) i))
             (num_add (a_changeset acc) (elem (di_changeset dinfo) i))
             (num_add (a_uid acc) (elem (di_uid dinfo) i))
             (num_add (a_user_sid acc) (elem (di_user_sid dinfo) i)) info)
  /\ a_timestamp acc' = num_add (a_timestamp acc) (elem (di_timestamp dinfo) i)
  /\ a_changeset acc' = num_add (a_changeset acc) (elem (di_changeset dinfo) i)
  /\ a_uid acc' = num_add (a_uid acc) (elem (di_uid dinfo) i)
  /\ a_user_sid acc' = num_add (a_user_sid acc) (elem (di_user_sid dinfo) i).
Proof.
  unfold Legacy.dense_round.
  destruct (Legacy.dense_tags_block dense ldata acc) as [[j tags]| |]; [|discriminate..].
  cbn [mbind outcome_bind].
  unfold Legacy.dense_info_block. rewrite info_enabled, has_info.
  destruct (assertArrays _) eqn:Ha; [|discriminate..]. cbn [mbind outcome_bind].
  unfold Legacy.date_string.
  destruct (Legacy.toISOString _) as [iso| |] eqn:Hiso; [|discriminate..].
  cbn [mbind outcome_bind]. intros [= <- <-]. cbn.
  split.
  { rewrite assertArrays_cons in Ha.
    destruct (forallb _ _) eqn:Hall; [|discriminate].
    cbn [forallb] in Hall. rewrite !andb_true_iff, !Z.eqb_eq in Hall.
    unfold dense_info_parallel. lia. }
  split; [|repeat split].
  eexists. split; [reflexivity|]. unfold legacy_dense_info. cbn.
  split; [reflexivity|]. split; [eauto|]. repeat split.
Qed.

Lemma legacy_dense_loop_returns (n : nat) :
  forall (i : nat) (acc : DenseAcc) (nodes : list Legacy.OsmNode),
  Legacy.dense_loop dense ldata n i acc = Ok nodes ->
  forall k node, nodes !! k = Some node ->
    dense_info_parallel dense dinfo
    /\ exists info, Legacy.n_info node = Some info
         /\ legacy_dense_info ldata dinfo (i + k)
              (run_num (a_timestamp acc) (di_timestamp dinfo) i k)
              (run_num (a_changeset acc) (di_changeset dinfo) i k)
              (run_num (a_uid acc) (di_uid dinfo) i k)
              (run_num (a_user_sid acc) (di_user_sid dinfo) i k) info.
Proof.
  induction n as [|n IH]; intros i acc nodes; cbn [Legacy.dense_loop].
  - intros [= <-] k node Hk. discriminate.
  - destruct (Legacy.dense_round dense ldata i acc) as [[node acc']| |] eqn:Hr;
      [|discriminate..].
    cbn [mbind outcome_bind].
    destruct (Legacy.dense_loop dense ldata n (S i) acc') as [rest| |] eqn:Hl;
      [|discriminate..].
    cbn [mbind outcome_bind]. intros [= <-].
    destruct (legacy_dense_round_returns _ _ _ _ Hr)
      as (Hpar & Hinfo & Hts & Hcs & Hui & Hus).
    intros [|k] nd Hk; simpl in Hk.
    + injection Hk as <-. split; [exact Hpar|].
      rewrite Nat.add_0_r. exact Hinfo.
    + destruct (IH _ _ _ Hl k nd Hk) as [_ (info & Hi & Hd)].
      split; [exact Hpar|]. exists info. split; [exact Hi|].
      rewrite Hts, Hcs, Hui, Hus in Hd. cbn [run_num].
      replace (i + S k)%nat with (S i + k)%nat by lia. exact Hd.
Qed.

End LegacyDense.

(** X22. The older dense decoder never omits an info: whenever it
    returns with info enabled on a record that carries a dense-info,
    every node has an info, with [version[i]] as version (also when 0),
    the running sum of the changeset deltas as changeset (also when 0),
    the ISO string of the running timestamp times [date_granularity],
    the uid when it is not 0, the user when the string at the running
    user index is not empty, and [visible: false] when [visible[i]] is
    false. The sums and the product are JavaScript numbers: the exact
    sums while the sums of an array stay within 2^53, the exact product
    while it does. *)
Theorem legacy_dense_info_present `{Legacy.Dates} (dense : DenseNodes)
    (ldata : Legacy.Data) (dinfo : DenseInfo)
    (nodes : list Legacy.OsmNode) (i : nat) (node : Legacy.OsmNode) :
  Legacy.parse_dense dense ldata = Ok nodes ->
  truthy (Legacy.d_withInfo ldata) = true ->
  dn_denseinfo dense = Some dinfo ->
  nodes !! i = Some node ->
  (exists info, Legacy.n_info node = Some info
     /\ legacy_dense_info ldata dinfo i
          (running (di_timestamp dinfo) i) (running (di_changeset dinfo) i)
          (running (di_uid dinfo) i) (running (di_user_sid dinfo) i) info)
  /\ (exact_sums (di_timestamp dinfo) ->
      running (di_timestamp dinfo) i = prefix_sum (di_timestamp dinfo) i)
  /\ (exact_sums (di_changeset dinfo) ->
      running (di_changeset dinfo) i = prefix_sum (di_changeset dinfo) i)
  /\ (exact_sums (di_uid dinfo) ->
      running (di_uid dinfo) i = prefix_sum (di_uid dinfo) i)
  /\ (exact_sums (di_user_sid dinfo) ->
      running (di_user_sid dinfo) i = prefix_sum (di_user_sid dinfo) i)
  /\ (Z.abs (running (di_timestamp dinfo) i * Legacy.d_date_granularity ldata) <= 2 ^ 53 ->
      num_mul (running (di_timestamp dinfo) i) (Legacy.d_date_granularity ldata)
      = running (di_timestamp dinfo) i * Legacy.d_date_granularity ldata).
Proof.
  intros Hp Hw Hd Hi. unfold Legacy.parse_dense in Hp.
  destruct (assertArrays _); [|discriminate..]. cbn [mbind outcome_bind] in Hp.
  destruct (legacy_dense_loop_returns dense ldata dinfo Hw Hd _ _ _ _ Hp i node Hi)
    as [(H1 & H2 & H3 & H4 & H5) (info & Hn & Hinfo)].
  pose proof (legacy_dense_loop_length dense ldata _ _ _ _ Hp) as Hlen.
  assert (i < length (dn_id dense))%nat as Hlt.
  { rewrite <- Hlen. apply lookup_lt_is_Some_1. eauto. }
  split.
  { exists info. split; [exact Hn|].
    cbn [dense_start a_timestamp a_changeset a_uid a_user_sid] in Hinfo.
    rewrite !run_num_running in Hinfo by lia. exact Hinfo. }
  split; [intros Hex; apply running_exact; [assumption | lia]|].
  split; [intros Hex; apply running_exact; [assumption | lia]|].
  split; [intros Hex; apply running_exact; [assumption | lia]|].
  split; [intros Hex; apply running_exact; [assumption | lia]|].
  apply num_mul_exact.
Qed.

(** *** Witnesses *)

Lemma legacy_block_agreement_witness :
  @Legacy.parse_block Wire.collaborators ex_dates
    [Wire.byte_of 4; Wire.byte_of 2] ex_legacy_with
  = (fun batch : list Entity => legacy_entity <$> batch)
      <$> @parse Wire.collaborators [Wire.byte_of 4; Wire.byte_of 2] (inl Wire.options)
  /\ forall batch,
       @parse Wire.collaborators [Wire.byte_of 4; Wire.byte_of 2] (inl Wire.options)
       = Ok batch ->
       Forall (fun e => entity_info e = None) batch.
Proof.
  apply (@legacy_block_agreement Wire.collaborators ex_dates
           [Wire.byte_of 4; Wire.byte_of 2] Wire.options ex_legacy_with true).
  - reflexivity.
  - reflexivity.
  - reflexivity.
  - reflexivity.
  - repeat constructor.
Defined.

(** The second node of [ex_dense_info] in the older parser: 60 seconds
    after the first. *)
Lemma legacy_dense_info_present_witness :
  exists nodes node,
    @Legacy.parse_dense ex_dates ex_dense_info
      (legacy_data (ex_data ex_tags_all true) (VBool true) (VBool true)) = Ok nodes
    /\ nodes !! 1%nat = Some node
    /\ exists info, Legacy.n_info node = Some info
         /\ Legacy.r_version info = Some 2
         /\ Legacy.r_changeset info = Some 78
         /\ Legacy.r_timestamp info = Some "2020-09-13T12:27:40Z".
Proof.
  eexists _, _. split; [vm_compute; reflexivity|]. split; [reflexivity|].
  destruct (@legacy_dense_info_present ex_dates ex_dense_info
              (legacy_data (ex_data ex_tags_all true) (VBool true) (VBool true))
              {| di_version := [1; 2]; di_timestamp := [1600000000; 60];
                 di_changeset := [77; 1]; di_uid := [42; 0]; di_user_sid := [5; 0];
                 di_visible := [] |} _ 1 _ eq_refl eq_refl eq_refl eq_refl)
    as ((info & Hn & Hv & (iso & Hiso & Hts) & Hcs & _) & _).
  exists info. split; [exact Hn|]. split; [exact Hv|]. split; [exact Hcs|].
  rewrite Hts. vm_compute in Hiso. injection Hiso as <-. reflexivity.
Defined.

(** ** The framing loop of the older parser

    The older loop differs from the TypeScript one in what a blob gives
    and in its wait test, [this.buffer.length - this.offset < this.needed]
    without the guard on [needed]; with the offset inside the buffer the
    two tests agree ([legacy_waits_view]). The lemmas of the framing
    machine are proved again for it. *)

Section LegacyFramingProps.
Import Legacy.
Context `{Collaborators} `{Dates}.

Lemma legacy_OSMHeader_blob_start (w : With) :
  OSMHeader_blob w Blob_start = Throw (not_implemented Blob_start).
Proof. reflexivity. Qed.

Lemma legacy_OSMData_blob_start (w : With) :
  OSMData_blob w Blob_start = Throw (not_implemented Blob_start).
Proof. reflexivity. Qed.

(** A round that ends a blob has consumed at least one byte. *)
Lemma legacy_vround_blob_consumes (w : With) (st : Status) (nd : Z) (unread : Buffer)
    (r : Status * Z * list Output) :
  st = StOSMHeader \/ st = StOSMData ->
  waits nd unread = false ->
  vround w st nd unread = Ok r ->
  1 <= nd <= Z.of_nat (length unread).
Proof.
  intros Hst Hw Hr. apply take_needed_nonempty; [exact Hw|]. intros Hnil.
  destruct Hst as [-> | ->]; simpl in Hr; rewrite Hnil, Blob_read_nil in Hr.
  - rewrite legacy_OSMHeader_blob_start in Hr. discriminate.
  - rewrite legacy_OSMData_blob_start in Hr. discriminate.
Qed.

Lemma legacy_vround_needed_ok (w : With) (st : Status) (nd : Z) (unread : Buffer)
    (st' : Status) (nd' : Z) (out : list Output) :
  vround w st nd unread = Ok (st', nd', out) -> needed_ok st' nd'.
Proof.
  destruct st; simpl.
  - destruct (readUInt32BE unread 0) as [l| |] eqn:Hl; simpl; [|discriminate..].
    intros [= <- <- <-]. simpl. exact (readUInt32BE_nonneg _ _ _ Hl).
  - destruct (assert _ _); simpl; [|discriminate..].
    intros [= <- <- <-]. destruct (String.eqb _ _); exact I.
  - destruct (OSMHeader_blob _ _); simpl; [|discriminate..].
    intros [= <- <- <-]. reflexivity.
  - destruct (OSMData_blob _ _); simpl; [|discriminate..].
    intros [= <- <- <-]. reflexivity.
Qed.

(** A round reads only the bytes it waited for. *)
Lemma legacy_vround_app (w : With) (st : Status) (nd : Z) (unread chunk : Buffer) :
  needed_ok st nd -> waits nd unread = false ->
  vround w st nd (unread ++ chunk) = vround w st nd unread.
Proof.
  intros Hok Hw.
  assert (nd <= Z.of_nat (length unread) \/ nd = 0) as Hle.
  { unfold waits in Hw. destruct (Z.eqb_spec nd 0); [auto|].
    simpl in Hw. apply Z.ltb_ge in Hw. auto. }
  assert (take (Z.to_nat nd) (unread ++ chunk) = take (Z.to_nat nd) unread) as Ht.
  { destruct Hle as [Hle| ->]; [|reflexivity]. apply take_app_le. lia. }
  destruct st; simpl in *.
  - subst nd. rewrite readUInt32BE_app by lia. reflexivity.
  - rewrite Ht. reflexivity.
  - rewrite Ht. reflexivity.
  - rewrite Ht. reflexivity.
Qed.

Lemma legacy_vround_measure (w : With) (st : Status) (nd : Z) (unread : Buffer)
    (st' : Status) (nd' : Z) (out : list Output) :
  waits nd unread = false ->
  vround w st nd unread = Ok (st', nd', out) ->
  (3 * length (drop (Z.to_nat nd) unread) + rank st' < 3 * length unread + rank st)%nat.
Proof.
  intros Hw Hr. rewrite length_drop.
  destruct st.
  - simpl in Hr. destruct (readUInt32BE unread 0); simpl in Hr; [|discriminate..].
    injection Hr as <- _ _. simpl. lia.
  - simpl in Hr. destruct (assert _ _); simpl in Hr; [|discriminate..].
    injection Hr as <- _ _. destruct (String.eqb _ _); simpl; lia.
  - pose proof (legacy_vround_blob_consumes w _ _ _ _ (or_introl eq_refl) Hw Hr) as Hc.
    simpl in Hr. destruct (OSMHeader_blob _ _); simpl in Hr; [|discriminate..].
    injection Hr as <- _ _. simpl. lia.
  - pose proof (legacy_vround_blob_consumes w _ _ _ _ (or_intror eq_refl) Hw Hr) as Hc.
    simpl in Hr. destruct (OSMData_blob _ _); simpl in Hr; [|discriminate..].
    injection Hr as <- _ _. simpl. lia.
Qed.

End LegacyFramingProps.

Section LegacyLoopProps.
Import Legacy.
Context `{Collaborators} `{Dates}.
Variable w : With.

Lemma legacy_vloop_fuel (f1 : nat) :
  forall (f2 : nat) (st : Status) (nd : Z) (unread : Buffer) (outs : list Output),
  enough f1 st unread -> enough f2 st unread ->
  vloop f1 w st nd unread outs = vloop f2 w st nd unread outs.
Proof.
  induction f1 as [|f1 IH]; intros f2 st nd unread outs H1 H2.
  - unfold enough in H1. lia.
  - destruct f2 as [|f2]; [unfold enough in H2; lia|].
    cbn [vloop]. destruct (waits nd unread) eqn:Hw; [reflexivity|].
    destruct (vround w st nd unread) as [[[st' nd'] out]| |] eqn:Hr; try reflexivity.
    pose proof (legacy_vround_measure w _ _ _ _ _ _ Hw Hr) as Hm.
    apply IH; unfold enough in *; lia.
Qed.

(** The loop bound is never reached. *)
Lemma legacy_vloop_enough (fuel : nat) :
  forall (st : Status) (nd : Z) (unread : Buffer) (outs : list Output),
  enough fuel st unread ->
  (vloop fuel w st nd unread outs).1.1 <> OutOfFuel.
Proof.
  induction fuel as [|fuel IH]; intros st nd unread outs He.
  - unfold enough in He. lia.
  - cbn [vloop]. destruct (waits nd unread) eqn:Hw; [discriminate|].
    destruct (vround w st nd unread) as [[[st' nd'] out]| |] eqn:Hr; try discriminate.
    pose proof (legacy_vround_measure w _ _ _ _ _ _ Hw Hr) as Hm.
    apply IH. unfold enough in *. lia.
Qed.

Lemma legacy_vloop_outs (fuel : nat) :
  forall (st : Status) (nd : Z) (unread : Buffer) (outs : list Output),
  vloop fuel w st nd unread outs =
  ((vloop fuel w st nd unread []).1.1, (vloop fuel w st nd unread []).1.2,
   (outs ++ (vloop fuel w st nd unread []).2)%list).
Proof.
  induction fuel as [|fuel IH]; intros st nd unread outs.
  - simpl. destruct (waits nd unread); simpl; rewrite app_nil_r; reflexivity.
  - cbn [vloop]. destruct (waits nd unread); [simpl; rewrite app_nil_r; reflexivity|].
    destruct (vround w st nd unread) as [[[st' nd'] out]| |];
      try (simpl; rewrite app_nil_r; reflexivity).
    rewrite IH. rewrite (IH _ _ _ ([] ++ out)%list). simpl.
    rewrite app_assoc. reflexivity.
Qed.

(** Feeding more bytes after the loop has stopped gives what the loop
    gives on all the bytes at once. *)
Lemma legacy_vloop_more (chunk : Buffer) (fuel : nat) :
  forall (fuel2 : nat) (st : Status) (nd : Z) (unread : Buffer) (outs : list Output)
         (cpl : Completion) (st' : Status) (nd' : Z) (unread' : Buffer)
         (outs' : list Output),
  needed_ok st nd ->
  enough fuel st unread -> enough fuel2 st (unread ++ chunk) ->
  vloop fuel w st nd unread outs = (cpl, (st', nd', unread'), outs') ->
  (cpl = Next ->
   needed_ok st' nd'
   /\ forall fuel3, enough fuel3 st' (unread' ++ chunk) ->
        vloop fuel2 w st nd (unread ++ chunk) outs
        = vloop fuel3 w st' nd' (unread' ++ chunk) outs')
  /\ (cpl <> Next ->
      exists v, vloop fuel2 w st nd (unread ++ chunk) outs = (cpl, v, outs')).
Proof.
  induction fuel as [|fuel IH];
    intros fuel2 st nd unread outs cpl st' nd' unread' outs' Hok He He2 Hl.
  - unfold enough in He. lia.
  - cbn [vloop] in Hl. destruct (waits nd unread) eqn:Hw.
    + injection Hl as <- <- <- <- <-. split; [|congruence].
      intros _. split; [exact Hok|]. intros fuel3 He3.
      apply legacy_vloop_fuel; assumption.
    + destruct fuel2 as [|fuel2]; [unfold enough in He2; lia|].
      cbn [vloop]. rewrite (waits_app _ _ _ Hw), (legacy_vround_app _ _ _ _ _ Hok Hw).
      destruct (vround w st nd unread) as [[[st1 nd1] out]| |] eqn:Hr.
      * rewrite (drop_needed_app _ _ _ Hw).
        pose proof (legacy_vround_measure w _ _ _ _ _ _ Hw Hr) as Hm.
        assert (vround w st nd (unread ++ chunk) = Ok (st1, nd1, out)) as Hr2.
        { rewrite (legacy_vround_app _ _ _ _ _ Hok Hw). exact Hr. }
        pose proof (legacy_vround_measure w _ _ _ _ _ _ (waits_app _ _ chunk Hw) Hr2) as Hm2.
        rewrite (drop_needed_app _ _ _ Hw) in Hm2.
        apply (IH fuel2 st1 nd1 _ _ cpl st' nd' unread' outs').
        -- exact (legacy_vround_needed_ok _ _ _ _ _ _ _ Hr).
        -- unfold enough in *. lia.
        -- unfold enough in *. lia.
        -- exact Hl.
      * injection Hl as <- <- <- <- <-. split; [discriminate|]. intros _. eauto.
      * injection Hl as <- <- <- <- <-. split; [discriminate|]. intros _. eauto.
Qed.

End LegacyLoopProps.

Section LegacyViewProps.
Import Legacy.
Context `{Collaborators} `{Dates}.

Lemma legacy_window_view (buf : Buffer) (t : OSMTransform) (pbf : Pbf) :
  pos pbf = offset t -> plength pbf = offset t + needed t ->
  window buf pbf = take (Z.to_nat (needed t)) (drop (Z.to_nat (offset t)) buf).
Proof.
  intros Hp Hl. unfold window. rewrite Hp, Hl. do 2 f_equal. lia.
Qed.

Lemma legacy_waits_view (buf : Buffer) (t : OSMTransform) :
  0 <= offset t <= Z.of_nat (length buf) ->
  (Z.of_nat (length buf) - offset t <? needed t)
  = waits (needed t) (drop (Z.to_nat (offset t)) buf).
Proof.
  intros Ho. unfold waits. rewrite length_drop.
  replace (Z.of_nat (length buf - Z.to_nat (offset t)))
    with (Z.of_nat (length buf) - offset t) by lia.
  destruct (Z.eqb_spec (needed t) 0) as [->|_]; [|reflexivity].
  simpl. apply Z.ltb_ge. lia.
Qed.

(** [round] computes [vround] on the unread bytes and keeps the cursor in
    step. *)
Lemma legacy_round_view (buf : Buffer) (t : OSMTransform) (pbf : Pbf) :
  frame_ok buf t pbf ->
  waits (needed t) (drop (Z.to_nat (offset t)) buf) = false ->
  match vround (with_ t) (status t) (needed t) (drop (Z.to_nat (offset t)) buf) with
  | Ok (st', nd', out) =>
      exists pbf',
        round buf t pbf = Ok (set_frame t (offset t + needed t) nd' st', pbf', out)
        /\ frame_ok buf (set_frame t (offset t + needed t) nd' st') pbf'
        /\ drop (Z.to_nat (offset t + needed t)) buf
           = drop (Z.to_nat (needed t)) (drop (Z.to_nat (offset t)) buf)
  | Throw msg => round buf t pbf = Throw msg
  | Diverge => round buf t pbf = Diverge
  end.
Proof.
  intros (Ho & Hok & Hpbf) Hw.
  set (unread := drop (Z.to_nat (offset t)) buf) in *.
  assert (Z.of_nat (length unread) = Z.of_nat (length buf) - offset t) as Hlen.
  { subst unread. rewrite length_drop. lia. }
  destruct (vround (with_ t) (status t) (needed t) unread)
    as [[[st' nd'] out]| |] eqn:Hr.
  - assert (0 <= needed t <= Z.of_nat (length unread)) as Hn.
    { destruct (status t) eqn:Hst; simpl in Hok.
      - rewrite Hok in *. unfold waits in Hw. simpl in Hw. apply Z.ltb_ge in Hw. lia.
      - unfold waits in Hw. destruct (Z.eqb_spec (needed t) 0) as [->|Hnz]; [lia|].
        simpl in Hw. apply Z.ltb_ge in Hw. lia.
      - pose proof (legacy_vround_blob_consumes _ _ _ _ _ (or_introl eq_refl) Hw Hr). lia.
      - pose proof (legacy_vround_blob_consumes _ _ _ _ _ (or_intror eq_refl) Hw Hr). lia. }
    pose proof (legacy_vround_needed_ok _ _ _ _ _ _ _ Hr) as Hok'.
    assert (drop (Z.to_nat (offset t + needed t)) buf
            = drop (Z.to_nat (needed t)) unread) as Hdrop.
    { subst unread. apply drop_offset_needed; lia. }
    unfold round. destruct (status t) eqn:Hst; simpl in Hr, Hok.
    + rewrite readUInt32BE_drop by lia. fold unread.
      destruct (readUInt32BE unread 0) as [l| |]; simpl in Hr; [|discriminate..].
      injection Hr as <- <- <-. eexists. split; [reflexivity|].
      split; [|exact Hdrop].
      split; [simpl; lia|]. split; [exact Hok'|]. simpl. lia.
    + destruct Hpbf as [Hp Hl]. rewrite (legacy_window_view buf t pbf Hp Hl). fold unread.
      destruct (assert _ _); simpl in Hr; [|discriminate..].
      injection Hr as <- <- <-. eexists. split; [reflexivity|].
      split; [|exact Hdrop].
      split; [simpl; lia|]. split; [exact Hok'|].
      destruct (String.eqb _ _); simpl; lia.
    + destruct Hpbf as [Hp Hl]. rewrite (legacy_window_view buf t pbf Hp Hl). fold unread.
      destruct (OSMHeader_blob _ _); simpl in Hr; [|discriminate..].
      injection Hr as <- <- <-. eexists. split; [reflexivity|].
      split; [|exact Hdrop].
      split; [simpl; lia|]. split; [exact Hok'|]. simpl. lia.
    + destruct Hpbf as [Hp Hl]. rewrite (legacy_window_view buf t pbf Hp Hl). fold unread.
      destruct (OSMData_blob _ _); simpl in Hr; [|discriminate..].
      injection Hr as <- <- <-. eexists. split; [reflexivity|].
      split; [|exact Hdrop].
      split; [simpl; lia|]. split; [exact Hok'|]. simpl. lia.
  - unfold round. destruct (status t) eqn:Hst; simpl in Hr, Hok.
    + rewrite readUInt32BE_drop by lia. fold unread.
      destruct (readUInt32BE unread 0); simpl in Hr; [discriminate| |discriminate].
      injection Hr as <-. reflexivity.
    + destruct Hpbf as [Hp Hl]. rewrite (legacy_window_view buf t pbf Hp Hl). fold unread.
      destruct (assert _ _); simpl in Hr; [discriminate| |discriminate].
      injection Hr as <-. reflexivity.
    + destruct Hpbf as [Hp Hl]. rewrite (legacy_window_view buf t pbf Hp Hl). fold unread.
      destruct (OSMHeader_blob _ _); simpl in Hr; [discriminate| |discriminate].
      injection Hr as <-. reflexivity.
    + destruct Hpbf as [Hp Hl]. rewrite (legacy_window_view buf t pbf Hp Hl). fold unread.
      destruct (OSMData_blob _ _); simpl in Hr; [discriminate| |discriminate].
      injection Hr as <-. reflexivity.
  - unfold round. destruct (status t) eqn:Hst; simpl in Hr, Hok.
    + rewrite readUInt32BE_drop by lia. fold unread.
      destruct (readUInt32BE unread 0); simpl in Hr; [discriminate..|]. reflexivity.
    + destruct Hpbf as [Hp Hl]. rewrite (legacy_window_view buf t pbf Hp Hl). fold unread.
      destruct (assert _ _); simpl in Hr; [discriminate..|]. reflexivity.
    + destruct Hpbf as [Hp Hl]. rewrite (legacy_window_view buf t pbf Hp Hl). fold unread.
      destruct (OSMHeader_blob _ _); simpl in Hr; [discriminate..|]. reflexivity.
    + destruct Hpbf as [Hp Hl]. rewrite (legacy_window_view buf t pbf Hp Hl). fold unread.
      destruct (OSMData_blob _ _); simpl in Hr; [discriminate..|]. reflexivity.
Qed.

End LegacyViewProps.

Section LegacySessionProps.
Import Legacy.
Context `{Collaborators} `{Dates}.

(** [loop] is [vloop] on the unread bytes. *)
Lemma legacy_loop_view (buf : Buffer) (fuel : nat) :
  forall (t : OSMTransform) (pbf : Pbf) (outs : list Output),
  frame_ok buf t pbf ->
  let r := loop fuel buf t pbf outs in
  let v := vloop fuel (with_ t) (status t) (needed t)
             (drop (Z.to_nat (offset t)) buf) outs in
  r.1.1 = v.1.1 /\ r.2 = v.2
  /\ (status r.1.2, needed r.1.2, drop (Z.to_nat (offset r.1.2)) buf) = v.1.2
  /\ with_ r.1.2 = with_ t /\ buffer r.1.2 = buffer t
  /\ 0 <= offset r.1.2 <= Z.of_nat (length buf).
Proof.
  induction fuel as [|fuel IH]; intros t pbf outs Hf; cbn zeta.
  - simpl. rewrite (legacy_waits_view buf t) by apply Hf.
    destruct (waits _ _); simpl; repeat split; apply Hf.
  - cbn [loop vloop]. rewrite (legacy_waits_view buf t) by apply Hf.
    destruct (waits _ _) eqn:Hw; [simpl; repeat split; apply Hf|].
    pose proof (legacy_round_view buf t pbf Hf Hw) as Hr.
    destruct (vround _ _ _ _) as [[[st' nd'] out]| |].
    + destruct Hr as (pbf' & -> & Hf' & Hdrop).
      specialize (IH _ pbf' (outs ++ out)%list Hf'). cbn zeta in IH.
      simpl in IH. rewrite Hdrop in IH. exact IH.
    + rewrite Hr. simpl. repeat split; apply Hf.
    + rewrite Hr. simpl. repeat split; apply Hf.
Qed.

(** [_transform] runs [vloop] on the unread bytes followed by the chunk. *)
Lemma legacy_transform_view (chunk : Buffer) (t : OSMTransform) :
  transform_ok t ->
  let r := _transform chunk t in
  let v := vloop (loop_fuel (unread_of t ++ chunk)) (with_ t) (status t) (needed t)
             (unread_of t ++ chunk) [] in
  r.1.1 = v.1.1 /\ r.2 = v.2
  /\ (status r.1.2, needed r.1.2, unread_of r.1.2) = v.1.2
  /\ with_ r.1.2 = with_ t
  /\ exists b, buffer r.1.2 = Some b /\ 0 <= offset r.1.2 <= Z.of_nat (length b).
Proof.
  intros (Hok & Hbuf). cbn zeta.
  set (bytes := (unread_of t ++ chunk)%list).
  assert (exists tn pbf,
            _transform chunk t = loop (loop_fuel bytes) bytes tn pbf []
            /\ frame_ok bytes tn pbf
            /\ with_ tn = with_ t /\ status tn = status t /\ needed tn = needed t
            /\ offset tn = 0 /\ buffer tn = Some bytes)
    as (tn & pbf & -> & Hf & Hw & Hs & Hn & Ho & Hb).
  { subst bytes. unfold _transform, unread_of.
    destruct (buffer t) as [b|] eqn:Hbt.
    - eexists _, _. split; [reflexivity|]. cbn [with_ status needed offset buffer].
      split; [|auto]. split; [simpl; lia|]. split; [exact Hok|].
      simpl. destruct (status t); simpl; auto.
    - eexists _, _. split; [reflexivity|]. cbn [with_ status needed offset buffer].
      split; [|auto]. split; [simpl; lia|]. split; [exact Hok|].
      simpl. destruct (status t); simpl; rewrite ?Hbuf; auto. }
  pose proof (legacy_loop_view bytes (loop_fuel bytes) tn pbf [] Hf) as Hl.
  cbn zeta in Hl. rewrite Hw, Hs, Hn, Ho in Hl. simpl drop in Hl.
  destruct Hl as (H1 & H2 & H3 & H4 & H5 & H6).
  split; [exact H1|]. split; [exact H2|].
  split; [unfold unread_of at 1; rewrite H5, Hb; exact H3|].
  split; [exact H4|]. exists bytes. rewrite H5. split; [exact Hb | exact H6].
Qed.

End LegacySessionProps.

Section LegacyChunkProps.
Import Legacy.
Context `{Collaborators} `{Dates}.
Variable w : With.

Lemma legacy_vloop_needed_ok (fuel : nat) :
  forall (st : Status) (nd : Z) (unread : Buffer) (outs : list Output),
  needed_ok st nd ->
  (vloop fuel w st nd unread outs).1.1 = Next ->
  needed_ok (vloop fuel w st nd unread outs).1.2.1.1
            (vloop fuel w st nd unread outs).1.2.1.2.
Proof.
  induction fuel as [|fuel IH]; intros st nd unread outs Hok.
  - simpl. destruct (waits nd unread); simpl; [auto | discriminate].
  - cbn [vloop]. destruct (waits nd unread); [simpl; auto|].
    destruct (vround w st nd unread) as [[[st' nd'] out]| |] eqn:Hr;
      [|simpl; discriminate..].
    apply IH. exact (legacy_vround_needed_ok _ _ _ _ _ _ _ Hr).
Qed.

Lemma legacy_session_inv_open : session_inv w (open_session (fresh w)) [].
Proof.
  unfold session_inv, session_view. simpl.
  split; [reflexivity|]. split; [reflexivity|]. intros _.
  split; [split; reflexivity|]. split; reflexivity.
Qed.

Lemma legacy_write_inv (s : Session) (bytes chunk : Buffer) :
  session_inv w s bytes ->
  session_inv w (write s chunk) (bytes ++ chunk)
  /\ (failure (write s chunk) = None -> buffer (transform (write s chunk)) <> None).
Proof.
  unfold session_inv, session_view. cbn zeta.
  destruct (vloop (loop_fuel bytes) w StLength 4 bytes [])
    as [[cpl [[st nd] unread]] outs] eqn:Hv.
  cbn [fst snd]. intros (Hp & Hfail & Hlive).
  destruct (legacy_vloop_more w chunk (loop_fuel bytes) (loop_fuel (bytes ++ chunk))
              StLength 4 bytes [] cpl st nd unread outs)
    as [Hnext Hstop]; [reflexivity | apply enough_loop_fuel.. | exact Hv |].
  destruct (decide (cpl = Next)) as [->|Hne].
  - destruct (Hnext eq_refl) as [Hok Hmore]. destruct (Hlive eq_refl) as (Htok & Hw & Hst).
    injection Hst as Hs Hn Hu.
    rewrite (Hmore (loop_fuel (unread ++ chunk))) by apply enough_loop_fuel.
    rewrite legacy_vloop_outs.
    pose proof (legacy_transform_view chunk (transform s) Htok) as Htv. cbn zeta in Htv.
    rewrite Hw, Hs, Hn, Hu in Htv.
    pose proof (legacy_vloop_needed_ok (loop_fuel (unread ++ chunk)) st nd
                  (unread ++ chunk) [] Hok)
      as Hok'.
    unfold write. rewrite Hfail.
    destruct (_transform chunk (transform s)) as [[c t'] outs'].
    cbn [fst snd] in Htv. destruct Htv as (H1 & H2 & H3 & H4 & (b & Hb & Hbounds)).
    cbn [fst snd transform pushed failure].
    destruct (vloop (loop_fuel (unread ++ chunk)) w st nd (unread ++ chunk) [])
      as [[c1 [[st1 nd1] unread1]] outs1].
    cbn [fst snd] in *. subst c1 outs1. injection H3 as <- <- <-.
    split.
    + split; [rewrite Hp; reflexivity|]. split; [destruct c; reflexivity|].
      intros ->. split; [|auto].
      split; [apply Hok'; reflexivity|]. rewrite Hb. exact Hbounds.
    + intros _. rewrite Hb. discriminate.
  - destruct (Hstop Hne) as [v Hv2]. rewrite Hv2. cbn [fst snd].
    assert (failure s = Some cpl) as Hf.
    { rewrite Hfail. destruct cpl; congruence. }
    unfold write. rewrite Hf.
    split; [|rewrite Hf; discriminate].
    split; [exact Hp|]. split; [exact Hfail|]. intros Hc. contradiction.
Qed.

Lemma legacy_feed_inv (chunks : list Buffer) :
  session_inv w (fold_left write chunks (open_session (fresh w))) (concat chunks)
  /\ (chunks <> [] ->
      failure (fold_left write chunks (open_session (fresh w))) = None ->
      buffer (transform (fold_left write chunks (open_session (fresh w)))) <> None).
Proof.
  induction chunks as [|chunk chunks [IH _]] using rev_ind.
  - split; [apply legacy_session_inv_open | congruence].
  - rewrite fold_left_app, concat_app. simpl. rewrite app_nil_r.
    destruct (legacy_write_inv _ _ chunk IH) as [Hinv Hbuf]. split; [exact Hinv|].
    intros _. exact Hbuf.
Qed.

End LegacyChunkProps.

Section LegacyStream.
Import Legacy.
Context `{Collaborators} `{Dates}.

(** A session is where the single run over its bytes is. *)
Lemma legacy_decode_view (w : With) (chunks : list Buffer) :
  pushed (decode_chunks (fresh w) chunks) = (session_view w (concat chunks)).2
  /\ failure (decode_chunks (fresh w) chunks)
     = match (session_view w (concat chunks)).1.1 with
       | Next => None
       | c => Some c
       end.
Proof.
  destruct (legacy_feed_inv w chunks) as [(Hp & Hf & _) _]. split; assumption.
Qed.

Lemma legacy_session_fuel (w : With) (bytes : Buffer) :
  (session_view w bytes).1.1 <> OutOfFuel.
Proof. apply legacy_vloop_enough, enough_loop_fuel. Qed.

Lemma legacy_vround_batchMode (w1 w2 : With) (st : Status) (nd : Z) (unread : Buffer) :
  same_but_batchMode w1 w2 ->
  match vround w1 st nd unread, vround w2 st nd unread with
  | Ok (st1, nd1, out1), Ok (st2, nd2, out2) =>
      st1 = st2 /\ nd1 = nd2 /\ Forall2 same_items out1 out2
  | Throw m1, Throw m2 => m1 = m2
  | Diverge, Diverge => True
  | _, _ => False
  end.
Proof.
  intros [Ht Hi]. destruct st; cbn [vround].
  - destruct (readUInt32BE unread 0); cbn; auto using Forall2_nil.
  - destruct (assert _ _); cbn; auto using Forall2_nil.
  - unfold OSMHeader_blob.
    destruct (blob_bytes _) as [[buf|]| |]; cbn; auto.
    repeat split. constructor; [|constructor].
    unfold same_items. destruct (truthy (batchMode w1)), (truthy (batchMode w2)); reflexivity.
  - unfold OSMData_blob, parse_block, block_data. rewrite Ht, Hi.
    destruct (blob_bytes _) as [[buf|]| |]; cbn; auto.
    destruct (parse_groups _ _); cbn; auto.
    repeat split. constructor; [reflexivity|constructor].
Qed.

Lemma legacy_vloop_batchMode (w1 w2 : With) (fuel : nat) :
  same_but_batchMode w1 w2 ->
  forall (st : Status) (nd : Z) (unread : Buffer) (outs1 outs2 : list Output),
  Forall2 same_items outs1 outs2 ->
  (vloop fuel w1 st nd unread outs1).1 = (vloop fuel w2 st nd unread outs2).1
  /\ Forall2 same_items (vloop fuel w1 st nd unread outs1).2
                        (vloop fuel w2 st nd unread outs2).2.
Proof.
  intros Hw. induction fuel as [|fuel IH]; intros st nd unread outs1 outs2 Ho;
    cbn [vloop].
  - destruct (waits nd unread); split; try reflexivity; exact Ho.
  - destruct (waits nd unread); [split; [reflexivity | exact Ho]|].
    pose proof (legacy_vround_batchMode w1 w2 st nd unread Hw) as Hr.
    destruct (vround w1 st nd unread) as [[[st1 nd1] out1]| |],
             (vround w2 st nd unread) as [[[st2 nd2] out2]| |]; try contradiction.
    + destruct Hr as (-> & -> & Hout). apply IH. apply Forall2_app; assumption.
    + subst. split; [reflexivity | exact Ho].
    + split; [reflexivity | exact Ho].
Qed.

Lemma same_items_concat (outs1 outs2 : list Output) :
  Forall2 same_items outs1 outs2 ->
  concat (items_of <$> outs1) = concat (items_of <$> outs2).
Proof.
  induction 1 as [|o1 o2 outs1 outs2 Ho _ IH]; [reflexivity|].
  rewrite !fmap_cons. simpl. rewrite Ho, IH. reflexivity.
Qed.

End LegacyStream.

Section LegacyFrameProps.
Import Legacy.
Context `{Collaborators} `{Dates}.
Variable w : With.

Lemma legacy_vloop_step (fuel : nat) (st st' : Status) (nd nd' : Z) (unread : Buffer)
    (out outs : list Output) :
  waits nd unread = false ->
  vround w st nd unread = Ok (st', nd', out) ->
  vloop (S fuel) w st nd unread outs
  = vloop fuel w st' nd' (drop (Z.to_nat nd) unread) (outs ++ out).
Proof. intros Hw Hr. cbn [vloop]. rewrite Hw, Hr. reflexivity. Qed.

(** The first round on a frame: the length. *)
Lemma legacy_vloop_length (fuel : nat) (l : Z) (rest : Buffer) (outs0 : list Output) :
  0 <= l < 4294967296 ->
  vloop (S fuel) w StLength 4 (uint32_bytes l ++ rest) outs0
  = vloop fuel w StHeader l rest outs0.
Proof.
  intros Hl.
  rewrite (legacy_vloop_step fuel StLength StHeader 4 l _ [] outs0).
  - rewrite app_nil_r. reflexivity.
  - apply (waits_enough 4 (uint32_bytes l)). reflexivity.
  - cbn [vround]. rewrite readUInt32BE_uint32_bytes by lia. reflexivity.
Qed.

(** The first two rounds on a frame: the length, then the header. *)
Lemma legacy_vloop_header (fuel : nat) (header rest : Buffer) (outs0 : list Output) :
  Z.of_nat (length header) < 4294967296 ->
  bh_type (BlobHeader_read header) = "OSMHeader"
  \/ bh_type (BlobHeader_read header) = "OSMData" ->
  vloop (S (S fuel)) w StLength 4
    (uint32_bytes (Z.of_nat (length header)) ++ header ++ rest) outs0
  = vloop fuel w
      (if String.eqb (bh_type (BlobHeader_read header)) "OSMHeader"
       then StOSMHeader else StOSMData)
      (bh_datasize (BlobHeader_read header)) rest outs0.
Proof.
  intros Hl Ht. rewrite legacy_vloop_length by lia.
  erewrite legacy_vloop_step.
  - rewrite Nat2Z.id, drop_app_length, app_nil_r. reflexivity.
  - apply waits_enough. reflexivity.
  - cbn [vround]. rewrite Nat2Z.id, take_app_length.
    assert (String.eqb (bh_type (BlobHeader_read header)) "OSMHeader"
            || String.eqb (bh_type (BlobHeader_read header)) "OSMData" = true) as Ha.
    { destruct Ht as [-> | ->]; reflexivity. }
    rewrite Ha. reflexivity.
Qed.

(** The third round: the blob. *)
Lemma legacy_vloop_blob (fuel : nat) (type : string) (nd : Z) (blob rest : Buffer)
    (out : Output) (outs0 : list Output) :
  type = "OSMHeader" \/ type = "OSMData" ->
  nd = Z.of_nat (length blob) ->
  blob_output w type blob = Ok out ->
  vloop (S fuel) w (if String.eqb type "OSMHeader" then StOSMHeader else StOSMData)
    nd (blob ++ rest) outs0
  = vloop fuel w StLength 4 rest (outs0 ++ [out]).
Proof.
  intros Ht -> Ho. cbn [vloop]. rewrite (waits_enough _ blob rest eq_refl).
  unfold blob_output in Ho.
  destruct Ht as [-> | ->]; cbn [String.eqb Ascii.eqb Bool.eqb vround] in *;
    rewrite Nat2Z.id, take_app_length, drop_app_length, Ho; reflexivity.
Qed.

(** Complete frames are consumed three rounds each. *)
Lemma legacy_frames_rounds (bytes : Buffer) (outs : list Output) :
  Frames w bytes outs ->
  forall (tail : Buffer) (fuel : nat) (outs0 : list Output),
  vloop (3 * length outs + fuel) w StLength 4 (bytes ++ tail) outs0
  = vloop fuel w StLength 4 tail (outs0 ++ outs).
Proof.
  induction 1 as [|header blob rest out outs Hl Ht Hd Ho HF IH]; intros tail fuel outs0.
  - rewrite app_nil_r. reflexivity.
  - replace (3 * length (out :: outs) + fuel)%nat
      with (S (S (S (3 * length outs + fuel)))) by (simpl; lia).
    rewrite <- !app_assoc. rewrite legacy_vloop_header by assumption.
    rewrite (legacy_vloop_blob _ _ _ _ _ out) by assumption.
    rewrite IH, <- app_assoc. reflexivity.
Qed.

(** The single run over complete frames followed by [tail]. *)
Lemma legacy_frames_then (bytes tail : Buffer) (outs : list Output) :
  Frames w bytes outs ->
  session_view w (bytes ++ tail)
  = vloop (S (S (S (3 * length tail)))) w StLength 4 tail outs.
Proof.
  intros HF. unfold session_view.
  rewrite (legacy_vloop_fuel w _ (3 * length outs + loop_fuel (bytes ++ tail))).
  - rewrite (legacy_frames_rounds _ _ HF). apply legacy_vloop_fuel.
    + unfold enough, loop_fuel. rewrite length_app. simpl. lia.
    + unfold enough. simpl. lia.
  - apply enough_loop_fuel.
  - unfold enough, loop_fuel. simpl. lia.
Qed.

(** The run stops inside a frame that is cut, and waits. *)
Lemma legacy_cut_view (tail : Buffer) (outs : list Output) (fuel : nat) :
  Cut tail ->
  exists v, vloop (S (S fuel)) w StLength 4 tail outs = (Next, v, outs).
Proof.
  intros [bytes Hne Hl | l part Hl Hp | header part Hl Ht Hp].
  - eexists. cbn [vloop]. rewrite waits_short by lia. reflexivity.
  - eexists. rewrite legacy_vloop_length by exact Hl. cbn [vloop].
    rewrite waits_short by exact Hp. reflexivity.
  - eexists.
    replace (uint32_bytes (Z.of_nat (length header)) ++ header ++ part)%list
      with (uint32_bytes (Z.of_nat (length header)) ++ header ++ part ++ [])%list
      by (rewrite app_nil_r; reflexivity).
    rewrite legacy_vloop_header by assumption. rewrite app_nil_r.
    destruct fuel; cbn [vloop]; rewrite waits_short by exact Hp; reflexivity.
Qed.

End LegacyFrameProps.

(** X24. Chunk-boundary independence of the older transform on a
    well-formed input: when the bytes of the input are a sequence of
    complete frames (4-byte big-endian header length, a BlobHeader of
    type OSMHeader or OSMData whose datasize is the length of the blob
    that follows, the blob), each of whose blobs decodes, then however
    the bytes are cut into chunks (none included, when there is no
    frame) the older transform pushes exactly one value per frame, in
    order, namely what the blob of that frame gives, and raises no
    error. *)
Theorem legacy_chunk_independence `{Collaborators} `{Legacy.Dates} (w : Legacy.With)
    (bytes : Buffer) (outs : list Legacy.Output) (chunks : list Buffer) :
  Legacy.Frames w bytes outs -> concat chunks = bytes ->
  Legacy.pushed (Legacy.decode_chunks (Legacy.fresh w) chunks) = outs
  /\ Legacy.failure (Legacy.decode_chunks (Legacy.fresh w) chunks) = None.
Proof.
  intros HF Hc.
  destruct (legacy_decode_view w chunks) as [Hp Hf].
  rewrite Hc in Hp, Hf.
  pose proof (legacy_frames_then w bytes [] outs HF) as Hv. rewrite app_nil_r in Hv.
  rewrite Hv in Hp, Hf. cbn in Hp, Hf. split; assumption.
Qed.

(** X25. The older transform does not report a truncated input: it has
    no [_flush], so when the input is a sequence of complete frames
    followed by a frame that the input ends inside (a partial length, a
    partial header, or a partial blob), then however the bytes are cut
    into chunks the values of the complete frames are pushed, nothing
    is pushed for the cut frame, and no error is raised: the session
    ends as it does on the complete frames alone. *)
Theorem legacy_truncation_unreported `{Collaborators} `{Legacy.Dates} (w : Legacy.With)
    (bytes tail : Buffer) (outs : list Legacy.Output) (chunks : list Buffer) :
  Legacy.Frames w bytes outs -> Cut tail -> concat chunks = (bytes ++ tail)%list ->
  Legacy.pushed (Legacy.decode_chunks (Legacy.fresh w) chunks) = outs
  /\ Legacy.failure (Legacy.decode_chunks (Legacy.fresh w) chunks) = None.
Proof.
  intros HF HC Hc.
  destruct (legacy_decode_view w chunks) as [Hp Hf].
  rewrite Hc in Hp, Hf. rewrite (legacy_frames_then w bytes tail outs HF) in Hp, Hf.
  destruct (legacy_cut_view w tail outs (S (3 * length tail)) HC) as (v & Hv).
  rewrite Hv in Hp, Hf. cbn [fst snd] in Hp, Hf. split; assumption.
Qed.

(** X26. [batchMode] does not show through the older facade: whether the
    file header is pushed alone or in an array, [createOSMStream] of the
    older parser yields the same items, or fails with the same error,
    for every value of the option [batchMode]. *)
Theorem legacy_batchMode_irrelevant `{Collaborators} `{Legacy.Dates}
    (opts : Legacy.OSMOptions) (batchMode : jsval) (chunks : list Buffer) :
  Legacy.createOSMStream
    {| Legacy.o_withTags := Legacy.o_withTags opts;
       Legacy.o_withInfo := Legacy.o_withInfo opts;
       Legacy.o_batchMode := batchMode |} chunks
  = Legacy.createOSMStream opts chunks.
Proof.
  unfold Legacy.createOSMStream, Legacy.OSMTransform_new.
  cbn [Legacy.o_withTags Legacy.o_withInfo Legacy.o_batchMode].
  set (w1 := {| Legacy.withTags := _; Legacy.withInfo := _;
                Legacy.batchMode := nullish batchMode _ |}).
  set (w2 := {| Legacy.withTags := _; Legacy.withInfo := _;
                Legacy.batchMode := nullish (Legacy.o_batchMode opts) _ |}).
  destruct (legacy_decode_view w1 chunks) as [Hp1 Hf1].
  destruct (legacy_decode_view w2 chunks) as [Hp2 Hf2].
  rewrite Hp1, Hp2, Hf1, Hf2. unfold Legacy.session_view.
  destruct (legacy_vloop_batchMode w1 w2 (loop_fuel (concat chunks)))
    with (st := StLength) (nd := 4) (unread := concat chunks)
         (outs1 := @nil Legacy.Output) (outs2 := @nil Legacy.Output) as [Hs Ho].
  { split; reflexivity. }
  { constructor. }
  rewrite (same_items_concat _ _ Ho).
  apply (f_equal fst) in Hs. rewrite Hs. reflexivity.
Qed.

(** The sample stream is two complete frames for the older transform
    too. *)
Lemma ex_legacy_header_frame :
  @Legacy.Frames Wire.collaborators ex_dates ex_legacy_with
    (Wire.frame "OSMHeader" ex_header_blob) (take 1 ex_legacy_stream_outs).
Proof.
  change (Wire.frame "OSMHeader" ex_header_blob)
    with (uint32_bytes (Z.of_nat (length (ex_frame_header "OSMHeader" ex_header_blob)))
          ++ ex_frame_header "OSMHeader" ex_header_blob ++ ex_header_blob ++ [])%list.
  apply Legacy.Frames_cons.
  - vm_compute. reflexivity.
  - left. vm_compute. reflexivity.
  - vm_compute. reflexivity.
  - vm_compute. reflexivity.
  - apply Legacy.Frames_nil.
Qed.

Lemma ex_legacy_stream_frames :
  @Legacy.Frames Wire.collaborators ex_dates ex_legacy_with Wire.stream
    ex_legacy_stream_outs.
Proof.
  change Wire.stream
    with (uint32_bytes (Z.of_nat (length (ex_frame_header "OSMHeader" ex_header_blob)))
          ++ ex_frame_header "OSMHeader" ex_header_blob ++ ex_header_blob
          ++ uint32_bytes (Z.of_nat (length (ex_frame_header "OSMData" ex_data_blob)))
          ++ ex_frame_header "OSMData" ex_data_blob ++ ex_data_blob ++ [])%list.
  apply Legacy.Frames_cons.
  - vm_compute. reflexivity.
  - left. vm_compute. reflexivity.
  - vm_compute. reflexivity.
  - vm_compute. reflexivity.
  - apply Legacy.Frames_cons.
    + vm_compute. reflexivity.
    + right. vm_compute. reflexivity.
    + vm_compute. reflexivity.
    + vm_compute. reflexivity.
    + apply Legacy.Frames_nil.
Qed.

(** The sample stream, cut after its byte 20. *)
Lemma legacy_chunk_independence_witness :
  Legacy.pushed
    (@Legacy.decode_chunks Wire.collaborators ex_dates (Legacy.fresh ex_legacy_with)
       [take 20 Wire.stream; drop 20 Wire.stream])
  = ex_legacy_stream_outs
  /\ Legacy.failure
       (@Legacy.decode_chunks Wire.collaborators ex_dates (Legacy.fresh ex_legacy_with)
          [take 20 Wire.stream; drop 20 Wire.stream]) = None.
Proof.
  apply (@legacy_chunk_independence Wire.collaborators ex_dates ex_legacy_with
           Wire.stream).
  - exact ex_legacy_stream_frames.
  - vm_compute. reflexivity.
Defined.

(** The data frame announces 5 bytes of blob; the input ends after 4. *)
Lemma legacy_truncation_unreported_witness :
  Legacy.pushed
    (@Legacy.decode_chunks Wire.collaborators ex_dates (Legacy.fresh ex_legacy_with)
       [take 20 Wire.stream; drop 20 (take 40 Wire.stream)])
  = take 1 ex_legacy_stream_outs
  /\ Legacy.failure
       (@Legacy.decode_chunks Wire.collaborators ex_dates (Legacy.fresh ex_legacy_with)
          [take 20 Wire.stream; drop 20 (take 40 Wire.stream)]) = None.
Proof.
  apply (@legacy_truncation_unreported Wire.collaborators ex_dates ex_legacy_with
           (Wire.frame "OSMHeader" ex_header_blob)
           (uint32_bytes (Z.of_nat (length (ex_frame_header "OSMData" ex_data_blob)))
            ++ ex_frame_header "OSMData" ex_data_blob ++ take 4 ex_data_blob)).
  - exact ex_legacy_header_frame.
  - apply Cut_blob.
    + vm_compute. reflexivity.
    + right. vm_compute. reflexivity.
    + vm_compute. reflexivity.
  - vm_compute. reflexivity.
Defined.

(** ** The constructor *)

Lemma kind_value_ok_spec (v : jsval) :
  kind_value_ok v = false <-> with_tags_kind (nullish v (VBool true)) = None.
Proof. destruct v; simpl; split; congruence. Qed.

Lemma tag_kinds_node : "node" ∈ tag_kinds.
Proof. apply elem_of_cons. left. reflexivity. Qed.

Lemma tag_kinds_way : "way" ∈ tag_kinds.
Proof. apply elem_of_cons. right. apply elem_of_cons. left. reflexivity. Qed.

Lemma tag_kinds_relation : "relation" ∈ tag_kinds.
Proof. do 2 (apply elem_of_cons; right). apply elem_of_cons. left. reflexivity. Qed.

(** X23. When construction fails: [new OSMTransform(osmopts)] either
    returns a transform in its initial state or throws
    ["wrong withTags option."], and it throws exactly when [withTags] is
    an object one of whose properties node, way, relation is neither
    absent, [null], a boolean nor an array. *)
Theorem constructor_fails_iff (osmopts : OSMOptions) :
  ((exists w, OSMTransform_new osmopts = Ok (fresh w))
   \/ OSMTransform_new osmopts = Throw "wrong withTags option.")
  /\ (OSMTransform_new osmopts = Throw "wrong withTags option." <->
      exists props k, o_withTags osmopts = VObject props
        /\ k ∈ tag_kinds /\ kind_value_ok (assoc k props) = false).
Proof.
  unfold OSMTransform_new.
  destruct (o_withTags osmopts) as [| |b|n|s|xs|props] eqn:Ho;
    try (split; [left; eexists; reflexivity|];
         split; [discriminate | intros (props & k & [=] & _)]).
  cbn [nullish].
  destruct (kind_value_ok (assoc "node" props)) eqn:Hn;
    [destruct (kind_value_ok (assoc "way" props)) eqn:Hw;
     [destruct (kind_value_ok (assoc "relation" props)) eqn:Hr|]|].
  - destruct (with_tags_object_kinds props "node") as (wt & -> & _).
    { exact tag_kinds_node. }
    { intros k Hk.
      destruct (with_tags_kind (nullish (assoc k props) (VBool true))) eqn:E; [eauto|].
      apply kind_value_ok_spec in E.
      repeat (apply elem_of_cons in Hk as [->|Hk]); try congruence.
      apply elem_of_nil in Hk. contradiction. }
    split; [left; eexists; reflexivity|].
    split; [discriminate|]. intros (props' & k & [= <-] & Hk & Hbad).
    unfold tag_kinds in Hk.
    repeat (apply elem_of_cons in Hk as [->|Hk]); try congruence.
    apply elem_of_nil in Hk. contradiction.
  - rewrite (with_tags_object_rejected props "relation" tag_kinds_relation)
      by (apply kind_value_ok_spec; assumption).
    split; [right; reflexivity|]. split; [|reflexivity].
    intros _. exists props, "relation". split; [reflexivity|].
    split; [exact tag_kinds_relation | exact Hr].
  - rewrite (with_tags_object_rejected props "way" tag_kinds_way)
      by (apply kind_value_ok_spec; assumption).
    split; [right; reflexivity|]. split; [|reflexivity].
    intros _. exists props, "way". split; [reflexivity|].
    split; [exact tag_kinds_way | exact Hw].
  - rewrite (with_tags_object_rejected props "node" tag_kinds_node)
      by (apply kind_value_ok_spec; assumption).
    split; [right; reflexivity|]. split; [|reflexivity].
    intros _. exists props, "node". split; [reflexivity|].
    split; [exact tag_kinds_node | exact Hn].
Qed.
